(** * PathWise: a shallow embedding of the client logic and its verified properties

  The development follows the TypeScript sources of the repository:

  - [Js]: the JavaScript string operations the sources call
    ([trim], [startsWith], [substring], [includes], [toLowerCase], ...),
    over sequences of code units;
  - [Json]: a model of the built-in [JSON.parse];
  - [Gemini]: [src/lib/gemini.ts] ([cleanJsonResponse],
    [makeGeminiRequest] and the three generators);
  - [Auth]: [formatAuthError] of [src/contexts/AuthContext.tsx];
  - [Lessons]: the handlers of the lesson view ([fetchLesson],
    [handleMarkComplete], [completeTest]) and of the lessons list
    ([fetchLessons]);
  - [Db]: the tables of the hosted store with the constraints of the
    schema the handlers meet, and the queries the handlers send;
  - [Onboarding]: [handleGoalSubmit] and [handleGenerateRoadmap] of the
    onboarding flow, and [updateProfile] of the authentication context;
  - [Roadmap]: [fetchRoadmapData], [handleDeleteRoadmap] and
    [handleAlterRoadmap] of the roadmap view;
  - [Pages]: [handleSave] of the profile page and [handleDeleteUser] of
    the administration page;
  - [App]: the pages put together as a transition system, with the steps
    of the user and the step of the authentication listener.

  Strings are lists of code units restricted to the range 0..255, so that
  [ascii] can stand for a code unit. *)

From Stdlib Require Import ZArith QArith Qcanon Qround Ascii String List Lia Bool.
From Stdlib Require Import Floats.SpecFloat Sorting.Sorted.
From stdpp Require Import base option list strings pretty gmap.

Set Warnings "-register-all".
Local Open Scope nat_scope.

(* ===================================================================== *)
(** * JavaScript strings *)
(* ===================================================================== *)

Module Js.

(** A string is the sequence of its code units. *)
Definition jstring := list ascii.

Definition lit (s : string) : jstring := list_ascii_of_string s.

(** WhiteSpace and LineTerminator code units below 256: TAB, LF, VT, FF,
    CR, SP and NBSP. *)
Definition is_white_space (c : ascii) : bool :=
  let n := nat_of_ascii c in
  ((9 <=? n) && (n <=? 13)) || (n =? 32) || (n =? 160).

Fixpoint trimStart (s : jstring) : jstring :=
  match s with
  | [] => []
  | c :: s' => if is_white_space c then trimStart s' else s
  end.

Definition trimEnd (s : jstring) : jstring := rev (trimStart (rev s)).

Definition trim (s : jstring) : jstring := trimEnd (trimStart s).

(** [s.startsWith(p)] *)
Fixpoint startsWith (s p : jstring) {struct p} : bool :=
  match p, s with
  | [], _ => true
  | _ :: _, [] => false
  | a :: p', b :: s' => Ascii.eqb a b && startsWith s' p'
  end.

(** [s.endsWith(p)] *)
Definition endsWith (s p : jstring) : bool := startsWith (rev s) (rev p).

(** [s.substring(a, b)]: both indices are clamped to the length and
    swapped when [a > b]. *)
Definition substring (s : jstring) (a b : nat) : jstring :=
  let a' := Nat.min a (length s) in
  let b' := Nat.min b (length s) in
  let from := Nat.min a' b' in
  let to := Nat.max a' b' in
  take (to - from) (drop from s).

(** [s.substring(a)] *)
Definition substringFrom (s : jstring) (a : nat) : jstring :=
  substring s a (length s).

(** [s.includes(p)] *)
Fixpoint includes (s p : jstring) : bool :=
  startsWith s p ||
  match s with
  | [] => false
  | _ :: s' => includes s' p
  end.

Fixpoint indexOf_from (i : nat) (s p : jstring) : Z :=
  if startsWith s p then Z.of_nat i
  else match s with
       | [] => (-1)%Z
       | _ :: s' => indexOf_from (S i) s' p
       end.

(** [s.indexOf(p)], [-1] when [p] does not occur. *)
Definition indexOf (s p : jstring) : Z := indexOf_from 0 s p.

Fixpoint lastIndexOf_from (i : nat) (s p : jstring) : Z :=
  match s with
  | [] => if startsWith s p then Z.of_nat i else (-1)%Z
  | _ :: s' =>
      let r := lastIndexOf_from (S i) s' p in
      if (0 <=? r)%Z then r
      else if startsWith s p then Z.of_nat i else (-1)%Z
  end.

(** [s.lastIndexOf(p)], [-1] when [p] does not occur. *)
Definition lastIndexOf (s p : jstring) : Z := lastIndexOf_from 0 s p.

(** Lower-casing of one code unit below 256: A..Z and the Latin-1 capitals
    U+00C0..U+00DE (the multiplication sign U+00D7 apart) move up by 32. *)
Definition lower_unit (c : ascii) : ascii :=
  let n := nat_of_ascii c in
  if ((65 <=? n) && (n <=? 90)) ||
     ((192 <=? n) && (n <=? 222) && negb (n =? 215))
  then ascii_of_nat (n + 32) else c.

Definition toLowerCase (s : jstring) : jstring := map lower_unit s.

(** Truthiness of a string: only the empty string is falsy. *)
Definition truthy (s : jstring) : bool :=
  match s with [] => false | _ => true end.

(** [a || b] on strings that may be [undefined]. *)
Definition or_else (a : option jstring) (b : jstring) : jstring :=
  match a with
  | Some s => if truthy s then s else b
  | None => b
  end.

Definition eqb (a b : jstring) : bool := bool_decide (a = b).

(** A regular expression of the form [/o[\s\S]*c/] for two characters [o]
    and [c]: the match starts at the leftmost [o] that has a [c] after it
    and, the star being greedy, runs to the last [c] of the string. *)
Fixpoint upto_last (c : ascii) (s : jstring) : option jstring :=
  match s with
  | [] => None
  | a :: s' =>
      match upto_last c s' with
      | Some r => Some (a :: r)
      | None => if Ascii.eqb a c then Some [a] else None
      end
  end.

Record regex_match := { index : nat; matched : jstring }.

Definition shift_match (m : regex_match) : regex_match :=
  {| index := S (index m); matched := matched m |}.

Fixpoint match_delimited (o c : ascii) (s : jstring) : option regex_match :=
  match s with
  | [] => None
  | a :: s' =>
      if Ascii.eqb a o then
        match upto_last c s' with
        | Some r => Some {| index := 0; matched := a :: r |}
        | None => shift_match <$> match_delimited o c s'
        end
      else shift_match <$> match_delimited o c s'
  end.

End Js.

Import Js.

(* ===================================================================== *)
(** * The built-in JSON.parse *)
(* ===================================================================== *)

Module Json.

(** A parsed value is represented by its syntax tree: number and string
    literals keep their source text, object members keep their order.  The
    tree determines the JavaScript value. *)
Inductive json :=
| JNull
| JBool (b : bool)
| JNumber (text : jstring)
| JString (raw : jstring)
| JArray (elements : list json)
| JObject (members : list (jstring * json)).

Definition dquote : ascii := "034"%char.
Definition backslash : ascii := "092"%char.

Definition is_json_ws (c : ascii) : bool :=
  let n := nat_of_ascii c in
  (n =? 32) || (n =? 9) || (n =? 10) || (n =? 13).

Fixpoint skip_ws (s : jstring) : jstring :=
  match s with
  | c :: s' => if is_json_ws c then skip_ws s' else s
  | [] => []
  end.

Definition is_digit (c : ascii) : bool :=
  let n := nat_of_ascii c in (48 <=? n) && (n <=? 57).

Definition is_hex (c : ascii) : bool :=
  let n := nat_of_ascii c in
  is_digit c || ((65 <=? n) && (n <=? 70)) || ((97 <=? n) && (n <=? 102)).

Fixpoint span_digits (s : jstring) : jstring * jstring :=
  match s with
  | c :: s' =>
      if is_digit c then let '(d, r) := span_digits s' in (c :: d, r)
      else ([], s)
  | [] => ([], [])
  end.

(** A number literal: an optional minus sign, an integer part without
    leading zero, an optional fraction and an optional exponent. *)
Definition parse_number (s : jstring) : option (jstring * jstring) :=
  let '(sign, s1) :=
    match s with
    | c :: r => if Ascii.eqb c "-" then ([c], r) else ([], s)
    | [] => ([], s)
    end in
  let '(int, s2) := span_digits s1 in
  match int with
  | [] => None
  | d :: ds =>
      if Ascii.eqb d "0" && negb (bool_decide (ds = [])) then None
      else
        let frac :=
          match s2 with
          | c :: r =>
              if Ascii.eqb c "." then
                let '(f, r') := span_digits r in
                match f with
                | [] => None
                | _ => Some (c :: f, r')
                end
              else Some ([], s2)
          | [] => Some ([], s2)
          end in
        match frac with
        | None => None
        | Some (fr, s3) =>
            let exp :=
              match s3 with
              | c :: r =>
                  if Ascii.eqb c "e" || Ascii.eqb c "E" then
                    let '(sg, r1) :=
                      match r with
                      | c' :: r' =>
                          if Ascii.eqb c' "+" || Ascii.eqb c' "-"
                          then ([c'], r') else ([], r)
                      | [] => ([], r)
                      end in
                    let '(e, r2) := span_digits r1 in
                    match e with
                    | [] => None
                    | _ => Some (c :: sg ++ e, r2)
                    end
                  else Some ([], s3)
              | [] => Some ([], s3)
              end in
            match exp with
            | None => None
            | Some (ex, s4) => Some (sign ++ int ++ fr ++ ex, s4)
            end
        end
  end.

(** The characters of a string literal after its opening quote, up to the
    closing quote. *)
Fixpoint parse_string_body (s : jstring) : option (jstring * jstring) :=
  match s with
  | [] => None
  | c :: r =>
      if Ascii.eqb c dquote then Some ([], r)
      else if nat_of_ascii c <? 32 then None
      else if Ascii.eqb c backslash then
        match r with
        | e :: r1 =>
            if Ascii.eqb e "u" then
              match r1 with
              | h1 :: h2 :: h3 :: h4 :: r2 =>
                  if is_hex h1 && is_hex h2 && is_hex h3 && is_hex h4 then
                    match parse_string_body r2 with
                    | Some (b, r3) =>
                        Some (c :: e :: h1 :: h2 :: h3 :: h4 :: b, r3)
                    | None => None
                    end
                  else None
              | _ => None
              end
            else if Ascii.eqb e dquote || Ascii.eqb e backslash
                    || Ascii.eqb e "/" || Ascii.eqb e "b" || Ascii.eqb e "f"
                    || Ascii.eqb e "n" || Ascii.eqb e "r" || Ascii.eqb e "t"
            then
              match r1 with
              | [] => None
              | _ =>
                  match parse_string_body r1 with
                  | Some (b, r2) => Some (c :: e :: b, r2)
                  | None => None
                  end
              end
            else None
        | [] => None
        end
      else
        match parse_string_body r with
        | Some (b, r') => Some (c :: b, r')
        | None => None
        end
  end.

Definition parse_keyword (kw : jstring) (v : json) (s : jstring)
  : option (json * jstring) :=
  if startsWith s kw then Some (v, drop (length kw) s) else None.

Fixpoint parse_value (fuel : nat) (s : jstring) {struct fuel}
  : option (json * jstring) :=
  match fuel with
  | 0 => None
  | S f =>
      match skip_ws s with
      | [] => None
      | c :: r =>
          if Ascii.eqb c "[" then
            match skip_ws r with
            | c' :: r' =>
                if Ascii.eqb c' "]" then Some (JArray [], r')
                else
                  match parse_elements f r with
                  | Some (vs, r'') => Some (JArray vs, r'')
                  | None => None
                  end
            | [] => None
            end
          else if Ascii.eqb c "{" then
            match skip_ws r with
            | c' :: r' =>
                if Ascii.eqb c' "}" then Some (JObject [], r')
                else
                  match parse_members f r with
                  | Some (ms, r'') => Some (JObject ms, r'')
                  | None => None
                  end
            | [] => None
            end
          else if Ascii.eqb c dquote then
            match parse_string_body r with
            | Some (b, r') => Some (JString b, r')
            | None => None
            end
          else if Ascii.eqb c "t" then parse_keyword (lit "true") (JBool true) (c :: r)
          else if Ascii.eqb c "f" then parse_keyword (lit "false") (JBool false) (c :: r)
          else if Ascii.eqb c "n" then parse_keyword (lit "null") JNull (c :: r)
          else
            match parse_number (c :: r) with
            | Some (t, r') => Some (JNumber t, r')
            | None => None
            end
      end
  end
with parse_elements (fuel : nat) (s : jstring) {struct fuel}
  : option (list json * jstring) :=
  match fuel with
  | 0 => None
  | S f =>
      match parse_value f s with
      | Some (v, r) =>
          match skip_ws r with
          | c :: r' =>
              if Ascii.eqb c "," then
                match parse_elements f r' with
                | Some (vs, r'') => Some (v :: vs, r'')
                | None => None
                end
              else if Ascii.eqb c "]" then Some ([v], r')
              else None
          | [] => None
          end
      | None => None
      end
  end
with parse_members (fuel : nat) (s : jstring) {struct fuel}
  : option (list (jstring * json) * jstring) :=
  match fuel with
  | 0 => None
  | S f =>
      match skip_ws s with
      | q :: r0 =>
          if Ascii.eqb q dquote then
            match parse_string_body r0 with
            | Some (k, r1) =>
                match skip_ws r1 with
                | c :: r2 =>
                    if Ascii.eqb c ":" then
                      match parse_value f r2 with
                      | Some (v, r3) =>
                          match skip_ws r3 with
                          | c' :: r4 =>
                              if Ascii.eqb c' "," then
                                match parse_members f r4 with
                                | Some (ms, r5) => Some ((k, v) :: ms, r5)
                                | None => None
                                end
                              else if Ascii.eqb c' "}" then Some ([(k, v)], r4)
                              else None
                          | [] => None
                          end
                      | None => None
                      end
                    else None
                | [] => None
                end
            | None => None
            end
          else None
      | [] => None
      end
  end.

(** [JSON.parse(text)]; [None] stands for the SyntaxError it throws.  Every
    call of the parser consumes a character, so twice the length of the
    text is fuel enough. *)
Definition JSON_parse (text : jstring) : option json :=
  match parse_value (2 * length text + 2) text with
  | Some (v, r) =>
      match skip_ws r with
      | [] => Some v
      | _ => None
      end
  | None => None
  end.

(** [typeof v === "object"] holds of arrays, objects and [null]. *)
Definition is_array (v : json) : bool :=
  match v with JArray _ => true | _ => false end.

(** The value of a hexadecimal digit. *)
Definition hex_digit (c : ascii) : nat :=
  let n := nat_of_ascii c in
  if is_digit c then n - 48
  else if (97 <=? n) then n - 87
  else n - 55.

(** The code unit a one-letter escape stands for; [None] for a letter that
    is no escape. *)
Definition escaped_unit (e : ascii) : option ascii :=
  if Ascii.eqb e dquote then Some dquote
  else if Ascii.eqb e backslash then Some backslash
  else if Ascii.eqb e "/" then Some "/"%char
  else if Ascii.eqb e "b" then Some "008"%char
  else if Ascii.eqb e "f" then Some "012"%char
  else if Ascii.eqb e "n" then Some "010"%char
  else if Ascii.eqb e "r" then Some "013"%char
  else if Ascii.eqb e "t" then Some "009"%char
  else None.

(** The string a string literal denotes: the escapes are replaced by the
    code units they stand for.  [None] when an escape [\uXXXX] denotes a
    code unit above 255, which the strings of this development do not
    hold. *)
Fixpoint string_value (raw : jstring) : option jstring :=
  match raw with
  | [] => Some []
  | c :: r =>
      if Ascii.eqb c backslash then
        match r with
        | e :: r1 =>
            if Ascii.eqb e "u" then
              match r1 with
              | h1 :: h2 :: h3 :: h4 :: r2 =>
                  let n := 4096 * hex_digit h1 + 256 * hex_digit h2
                           + 16 * hex_digit h3 + hex_digit h4 in
                  if n <? 256
                  then cons (ascii_of_nat n) <$> string_value r2
                  else None
              | _ => None
              end
            else
              match escaped_unit e with
              | Some u => cons u <$> string_value r1
              | None => None
              end
        | [] => None
        end
      else cons c <$> string_value r
  end.

(** The member of an object with the key [p]; of two members with the same
    key the later one counts. *)
Fixpoint lookup_member (p : jstring) (members : list (jstring * json))
  : option json :=
  match members with
  | [] => None
  | (k, v) :: rest =>
      match lookup_member p rest with
      | Some v' => Some v'
      | None => if bool_decide (string_value k = Some p) then Some v else None
      end
  end.

(** [v.p] for a parsed value [v] other than [null] and a name [p] that no
    prototype defines ([topics], [title] and the like): a member of an
    object, and [undefined], here [None], in every other case. *)
Definition property (v : json) (p : jstring) : option json :=
  match v with
  | JObject members => lookup_member p members
  | _ => None
  end.

End Json.

Import Json.

(* ===================================================================== *)
(** * JavaScript numbers *)
(* ===================================================================== *)

(** The handlers do arithmetic on JavaScript numbers.  They are written once,
  over the interface [Arith], and read in two arithmetics: IEEE 754
  binary64, which is what the program runs on, and exact rational
  arithmetic with a NaN. *)
Class Arith (N : Type) := {
of_Z : Z -> N;
nan : N;
add : N -> N -> N;
mul : N -> N -> N;
div : N -> N -> N;
(** [Math.round]: an integer, or [None] for NaN. *)
Math_round : N -> option Z;
(** [0] and NaN are the falsy numbers. *)
falsy : N -> bool
}.

Module Binary64.

Definition prec : Z := 53.
Definition emax : Z := 1024.

Definition from_Z (z : Z) : spec_float := binary_normalize prec emax z 0 false.

(** [Math.round x] is [floor (x + 1/2)], computed exactly from the mantissa
    and exponent of [x]. *)
Definition round (x : spec_float) : option Z :=
  match x with
  | S754_zero _ => Some 0%Z
  | S754_finite s m e =>
      let v := if s then Z.neg m else Z.pos m in
      Some (if (0 <=? e)%Z then v * 2 ^ e
            else (2 * v + 2 ^ (- e)) / 2 ^ (1 - e))%Z
  | S754_infinity _ | S754_nan => None
  end.

Definition is_falsy (x : spec_float) : bool :=
  match x with
  | S754_zero _ | S754_nan => true
  | _ => false
  end.

#[global] Instance arith : Arith spec_float := {|
  of_Z := from_Z;
  nan := S754_nan;
  add := SFadd prec emax;
  mul := SFmul prec emax;
  div := SFdiv prec emax;
  Math_round := round;
  falsy := is_falsy
|}.

End Binary64.

Module Exact.

(** A rational, or [None] for NaN. *)
Definition num := option Qc.

Definition lift2 (f : Qc -> Qc -> Qc) (x y : num) : num :=
  match x, y with
  | Some a, Some b => Some (f a b)
  | _, _ => None
  end.

Definition quot (x y : num) : num :=
  match x, y with
  | Some a, Some b => if decide (b = 0%Qc) then None else Some (a / b)%Qc
  | _, _ => None
  end.

Definition round (x : num) : option Z :=
  match x with
  | Some a => Some (Qfloor (a + Q2Qc (1 # 2))%Qc)
  | None => None
  end.

Definition is_falsy (x : num) : bool :=
  match x with
  | Some a => bool_decide (a = 0%Qc)
  | None => true
  end.

#[global] Instance arith : Arith num := {|
  of_Z := fun z => Some (Q2Qc (inject_Z z));
  nan := None;
  add := lift2 Qcplus;
  mul := lift2 Qcmult;
  div := quot;
  Math_round := round;
  falsy := is_falsy
|}.

End Exact.

(* ===================================================================== *)
(** * Errors, effects and the world the handlers run in *)
(* ===================================================================== *)

Module Eff.

(** A thrown value: an [Error] instance or an error object of the hosted
    store, seen through the properties the sources read. *)
Record js_error := {
  name : jstring;
  message : option jstring;
  code : option jstring
}.

(** [new Error(msg)] *)
Definition Error (msg : jstring) : js_error :=
  {| name := lit "Error"; message := Some msg; code := None |}.

(** The TypeError raised by reading property [prop] of [undefined] or
    [null] (wording of V8). *)
Definition TypeError_reading (prop : string) : js_error :=
  {| name := lit "TypeError";
     message := Some (lit "Cannot read properties of undefined (reading '"
                        ++ lit prop ++ lit "')");
     code := None |}.

(** The same for a property of [null]. *)
Definition TypeError_reading_null (prop : string) : js_error :=
  {| name := lit "TypeError";
     message := Some (lit "Cannot read properties of null (reading '"
                        ++ lit prop ++ lit "')");
     code := None |}.

(** The TypeError raised by calling [callee] when it is not a function. *)
Definition TypeError_not_a_function (callee : string) : js_error :=
  {| name := lit "TypeError";
     message := Some (lit callee ++ lit " is not a function");
     code := None |}.

Inductive outcome (A : Type) :=
| Ok (a : A)
| Throw (e : js_error).
Arguments Ok {A} a.
Arguments Throw {A} e.

(** Sequencing of computations that return or throw and touch no state. *)
Definition and_then {A B} (o : outcome A) (k : A -> outcome B) : outcome B :=
  match o with
  | Ok a => k a
  | Throw e => Throw e
  end.

(** An asynchronous function: it transforms the world and returns or
    throws. *)
Definition M (W A : Type) : Type := W -> outcome A * W.

Definition ret {W A} (a : A) : M W A := fun w => (Ok a, w).

Definition bind {W A B} (m : M W A) (k : A -> M W B) : M W B :=
  fun w =>
    match m w with
    | (Ok a, w') => k a w'
    | (Throw e, w') => (Throw e, w')
    end.

Definition throw {W A} (e : js_error) : M W A := fun w => (Throw e, w).

(** A computation that touches no state, run in the world. *)
Definition settle {W A} (o : outcome A) : M W A := fun w => (o, w).

(** [try { m } catch (error) { handler error }] *)
Definition try_catch {W A} (m : M W A) (handler : js_error -> M W A)
  : M W A :=
  fun w =>
    match m w with
    | (Ok a, w') => (Ok a, w')
    | (Throw e, w') => handler e w'
    end.

(** [try { m } finally { f }] for a [finally] block that does not throw. *)
Definition finally {W A} (m : M W A) (f : W -> W) : M W A :=
  fun w => let '(r, w') := m w in (r, f w').

Definition gets {W A} (f : W -> A) : M W A := fun w => (Ok (f w), w).

Definition modify {W} (f : W -> W) : M W unit := fun w => (Ok tt, f w).

Definition when {W} (b : bool) (m : M W unit) : M W unit :=
  if b then m else ret tt.

End Eff.

Import Eff.

Declare Scope eff_scope.
Delimit Scope eff_scope with eff.
Notation "x <- m ;; k" := (bind m (fun x => k))
(at level 20, m at level 99, k at level 200, only parsing) : eff_scope.
Notation "'do' m ;; k" := (bind m (fun _ => k))
(at level 20, m at level 99, k at level 200, only parsing) : eff_scope.
Local Open Scope eff_scope.

(* ===================================================================== *)
(** * The hosted store: tables, constraints and queries *)
(* ===================================================================== *)

(** The tables are those of the schema migration, with the columns the
  handlers read or write; timestamps are left out.  The store is reliable:
  it answers in time, and a call fails only for a reason the schema or the
  query gives (a unique or not-null constraint, [single()] without exactly
  one row).  The user is taken to be signed in and to act on rows of their
  own, so that the row-level policies let every statement through, and the
  rows a statement refers to by a foreign key are taken to exist; a delete
  cascades along the references declared ON DELETE CASCADE. *)
Module Db.

Definition id := jstring.

Record Row (D : Type) := { row_id : id; row_data : D }.
Arguments row_id {D} r.
Arguments row_data {D} r.

(** The result object of a query. *)
Record result (A : Type) := { data : option A; error : option js_error }.
Arguments data {A} r.
Arguments error {A} r.

Definition success {A} (a : option A) : result A :=
  {| data := a; error := None |}.

Definition failure {A} (e : js_error) : result A :=
  {| data := None; error := Some e |}.

(** [profiles]; the primary key is the identifier of the user, and [email]
    is UNIQUE NOT NULL. *)
Record ProfileData := {
  email : jstring;
  full_name : option jstring;
  avatar_url : option jstring;
  profile_goal : option jstring
}.

(** The columns an update of the profile gives a value for (the argument
    [updates] of [updateProfile]). *)
Record ProfileUpdates := {
  new_full_name : option jstring;
  new_avatar_url : option jstring;
  new_goal : option jstring
}.

(** [roadmaps]; [weeks] and [questions] are jsonb columns. *)
Record RoadmapData := {
  roadmap_user_id : id;
  roadmap_title : jstring;
  goal : jstring;
  weeks : json;
  questions : json;
  answers : list (jstring * jstring)
}.

(** [lessons]; the three text columns are NOT NULL. *)
Record LessonData := {
  roadmap_id : id;
  week_number : Z;
  title : jstring;
  lesson_objective : jstring;
  estimated_time : jstring;
  order_index : Z
}.

(** An object passed to [from("lessons").insert]: the identifier and the two
    numbers are computed by the caller, the other three properties are what
    the caller read in the reply of the endpoint, [None] for [undefined]. *)
Record LessonPayload := {
  payload_roadmap_id : id;
  payload_week_number : Z;
  payload_title : option json;
  payload_lesson_objective : option json;
  payload_estimated_time : option json;
  payload_order_index : Z
}.

Record CompletionData := {
  user_id : id;
  lesson_id : id;
  score : option Z;
  time_spent : Z;
  completion_answers : list (option jstring)
}.

Definition quoted (s : string) : jstring := dquote :: lit s ++ [dquote].

Definition unique_violation (constraint : string) : js_error :=
  {| name := lit "PostgrestError";
     message := Some (lit "duplicate key value violates unique constraint "
                        ++ quoted constraint);
     code := Some (lit "23505") |}.

Definition not_null_violation (column relation : string) : js_error :=
  {| name := lit "PostgrestError";
     message := Some (lit "null value in column " ++ quoted column
                        ++ lit " of relation " ++ quoted relation
                        ++ lit " violates not-null constraint");
     code := Some (lit "23502") |}.

(** [f] applied to the elements in order, up to the first error. *)
Fixpoint collect {A B E} (f : A -> B + E) (l : list A) : list B + E :=
  match l with
  | [] => inl []
  | x :: rest =>
      match f x with
      | inr e => inr e
      | inl y =>
          match collect f rest with
          | inr e => inr e
          | inl ys => inl (y :: ys)
          end
      end
  end.

(** A text the store can hold: the value of a string literal without the
    code unit 0. *)
Definition stored_text (raw : jstring) : option jstring :=
  match string_value raw with
  | Some s => if forallb (fun c => negb (Ascii.eqb c "000")) s
              then Some s else None
  | None => None
  end.

(** A row of [lessons] as the store reads it in the payload, before the
    constraints are checked: [None] is NULL. *)
Record LessonCells := {
  cell_roadmap_id : id;
  cell_week_number : Z;
  cell_title : option jstring;
  cell_lesson_objective : option jstring;
  cell_estimated_time : option jstring;
  cell_order_index : Z
}.

Section Cast.

(** What a text column makes of a value that is neither a string it can hold
    nor [null]: the text it stores for a number, a boolean, an array or an
    object, or the error it refuses the statement with.  This is the
    store's own and a parameter here. *)
Variable cast : json -> jstring + js_error.

(** A property that is [undefined] is left out of the payload and the
    column is NULL, as for [null]. *)
Definition text_cell (v : option json) : option jstring + js_error :=
  match v with
  | None | Some JNull => inl None
  | Some (JString raw) =>
      match stored_text raw with
      | Some s => inl (Some s)
      | None =>
          match cast (JString raw) with
          | inl s => inl (Some s)
          | inr e => inr e
          end
      end
  | Some v =>
      match cast v with
      | inl s => inl (Some s)
      | inr e => inr e
      end
  end.

Definition lesson_cells (p : LessonPayload) : LessonCells + js_error :=
  match text_cell (payload_title p) with
  | inr e => inr e
  | inl t =>
      match text_cell (payload_lesson_objective p) with
      | inr e => inr e
      | inl o =>
          match text_cell (payload_estimated_time p) with
          | inr e => inr e
          | inl e =>
              inl {| cell_roadmap_id := payload_roadmap_id p;
                     cell_week_number := payload_week_number p;
                     cell_title := t;
                     cell_lesson_objective := o;
                     cell_estimated_time := e;
                     cell_order_index := payload_order_index p |}
          end
      end
  end.

End Cast.

(** The NOT NULL constraints of [lessons], in the order of the columns. *)
Definition checked_lesson (c : LessonCells) : LessonData + js_error :=
  match cell_title c with
  | None => inr (not_null_violation "title" "lessons")
  | Some t =>
      match cell_lesson_objective c with
      | None => inr (not_null_violation "lesson_objective" "lessons")
      | Some o =>
          match cell_estimated_time c with
          | None => inr (not_null_violation "estimated_time" "lessons")
          | Some e =>
              inl {| roadmap_id := cell_roadmap_id c;
                     week_number := cell_week_number c;
                     title := t;
                     lesson_objective := o;
                     estimated_time := e;
                     order_index := cell_order_index c |}
          end
      end
  end.

Definition not_single : js_error :=
  {| name := lit "PostgrestError";
     message := Some (lit "JSON object requested, multiple (or no) rows returned");
     code := Some (lit "PGRST116") |}.

(** [.single()] *)
Definition single {A} (rows : list A) : result A :=
  match rows with
  | [r] => success (Some r)
  | _ => failure not_single
  end.

(** [.maybeSingle()] *)
Definition maybeSingle {A} (rows : list A) : result A :=
  match rows with
  | [] => success None
  | [r] => success (Some r)
  | _ => failure not_single
  end.

(** The rows a bulk insert adds: one for each payload, in order, with
    consecutive fresh identifiers. *)
Fixpoint number_rows {D} (n : nat) (rows : list D) : list (Row D) :=
  match rows with
  | [] => []
  | r :: rows' =>
      {| row_id := lit "id-" ++ lit (pretty n); row_data := r |}
        :: number_rows (S n) rows'
  end.

(** [.order("week_number").order("order_index")], ascending: a stable
    insertion sort on the pair of keys. *)
Definition lesson_le (a b : Row LessonData) : bool :=
  let wa := week_number (row_data a) in
  let wb := week_number (row_data b) in
  (wa <? wb)%Z ||
  ((wa =? wb)%Z && (order_index (row_data a) <=? order_index (row_data b))%Z).

Fixpoint insert_sorted (x : Row LessonData) (l : list (Row LessonData))
  : list (Row LessonData) :=
  match l with
  | [] => [x]
  | y :: l' => if lesson_le x y then x :: l else y :: insert_sorted x l'
  end.

Definition ordered (l : list (Row LessonData)) : list (Row LessonData) :=
  foldr insert_sorted [] l.

Section Numeric.
Context {N : Type}.

Record ProgressData := {
  progress_user_id : id;
  progress_roadmap_id : id;
  total_lessons : Z;
  completed_lessons : Z;
  total_time_spent : Z;
  average_accuracy : N;
  current_week : Z
}.

Record database := {
  profiles : list (Row ProfileData);
  roadmaps : list (Row RoadmapData);
  lessons : list (Row LessonData);
  user_progress : list (Row ProgressData);
  lesson_completions : list (Row CompletionData);
  (** the number of identifiers drawn so far *)
  next_id : nat
}.

Definition set_profiles (t : list (Row ProfileData)) (d : database) :=
  {| profiles := t; roadmaps := roadmaps d; lessons := lessons d;
     user_progress := user_progress d;
     lesson_completions := lesson_completions d; next_id := next_id d |}.

Definition set_roadmaps (t : list (Row RoadmapData)) (d : database) :=
  {| profiles := profiles d; roadmaps := t; lessons := lessons d;
     user_progress := user_progress d;
     lesson_completions := lesson_completions d; next_id := next_id d |}.

Definition set_lessons (t : list (Row LessonData)) (d : database) :=
  {| profiles := profiles d; roadmaps := roadmaps d; lessons := t;
     user_progress := user_progress d;
     lesson_completions := lesson_completions d; next_id := next_id d |}.

Definition set_user_progress (t : list (Row ProgressData)) (d : database) :=
  {| profiles := profiles d; roadmaps := roadmaps d; lessons := lessons d;
     user_progress := t;
     lesson_completions := lesson_completions d; next_id := next_id d |}.

Definition set_lesson_completions (t : list (Row CompletionData))
  (d : database) :=
  {| profiles := profiles d; roadmaps := roadmaps d; lessons := lessons d;
     user_progress := user_progress d;
     lesson_completions := t; next_id := next_id d |}.

Definition set_next_id (n : nat) (d : database) :=
  {| profiles := profiles d; roadmaps := roadmaps d; lessons := lessons d;
     user_progress := user_progress d;
     lesson_completions := lesson_completions d; next_id := n |}.

(** [gen_random_uuid()]: the store draws the identifier of a new row. *)
Definition fresh_id (d : database) : id :=
  lit "id-" ++ lit (pretty (next_id d)).

(** [from("lessons").select("*").eq("id", i)] *)
Definition lessons_by_id (d : database) (i : id) : list (Row LessonData) :=
  filter (fun r => row_id r = i) (lessons d).

(** [from("lessons").select("*").eq("roadmap_id", r).order(..).order(..)] *)
Definition lessons_of_roadmap (d : database) (r : id)
  : list (Row LessonData) :=
  ordered (filter (fun l => roadmap_id (row_data l) = r) (lessons d)).

(** [from("lesson_completions").select("*").eq("user_id", u)] *)
Definition completions_of_user (d : database) (u : id)
  : list (Row CompletionData) :=
  filter (fun c => user_id (row_data c) = u) (lesson_completions d).

(** [from("lesson_completions").select(..).eq("user_id", u).eq("lesson_id", l)] *)
Definition completions_of (d : database) (u l : id)
  : list (Row CompletionData) :=
  filter (fun c => user_id (row_data c) = u /\ lesson_id (row_data c) = l)
    (lesson_completions d).

(** [from("user_progress").select("*").eq("user_id", u).eq("roadmap_id", r)] *)
Definition progress_of (d : database) (u r : id)
  : list (Row ProgressData) :=
  filter (fun p => progress_user_id (row_data p) = u
                   /\ progress_roadmap_id (row_data p) = r)
    (user_progress d).

(** [from("roadmaps").select("id").eq("user_id", u)] *)
Definition roadmaps_of_user (d : database) (u : id)
  : list (Row RoadmapData) :=
  filter (fun r => roadmap_user_id (row_data r) = u) (roadmaps d).

(** [from("roadmaps").insert(row).select().single()] *)
Definition insert_roadmap (row : RoadmapData) (d : database)
  : result (Row RoadmapData) * database :=
  let r := {| row_id := fresh_id d; row_data := row |} in
  (success (Some r),
   set_next_id (S (next_id d)) (set_roadmaps (roadmaps d ++ [r]) d)).

(** [from("lessons").insert(rows)]: one statement.  The store first reads
    all the rows in the payload, then inserts them one after the other under
    the constraints; the first error refuses the statement and nothing is
    inserted. *)
Definition insert_lessons (cast : json -> jstring + js_error)
  (rows : list LessonPayload) (d : database) : result unit * database :=
  match collect (lesson_cells cast) rows with
  | inr e => (failure e, d)
  | inl cells =>
      match collect checked_lesson cells with
      | inr e => (failure e, d)
      | inl typed =>
          (success None,
           set_next_id (next_id d + length typed)
             (set_lessons (lessons d ++ number_rows (next_id d) typed) d))
      end
  end.

(** [from("user_progress").insert(row)], under UNIQUE(user_id, roadmap_id). *)
Definition insert_progress (row : ProgressData) (d : database)
  : result unit * database :=
  match progress_of d (progress_user_id row) (progress_roadmap_id row) with
  | [] =>
      (success None,
       set_next_id (S (next_id d))
         (set_user_progress
            (user_progress d ++ [{| row_id := fresh_id d; row_data := row |}])
            d))
  | _ :: _ =>
      (failure (unique_violation "user_progress_user_id_roadmap_id_key"), d)
  end.

(** [from("user_progress").update(f).eq("id", i)]: [f] overwrites the columns
    the update names. *)
Definition update_progress (f : ProgressData -> ProgressData) (i : id)
  (d : database) : result unit * database :=
  (success None,
   set_user_progress
     (map (fun p => if decide (row_id p = i)
                    then {| row_id := row_id p; row_data := f (row_data p) |}
                    else p)
        (user_progress d))
     d).

(** [from("lesson_completions").upsert(row)].  No [onConflict] is given, so
    the conflict target is the primary key [id]; the payload carries no [id],
    the store draws a fresh one, and the statement is an insert under
    UNIQUE(user_id, lesson_id): a second row for the same user and lesson is
    refused and the table is left as it was. *)
Definition upsert_completion (row : CompletionData) (d : database)
  : result unit * database :=
  match completions_of d (user_id row) (lesson_id row) with
  | [] =>
      (success None,
       set_next_id (S (next_id d))
         (set_lesson_completions
            (lesson_completions d
               ++ [{| row_id := fresh_id d; row_data := row |}])
            d))
  | _ :: _ =>
      (failure (unique_violation "lesson_completions_user_id_lesson_id_key"),
       d)
  end.

(** A column of an upsert: the value given, or the one of the row when the
    payload does not name the column. *)
Definition given {A} (new old : option A) : option A :=
  match new with
  | Some _ => new
  | None => old
  end.

(** [from("profiles").upsert(row)] with [id], [email] and the columns of
    [updates] in the payload: the conflict target is the primary key, so an
    existing row is overwritten in the columns given and a missing row is
    inserted.  Under UNIQUE(email) the statement is refused when another row
    holds the e-mail address. *)
Definition upsert_profile (i : id) (mail : jstring) (updates : ProfileUpdates)
  (d : database) : result unit * database :=
  if bool_decide (Exists (fun p => row_id p <> i /\ email (row_data p) = mail)
                    (profiles d))
  then (failure (unique_violation "profiles_email_key"), d)
  else
    (success None,
     set_profiles
       (if bool_decide (Exists (fun p => row_id p = i) (profiles d))
        then map (fun p =>
                    if decide (row_id p = i)
                    then {| row_id := i;
                            row_data :=
                              {| email := mail;
                                 full_name :=
                                   given (new_full_name updates)
                                     (full_name (row_data p));
                                 avatar_url :=
                                   given (new_avatar_url updates)
                                     (avatar_url (row_data p));
                                 profile_goal :=
                                   given (new_goal updates)
                                     (profile_goal (row_data p)) |} |}
                    else p)
               (profiles d)
        else profiles d
               ++ [{| row_id := i;
                      row_data := {| email := mail;
                                     full_name := new_full_name updates;
                                     avatar_url := new_avatar_url updates;
                                     profile_goal := new_goal updates |} |}])
       d).

(** The trigger [on_auth_user_created]: the profile of a new user.  The
    insert runs inside the statement that creates the user, which fails as
    a whole when the identifier or the e-mail address is taken. *)
Definition handle_new_user (i : id) (mail : jstring) (fullName : jstring)
  (d : database) : database :=
  if bool_decide (Exists (fun p => row_id p = i \/ email (row_data p) = mail)
                    (profiles d))
  then d
  else set_profiles
         (profiles d ++ [{| row_id := i;
                            row_data := {| email := mail;
                                           full_name := Some fullName;
                                           avatar_url := None;
                                           profile_goal := None |} |}])
         d.

(** [from("roadmaps").select("*").eq("user_id", u)
    .order("created_at", { ascending: false }).limit(1)]: the table keeps the
    rows in the order of their creation. *)
Definition latest_roadmap (d : database) (u : id) : list (Row RoadmapData) :=
  match last (roadmaps_of_user d u) with
  | Some r => [r]
  | None => []
  end.

(** [from("roadmaps").update({ weeks }).eq("id", r)] *)
Definition update_roadmap_weeks (r : id) (w : json) (d : database)
  : result unit * database :=
  (success None,
   set_roadmaps
     (map (fun x => if decide (row_id x = r)
                    then {| row_id := row_id x;
                            row_data :=
                              {| roadmap_user_id := roadmap_user_id (row_data x);
                                 roadmap_title := roadmap_title (row_data x);
                                 goal := goal (row_data x);
                                 weeks := w;
                                 questions := questions (row_data x);
                                 answers := answers (row_data x) |} |}
                    else x)
        (roadmaps d))
     d).

(** [from("user_progress").update(f).eq("roadmap_id", r)] *)
Definition update_progress_of_roadmap (f : ProgressData -> ProgressData)
  (r : id) (d : database) : result unit * database :=
  (success None,
   set_user_progress
     (map (fun p => if decide (progress_roadmap_id (row_data p) = r)
                    then {| row_id := row_id p; row_data := f (row_data p) |}
                    else p)
        (user_progress d))
     d).

(** The identifiers of the lessons of the roadmaps [rs]. *)
Definition lessons_in (rs : list id) (d : database) : list id :=
  row_id <$> filter (fun l => roadmap_id (row_data l) ∈ rs) (lessons d).

(** [from("lessons").delete().eq("roadmap_id", r)]; the completions of the
    lessons go with them. *)
Definition delete_lessons_of (r : id) (d : database)
  : result unit * database :=
  (success None,
   set_lessons (filter (fun l => roadmap_id (row_data l) <> r) (lessons d))
     (set_lesson_completions
        (filter (fun c => lesson_id (row_data c) ∉ lessons_in [r] d)
           (lesson_completions d))
        d)).

(** [from("roadmaps").delete().eq("id", r)]; the lessons and the progress
    record of the roadmap go with it, and the completions of the lessons
    with the lessons. *)
Definition delete_roadmap (r : id) (d : database) : result unit * database :=
  (success None,
   set_roadmaps (filter (fun x => row_id x <> r) (roadmaps d))
     (set_lessons (filter (fun l => roadmap_id (row_data l) <> r) (lessons d))
        (set_user_progress
           (filter (fun p => progress_roadmap_id (row_data p) <> r)
              (user_progress d))
           (set_lesson_completions
              (filter (fun c => lesson_id (row_data c) ∉ lessons_in [r] d)
                 (lesson_completions d))
              d)))).

(** The removal of the user [u] by the authentication service: the profile
    goes with the user, and with the profile the roadmaps, progress records
    and completions of the user, the lessons of these roadmaps and the
    completions of these lessons. *)
Definition delete_user (u : id) (d : database) : database :=
  let rs := row_id <$> roadmaps_of_user d u in
  set_profiles (filter (fun p => row_id p <> u) (profiles d))
    (set_roadmaps (filter (fun x => roadmap_user_id (row_data x) <> u)
                     (roadmaps d))
       (set_lessons (filter (fun l => roadmap_id (row_data l) ∉ rs) (lessons d))
          (set_user_progress
             (filter (fun p => progress_user_id (row_data p) <> u
                               /\ progress_roadmap_id (row_data p) ∉ rs)
                (user_progress d))
             (set_lesson_completions
                (filter (fun c => user_id (row_data c) <> u
                                  /\ lesson_id (row_data c) ∉ lessons_in rs d)
                   (lesson_completions d))
                d)))).

End Numeric.

Arguments ProgressData N : clear implicits.
Arguments database N : clear implicits.

End Db.

Import Db.

(* ===================================================================== *)
(** * The world: store, browser storage, network and notifications *)
(* ===================================================================== *)

Module World.

(** The body of a response of the generative-language endpoint, as
    [response.json()] decodes it. *)
Record part := { text : jstring }.
Record content_t := { parts : list part }.
Record candidate := { content : option content_t }.
Record response_data := { candidates : option (list candidate) }.

Inductive decoded_body :=
| NotJson (e : js_error)
| Decoded (d : response_data).

Record response := {
  status : Z;
  body_text : jstring;
  body_json : decoded_body
}.

(** [response.ok]: the status is in the range 200..299. *)
Definition ok (r : response) : bool :=
  (200 <=? status r)%Z && (status r <=? 299)%Z.

(** What the promise of [fetch] settles to.  An abort by the timeout of
    the caller is a rejection whose [name] is AbortError. *)
Inductive fetch_result :=
| Rejected (e : js_error)
| Responded (r : response).

Record fetch_request := { prompt : jstring; timeout : Z }.

(** The functions a notification can bind to its action button. *)
Inductive callback :=
| cb_fetchLesson
| cb_handleGenerateRoadmap
| cb_fetchRoadmapData.

(** The third argument of [showError]: an object that has [label] and
    [onClick], or an object that wraps such an object in a property
    [action]. *)
Inductive action_arg :=
| Action (label : jstring) (onClick : callback)
| Wrapped (action : action_arg).

(** The property [onClick] of the object. *)
Definition onClick_of (a : action_arg) : option callback :=
  match a with
  | Action _ cb => Some cb
  | Wrapped _ => None
  end.

Inductive toast_type := toast_success | toast_error | toast_warning.

Record toast := {
  toast_kind : toast_type;
  toast_title : jstring;
  toast_message : jstring;
  toast_action : option action_arg
}.

Section Numeric.
Context {N : Type}.

Record world := {
    db : database N;
    (** [localStorage] *)
    storage : gmap jstring jstring;
    (** what the n-th call of [fetch] settles to *)
    net : nat -> fetch_result;
    (** the calls of [fetch] made so far *)
    fetch_log : list fetch_request;
    toasts : list toast;
    (** [import.meta.env.VITE_GEMINI_API_KEY] *)
    GEMINI_API_KEY : option jstring
  }.

Definition set_db (d : database N) (w : world) : world :=
    {| db := d; storage := storage w; net := net w;
       fetch_log := fetch_log w; toasts := toasts w;
       GEMINI_API_KEY := GEMINI_API_KEY w |}.

Definition set_storage (s : gmap jstring jstring) (w : world) : world :=
    {| db := db w; storage := s; net := net w;
       fetch_log := fetch_log w; toasts := toasts w;
       GEMINI_API_KEY := GEMINI_API_KEY w |}.

Definition log_fetch (r : fetch_request) (w : world) : world :=
    {| db := db w; storage := storage w; net := net w;
       fetch_log := fetch_log w ++ [r]; toasts := toasts w;
       GEMINI_API_KEY := GEMINI_API_KEY w |}.

Definition add_toast (t : toast) (w : world) : world :=
    {| db := db w; storage := storage w; net := net w;
       fetch_log := fetch_log w; toasts := toasts w ++ [t];
       GEMINI_API_KEY := GEMINI_API_KEY w |}.

  (** [await fetch(url, options)] *)
Definition fetch (r : fetch_request) : M world response :=
    fun w =>
      let w' := log_fetch r w in
      match net w (length (fetch_log w)) with
      | Rejected e => (Throw e, w')
      | Responded resp => (Ok resp, w')
      end.

  (** A query of the store. *)
Definition query {A} (q : database N -> A * database N) : M world A :=
    fun w => let '(a, d) := q (db w) in (Ok a, set_db d w).

  (** A query that only reads. *)
Definition read {A} (q : database N -> A) : M world A :=
    fun w => (Ok (q (db w)), w).

  (** A handler of a component runs on the state of the component and the
    world: [lift] runs a function of the world, [set_state] is a call of one
    of the setters of the component. *)
Definition lift {V A} (m : M world A) : M (V * world) A :=
  fun s => let '(r, w) := m (snd s) in (r, (fst s, w)).

Definition set_state {V} (f : V -> V) : M (V * world) unit :=
  modify (fun s => (f (fst s), snd s)).

(** [useToast]: [showSuccess] and [showError]. *)
Definition showSuccess (title msg : jstring) : M world unit :=
    modify (add_toast {| toast_kind := toast_success; toast_title := title;
                         toast_message := msg; toast_action := None |}).

Definition showError (title msg : jstring) (action : option action_arg)
    : M world unit :=
    modify (add_toast {| toast_kind := toast_error; toast_title := title;
                         toast_message := msg; toast_action := action |}).

End Numeric.

Arguments world N : clear implicits.

End World.

Import World.

(* ===================================================================== *)
(** * src/lib/gemini.ts *)
(* ===================================================================== *)

Module Gemini.

Definition fence_json : jstring := lit "```json".
Definition fence : jstring := lit "```".

(** [cleanJsonResponse], statement by statement. *)
Definition cleanJsonResponse (content : jstring) : jstring :=
  let cleaned := trim content in
  let cleaned :=
    if startsWith cleaned fence_json then substringFrom cleaned 7
    else if startsWith cleaned fence then substringFrom cleaned 3
    else cleaned in
  let cleaned :=
    if endsWith cleaned fence then substring cleaned 0 (length cleaned - 3)
    else cleaned in
  let cleaned := trim cleaned in
  let jsonObjectMatch := match_delimited "{" "}" cleaned in
  let jsonArrayMatch := match_delimited "[" "]" cleaned in
  match jsonArrayMatch, jsonObjectMatch with
  | Some a, None => matched a
  | Some a, Some o => if index a <? index o then matched a else matched o
  | None, Some o => matched o
  | None, None =>
      let firstBrace := indexOf cleaned (lit "{") in
      let lastBrace := lastIndexOf cleaned (lit "}") in
      if negb (firstBrace =? -1)%Z && negb (lastBrace =? -1)%Z
         && (firstBrace <? lastBrace)%Z
      then substring cleaned (Z.to_nat firstBrace) (Z.to_nat lastBrace + 1)
      else
        let firstBracket := indexOf cleaned (lit "[") in
        let lastBracket := lastIndexOf cleaned (lit "]") in
        if negb (firstBracket =? -1)%Z && negb (lastBracket =? -1)%Z
           && (firstBracket <? lastBracket)%Z
        then substring cleaned (Z.to_nat firstBracket)
               (Z.to_nat lastBracket + 1)
        else cleaned
  end.

Definition msg_no_key : jstring :=
  lit "Gemini API key is not configured. Please check your environment variables.".
Definition msg_rate_limit : jstring :=
  lit "API rate limit exceeded. Please try again in a few minutes.".
Definition msg_invalid_key : jstring :=
  lit "Invalid API key. Please check your Gemini API configuration.".
Definition msg_unavailable : jstring :=
  lit "AI service is temporarily unavailable. Please try again later.".
Definition msg_invalid_response : jstring :=
  lit "Invalid response from AI service. Please try again.".
Definition msg_invalid_format : jstring :=
  lit "AI returned invalid data format. Please try again.".
Definition msg_parse_failed : jstring :=
  lit "Failed to process AI response. Please try again.".
Definition msg_timeout : jstring :=
  lit "Request timeout - the AI service is taking too long to respond. Please try again.".
Definition msg_network : jstring :=
  lit "Network connection error. Please check your internet connection and try again.".

(** The template literal "AI request failed: (status) - (errorText)". *)
Definition msg_request_failed (status : Z) (errorText : jstring) : jstring :=
  lit "AI request failed: " ++ lit (pretty status) ++ lit " - " ++ errorText.

Section Requests.
Context {N : Type}.
Abbreviation world := (world N).

  (** The body of the [try] block of [makeGeminiRequest]. *)
Definition request_body (prompt : jstring) (timeout : Z) : M world json :=
    key <- gets GEMINI_API_KEY ;;
    if negb (truthy (or_else key [])) then throw (Error msg_no_key)
    else
      response <- fetch {| prompt := prompt; timeout := timeout |} ;;
      if negb (ok response) then
        let errorText := body_text response in
        if (status response =? 429)%Z then throw (Error msg_rate_limit)
        else if (status response =? 401)%Z then throw (Error msg_invalid_key)
        else if (500 <=? status response)%Z then throw (Error msg_unavailable)
        else throw (Error (msg_request_failed (status response) errorText))
      else
        match body_json response with
        | NotJson e => throw e
        | Decoded data =>
            match candidates data with
            | None => throw (Error msg_invalid_response)
            | Some [] => throw (Error msg_invalid_response)
            | Some (c :: _) =>
                match content c with
                | None => throw (Error msg_invalid_response)
                | Some ct =>
                    match parts ct with
                    | [] => throw (TypeError_reading "text")
                    | p :: _ =>
                        let cleanedContent := cleanJsonResponse (text p) in
                        if negb (truthy cleanedContent)
                           || (negb (startsWith cleanedContent (lit "["))
                               && negb (startsWith cleanedContent (lit "{")))
                        then throw (Error msg_invalid_format)
                        else
                          match JSON_parse cleanedContent with
                          | Some v => ret v
                          | None => throw (Error msg_parse_failed)
                          end
                    end
                end
            end
        end.

  (** The [catch] block of [makeGeminiRequest]. *)
Definition request_catch (error : js_error) : M world json :=
    if Js.eqb (name error) (lit "AbortError") then throw (Error msg_timeout)
    else
      match message error with
      | None => throw (TypeError_reading "includes")
      | Some m =>
          if includes m (lit "fetch") then throw (Error msg_network)
          else throw error
      end.

Definition makeGeminiRequest (prompt : jstring) (timeout : Z)
    : M world json :=
    try_catch (request_body prompt timeout) request_catch.

  (** The prompts: the first line and the interpolated values; the fixed
      format instructions that follow in the source are not spelled out. *)
Definition questions_prompt (goal : jstring) : jstring :=
    lit "Generate 5 specific questions to understand the user's learning needs for: "
      ++ goal.

Definition roadmap_prompt (goal : jstring) (answers : list (jstring * jstring))
    : jstring :=
    lit "Create a detailed 8-week learning roadmap for: " ++ goal
      ++ lit " User answers: "
      ++ concat (map (fun qa => fst qa ++ lit ": " ++ snd qa ++ lit " ") answers).

Definition lesson_prompt (title : jstring) : jstring :=
    lit "Create comprehensive lesson content for: Title: " ++ title.

  (** [throw new Error(error.message || fallback)] *)
Definition rethrow {A} (fallback : string) (error : js_error) : M world A :=
    throw (Error (or_else (message error) (lit fallback))).

Definition generateQuestions (goal : jstring) : M world json :=
    try_catch
      (questions <- makeGeminiRequest (questions_prompt goal) 20000 ;;
       if negb (is_array questions)
       then throw (Error (lit "Invalid questions format received from AI"))
       else ret questions)
      (rethrow "Failed to generate questions - please try again").

Definition generateRoadmap (goal : jstring)
    (answers : list (jstring * jstring)) : M world json :=
    try_catch
      (roadmapWeeks <- makeGeminiRequest (roadmap_prompt goal answers) 30000 ;;
       if negb (is_array roadmapWeeks)
       then throw (Error (lit "Invalid roadmap format received from AI"))
       else ret roadmapWeeks)
      (rethrow "Failed to generate roadmap - please try again").

  (** [!lessonContent || typeof lessonContent !== "object"]: arrays, objects
      and [null] have type "object", and [null] is falsy. *)
Definition is_truthy_object (v : json) : bool :=
    match v with
    | JArray _ | JObject _ => true
    | _ => false
    end.

Definition generateLessonContent (lesson : Row LessonData) : M world json :=
    try_catch
      (lessonContent <-
         makeGeminiRequest (lesson_prompt (title (row_data lesson))) 25000 ;;
       if negb (is_truthy_object lessonContent)
       then throw (Error (lit "Invalid lesson content format received from AI"))
       else ret lessonContent)
      (rethrow "Failed to generate lesson content - please try again").

End Requests.

End Gemini.

Import Gemini.

(* ===================================================================== *)
(** * src/contexts/AuthContext.tsx *)
(* ===================================================================== *)

Module Auth.

Definition msg_unexpected : jstring := lit "An unexpected error occurred".
Definition msg_invalid_credentials : jstring :=
  lit "Invalid email or password. Please check your credentials and try again.".
Definition msg_already_exists : jstring :=
  lit "An account with this email already exists. Please sign in instead or use a different email.".
Definition msg_weak_password : jstring :=
  lit "Password is too weak. Please use at least 6 characters with a mix of letters and numbers.".
Definition msg_invalid_email : jstring :=
  lit "Please enter a valid email address.".
Definition msg_email_not_confirmed : jstring :=
  lit "Please check your email and click the confirmation link before signing in.".
Definition msg_too_many_requests : jstring :=
  lit "Too many login attempts. Please wait a few minutes before trying again.".
Definition msg_signup_disabled : jstring :=
  lit "New user registration is currently disabled. Please contact support.".
Definition msg_email_address_invalid : jstring :=
  lit "The email address format is invalid. Please enter a valid email.".
Definition msg_password_too_short : jstring :=
  lit "Password must be at least 6 characters long.".
Definition msg_user_not_found : jstring :=
  lit "No account found with this email address. Please sign up first.".
Definition msg_session_not_found : jstring :=
  lit "Your session has expired. Please sign in again.".
Definition msg_refresh_token_not_found : jstring :=
  lit "Authentication expired. Please sign in again.".
Definition msg_invalid_request : jstring :=
  lit "Invalid request. Please check your information and try again.".
Definition msg_network_error : jstring :=
  lit "Network connection error. Please check your internet connection and try again.".
Definition msg_already_registered : jstring :=
  lit "An account with this email already exists. Please sign in instead.".
Definition msg_weak_password_short : jstring :=
  lit "Password is too weak. Please use at least 6 characters.".
Definition msg_connection_timeout : jstring :=
  lit "Connection timeout. Please check your internet connection and try again.".
Definition msg_too_many_attempts : jstring :=
  lit "Too many attempts. Please wait a few minutes before trying again.".
Definition msg_database : jstring :=
  lit "Database connection error. Please try again in a moment.".
Definition msg_service_unavailable : jstring :=
  lit "Service temporarily unavailable. Please try again in a moment.".
Definition msg_generic : jstring :=
  lit "An unexpected error occurred. Please try again or contact support if the problem persists.".

(** The string literals [formatAuthError] can return. *)
Definition category_messages : list jstring :=
  [ msg_unexpected; msg_invalid_credentials; msg_already_exists;
    msg_weak_password; msg_invalid_email; msg_email_not_confirmed;
    msg_too_many_requests; msg_signup_disabled; msg_email_address_invalid;
    msg_password_too_short; msg_user_not_found; msg_session_not_found;
    msg_refresh_token_not_found; msg_invalid_request; msg_network_error;
    msg_already_registered; msg_weak_password_short; msg_connection_timeout;
    msg_too_many_attempts; msg_database; msg_service_unavailable; msg_generic ].

(** The [default] branch of the [switch]: patterns of the message. *)
Definition match_message (errorMessage : jstring) : jstring :=
  let lower := toLowerCase errorMessage in
  if includes lower (lit "invalid login credentials")
  then msg_invalid_credentials
  else if includes lower (lit "user already registered")
  then msg_already_registered
  else if includes lower (lit "email not confirmed")
  then msg_email_not_confirmed
  else if includes lower (lit "weak password")
  then msg_weak_password_short
  else if includes lower (lit "invalid email")
  then msg_invalid_email
  else if includes lower (lit "timeout") || includes lower (lit "timed out")
  then msg_connection_timeout
  else if includes lower (lit "network")
  then msg_network_error
  else if includes lower (lit "rate limit")
  then msg_too_many_attempts
  else if includes lower (lit "database")
  then msg_database
  else if includes lower (lit "not_found") || includes lower (lit "404")
  then msg_service_unavailable
  else if truthy errorMessage && (length errorMessage <? 100)
          && negb (includes errorMessage (lit "Error:"))
  then errorMessage
  else msg_generic.

(** [formatAuthError]; the argument is [None] for [null] or [undefined]. *)
Definition formatAuthError (error : option js_error) : jstring :=
  match error with
  | None => msg_unexpected
  | Some error =>
      let errorMessage := or_else (message error) [] in
      let errorCode := or_else (code error) [] in
      if Js.eqb errorCode (lit "invalid_credentials")
      then msg_invalid_credentials
      else if Js.eqb errorCode (lit "user_already_exists")
              || Js.eqb errorCode (lit "email_address_already_exists")
      then msg_already_exists
      else if Js.eqb errorCode (lit "weak_password")
      then msg_weak_password
      else if Js.eqb errorCode (lit "invalid_email")
      then msg_invalid_email
      else if Js.eqb errorCode (lit "email_not_confirmed")
      then msg_email_not_confirmed
      else if Js.eqb errorCode (lit "too_many_requests")
      then msg_too_many_requests
      else if Js.eqb errorCode (lit "signup_disabled")
      then msg_signup_disabled
      else if Js.eqb errorCode (lit "email_address_invalid")
      then msg_email_address_invalid
      else if Js.eqb errorCode (lit "password_too_short")
      then msg_password_too_short
      else if Js.eqb errorCode (lit "user_not_found")
      then msg_user_not_found
      else if Js.eqb errorCode (lit "session_not_found")
      then msg_session_not_found
      else if Js.eqb errorCode (lit "refresh_token_not_found")
      then msg_refresh_token_not_found
      else if Js.eqb errorCode (lit "invalid_request")
      then msg_invalid_request
      else if Js.eqb errorCode (lit "network_error")
      then msg_network_error
      else match_message errorMessage
  end.

(** The classification read as two tables.  The labels of the [switch],
    each with the message of its [case]. *)
Definition code_table : list (jstring * jstring) :=
  [ (lit "invalid_credentials", msg_invalid_credentials);
    (lit "user_already_exists", msg_already_exists);
    (lit "email_address_already_exists", msg_already_exists);
    (lit "weak_password", msg_weak_password);
    (lit "invalid_email", msg_invalid_email);
    (lit "email_not_confirmed", msg_email_not_confirmed);
    (lit "too_many_requests", msg_too_many_requests);
    (lit "signup_disabled", msg_signup_disabled);
    (lit "email_address_invalid", msg_email_address_invalid);
    (lit "password_too_short", msg_password_too_short);
    (lit "user_not_found", msg_user_not_found);
    (lit "session_not_found", msg_session_not_found);
    (lit "refresh_token_not_found", msg_refresh_token_not_found);
    (lit "invalid_request", msg_invalid_request);
    (lit "network_error", msg_network_error) ].

(** The patterns of the [default] branch in the order they are tested, each
    with its message; a test with two patterns holds when one of them is
    found. *)
Definition pattern_table : list (list jstring * jstring) :=
  [ ([lit "invalid login credentials"], msg_invalid_credentials);
    ([lit "user already registered"], msg_already_registered);
    ([lit "email not confirmed"], msg_email_not_confirmed);
    ([lit "weak password"], msg_weak_password_short);
    ([lit "invalid email"], msg_invalid_email);
    ([lit "timeout"; lit "timed out"], msg_connection_timeout);
    ([lit "network"], msg_network_error);
    ([lit "rate limit"], msg_too_many_attempts);
    ([lit "database"], msg_database);
    ([lit "not_found"; lit "404"], msg_service_unavailable) ].

(** The message of the first entry of a table whose key passes the test. *)
Fixpoint first_match {K} (test : K -> bool) (table : list (K * jstring))
  : option jstring :=
  match table with
  | [] => None
  | (key, m) :: rest => if test key then Some m else first_match test rest
  end.

(** The message of an error code, when the code is one of the table. *)
Definition code_message (errorCode : jstring) : option jstring :=
  first_match (Js.eqb errorCode) code_table.

(** The message of the first pattern found in the lower-cased message. *)
Definition pattern_message (lower : jstring) : option jstring :=
  first_match (existsb (includes lower)) pattern_table.

(** The messages that are returned as they are when nothing matches. *)
Definition user_friendly (errorMessage : jstring) : bool :=
  truthy errorMessage && (length errorMessage <? 100)
  && negb (includes errorMessage (lit "Error:")).

(** What holds of every string literal [formatAuthError] returns. *)
Definition presentable (m : jstring) : bool :=
  negb (includes m (lit "network")) && (length m <? 100)
  && negb (includes m (lit "Error:")) && truthy m.

End Auth.

Import Auth.

(* ===================================================================== *)
(** * The lesson view and the lessons list *)
(* ===================================================================== *)

Module Lessons.

(** The signed-in user, as [useAuth] gives it. *)
Record User := { uid : id; user_email : option jstring }.

(** An assessment question; the fields the handlers do not read are left
    out. *)
Record Question := { question : jstring; answer : option jstring }.

Record LessonContent := { assessmentQuestions : list Question }.

(** The state of the [LessonView] component. *)
Record lesson_view := {
  lesson : option (Row LessonData);
  lessonContent : option LessonContent;
  loading : bool;
  userAnswers : list (option jstring);
  testCompleted : bool;
  view_score : option Z;
  allLessons : list (Row LessonData);
  isCompleted : bool
}.

Definition setLesson (l : Row LessonData) (v : lesson_view) : lesson_view :=
  {| lesson := Some l; lessonContent := lessonContent v;
     loading := loading v; userAnswers := userAnswers v;
     testCompleted := testCompleted v; view_score := view_score v;
     allLessons := allLessons v; isCompleted := isCompleted v |}.

Definition setLessonContent (c : LessonContent) (v : lesson_view)
  : lesson_view :=
  {| lesson := lesson v; lessonContent := Some c;
     loading := loading v; userAnswers := userAnswers v;
     testCompleted := testCompleted v; view_score := view_score v;
     allLessons := allLessons v; isCompleted := isCompleted v |}.

Definition setLoading (b : bool) (v : lesson_view) : lesson_view :=
  {| lesson := lesson v; lessonContent := lessonContent v;
     loading := b; userAnswers := userAnswers v;
     testCompleted := testCompleted v; view_score := view_score v;
     allLessons := allLessons v; isCompleted := isCompleted v |}.

Definition setTestCompleted (b : bool) (v : lesson_view) : lesson_view :=
  {| lesson := lesson v; lessonContent := lessonContent v;
     loading := loading v; userAnswers := userAnswers v;
     testCompleted := b; view_score := view_score v;
     allLessons := allLessons v; isCompleted := isCompleted v |}.

Definition setScore (n : option Z) (v : lesson_view) : lesson_view :=
  {| lesson := lesson v; lessonContent := lessonContent v;
     loading := loading v; userAnswers := userAnswers v;
     testCompleted := testCompleted v; view_score := n;
     allLessons := allLessons v; isCompleted := isCompleted v |}.

Definition setAllLessons (l : list (Row LessonData)) (v : lesson_view)
  : lesson_view :=
  {| lesson := lesson v; lessonContent := lessonContent v;
     loading := loading v; userAnswers := userAnswers v;
     testCompleted := testCompleted v; view_score := view_score v;
     allLessons := l; isCompleted := isCompleted v |}.

Definition setIsCompleted (b : bool) (v : lesson_view) : lesson_view :=
  {| lesson := lesson v; lessonContent := lessonContent v;
     loading := loading v; userAnswers := userAnswers v;
     testCompleted := testCompleted v; view_score := view_score v;
     allLessons := allLessons v; isCompleted := b |}.

(** The key of a lesson in [localStorage]. *)
Definition storage_key (lessonId : id) : jstring := lit "lesson_" ++ lessonId.

(** [userAnswers[index]?.trim().toLowerCase() || ""], and the same for
    [question.answer]. *)
Definition normalised (a : option jstring) : jstring :=
  or_else ((fun s => toLowerCase (trim s)) <$> a) [].

(** The [forEach] loop of [completeTest]: [index] counts the questions
    visited, [correctAnswers] the matches found. *)
Fixpoint count_correct (questions : list Question)
  (userAnswers : list (option jstring)) (index : nat) (correctAnswers : Z)
  : Z :=
  match questions with
  | [] => correctAnswers
  | question :: rest =>
      let userAnswer := normalised (mjoin (userAnswers !! index)) in
      let correctAnswer := normalised (answer question) in
      count_correct rest userAnswers (S index)
        (if Js.eqb userAnswer correctAnswer
         then (correctAnswers + 1)%Z else correctAnswers)
  end.

(** The text of a score in a template literal. *)
Definition score_text (s : option Z) : jstring :=
  match s with
  | Some z => lit (pretty z)
  | None => lit "NaN"
  end.

Section Handlers.
Context {N : Type} `{Arith N}.

(** The handlers run on the state of the component and the world. *)
Abbreviation state := (lesson_view * world N)%type.

(** [x!.p]: reading a property of [null] throws. *)
Definition non_null {A W} (prop : string) (x : option A) : M W A :=
  match x with
  | Some a => ret a
  | None => throw (TypeError_reading prop)
  end.

(** A number that may be NaN, as a number of the arithmetic. *)
Definition of_score (s : option Z) : N :=
  match s with
  | Some z => of_Z z
  | None => nan
  end.

(** [Math.round((correctAnswers / questions.length) * 100)] *)
Definition finalScore (questions : list Question)
  (userAnswers : list (option jstring)) : option Z :=
  let correctAnswers := count_correct questions userAnswers 0 0 in
  Math_round
    (mul (div (of_Z correctAnswers) (of_Z (Z.of_nat (length questions))))
       (of_Z 100)).

(** The object passed to [update] by both completion handlers. *)
Definition progress_update (s : option Z) (progressData : ProgressData N)
  : ProgressData N :=
  let oldCompletedLessons := completed_lessons progressData in
  let oldAverageAccuracy :=
    if falsy (average_accuracy progressData) then of_Z 0
    else average_accuracy progressData in
  let newCompletedLessons := (oldCompletedLessons + 1)%Z in
  let newAverageAccuracy :=
    div (add (mul oldAverageAccuracy (of_Z oldCompletedLessons)) (of_score s))
      (of_Z newCompletedLessons) in
  {| progress_user_id := progress_user_id progressData;
     progress_roadmap_id := progress_roadmap_id progressData;
     total_lessons := total_lessons progressData;
     completed_lessons := newCompletedLessons;
     total_time_spent := (total_time_spent progressData + 30)%Z;
     average_accuracy := newAverageAccuracy;
     current_week := current_week progressData |}.

(** [checkCompletion]; its [catch] block only logs. *)
Definition checkCompletion (user : option User) (lessonId : id)
  : M state unit :=
  try_catch
    (u <- non_null "id" user ;;
     found <- lift (read (fun d =>
                maybeSingle (completions_of d (uid u) lessonId))) ;;
     match error found with
     | Some e => throw e
     | None =>
         set_state (setIsCompleted
                (match data found with Some _ => true | None => false end))
     end)
    (fun _ => ret tt).

(** [handleMarkComplete].  The result of the upsert is not looked at. *)
Definition handleMarkComplete (user : option User) (lessonId : id)
  (v : lesson_view) : M state unit :=
  try_catch
    (u <- non_null "id" user ;;
     _ <- lift (query (upsert_completion
                         {| user_id := uid u; lesson_id := lessonId;
                            score := Some 100%Z; time_spent := 30;
                            completion_answers := [] |})) ;;
     _ <- set_state (setIsCompleted true) ;;
     _ <- lift (showSuccess (lit "Lesson Completed")
                  (lit "Great job! You can now move to the next lesson.")) ;;
     l <- non_null "roadmap_id" (lesson v) ;;
     progress <- lift (read (fun d =>
                   single (progress_of d (uid u) (roadmap_id (row_data l))))) ;;
     match data progress with
     | Some progressData =>
         _ <- lift (query (update_progress (progress_update (Some 100%Z))
                             (row_id progressData))) ;;
         ret tt
     | None => ret tt
     end)
    (fun _ =>
       lift (showError (lit "Save Failed")
               (lit "Failed to mark lesson as complete. Please try again.")
               None)).

(** [completeTest] *)
Definition completeTest (user : option User) (lessonId : id)
  (v : lesson_view) : M state unit :=
  try_catch
    (content <- non_null "assessmentQuestions" (lessonContent v) ;;
     let questions := assessmentQuestions content in
     let s := finalScore questions (userAnswers v) in
     _ <- set_state (setScore s) ;;
     _ <- set_state (setTestCompleted true) ;;
     u <- non_null "id" user ;;
     _ <- lift (query (upsert_completion
                         {| user_id := uid u; lesson_id := lessonId;
                            score := s; time_spent := 30;
                            completion_answers := userAnswers v |})) ;;
     _ <- set_state (setIsCompleted true) ;;
     l <- non_null "roadmap_id" (lesson v) ;;
     progress <- lift (read (fun d =>
                   single (progress_of d (uid u) (roadmap_id (row_data l))))) ;;
     _ <- match data progress with
          | Some progressData =>
              _ <- lift (query (update_progress (progress_update s)
                                  (row_id progressData))) ;;
              ret tt
          | None => ret tt
          end ;;
     lift (showSuccess (lit "Test Completed")
             (lit "You scored " ++ score_text s ++ lit "%! "
                ++ (if match s with Some z => (70 <=? z)%Z | None => false end
                    then lit "Great job!"
                    else lit "Consider reviewing the material."))))
    (fun _ =>
       lift (showError (lit "Save Failed")
               (lit "Failed to save test results. Please try again.") None)).

(** The built-in [JSON.stringify] and the view of a parsed value as a
    [LessonContent] (the type the component gives to its state) are
    parameters. *)
Section FetchLesson.
Variable JSON_stringify : json -> jstring.
Variable as_LessonContent : json -> LessonContent.

Definition fetchLesson (lessonId : id) : M state unit :=
  finally
    (try_catch
       (found <- lift (read (fun d => single (lessons_by_id d lessonId))) ;;
        _ <- match error found with
             | Some lessonError => throw lessonError
             | None => ret tt
             end ;;
        lessonData <- match data found with
                      | Some l => ret l
                      | None => throw (Error (lit "Lesson not found"))
                      end ;;
        _ <- set_state (setLesson lessonData) ;;
        allLessonsData <-
          lift (read (fun d =>
                  lessons_of_roadmap d (roadmap_id (row_data lessonData)))) ;;
        _ <- set_state (setAllLessons allLessonsData) ;;
        cachedContent <-
          lift (gets (fun w => storage w !! storage_key lessonId)) ;;
        if truthy (or_else cachedContent []) then
          match JSON_parse (or_else cachedContent []) with
          | Some c => set_state (setLessonContent (as_LessonContent c))
          | None =>
              throw {| name := lit "SyntaxError";
                       message := Some (lit "Unexpected token in JSON");
                       code := None |}
          end
        else
          content <- lift (generateLessonContent lessonData) ;;
          _ <- set_state (setLessonContent (as_LessonContent content)) ;;
          lift (modify (fun w =>
                  set_storage (<[storage_key lessonId := JSON_stringify content]>
                                 (storage w)) w)))
       (fun error =>
          lift (showError (lit "Loading Failed")
                  (or_else (message error) (lit "Failed to load lesson"))
                  (Some (Action (lit "Retry") cb_fetchLesson)))))
    (fun s => (setLoading false (fst s), snd s)).

End FetchLesson.

End Handlers.

(** ** The lessons list *)

Record lessons_list := {
  list_lessons : list (Row LessonData);
  list_completions : list (Row CompletionData);
  list_loading : bool;
  list_error : option jstring
}.

(** Which of the two promises passed to [Promise.all] settles first. *)
Inductive settle_order := first_settles_first | second_settles_first.

(** [Promise.all([p1, p2])]: both promises run; the results are placed by
    position, and a rejection of the promise that settles first wins. *)
Definition Promise_all {W A B} (order : settle_order) (p1 : M W A)
  (p2 : M W B) : M W (A * B) :=
  fun w =>
    match order with
    | first_settles_first =>
        let '(r1, w1) := p1 w in
        let '(r2, w2) := p2 w1 in
        (match r1, r2 with
         | Throw e, _ => Throw e
         | Ok _, Throw e => Throw e
         | Ok a, Ok b => Ok (a, b)
         end, w2)
    | second_settles_first =>
        let '(r2, w2) := p2 w in
        let '(r1, w1) := p1 w2 in
        (match r2, r1 with
         | Throw e, _ => Throw e
         | Ok _, Throw e => Throw e
         | Ok b, Ok a => Ok (a, b)
         end, w1)
    end.

Section List.
Context {N : Type}.

Abbreviation list_state := (lessons_list * world N)%type.

Definition setLessons (l : list (Row LessonData)) (v : lessons_list) :=
  {| list_lessons := l; list_completions := list_completions v;
     list_loading := list_loading v; list_error := list_error v |}.

Definition setCompletions (c : list (Row CompletionData)) (v : lessons_list) :=
  {| list_lessons := list_lessons v; list_completions := c;
     list_loading := list_loading v; list_error := list_error v |}.

Definition setListLoading (b : bool) (v : lessons_list) :=
  {| list_lessons := list_lessons v; list_completions := list_completions v;
     list_loading := b; list_error := list_error v |}.

Definition setError (e : option jstring) (v : lessons_list) :=
  {| list_lessons := list_lessons v; list_completions := list_completions v;
     list_loading := list_loading v; list_error := e |}.

(** The two queries dispatched together. *)
Definition lessons_query (roadmapId : id)
  : M list_state (result (list (Row LessonData))) :=
  lift (read (fun d => success (Some (lessons_of_roadmap d roadmapId)))).

Definition completions_query (userId : id)
  : M list_state (result (list (Row CompletionData))) :=
  lift (read (fun d => success (Some (completions_of_user d userId)))).

(** What [fetchLessons] does with the two results. *)
Definition merge_results
  (lessonsResult : result (list (Row LessonData)))
  (completionsResult : result (list (Row CompletionData)))
  : M list_state unit :=
  match error lessonsResult with
  | Some e => throw e
  | None =>
      match error completionsResult with
      | Some e => throw e
      | None =>
          _ <- set_state (setLessons (default [] (data lessonsResult))) ;;
          set_state (setCompletions (default [] (data completionsResult)))
      end
  end.

(** [fetchLessons], up to the point where the two queries are awaited:
    [await_both] is the way the two results are obtained.  [timed_out] tells
    whether the 30 s timer wins the race against the roadmap query. *)
Definition fetchLessons_with
  (await_both : id -> id ->
                M list_state (result (list (Row LessonData))
                              * result (list (Row CompletionData))))
  (timed_out : bool) (user : User) : M list_state unit :=
  finally
    (try_catch
       (_ <- set_state (setError None) ;;
        found <- (if timed_out then throw (Error (lit "Request timeout"))
                  else lift (read (fun d =>
                         maybeSingle (roadmaps_of_user d (uid user))))) ;;
        match error found with
        | Some roadmapError => throw roadmapError
        | None =>
            match data found with
            | None =>
                _ <- set_state (setLessons []) ;;
                _ <- set_state (setCompletions []) ;;
                set_state (setListLoading false)
            | Some roadmapData =>
                both <- await_both (row_id roadmapData) (uid user) ;;
                merge_results (fst both) (snd both)
            end
        end)
       (fun error =>
          set_state (setError
                      (Some (or_else (message error)
                               (lit "Failed to load lessons"))))))
    (fun s => (setListLoading false (fst s), snd s)).

(** [fetchLessons] as the source has it: the two queries go through
    [Promise.all]. *)
Definition fetchLessons (order : settle_order) :=
  fetchLessons_with
    (fun roadmapId userId =>
       Promise_all order (lessons_query roadmapId) (completions_query userId)).

(** The same handler awaiting the two queries one after the other, the
    lessons first or the completions first. *)
Definition fetchLessons_sequential (lessons_first : bool) :=
  fetchLessons_with
    (fun roadmapId userId =>
       if lessons_first then
         lessonsResult <- lessons_query roadmapId ;;
         completionsResult <- completions_query userId ;;
         ret (lessonsResult, completionsResult)
       else
         completionsResult <- completions_query userId ;;
         lessonsResult <- lessons_query roadmapId ;;
         ret (lessonsResult, completionsResult)).

End List.

End Lessons.

Import Lessons.

(* ===================================================================== *)
(** * src/components/Onboarding/OnboardingFlow.tsx *)
(* ===================================================================== *)

Module Onboarding.

(** A roadmap of the form the prompt asks for: weeks, each with its
    topics. *)
Record Topic := {
  topic_title : jstring;
  lessonObjective : jstring;
  estimatedTime : jstring
}.

Record Week := { topics : list Topic }.

(** The state of the [OnboardingFlow] component; [location] is the route
    last passed to [navigate]. *)
Record onboarding := {
  step : Z;
  onboarding_goal : jstring;
  onboarding_questions : json;
  onboarding_answers : list (jstring * jstring);
  onboarding_loading : bool;
  location : option jstring
}.

Definition setStep (n : Z) (v : onboarding) : onboarding :=
  {| step := n; onboarding_goal := onboarding_goal v;
     onboarding_questions := onboarding_questions v;
     onboarding_answers := onboarding_answers v;
     onboarding_loading := onboarding_loading v; location := location v |}.

Definition setQuestions (q : json) (v : onboarding) : onboarding :=
  {| step := step v; onboarding_goal := onboarding_goal v;
     onboarding_questions := q;
     onboarding_answers := onboarding_answers v;
     onboarding_loading := onboarding_loading v; location := location v |}.

Definition setOnboardingLoading (b : bool) (v : onboarding) : onboarding :=
  {| step := step v; onboarding_goal := onboarding_goal v;
     onboarding_questions := onboarding_questions v;
     onboarding_answers := onboarding_answers v;
     onboarding_loading := b; location := location v |}.

Definition navigate (route : jstring) (v : onboarding) : onboarding :=
  {| step := step v; onboarding_goal := onboarding_goal v;
     onboarding_questions := onboarding_questions v;
     onboarding_answers := onboarding_answers v;
     onboarding_loading := onboarding_loading v; location := Some route |}.

(** [x.p] for a parsed value [x]: reading a property of [null] throws. *)
Definition read_property (x : json) (p : string) : outcome (option json) :=
  match x with
  | JNull => Throw (TypeError_reading_null p)
  | _ => Ok (property x (lit p))
  end.

(** [x.m(callback)] for a method [m] of arrays and a value [x] that is
    [undefined] or a parsed value: the elements the callback is called on,
    or the TypeError of the call.  [callee] is the text of [x.m] in the
    source. *)
Definition elements_for (callee m : string) (x : option json)
  : outcome (list json) :=
  match x with
  | None => Throw (TypeError_reading m)
  | Some JNull => Throw (TypeError_reading_null m)
  | Some (JArray elements) => Ok elements
  | Some _ => Throw (TypeError_not_a_function callee)
  end.

(** The callback applied to the elements in order, with their indices from
    [i] on, up to the first that throws. *)
Fixpoint map_from {A B} (f : nat -> A -> outcome B) (i : nat) (l : list A)
  : outcome (list B) :=
  match l with
  | [] => Ok []
  | x :: rest =>
      and_then (f i x) (fun y =>
      and_then (map_from f (S i) rest) (fun ys => Ok (y :: ys)))
  end.

(** The object built for a topic; its properties are evaluated in the order
    of the source. *)
Definition topic_payload (roadmapId : id) (weekIndex topicIndex : nat)
  (topic : json) : outcome LessonPayload :=
  and_then (read_property topic "title") (fun t =>
  and_then (read_property topic "lessonObjective") (fun o =>
  and_then (read_property topic "estimatedTime") (fun e =>
  Ok {| payload_roadmap_id := roadmapId;
        payload_week_number := Z.of_nat weekIndex + 1;
        payload_title := t;
        payload_lesson_objective := o;
        payload_estimated_time := e;
        payload_order_index := Z.of_nat topicIndex |}))).

(** The objects built for the topics of a week by [week.topics.map] or
    [week.topics.forEach]. *)
Definition week_payloads (callee m : string) (roadmapId : id)
  (weekIndex : nat) (week : json) : outcome (list LessonPayload) :=
  and_then (read_property week "topics") (fun topics =>
  and_then (elements_for callee m topics) (fun ts =>
  map_from (topic_payload roadmapId weekIndex) 0 ts)).

(** The rows to insert into [lessons]: the [flatMap] over the weeks in
    [handleGenerateRoadmap], and the nested [forEach] in
    [handleAlterRoadmap]. *)
Definition lesson_payloads (outer_callee outer inner_callee inner : string)
  (roadmapId : id) (roadmapData : json) : outcome (list LessonPayload) :=
  and_then (elements_for outer_callee outer (Some roadmapData)) (fun weeks =>
  and_then (map_from (week_payloads inner_callee inner roadmapId) 0 weeks)
    (fun groups => Ok (concat groups))).

(** The rows a roadmap of the form asked for gives: one for each topic. *)
Definition lessons_of (roadmapId : id) (roadmapData : list Week)
  : list LessonData :=
  concat
    (imap (fun weekIndex week =>
             imap (fun topicIndex topic =>
                     {| roadmap_id := roadmapId;
                        week_number := Z.of_nat weekIndex + 1;
                        title := topic_title topic;
                        lesson_objective := lessonObjective topic;
                        estimated_time := estimatedTime topic;
                        order_index := Z.of_nat topicIndex |})
               (topics week))
       roadmapData).

Section Handlers.
Context {N : Type} `{Arith N}.

Abbreviation flow_state := (onboarding * world N)%type.

(** The row of [user_progress] a new roadmap starts with. *)
Definition initial_progress (userId roadmapId : id) (n : nat)
  : ProgressData N :=
  {| progress_user_id := userId;
     progress_roadmap_id := roadmapId;
     total_lessons := Z.of_nat n;
     completed_lessons := 0;
     total_time_spent := 0;
     average_accuracy := of_Z 0;
     current_week := 1 |}.

(** [updateProfile] of the authentication context: the upsert of the
    profile, then [fetchProfile], which reads the profile into the state of
    the context and, the store answering in time, does nothing else. *)
Definition updateProfile (user : option User) (updates : ProfileUpdates)
  : M (world N) unit :=
  match user with
  | None => throw (Error (lit "No user logged in"))
  | Some u =>
      try_catch
        (r <- query (upsert_profile (uid u) (or_else (user_email u) [])
                       updates) ;;
         match error r with
         | Some e => throw e
         | None => ret tt
         end)
        (fun error =>
           let errorMsg := formatAuthError (Some error) in
           _ <- showError (lit "Update Failed") errorMsg None ;;
           throw (Error errorMsg))
  end.

(** The argument [{ goal }]. *)
Definition goal_update (g : jstring) : ProfileUpdates :=
  {| new_full_name := None; new_avatar_url := None; new_goal := Some g |}.

(** [handleGoalSubmit] *)
Definition handleGoalSubmit (v : onboarding) : M flow_state unit :=
  if negb (truthy (trim (onboarding_goal v))) then ret tt
  else
    _ <- set_state (setOnboardingLoading true) ;;
    finally
      (try_catch
         (generatedQuestions <-
            lift (generateQuestions (onboarding_goal v)) ;;
          _ <- set_state (setQuestions generatedQuestions) ;;
          _ <- set_state (setStep 2) ;;
          lift (showSuccess (lit "Questions Generated")
                       (lit "Your personalized questions are ready!")))
         (fun error =>
            lift (showError (lit "Generation Failed")
                         (or_else (message error)
                            (lit "Failed to generate questions. Please try again."))
                         None)))
      (fun s => (setOnboardingLoading false (fst s), snd s)).

(** The cast of the text columns of the store is a parameter. *)
Section GenerateRoadmap.
Variable cast : json -> jstring + js_error.

(** [handleGenerateRoadmap] *)
Definition handleGenerateRoadmap (user : option User) (v : onboarding)
  : M flow_state unit :=
  match user with
  | None =>
      lift (showError (lit "Authentication Error")
                   (lit "You must be logged in to create a roadmap.") None)
  | Some u =>
      _ <- set_state (setOnboardingLoading true) ;;
      finally
        (try_catch
           (roadmapData <-
              lift (generateRoadmap (onboarding_goal v)
                           (onboarding_answers v)) ;;
            inserted <-
              lift (query (insert_roadmap
                {| roadmap_user_id := uid u;
                   roadmap_title := lit "Learning Roadmap: " ++ onboarding_goal v;
                   goal := onboarding_goal v;
                   weeks := roadmapData;
                   questions := onboarding_questions v;
                   answers := onboarding_answers v |})) ;;
            _ <- match error inserted with
                 | Some roadmapError => throw roadmapError
                 | None => ret tt
                 end ;;
            roadmap <-
              match data inserted with
              | Some r => ret r
              | None =>
                  throw (Error (lit "Failed to retrieve roadmap after creation. Please check table permissions (RLS) and try again."))
              end ;;
            lessons <-
              settle (lesson_payloads "roadmapData.flatMap" "flatMap"
                        "week.topics.map" "map" (row_id roadmap) roadmapData) ;;
            _ <- (if 0 <? length lessons then
                    r <- lift (query (insert_lessons cast lessons)) ;;
                    match error r with
                    | Some lessonsError => throw lessonsError
                    | None => ret tt
                    end
                  else ret tt) ;;
            r <- lift (query (insert_progress
                   (initial_progress (uid u) (row_id roadmap)
                      (length lessons)))) ;;
            _ <- match error r with
                 | Some progressError => throw progressError
                 | None => ret tt
                 end ;;
            _ <- lift (updateProfile user (goal_update (onboarding_goal v))) ;;
            _ <- lift (showSuccess (lit "Roadmap Created")
                              (lit "Your personalized learning roadmap is ready!")) ;;
            set_state (navigate (lit "/dashboard")))
           (fun error =>
              let errorMessage :=
                or_else (message error)
                  (lit "Failed to generate roadmap. Please try again.") in
              if includes errorMessage
                   (lit "AI service is temporarily unavailable")
              then
                lift (showError (lit "Creation Failed") errorMessage
                             (Some (Wrapped (Action (lit "Retry")
                                               cb_handleGenerateRoadmap))))
              else
                lift (showError (lit "Creation Failed") errorMessage None)))
        (fun s => (setOnboardingLoading false (fst s), snd s))
  end.

End GenerateRoadmap.

End Handlers.

End Onboarding.

Import Onboarding.

(* ===================================================================== *)
(** * src/components/Roadmap/RoadmapView.tsx *)
(* ===================================================================== *)

Module Roadmap.

(** The state of the [RoadmapView] component; [roadmap_location] is the
    route last passed to [navigate]. *)
Record roadmap_view := {
  roadmap : option (Row RoadmapData);
  roadmap_lessons : list (Row LessonData);
  roadmap_completions : list (Row CompletionData);
  roadmap_loading : bool;
  showDeleteModal : bool;
  showAlterModal : bool;
  alterRequest : jstring;
  processing : bool;
  roadmap_location : option jstring
}.

Definition setRoadmap (r : option (Row RoadmapData)) (v : roadmap_view) :=
  {| roadmap := r; roadmap_lessons := roadmap_lessons v;
     roadmap_completions := roadmap_completions v;
     roadmap_loading := roadmap_loading v;
     showDeleteModal := showDeleteModal v; showAlterModal := showAlterModal v;
     alterRequest := alterRequest v; processing := processing v;
     roadmap_location := roadmap_location v |}.

Definition setRoadmapLessons (l : list (Row LessonData)) (v : roadmap_view) :=
  {| roadmap := roadmap v; roadmap_lessons := l;
     roadmap_completions := roadmap_completions v;
     roadmap_loading := roadmap_loading v;
     showDeleteModal := showDeleteModal v; showAlterModal := showAlterModal v;
     alterRequest := alterRequest v; processing := processing v;
     roadmap_location := roadmap_location v |}.

Definition setRoadmapCompletions (c : list (Row CompletionData))
  (v : roadmap_view) :=
  {| roadmap := roadmap v; roadmap_lessons := roadmap_lessons v;
     roadmap_completions := c;
     roadmap_loading := roadmap_loading v;
     showDeleteModal := showDeleteModal v; showAlterModal := showAlterModal v;
     alterRequest := alterRequest v; processing := processing v;
     roadmap_location := roadmap_location v |}.

Definition setRoadmapLoading (b : bool) (v : roadmap_view) :=
  {| roadmap := roadmap v; roadmap_lessons := roadmap_lessons v;
     roadmap_completions := roadmap_completions v;
     roadmap_loading := b;
     showDeleteModal := showDeleteModal v; showAlterModal := showAlterModal v;
     alterRequest := alterRequest v; processing := processing v;
     roadmap_location := roadmap_location v |}.

Definition setShowDeleteModal (b : bool) (v : roadmap_view) :=
  {| roadmap := roadmap v; roadmap_lessons := roadmap_lessons v;
     roadmap_completions := roadmap_completions v;
     roadmap_loading := roadmap_loading v;
     showDeleteModal := b; showAlterModal := showAlterModal v;
     alterRequest := alterRequest v; processing := processing v;
     roadmap_location := roadmap_location v |}.

Definition setShowAlterModal (b : bool) (v : roadmap_view) :=
  {| roadmap := roadmap v; roadmap_lessons := roadmap_lessons v;
     roadmap_completions := roadmap_completions v;
     roadmap_loading := roadmap_loading v;
     showDeleteModal := showDeleteModal v; showAlterModal := b;
     alterRequest := alterRequest v; processing := processing v;
     roadmap_location := roadmap_location v |}.

Definition setAlterRequest (s : jstring) (v : roadmap_view) :=
  {| roadmap := roadmap v; roadmap_lessons := roadmap_lessons v;
     roadmap_completions := roadmap_completions v;
     roadmap_loading := roadmap_loading v;
     showDeleteModal := showDeleteModal v; showAlterModal := showAlterModal v;
     alterRequest := s; processing := processing v;
     roadmap_location := roadmap_location v |}.

Definition setProcessing (b : bool) (v : roadmap_view) :=
  {| roadmap := roadmap v; roadmap_lessons := roadmap_lessons v;
     roadmap_completions := roadmap_completions v;
     roadmap_loading := roadmap_loading v;
     showDeleteModal := showDeleteModal v; showAlterModal := showAlterModal v;
     alterRequest := alterRequest v; processing := b;
     roadmap_location := roadmap_location v |}.

Definition roadmap_navigate (route : jstring) (v : roadmap_view) :=
  {| roadmap := roadmap v; roadmap_lessons := roadmap_lessons v;
     roadmap_completions := roadmap_completions v;
     roadmap_loading := roadmap_loading v;
     showDeleteModal := showDeleteModal v; showAlterModal := showAlterModal v;
     alterRequest := alterRequest v; processing := processing v;
     roadmap_location := Some route |}.

Section Handlers.
Context {N : Type} `{Arith N}.

Abbreviation roadmap_state := (roadmap_view * world N)%type.

(** [if (e) throw e] on the result of a statement. *)
Definition throw_error {W A} (r : result A) : M W unit :=
  match error r with
  | Some e => throw e
  | None => ret tt
  end.

(** [fetchRoadmapData] *)
Definition fetchRoadmapData (user : option User) : M roadmap_state unit :=
  finally
    (try_catch
       (u <- non_null "id" user ;;
        found <- lift (read (fun d => success (Some (latest_roadmap d (uid u))))) ;;
        _ <- throw_error found ;;
        match data found with
        | None | Some [] =>
            _ <- set_state (setRoadmap None) ;;
            set_state (setRoadmapLoading false)
        | Some (currentRoadmap :: _) =>
            _ <- set_state (setRoadmap (Some currentRoadmap)) ;;
            lessonsResult <-
              lift (read (fun d =>
                      success (Some (lessons_of_roadmap d
                                       (row_id currentRoadmap))))) ;;
            _ <- throw_error lessonsResult ;;
            _ <- set_state (setRoadmapLessons
                              (default [] (data lessonsResult))) ;;
            completionsResult <-
              lift (read (fun d =>
                      success (Some (completions_of_user d (uid u))))) ;;
            _ <- throw_error completionsResult ;;
            set_state (setRoadmapCompletions
                         (default [] (data completionsResult)))
        end)
       (fun error =>
          lift (showError (lit "Loading Failed")
                  (or_else (message error) (lit "Failed to load roadmap data"))
                  (Some (Action (lit "Retry") cb_fetchRoadmapData)))))
    (fun s => (setRoadmapLoading false (fst s), snd s)).

(** [handleDeleteRoadmap] *)
Definition handleDeleteRoadmap (v : roadmap_view) : M roadmap_state unit :=
  match roadmap v with
  | None => ret tt
  | Some current =>
      _ <- set_state (setProcessing true) ;;
      finally
        (try_catch
           (r <- lift (query (delete_roadmap (row_id current))) ;;
            _ <- throw_error r ;;
            _ <- lift (showSuccess (lit "Roadmap Deleted")
                         (lit "Your roadmap has been deleted successfully.")) ;;
            set_state (roadmap_navigate (lit "/onboarding")))
           (fun _ =>
              lift (showError (lit "Delete Failed")
                      (lit "Failed to delete roadmap. Please try again.")
                      None)))
        (fun s => (setShowDeleteModal false (setProcessing false (fst s)),
                   snd s))
  end.

(** The object passed to [update] when the roadmap is altered. *)
Definition reset_progress (n : nat) (p : ProgressData N) : ProgressData N :=
  {| progress_user_id := progress_user_id p;
     progress_roadmap_id := progress_roadmap_id p;
     total_lessons := Z.of_nat n;
     completed_lessons := 0;
     total_time_spent := 0;
     average_accuracy := of_Z 0;
     current_week := 1 |}.

Section AlterRoadmap.
Variable cast : json -> jstring + js_error.

(** [handleAlterRoadmap].  The prompt the handler builds is not used; the
    generator is called with the goal of the roadmap and the object
    [{ alterRequest }] in the place of the answers. *)
Definition handleAlterRoadmap (user : option User) (v : roadmap_view)
  : M roadmap_state unit :=
  match roadmap v with
  | None => ret tt
  | Some current =>
      if negb (truthy (trim (alterRequest v))) then ret tt
      else
        _ <- set_state (setProcessing true) ;;
        finally
          (try_catch
             (newRoadmapWeeks <-
                lift (generateRoadmap (goal (row_data current))
                        [(lit "alterRequest", alterRequest v)]) ;;
              r <- lift (query (update_roadmap_weeks (row_id current)
                                  newRoadmapWeeks)) ;;
              _ <- throw_error r ;;
              r <- lift (query (delete_lessons_of (row_id current))) ;;
              _ <- throw_error r ;;
              newLessons <-
                settle (lesson_payloads "newRoadmapWeeks.forEach" "forEach"
                          "week.topics.forEach" "forEach" (row_id current)
                          newRoadmapWeeks) ;;
              r <- lift (query (insert_lessons cast newLessons)) ;;
              _ <- throw_error r ;;
              r <- lift (query (update_progress_of_roadmap
                                  (reset_progress (length newLessons))
                                  (row_id current))) ;;
              _ <- throw_error r ;;
              _ <- lift (showSuccess (lit "Roadmap Updated")
                           (lit "Your roadmap has been successfully updated with your requested changes.")) ;;
              _ <- fetchRoadmapData user ;;
              _ <- set_state (setShowAlterModal false) ;;
              set_state (setAlterRequest []))
             (fun error =>
                lift (showError (lit "Update Failed")
                        (or_else (message error)
                           (lit "Failed to alter roadmap. Please try again."))
                        None)))
          (fun s => (setProcessing false (fst s), snd s))
  end.

End AlterRoadmap.

End Handlers.

End Roadmap.

Import Roadmap.

(* ===================================================================== *)
(** * The profile page and the administration page *)
(* ===================================================================== *)

Module Pages.

(** The state of the [ProfileView] component. *)
Record profile_view := {
  fullName : jstring;
  selectedAvatar : jstring;
  isEditing : bool;
  profile_loading : bool;
  profile_message : jstring
}.

Definition setProfileLoading (b : bool) (v : profile_view) :=
  {| fullName := fullName v; selectedAvatar := selectedAvatar v;
     isEditing := isEditing v; profile_loading := b;
     profile_message := profile_message v |}.

Definition setProfileMessage (m : jstring) (v : profile_view) :=
  {| fullName := fullName v; selectedAvatar := selectedAvatar v;
     isEditing := isEditing v; profile_loading := profile_loading v;
     profile_message := m |}.

Definition setIsEditing (b : bool) (v : profile_view) :=
  {| fullName := fullName v; selectedAvatar := selectedAvatar v;
     isEditing := b; profile_loading := profile_loading v;
     profile_message := profile_message v |}.

(** The state of the [AdminDashboard] component: the profiles of the users
    listed (the progress records shown with each are left out) and the user
    picked for deletion. *)
Record admin_view := {
  users : list (Row ProfileData);
  userToDelete : option (Row ProfileData);
  deleteModalOpen : bool;
  admin_message : jstring
}.

Definition setAdminMessage (m : jstring) (v : admin_view) : admin_view :=
  {| users := users v; userToDelete := userToDelete v;
     deleteModalOpen := deleteModalOpen v; admin_message := m |}.

Definition setUsers (l : list (Row ProfileData)) (v : admin_view)
  : admin_view :=
  {| users := l; userToDelete := userToDelete v;
     deleteModalOpen := deleteModalOpen v; admin_message := admin_message v |}.

Definition setDeleteModalOpen (b : bool) (v : admin_view) : admin_view :=
  {| users := users v; userToDelete := userToDelete v;
     deleteModalOpen := b; admin_message := admin_message v |}.

Definition setUserToDelete (u : option (Row ProfileData)) (v : admin_view)
  : admin_view :=
  {| users := users v; userToDelete := u;
     deleteModalOpen := deleteModalOpen v; admin_message := admin_message v |}.

Section Handlers.
Context {N : Type} `{Arith N}.

(** [handleSave] of the profile page. *)
Definition handleSave (user : option User) (v : profile_view)
  : M (profile_view * world N) unit :=
  _ <- set_state (setProfileLoading true) ;;
  _ <- set_state (setProfileMessage []) ;;
  finally
    (try_catch
       (_ <- lift (updateProfile user
                     {| new_full_name := Some (fullName v);
                        new_avatar_url := Some (selectedAvatar v);
                        new_goal := None |}) ;;
        _ <- set_state (setProfileMessage
                          (lit "Profile updated successfully!")) ;;
        set_state (setIsEditing false))
       (fun _ =>
          set_state (setProfileMessage
                       (lit "Failed to update profile. Please try again."))))
    (fun s => (setProfileLoading false (fst s), snd s)).

(** [supabase.auth.admin.deleteUser(id)].  Whether the authentication
    service lets the caller delete a user is the service's to say:
    [refusal] is the error it answers with, if any. *)
Definition auth_admin_deleteUser (refusal : option js_error) (i : id)
  : M (world N) (result unit) :=
  match refusal with
  | Some e => ret (failure e)
  | None => query (fun d => (success None, delete_user i d))
  end.

(** [handleDeleteUser] of the administration page. *)
Definition handleDeleteUser (refusal : option js_error) (v : admin_view)
  : M (admin_view * world N) unit :=
  match userToDelete v with
  | None => ret tt
  | Some target =>
      try_catch
        (r <- lift (auth_admin_deleteUser refusal (row_id target)) ;;
         _ <- throw_error r ;;
         _ <- set_state (setAdminMessage (lit "User deleted successfully")) ;;
         _ <- set_state (setUsers
                           (filter (fun x => row_id x <> row_id target)
                              (users v))) ;;
         _ <- set_state (setDeleteModalOpen false) ;;
         set_state (setUserToDelete None))
        (fun _ => set_state (setAdminMessage (lit "Failed to delete user")))
  end.

End Handlers.

End Pages.

Import Pages.

(* ===================================================================== *)
(** * The application as a transition system *)
(* ===================================================================== *)

Module App.

(** The page in front of the user when the authentication client calls
    the listener of the authentication context. *)
Inductive page :=
| lesson_page
| lessons_list_page (timed_out : bool) (order : settle_order)
| roadmap_page
| another_page.

(** The steps of the application: the steps of the pages behind the sign-in
    that reach the store, the browser storage or the generative endpoint,
    and what reaches these pages from outside.  The authentication service
    is not modelled: of a sign-up the store sees the profile its trigger
    creates, and the pages see the user object the listener of the
    authentication context delivers.  The steps that change only the state
    of a component (typing into a field, choosing an answer, opening a
    dialog) are the [edit] events, which stand for any such change. *)
Inductive event :=
| click_continue                       (* the button bound to handleGoalSubmit *)
| click_generate_roadmap               (* the button bound to handleGenerateRoadmap *)
| open_lesson (lessonId : id)          (* the route of a lesson: the effect of LessonView runs *)
| click_mark_complete
| finish_test
| open_lessons_list (timed_out : bool) (order : settle_order)
| click_toast_action (i : nat)         (* the action button of the i-th notification *)
| open_roadmap                         (* the route of the roadmap: fetchRoadmapData runs *)
| click_delete_roadmap
| click_alter_roadmap
| click_save_profile
| click_delete_user (refusal : option js_error)
| sign_up (i : id) (mail fullName : jstring)
| auth_state_change (u : option User) (shown : page)
| edit_flow (f : onboarding -> onboarding)
| edit_lesson_view (f : lesson_view -> lesson_view)
| edit_roadmap_view (f : roadmap_view -> roadmap_view)
| edit_profile_view (f : profile_view -> profile_view)
| edit_admin_view (f : admin_view -> admin_view).

(** The steps the user takes.  The listener of the authentication context
    is called by the authentication client on every authentication event:
    when the user signs in or out, and, with no action of the user, when the
    client refreshes the token of the session. *)
Definition user_initiated (e : event) : bool :=
  match e with
  | auth_state_change _ _ => false
  | _ => true
  end.

(** The steps that can call the generative endpoint. *)
Definition may_request (e : event) : bool :=
  match e with
  | click_continue | click_generate_roadmap | open_lesson _
  | click_toast_action _ | click_alter_roadmap
  | auth_state_change (Some _) lesson_page => true
  | _ => false
  end.

(** The steps that delete rows of the store or overwrite a roadmap. *)
Definition rewrites (e : event) : bool :=
  match e with
  | click_delete_roadmap | click_alter_roadmap | click_delete_user _ => true
  | _ => false
  end.

Section Steps.
Context {N : Type} `{Arith N}.
Variable JSON_stringify : json -> jstring.
Variable as_LessonContent : json -> LessonContent.
Variable cast : json -> jstring + js_error.

Record app := {
  user : option User;
  flow : onboarding;
  lessonId : id;
  view : lesson_view;
  list_view : lessons_list;
  roadmap_view_of : roadmap_view;
  profile_view_of : profile_view;
  admin_view_of : admin_view;
  the_world : world N
}.

Definition set_user (u : option User) (a : app) : app :=
  {| user := u; flow := flow a; lessonId := lessonId a; view := view a;
     list_view := list_view a; roadmap_view_of := roadmap_view_of a;
     profile_view_of := profile_view_of a; admin_view_of := admin_view_of a;
     the_world := the_world a |}.

Definition set_world (w : world N) (a : app) : app :=
  {| user := user a; flow := flow a; lessonId := lessonId a; view := view a;
     list_view := list_view a; roadmap_view_of := roadmap_view_of a;
     profile_view_of := profile_view_of a; admin_view_of := admin_view_of a;
     the_world := w |}.

(** Running a handler of a component inside the application. *)
Definition run_flow (m : M (onboarding * world N) unit) (a : app) : app :=
  let '(_, (f, w)) := m (flow a, the_world a) in
  {| user := user a; flow := f; lessonId := lessonId a; view := view a;
     list_view := list_view a; roadmap_view_of := roadmap_view_of a;
     profile_view_of := profile_view_of a; admin_view_of := admin_view_of a;
     the_world := w |}.

Definition run_view (i : id) (m : M (lesson_view * world N) unit) (a : app)
  : app :=
  let '(_, (v, w)) := m (view a, the_world a) in
  {| user := user a; flow := flow a; lessonId := i; view := v;
     list_view := list_view a; roadmap_view_of := roadmap_view_of a;
     profile_view_of := profile_view_of a; admin_view_of := admin_view_of a;
     the_world := w |}.

Definition run_list (m : M (lessons_list * world N) unit) (a : app) : app :=
  let '(_, (l, w)) := m (list_view a, the_world a) in
  {| user := user a; flow := flow a; lessonId := lessonId a; view := view a;
     list_view := l; roadmap_view_of := roadmap_view_of a;
     profile_view_of := profile_view_of a; admin_view_of := admin_view_of a;
     the_world := w |}.

Definition run_roadmap (m : M (roadmap_view * world N) unit) (a : app) : app :=
  let '(_, (r, w)) := m (roadmap_view_of a, the_world a) in
  {| user := user a; flow := flow a; lessonId := lessonId a; view := view a;
     list_view := list_view a; roadmap_view_of := r;
     profile_view_of := profile_view_of a; admin_view_of := admin_view_of a;
     the_world := w |}.

Definition run_profile (m : M (profile_view * world N) unit) (a : app) : app :=
  let '(_, (p, w)) := m (profile_view_of a, the_world a) in
  {| user := user a; flow := flow a; lessonId := lessonId a; view := view a;
     list_view := list_view a; roadmap_view_of := roadmap_view_of a;
     profile_view_of := p; admin_view_of := admin_view_of a;
     the_world := w |}.

Definition run_admin (m : M (admin_view * world N) unit) (a : app) : app :=
  let '(_, (x, w)) := m (admin_view_of a, the_world a) in
  {| user := user a; flow := flow a; lessonId := lessonId a; view := view a;
     list_view := list_view a; roadmap_view_of := roadmap_view_of a;
     profile_view_of := profile_view_of a; admin_view_of := x;
     the_world := w |}.

(** The effect of [LessonView] for the lesson of the route: it runs when
    the route or the user object changes, and calls [fetchLesson] and
    [checkCompletion] when there is a lesson identifier and a user. *)
Definition lesson_effect (i : id) (a : app) : app :=
  match user a with
  | Some _ =>
      if truthy i then
        run_view i (checkCompletion (user a) i)
          (run_view i (fetchLesson JSON_stringify as_LessonContent i) a)
      else a
  | None => a
  end.

(** The effect of [LessonsList] and the effect of [RoadmapView]. *)
Definition lessons_list_effect (timed_out : bool) (order : settle_order)
  (a : app) : app :=
  match user a with
  | Some u => run_list (fetchLessons order timed_out u) a
  | None => a
  end.

Definition roadmap_effect (a : app) : app :=
  match user a with
  | Some _ => run_roadmap (fetchRoadmapData (user a)) a
  | None => a
  end.

(** Modelled from the spec: the notification component is not among the
    sources; a notification carries an optional bound action, and pressing
    its button calls the [onClick] of the object it was given. *)
Definition run_callback (cb : callback) (a : app) : app :=
  match cb with
  | cb_fetchLesson =>
      run_view (lessonId a)
        (fetchLesson JSON_stringify as_LessonContent (lessonId a)) a
  | cb_handleGenerateRoadmap =>
      run_flow (handleGenerateRoadmap cast (user a) (flow a)) a
  | cb_fetchRoadmapData =>
      run_roadmap (fetchRoadmapData (user a)) a
  end.

Definition transition (a : app) (e : event) : app :=
  match e with
  | click_continue => run_flow (handleGoalSubmit (flow a)) a
  | click_generate_roadmap =>
      run_flow (handleGenerateRoadmap cast (user a) (flow a)) a
  | open_lesson i => lesson_effect i a
  | click_mark_complete =>
      (* the button is rendered only while the lesson is not completed *)
      if isCompleted (view a) then a
      else run_view (lessonId a)
             (handleMarkComplete (user a) (lessonId a) (view a)) a
  | finish_test =>
      run_view (lessonId a) (completeTest (user a) (lessonId a) (view a)) a
  | open_lessons_list timed_out order => lessons_list_effect timed_out order a
  | click_toast_action i =>
      match toasts (the_world a) !! i with
      | Some t =>
          match toast_action t ≫= onClick_of with
          | Some cb => run_callback cb a
          | None => a
          end
      | None => a
      end
  | open_roadmap => roadmap_effect a
  | click_delete_roadmap =>
      (* the button of the dialog, disabled while a request is processed *)
      if showDeleteModal (roadmap_view_of a)
         && negb (processing (roadmap_view_of a))
      then run_roadmap (handleDeleteRoadmap (roadmap_view_of a)) a
      else a
  | click_alter_roadmap =>
      if showAlterModal (roadmap_view_of a)
         && negb (negb (truthy (trim (alterRequest (roadmap_view_of a))))
                  || processing (roadmap_view_of a))
      then run_roadmap (handleAlterRoadmap cast (user a) (roadmap_view_of a)) a
      else a
  | click_save_profile =>
      if isEditing (profile_view_of a)
         && negb (profile_loading (profile_view_of a))
      then run_profile (handleSave (user a) (profile_view_of a)) a
      else a
  | click_delete_user refusal =>
      if deleteModalOpen (admin_view_of a)
      then run_admin (handleDeleteUser refusal (admin_view_of a)) a
      else a
  | sign_up i mail fullName =>
      set_world (set_db (handle_new_user i mail fullName (db (the_world a)))
                   (the_world a)) a
  | auth_state_change u shown =>
      let a' := set_user u a in
      match shown with
      | lesson_page => lesson_effect (lessonId a') a'
      | lessons_list_page timed_out order =>
          lessons_list_effect timed_out order a'
      | roadmap_page => roadmap_effect a'
      | another_page => a'
      end
  | edit_flow f => run_flow (set_state f) a
  | edit_lesson_view f => run_view (lessonId a) (set_state f) a
  | edit_roadmap_view f => run_roadmap (set_state f) a
  | edit_profile_view f => run_profile (set_state f) a
  | edit_admin_view f => run_admin (set_state f) a
  end.

Definition run (a : app) (events : list event) : app := foldl transition a events.

End Steps.

End App.

Import App.

(* ===================================================================== *)
(** * Notions used in the statements *)
(* ===================================================================== *)

(** The four characters the extraction looks for. *)
Definition is_bracket (c : ascii) : bool :=
  Ascii.eqb c "[" || Ascii.eqb c "]" || Ascii.eqb c "{" || Ascii.eqb c "}".

Definition bracket_free (s : jstring) : bool :=
  forallb (fun c => negb (is_bracket c)) s.

(** The two kinds of JSON text the replies embed. *)
Inductive span_kind := array_span | object_span.

Definition opening (k : span_kind) : ascii :=
  match k with array_span => "["%char | object_span => "{"%char end.

Definition closing (k : span_kind) : ascii :=
  match k with array_span => "]"%char | object_span => "}"%char end.

(** A text that starts with the opening character of its kind and ends with
    the closing one. *)
Definition wrap (k : span_kind) (body : jstring) : jstring :=
  opening k :: body ++ [closing k].

(** A string that embeds [j] between two bracket-free stretches. *)
Definition embeds (j s : jstring) : Prop :=
  exists pre post,
    s = pre ++ j ++ post /\ bracket_free pre = true /\ bracket_free post = true.

(** [j] starts and ends with a bracket. *)
Definition bracketed (j : jstring) : Prop :=
  exists o body c,
    j = o :: body ++ [c] /\ is_bracket o = true /\ is_bracket c = true.

(* ===================================================================== *)
(** * Concrete worlds for the examples *)
(* ===================================================================== *)

Module Examples.

Definition empty_db {N} : database N :=
  {| profiles := []; roadmaps := []; lessons := []; user_progress := [];
     lesson_completions := []; next_id := 0 |}.

(** A response of the endpoint whose first candidate carries [reply]. *)
Definition reply_response (code : Z) (reply : jstring) : response :=
  {| status := code;
     body_text := [];
     body_json :=
       Decoded {| candidates :=
                    Some [{| content := Some {| parts := [{| text := reply |}] |} |}] |} |}.

(** A response that carries an error text. *)
Definition error_response (code : Z) (errorText : jstring) : response :=
  {| status := code;
     body_text := errorText;
     body_json := NotJson {| name := lit "SyntaxError";
                             message := Some (lit "Unexpected token");
                             code := None |} |}.

(** A world with an empty store in which every call of [fetch] settles to
    [r]. *)
Definition world_of (d : database spec_float) (r : fetch_result)
  : world spec_float :=
  {| db := d; storage := ∅; net := fun _ => r; fetch_log := [];
     toasts := []; GEMINI_API_KEY := Some (lit "key") |}.

(** A reply whose free-form text has brackets of its own. *)
Definition bracketed_reply : jstring := lit "Scores [latest]: [1, 2]".

(** A fenced reply. *)
Definition fenced_reply : jstring :=
  lit "Here you go: ```json" ++ ["010"%char] ++ lit "[1, 2]" ++ ["010"%char]
    ++ lit "``` Enjoy!".

End Examples.

Import Examples.

(** The error message [makeGeminiRequest] raises for a response that is not
    ok, read off the two blocks of the function: the classification by
    status of the [try] block, then the test of the [catch] block on the
    message. *)
Definition http_error_message (r : response) : jstring :=
  if (status r =? 429)%Z then msg_rate_limit
  else if (status r =? 401)%Z then msg_invalid_key
  else if (500 <=? status r)%Z then msg_unavailable
  else
    let m := msg_request_failed (status r) (body_text r) in
    if includes m (lit "fetch") then msg_network else m.

(** A response with status 400 whose body mentions a fetch. *)
Definition bad_request_response : response :=
  error_response 400 (lit "upstream fetch failed").

(** An error of the hosted authentication service with a message that none
    of the patterns of [formatAuthError] matches. *)
Definition quota_error : js_error :=
  {| name := lit "AuthApiError";
     message := Some (lit "Quota exceeded");
     code := None |}.

(* ===================================================================== *)
(** * What a function leaves of the world *)
(* ===================================================================== *)

(** [leaves R m]: whatever [m] returns or throws, the state it ends in is
    related by [R] to the state it started in. *)
Definition leaves {W A} (R : W -> W -> Prop) (m : M W A) : Prop :=
  forall s, R s (snd (m s)).

(** A relation on worlds, read on the state of a handler. *)
Definition on_world {V N} (R : world N -> world N -> Prop)
  : V * world N -> V * world N -> Prop :=
  fun s s' => R (snd s) (snd s').

(** The calls of [fetch] recorded in [w] are still recorded in [w'], in the
    same order, and at most [k] calls were made after them. *)
Definition sends {N} (k : nat) (w w' : world N) : Prop :=
  exists calls,
    fetch_log w' = fetch_log w ++ calls /\ length calls <= k.

(** [localStorage] is the same in [w] and [w']. *)
Definition same_storage {N} (k : nat) (w w' : world N) : Prop :=
  storage w' = storage w.

(** A family of relations indexed by a budget: nothing happens within
    budget 0, budgets can be raised, and they add up along a sequence. *)
Record graded {W} (G : nat -> W -> W -> Prop) : Prop := {
  g_refl : forall s, G 0 s s;
  g_mono : forall a b x y, a <= b -> G a x y -> G b x y;
  g_comp : forall a b x y z, G a x y -> G b y z -> G (a + b) x z
}.

(** No entry of [localStorage] was removed between [w] and [w'], and no
    entry with a non-empty value was changed. *)
Definition kept {N} (w w' : world N) : Prop :=
  forall key v,
    storage w !! key = Some v ->
    is_Some (storage w' !! key) /\
    (truthy v = true -> storage w' !! key = Some v).

(** A graded family on worlds that store queries and notifications do not
    spend from, and that a call of [fetch] spends one from. *)
Record world_graded {N} (G : nat -> world N -> world N -> Prop) : Prop := {
  wg_graded : graded G;
  wg_db : forall d w, G 0 w (set_db d w);
  wg_toast : forall t w, G 0 w (add_toast t w);
  wg_fetch : forall r w, G 1 w (log_fetch r w)
}.

(** What [fetch] settles to when the timeout of the caller aborts it. *)
Definition aborted : fetch_result :=
  Rejected {| name := lit "AbortError";
              message := Some (lit "signal is aborted without reason");
              code := None |}.

(* ===================================================================== *)
(** * The score of a test, as the claims word it *)
(* ===================================================================== *)

(** The answer given at index [i], trimmed and lower-cased (the empty string
    when the question was not answered), is equal to the stored answer,
    trimmed and lower-cased. *)
Definition answered_correctly (questions : list Question)
  (userAnswers : list (option jstring)) (i : nat) : bool :=
  match questions !! i with
  | Some q =>
      Js.eqb (normalised (mjoin (userAnswers !! i))) (normalised (answer q))
  | None => false
  end.

(** The number of indices at which the answer is correct. *)
Definition correct_count (questions : list Question)
  (userAnswers : list (option jstring)) : nat :=
  length (filter (fun i => answered_correctly questions userAnswers i = true)
            (seq 0 (length questions))).

(** round(100 * c / n) in exact arithmetic, halves rounded up. *)
Definition round_percent (c n : Z) : Z :=
  Qfloor (Qmake (100 * c) (Z.to_pos n) + (1 # 2)).

(** The score computed in binary64 agrees with [round_percent] for every
    count [c <= n] of every length [1 <= n < bound]. *)
Definition binary64_agrees_below (bound : nat) : bool :=
  forallb (fun n =>
    forallb (fun c =>
      bool_decide
        (Math_round (mul (div (of_Z (Z.of_nat c)) (of_Z (Z.of_nat n)))
                       (of_Z 100 : spec_float))
         = Some (round_percent (Z.of_nat c) (Z.of_nat n))))
      (seq 0 (S n)))
    (seq 1 (bound - 1)).

Module ScoreExamples.

(** One question whose stored answer is empty, and no answer given. *)
Definition blank_question : list Question :=
  [{| question := lit "Explain closures"; answer := Some [] |}].

(** Forty questions with answer "a"; the first 23 answered "a", the other 17
    answered "b". *)
Definition forty_questions : list Question :=
  replicate 40 {| question := lit "q"; answer := Some (lit "a") |}.

Definition forty_answers : list (option jstring) :=
  replicate 23 (Some (lit "a")) ++ replicate 17 (Some (lit "b")).

(** Two questions, one answered correctly up to case and white space. *)
Definition two_questions : list Question :=
  [{| question := lit "q1"; answer := Some (lit "Paris") |};
   {| question := lit "q2"; answer := Some (lit "4") |}].

Definition two_answers : list (option jstring) :=
  [Some (lit " paris "); Some (lit "5")].

End ScoreExamples.

Import ScoreExamples.

(* ===================================================================== *)
(** * The running mean, as the claims word it *)
(* ===================================================================== *)

(** An integer as an exact rational. *)
Definition zq (z : Z) : Qc := Q2Qc (inject_Z z).

Definition sum_scores (scores : list Z) : Z := foldr Z.add 0%Z scores.

(** The arithmetic mean of the scores. *)
Definition mean (scores : list Z) : Qc :=
  (zq (sum_scores scores) / zq (Z.of_nat (length scores)))%Qc.

(** The progress record after the completions with the given scores, one
    after the other. *)
Definition after_completions {N} `{Arith N} (scores : list Z)
  (start : ProgressData N) : ProgressData N :=
  foldl (fun x s => progress_update (Some s) x) start scores.

(* ===================================================================== *)
(** * The counter of completed lessons and the completion records *)
(* ===================================================================== *)

(** The lesson [l] is a lesson of the roadmap [r]. *)
Definition lesson_in_roadmap {N} (d : database N) (l r : id) : bool :=
  bool_decide (Exists (fun x => row_id x = l /\ roadmap_id (row_data x) = r)
                 (lessons d)).

(** The number of completion records of the user [u] for lessons of the
    roadmap [r]. *)
Definition completion_records {N} (d : database N) (u r : id) : nat :=
  length (filter (fun c => user_id (row_data c) = u /\
                           lesson_in_roadmap d (lesson_id (row_data c)) r = true)
            (lesson_completions d)).

(** Every progress record counts the completion records of its user for
    the lessons of its roadmap. *)
Definition counter_matches_records {N} (d : database N) : Prop :=
  forall p, p ∈ user_progress d ->
    completed_lessons (row_data p)
    = Z.of_nat (completion_records d (progress_user_id (row_data p))
                  (progress_roadmap_id (row_data p))).

Module CompletionExample.

Definition the_user : User := {| uid := lit "user-1"; user_email := None |}.

Definition the_lesson : Row LessonData :=
  {| row_id := lit "lesson-1";
     row_data := {| roadmap_id := lit "roadmap-1"; week_number := 1;
                    title := lit "Closures"; lesson_objective := lit "Scope";
                    estimated_time := lit "2 hours"; order_index := 0 |} |}.

(** The store after onboarding: one lesson, its progress record, no
    completion yet. *)
Definition fresh_store : database spec_float :=
  {| profiles := []; roadmaps := []; lessons := [the_lesson];
     user_progress :=
       [{| row_id := lit "progress-1";
           row_data := {| progress_user_id := lit "user-1";
                          progress_roadmap_id := lit "roadmap-1";
                          total_lessons := 1; completed_lessons := 0;
                          total_time_spent := 0; average_accuracy := of_Z 0;
                          current_week := 1 |} |}];
     lesson_completions := []; next_id := 0 |}.

(** The lesson view with the lesson and its content loaded. *)
Definition loaded_view : lesson_view :=
  {| lesson := Some the_lesson;
     lessonContent := Some {| assessmentQuestions := two_questions |};
     loading := false; userAnswers := two_answers; testCompleted := false;
     view_score := None; allLessons := [the_lesson]; isCompleted := false |}.

Definition empty_flow : onboarding :=
  {| step := 1; onboarding_goal := []; onboarding_questions := JArray [];
     onboarding_answers := []; onboarding_loading := false; location := None |}.

Definition empty_list : lessons_list :=
  {| list_lessons := []; list_completions := []; list_loading := false;
     list_error := None |}.

Definition empty_roadmap_view : roadmap_view :=
  {| roadmap := None; roadmap_lessons := []; roadmap_completions := [];
     roadmap_loading := true; showDeleteModal := false;
     showAlterModal := false; alterRequest := []; processing := false;
     roadmap_location := None |}.

Definition empty_profile_view : profile_view :=
  {| fullName := []; selectedAvatar := []; isEditing := false;
     profile_loading := false; profile_message := [] |}.

Definition empty_admin_view : admin_view :=
  {| users := []; userToDelete := None; deleteModalOpen := false;
     admin_message := [] |}.

(** A store that refuses every value that is not a string. *)
Definition strict_cast (v : json) : jstring + js_error :=
  inr {| name := lit "PostgrestError";
         message := Some (lit "invalid input syntax");
         code := Some (lit "22P02") |}.

(** The application with the page of a component in a given state. *)
Definition app_of (u : option User) (f : onboarding) (i : id)
  (v : lesson_view) (w : world spec_float) : app :=
  {| user := u; flow := f; lessonId := i; view := v; list_view := empty_list;
     roadmap_view_of := empty_roadmap_view;
     profile_view_of := empty_profile_view;
     admin_view_of := empty_admin_view; the_world := w |}.

Definition the_app : app :=
  app_of (Some the_user) empty_flow (lit "lesson-1") loaded_view
    (world_of fresh_store aborted).

(** The user marks the lesson complete, then takes its test. *)
Definition after_mark_complete : app :=
  run (fun _ => []) (fun _ => {| assessmentQuestions := [] |}) strict_cast
    the_app [click_mark_complete].

Definition after_test : app :=
  run (fun _ => []) (fun _ => {| assessmentQuestions := [] |}) strict_cast
    the_app [click_mark_complete; finish_test].

End CompletionExample.

Import CompletionExample.

(* ===================================================================== *)
(** * Lessons and topics *)
(* ===================================================================== *)

(** The total number of topics of a roadmap. *)
Definition total_topics (roadmapData : list Week) : nat :=
  foldr (fun week n => length (topics week) + n) 0 roadmapData.

(** The lesson row of the topic at position [topicIndex] of the week at
    position [weekIndex], as the claim words it. *)
Definition lesson_of_topic (roadmapId : id) (weekIndex topicIndex : nat)
  (topic : Topic) : LessonData :=
  {| roadmap_id := roadmapId;
     week_number := Z.of_nat weekIndex + 1;
     title := topic_title topic;
     lesson_objective := lessonObjective topic;
     estimated_time := estimatedTime topic;
     order_index := Z.of_nat topicIndex |}.

Module RoadmapExample.

(** The text of a member of an object with a string as its value. *)
Definition member (key value : string) : jstring :=
  quoted key ++ lit ": " ++ quoted value.

(** The text of a topic. *)
Definition topic_text (t o e : string) : jstring :=
  lit "{" ++ member "title" t ++ lit ", " ++ member "lessonObjective" o
    ++ lit ", " ++ member "estimatedTime" e ++ lit "}".

(** A reply of the endpoint with a roadmap in the format the prompt asks
    for: two weeks, three topics. *)
Definition roadmap_reply : jstring :=
  lit "[{" ++ member "title" "Week 1: Foundation" ++ lit ", "
    ++ quoted "topics" ++ lit ": ["
    ++ topic_text "Variables" "Declare variables" "1 hour" ++ lit ", "
    ++ topic_text "Functions" "Write functions" "2 hours" ++ lit "]}, {"
    ++ member "title" "Week 2: Practice" ++ lit ", "
    ++ quoted "topics" ++ lit ": ["
    ++ topic_text "Closures" "Use closures" "2 hours" ++ lit "]}]".

(** The roadmap of the reply. *)
Definition two_weeks : list Week :=
  [{| topics := [{| topic_title := lit "Variables";
                    lessonObjective := lit "Declare variables";
                    estimatedTime := lit "1 hour" |};
                 {| topic_title := lit "Functions";
                    lessonObjective := lit "Write functions";
                    estimatedTime := lit "2 hours" |}] |};
   {| topics := [{| topic_title := lit "Closures";
                    lessonObjective := lit "Use closures";
                    estimatedTime := lit "2 hours" |}] |}].

(** A reply that is an array, but not of weeks. *)
Definition numbers_reply : jstring := lit "[1, 2]".

Definition goal_flow : onboarding :=
  {| Onboarding.step := 3; onboarding_goal := lit "Learn JavaScript";
     onboarding_questions := JArray [];
     onboarding_answers := [(lit "Level?", lit "Beginner")];
     onboarding_loading := false; location := None |}.

Definition roadmap_world : world spec_float :=
  world_of empty_db (Responded (reply_response 200 roadmap_reply)).

(** The value [JSON.parse] reads in the reply. *)
Definition roadmap_value : json := default JNull (JSON_parse roadmap_reply).

Definition numbers_world : world spec_float :=
  world_of empty_db (Responded (reply_response 200 numbers_reply)).

End RoadmapExample.

Import RoadmapExample.

(** The text a value of the reply is read as where the form the prompt
    asks for has a text: the value of a string the store can hold. *)
Definition read_text (v : option json) : option jstring :=
  match v with
  | Some (JString raw) => stored_text raw
  | _ => None
  end.

(** A topic of the form asked for: an object with the three texts. *)
Definition read_topic (topic : json) : option Topic :=
  t ← read_text (property topic (lit "title"));
  o ← read_text (property topic (lit "lessonObjective"));
  e ← read_text (property topic (lit "estimatedTime"));
  Some {| topic_title := t; lessonObjective := o; estimatedTime := e |}.

(** A week of the form asked for: an object with an array of topics. *)
Definition read_week (week : json) : option Week :=
  match property week (lit "topics") with
  | Some (JArray ts) => (fun l => {| topics := l |}) <$> mapM read_topic ts
  | _ => None
  end.

(** The roadmap a reply holds when it has the form the prompt asks for: an
    array of weeks, each with its topics; [None] for any other value. *)
Definition read_roadmap (roadmapData : json) : option (list Week) :=
  match roadmapData with
  | JArray ws => mapM read_week ws
  | _ => None
  end.

(** The store accepts the payload [p] and stores the row [r] for it. *)
Definition accepts (cast : json -> jstring + js_error) (p : LessonPayload)
  (r : LessonData) : Prop :=
  exists c, lesson_cells cast p = inl c /\ checked_lesson c = inl r.

(** The store after a run of [handleGenerateRoadmap] that reaches the store
    [d] with a generated roadmap [roadmapData] of the weeks [ws]: the four
    statements of the handler, the last of which the store may refuse. *)
Definition store_after_roadmap {N} `{Arith N} (u : User) (v : onboarding)
  (roadmapData : json) (ws : list Week) (d : database N) : database N :=
  let d1 := snd (insert_roadmap
                   {| roadmap_user_id := uid u;
                      roadmap_title := lit "Learning Roadmap: " ++ onboarding_goal v;
                      goal := onboarding_goal v;
                      weeks := roadmapData;
                      questions := onboarding_questions v;
                      answers := onboarding_answers v |} d) in
  let rows := lessons_of (fresh_id d) ws in
  let d2 := set_next_id (next_id d1 + length rows)
              (set_lessons (lessons d1 ++ number_rows (next_id d1) rows) d1) in
  let d3 := snd (insert_progress
                   (initial_progress (uid u) (fresh_id d) (length rows)) d2) in
  snd (upsert_profile (uid u) (or_else (user_email u) [])
         (goal_update (onboarding_goal v)) d3).

Module ListExample.

(** A store with the roadmap of the user, its lesson and one completion. *)
Definition store_with_roadmap : database spec_float :=
  {| profiles := [];
     roadmaps :=
       [{| row_id := lit "roadmap-1";
           row_data := {| roadmap_user_id := lit "user-1";
                          roadmap_title := lit "Learning Roadmap: Learn JavaScript";
                          goal := lit "Learn JavaScript";
                          weeks := JArray []; questions := JArray [];
                          answers := [] |} |}];
     lessons := [the_lesson];
     user_progress := [];
     lesson_completions :=
       [{| row_id := lit "completion-1";
           row_data := {| user_id := lit "user-1"; lesson_id := lit "lesson-1";
                          Db.score := Some 100%Z; time_spent := 30%Z;
                          completion_answers := [] |} |}];
     next_id := 0 |}.

Definition list_world : world spec_float := world_of store_with_roadmap aborted.

End ListExample.

Import ListExample.

Module CacheExample.

Definition stringify_example (c : json) : jstring := lit "{}".

Definition content_example (c : json) : LessonContent :=
  {| assessmentQuestions := [] |}.

(** The endpoint answers with an object; nothing is cached yet. *)
Definition uncached_world : world spec_float :=
  world_of fresh_store (Responded (reply_response 200 (lit "{}"))).

(** The content of the lesson is cached. *)
Definition cached_world : world spec_float :=
  set_storage {[ storage_key (lit "lesson-1") := lit "{}" ]} uncached_world.

(** The lesson view as it is mounted. *)
Definition blank_view : lesson_view :=
  {| lesson := None; lessonContent := None; loading := true;
     userAnswers := []; testCompleted := false; view_score := Some 0%Z;
     allLessons := []; isCompleted := false |}.

(** The application on the page of the lesson, with the content cached. *)
Definition cached_app : app :=
  app_of (Some the_user) empty_flow (lit "lesson-1") blank_view cached_world.

(** The application of a user with a roadmap and its lesson; the endpoint
    answers with an object and nothing is cached yet. *)
Definition roadmap_app : app :=
  app_of (Some the_user) empty_flow (lit "lesson-1") blank_view
    (world_of store_with_roadmap (Responded (reply_response 200 (lit "{}")))).

(** The user opens the lesson, then the roadmap, and deletes the roadmap. *)
Definition after_delete : app :=
  run stringify_example content_example strict_cast roadmap_app
    [open_lesson (lit "lesson-1"); open_roadmap;
     edit_roadmap_view (setShowDeleteModal true); click_delete_roadmap].

(** The request [generateLessonContent] sends for the lesson. *)
Definition lesson_request : fetch_request :=
  {| prompt := lesson_prompt (lit "Closures"); timeout := 25000 |}.

(** The application on the page of the lesson: nothing is cached, and the
    timer of the request aborts every call of the endpoint. *)
Definition failing_app : app :=
  app_of (Some the_user) empty_flow (lit "lesson-1") blank_view
    (world_of fresh_store aborted).

(** The user opens the lesson; later the authentication client refreshes
    the token of the session and calls the listener with the user. *)
Definition token_refresh : list event :=
  [open_lesson (lit "lesson-1"); auth_state_change (Some the_user) lesson_page].

End CacheExample.

Import CacheExample.

(** [t] is a contiguous part of [s]. *)
Definition part_of (t s : jstring) : Prop :=
  exists pre post, s = pre ++ t ++ post.

(** The first statements of [cleanJsonResponse]: the reply trimmed, without
    an opening fence and without a closing fence, trimmed again. *)
Definition strip_fences (content : jstring) : jstring :=
  let cleaned := trim content in
  let cleaned :=
    if startsWith cleaned fence_json then substringFrom cleaned 7
    else if startsWith cleaned fence then substringFrom cleaned 3
    else cleaned in
  let cleaned :=
    if endsWith cleaned fence then substring cleaned 0 (length cleaned - 3)
    else cleaned in
  trim cleaned.
Module RequestExample.

(** A world without API key. *)
Definition keyless_world : world spec_float :=
  {| db := empty_db; storage := ∅; net := fun _ => aborted; fetch_log := [];
     toasts := []; GEMINI_API_KEY := None |}.

(** A world in which the request is aborted by the timer. *)
Definition aborted_world : world spec_float := world_of empty_db aborted.

(** A world in which the endpoint answers with a fenced array. *)
Definition fenced_world : world spec_float :=
  world_of empty_db (Responded (reply_response 200 fenced_reply)).

End RequestExample.

Import RequestExample.

(** Another profile than the one of [i] holds the e-mail address [mail]. *)
Definition email_taken {N} (i : id) (mail : jstring) (d : database N) : Prop :=
  Exists (fun p => row_id p <> i /\ email (row_data p) = mail) (profiles d).

(** The message of the store when UNIQUE(email) refuses a profile. *)
Definition msg_email_taken : jstring :=
  lit "duplicate key value violates unique constraint "
    ++ quoted "profiles_email_key".

(** The test [initializeAuth] makes on the formatted message to tell a
    connection issue, notified as a warning with a retry action, from the
    other errors. *)
Definition connection_issue (errorMsg : jstring) : bool :=
  includes errorMsg (lit "timeout") || includes errorMsg (lit "network")
  || includes errorMsg (lit "unavailable").
Module AuthExample.

(** An error of the authentication service with the code of a network
    failure. *)
Definition network_failure : js_error :=
  {| name := lit "AuthError"; message := Some (lit "Failed to reach the server");
     code := Some (lit "network_error") |}.

(** A user with an e-mail address. *)
Definition a_user : User :=
  {| uid := lit "user-2"; user_email := Some (lit "ada@example.org") |}.

(** The profile of another user, with a name and the given e-mail
    address. *)
Definition profile_of_other (mail : string) : Row ProfileData :=
  {| row_id := lit "user-3";
     row_data := {| email := lit mail; full_name := Some (lit "Bob");
                    avatar_url := None; profile_goal := None |} |}.

(** The profile the trigger of the store created for the user. *)
Definition profile_of_user : Row ProfileData :=
  {| row_id := lit "user-2";
     row_data := {| email := lit "ada@example.org";
                    full_name := Some (lit "Ada");
                    avatar_url := None; profile_goal := None |} |}.

Definition store_of_profiles (l : list (Row ProfileData))
  : database spec_float :=
  {| profiles := l; roadmaps := []; lessons := []; user_progress := [];
     lesson_completions := []; next_id := 0 |}.

(** A world with the profile of the user and the profile of another
    user. *)
Definition profiles_world :  world spec_float :=
  {| db := store_of_profiles [profile_of_other "bob@example.org"; profile_of_user];
     storage := ∅; net := fun _ => Rejected network_failure; fetch_log := [];
     toasts := []; GEMINI_API_KEY := Some (lit "key") |}.

(** A world in which another profile holds the e-mail address of the
    user. *)
Definition taken_world :  world spec_float :=
  {| db := store_of_profiles [profile_of_other "ada@example.org"];
     storage := ∅; net := fun _ => Rejected network_failure; fetch_log := [];
     toasts := []; GEMINI_API_KEY := Some (lit "key") |}.

End AuthExample.

Import AuthExample.

(* ===================================================================== *)
(** * The lesson view: the controls of the test and the navigation *)
(* ===================================================================== *)

Module TestControls.

(** [array[i] = x] on an array that may have holes: an index past the end
    extends the array, the elements in between are holes. *)
Definition array_set {A} (l : list (option A)) (i : nat) (x : A)
  : list (option A) :=
  if i <? length l then <[i := Some x]> l
  else l ++ replicate (i - length l) None ++ [Some x].

(** [array.findIndex(p)], [-1] when no element satisfies [p]. *)
Fixpoint findIndex_from {A} (p : A -> bool) (i : nat) (l : list A) : Z :=
  match l with
  | [] => (-1)%Z
  | x :: rest => if p x then Z.of_nat i else findIndex_from p (S i) rest
  end.

Definition findIndex {A} (p : A -> bool) (l : list A) : Z :=
  findIndex_from p 0 l.

(** The state of [LessonView] with the controls of the test. *)
Record test_view := {
  base : lesson_view;
  showTest : bool;
  currentQuestion : nat;
  showAnswers : bool
}.

Definition setUserAnswers (a : list (option jstring)) (v : lesson_view)
  : lesson_view :=
  {| lesson := lesson v; lessonContent := lessonContent v;
     loading := loading v; userAnswers := a;
     testCompleted := testCompleted v; view_score := view_score v;
     allLessons := allLessons v; isCompleted := isCompleted v |}.

Definition set_base (v : lesson_view) (t : test_view) : test_view :=
  {| base := v; showTest := showTest t;
     currentQuestion := currentQuestion t; showAnswers := showAnswers t |}.

Definition setShowTest (b : bool) (t : test_view) : test_view :=
  {| base := base t; showTest := b;
     currentQuestion := currentQuestion t; showAnswers := showAnswers t |}.

Definition setCurrentQuestion (n : nat) (t : test_view) : test_view :=
  {| base := base t; showTest := showTest t;
     currentQuestion := n; showAnswers := showAnswers t |}.

Definition setShowAnswers (b : bool) (t : test_view) : test_view :=
  {| base := base t; showTest := showTest t;
     currentQuestion := currentQuestion t; showAnswers := b |}.

(** [handleStartTest] *)
Definition handleStartTest (t : test_view) : test_view :=
  setShowAnswers false
    (set_base (setTestCompleted false (setUserAnswers [] (base t)))
       (setCurrentQuestion 0 (setShowTest true t))).

(** [handleAnswerSelect] *)
Definition handleAnswerSelect (answer : jstring) (t : test_view) : test_view :=
  let newAnswers := array_set (userAnswers (base t)) (currentQuestion t) answer in
  set_base (setUserAnswers newAnswers (base t)) t.

Section Handlers.
Context {N : Type} `{Arith N}.

(** A handler of the lesson view, run on the state with the controls. *)
Definition on_base {A} (m : M (lesson_view * world N) A)
  : M (test_view * world N) A :=
  fun s =>
    let '(r, (v, w)) := m (base (fst s), snd s) in
    (r, (set_base v (fst s), w)).

(** [handleNextQuestion] *)
Definition handleNextQuestion (user : option User) (lessonId : id)
  (t : test_view) : M (test_view * world N) unit :=
  content <- non_null "assessmentQuestions" (lessonContent (base t)) ;;
  if (Z.of_nat (currentQuestion t)
      <? Z.of_nat (length (assessmentQuestions content)) - 1)%Z
  then set_state (setCurrentQuestion (currentQuestion t + 1))
  else on_base (completeTest user lessonId (base t)).

(** The user picks an answer for the question shown, which renders the
    view again, and presses the button that moves on. *)
Definition answer_question (user : option User) (lessonId : id)
  (answer : jstring) : M (test_view * world N) unit :=
  fun s =>
    let t := handleAnswerSelect answer (fst s) in
    handleNextQuestion user lessonId t (t, snd s).

Fixpoint take_test (user : option User) (lessonId : id)
  (answers : list jstring) : M (test_view * world N) unit :=
  match answers with
  | [] => ret tt
  | a :: rest =>
      _ <- answer_question user lessonId a ;;
      take_test user lessonId rest
  end.

End Handlers.

Inductive direction := prev | next.

(** [navigateToLesson]: the state after the call and the route it
    navigates to, if any. *)
Definition navigateToLesson (d : direction) (lessonId : id) (t : test_view)
  : test_view * option jstring :=
  let allLessons := allLessons (base t) in
  let currentIndex :=
    findIndex (fun l => bool_decide (row_id l = lessonId)) allLessons in
  let targetIndex :=
    match d with
    | next => (currentIndex + 1)%Z
    | prev => (currentIndex - 1)%Z
    end in
  if (0 <=? targetIndex)%Z && (targetIndex <? Z.of_nat (length allLessons))%Z
  then
    match allLessons !! Z.to_nat targetIndex with
    | Some target =>
        (set_base (setScore (Some 0%Z)
                     (setUserAnswers []
                        (setTestCompleted false (base t))))
           (setCurrentQuestion 0 (setShowTest false t)),
         Some (lit "/lessons/" ++ row_id target))
    | None => (t, None)
    end
  else (t, None).

End TestControls.

Import TestControls.
Module TestExample.

(** The lesson view of the example with the controls of the test. *)
Definition test_start : test_view :=
  {| base := loaded_view; showTest := false; currentQuestion := 0;
     showAnswers := false |}.

(** A second lesson of the same roadmap. *)
Definition second_lesson : Row LessonData :=
  {| row_id := lit "lesson-2";
     row_data := {| roadmap_id := lit "roadmap-1"; week_number := 1;
                    title := lit "Promises"; lesson_objective := lit "Async";
                    estimated_time := lit "1 hour"; order_index := 1 |} |}.

(** The view of the first lesson of a roadmap with two lessons. *)
Definition two_lesson_view : test_view :=
  {| base := setAllLessons [the_lesson; second_lesson] loaded_view;
     showTest := false; currentQuestion := 0; showAnswers := false |}.

End TestExample.

Import TestExample.

(* ===================================================================== *)
(** * What the handlers do to the store *)
(* ===================================================================== *)

(** A relation between the store before and after that holds along every
    statement by which the handlers write to the store. *)
Record store_steps {N} `{Arith N} (R : database N -> database N -> Prop)
  : Prop := {
  ss_refl : forall d, R d d;
  ss_trans : forall x y z, R x y -> R y z -> R x z;
  ss_upsert_completion : forall row d, R d (snd (upsert_completion row d));
  ss_update_progress :
    forall s i d, R d (snd (update_progress (progress_update s) i d));
  ss_insert_roadmap : forall row d, R d (snd (insert_roadmap row d));
  ss_insert_lessons :
    forall cast rows d, R d (snd (insert_lessons cast rows d));
  ss_insert_progress :
    forall u r n d, R d (snd (insert_progress (initial_progress u r n) d));
  ss_upsert_profile : forall i m u d, R d (snd (upsert_profile i m u d));
  ss_handle_new_user : forall i m n d, R d (handle_new_user i m n d)
}.

(** The same for the statements of Delete Roadmap, Alter Roadmap and Delete
    User, which delete rows or overwrite them. *)
Record rewrite_steps {N} `{Arith N} (R : database N -> database N -> Prop)
  : Prop := {
  rs_update_roadmap_weeks :
    forall r w d, R d (snd (update_roadmap_weeks r w d));
  rs_delete_lessons_of : forall r d, R d (snd (delete_lessons_of r d));
  rs_reset_progress :
    forall n r d,
      R d (snd (update_progress_of_roadmap (reset_progress n) r d));
  rs_delete_roadmap : forall r d, R d (snd (delete_roadmap r d));
  rs_delete_user : forall u d, R d (delete_user u d)
}.

(** The relation, read on worlds. *)
Definition on_store {N} (R : database N -> database N -> Prop)
  (w w' : world N) : Prop :=
  R (db w) (db w').
(** Every progress record counts 30 minutes for each completed lesson. *)
Definition time_matches_counter {N} (d : database N) : Prop :=
  forall p, p ∈ user_progress d ->
            total_time_spent (row_data p)
            = (30 * completed_lessons (row_data p))%Z.

(** Nothing was removed between [d] and [d']: the roadmaps and the lessons
    of [d] are in [d'] as they were, at the same place, and so are the
    identifiers of the completion, progress and profile records. *)
Definition nothing_removed {N} (d d' : database N) : Prop :=
  roadmaps d `prefix_of` roadmaps d' /\
  lessons d `prefix_of` lessons d' /\
  (row_id <$> lesson_completions d) `prefix_of` (row_id <$> lesson_completions d') /\
  (row_id <$> user_progress d) `prefix_of` (row_id <$> user_progress d') /\
  (row_id <$> profiles d) `prefix_of` (row_id <$> profiles d').

(* ===================================================================== *)
(** * The lessons list: what is rendered *)
(* ===================================================================== *)

Module ListView.

(** [isLessonCompleted] *)
Definition isLessonCompleted (completions : list (Row CompletionData))
  (lessonId : id) : bool :=
  existsb (fun completion =>
             bool_decide (lesson_id (row_data completion) = lessonId))
    completions.

(** [getLessonScore]: [completion?.score || 0] *)
Definition getLessonScore (completions : list (Row CompletionData))
  (lessonId : id) : Z :=
  match find (fun completion =>
                bool_decide (lesson_id (row_data completion) = lessonId))
          completions with
  | Some completion =>
      match score (row_data completion) with
      | Some z => if (z =? 0)%Z then 0%Z else z
      | None => 0%Z
      end
  | None => 0%Z
  end.

(** The object built by the [reduce] that groups the lessons by week: its
    properties in the order of their creation. *)
Definition weeks_object := list (Z * list (Row LessonData)).

(** One step of the [reduce]. *)
Definition push_lesson (acc : weeks_object) (lesson : Row LessonData)
  : weeks_object :=
  let week := week_number (row_data lesson) in
  if existsb (fun e => (fst e =? week)%Z) acc
  then map (fun e => if (fst e =? week)%Z
                     then (fst e, snd e ++ [lesson]) else e) acc
  else acc ++ [(week, [lesson])].

Definition lessonsByWeek (lessons : list (Row LessonData)) : weeks_object :=
  foldl push_lesson [] lessons.

(** A property key that is an array index: these come first in the order
    of the properties of an object, in ascending numeric order. *)
Definition is_array_index (k : Z) : bool :=
  (0 <=? k)%Z && (k <=? 4294967294)%Z.

Fixpoint insert_entry {G} (e : Z * G) (l : list (Z * G)) : list (Z * G) :=
  match l with
  | [] => [e]
  | y :: l' => if (fst e <=? fst y)%Z then e :: l else y :: insert_entry e l'
  end.

Definition ascending {G} (l : list (Z * G)) : list (Z * G) :=
  foldr insert_entry [] l.

(** [Object.entries]: the array indices in ascending order, then the other
    keys in the order of their creation. *)
Definition Object_entries (o : weeks_object) : weeks_object :=
  ascending (filter (fun e => is_array_index (fst e) = true) o)
  ++ filter (fun e => is_array_index (fst e) <> true) o.

(** What holds of the object after the lessons [lessons] went in: one
    property for each week that occurs, holding the lessons of that week
    in the order of the list. *)
Definition groups_of (lessons : list (Row LessonData)) (acc : weeks_object)
  : Prop :=
  NoDup (fst <$> acc) /\
  (forall k g, (k, g) ∈ acc ->
     g = filter (fun l => week_number (row_data l) = k) lessons /\ g <> []) /\
  (forall l, l ∈ lessons -> week_number (row_data l) ∈ fst <$> acc).

End ListView.

Import ListView.

Module FlowExample.

(** The flow at its first step with a goal of three spaces. *)
Definition blank_flow : onboarding :=
  {| Onboarding.step := 1; onboarding_goal := lit "   ";
     onboarding_questions := JArray []; onboarding_answers := [];
     onboarding_loading := false; location := None |}.

(** A world in which the endpoint answers with status 503. *)
Definition unavailable_world : world spec_float :=
  world_of empty_db (Responded (error_response 503 (lit "overloaded"))).

End FlowExample.

Import FlowExample.

Module CacheRoundTrip.

(** The content the endpoint of [uncached_world] answers with. *)
Definition empty_object : json := JObject [].

End CacheRoundTrip.

Import CacheRoundTrip.

(** The order of two lesson payloads by week and position. *)
Definition payload_le (a b : LessonData) : Prop :=
  lesson_le {| row_id := []; row_data := a |}
            {| row_id := []; row_data := b |} = true.

Module ResponseExample.

(** A response with status 200 and no candidate. *)
Definition empty_response : response :=
  {| status := 200; body_text := [];
     body_json := Decoded {| candidates := Some [] |} |}.

Definition empty_response_world : world spec_float :=
  world_of empty_db (Responded empty_response).

End ResponseExample.

Import ResponseExample.

(* ===================================================================== *)
(** * Facts about the string operations *)
(* ===================================================================== *)

Section StringFacts.

Lemma is_bracket_not_space c : is_bracket c = true -> is_white_space c = false.
Proof.
  unfold is_bracket. rewrite !orb_true_iff, !Ascii.eqb_eq.
  intros [[[-> | ->] | ->] | ->]; reflexivity.
Qed.

Lemma bracket_free_app s t :
  bracket_free (s ++ t) = bracket_free s && bracket_free t.
Proof. apply forallb_app. Qed.

Lemma bracket_free_rev s : bracket_free (rev s) = bracket_free s.
Proof.
  induction s as [|a s IH]; [reflexivity|].
  simpl. rewrite bracket_free_app, IH. simpl. rewrite andb_true_r.
  apply andb_comm.
Qed.

Lemma bracketed_wrap k body : bracketed (wrap k body).
Proof. exists (opening k), body, (closing k). by destruct k. Qed.

Lemma bracketed_rev j : bracketed j -> bracketed (rev j).
Proof.
  intros (o & body & c & -> & Ho & Hc).
  exists c, (rev body), o. split; [|done].
  simpl. rewrite rev_app_distr. reflexivity.
Qed.

Lemma embeds_rev j s : embeds j s -> embeds (rev j) (rev s).
Proof.
  intros (pre & post & -> & Hpre & Hpost).
  exists (rev post), (rev pre).
  rewrite !rev_app_distr, <- app_assoc, !bracket_free_rev. done.
Qed.

Lemma embeds_rev_inv j s : embeds (rev j) (rev s) -> embeds j s.
Proof.
  intros E. apply embeds_rev in E. by rewrite !rev_involutive in E.
Qed.

(** Dropping a bracket-free prefix keeps the embedding. *)
Lemma embeds_drop_prefix j p s :
  bracketed j -> embeds j (p ++ s) -> bracket_free p = true -> embeds j s.
Proof.
  intros (o & body & c & -> & Ho & Hc).
  induction p as [|a p IH]; [done|].
  intros (pre & post & E & Hpre & Hpost) Hp.
  simpl in Hp. apply andb_true_iff in Hp as [Ha Hp].
  destruct pre as [|b pre].
  - simpl in E. injection E as -> _. by rewrite Ho in Ha.
  - simpl in E. injection E as -> E. simpl in Hpre.
    apply andb_true_iff in Hpre as [_ Hpre].
    apply IH; [|done]. by exists pre, post.
Qed.

Lemma embeds_trimStart j s : bracketed j -> embeds j s -> embeds j (trimStart s).
Proof.
  intros Hj. induction s as [|a s IH]; [done|].
  intros E. simpl. destruct (is_white_space a) eqn:Hw; [|done].
  apply IH. apply (embeds_drop_prefix j [a]); [done..|].
  simpl. rewrite andb_true_r. apply negb_true_iff.
  destruct (is_bracket a) eqn:Hb; [|done].
  apply is_bracket_not_space in Hb. congruence.
Qed.

Lemma embeds_trim j s : bracketed j -> embeds j s -> embeds j (trim s).
Proof.
  intros Hj E. unfold trim, trimEnd.
  apply embeds_rev_inv. rewrite rev_involutive.
  apply embeds_trimStart; [by apply bracketed_rev|].
  apply embeds_rev. by apply embeds_trimStart.
Qed.

Lemma startsWith_app s p : startsWith s p = true -> s = p ++ drop (length p) s.
Proof.
  revert s. induction p as [|a p IH]; intros s; [done|].
  destruct s as [|b s]; [done|]. simpl.
  intros [->%Ascii.eqb_eq Hp]%andb_true_iff. f_equal. by apply IH.
Qed.

Lemma substringFrom_drop s n : n <= length s -> substringFrom s n = drop n s.
Proof.
  intros Hn. unfold substringFrom, substring.
  rewrite Nat.min_id, (Nat.min_l n) by done.
  rewrite Nat.min_l, Nat.max_r by done.
  apply take_ge. rewrite length_drop. lia.
Qed.

Lemma substring_take s n : n <= length s -> substring s 0 n = take n s.
Proof.
  intros Hn. unfold substring. simpl.
  rewrite (Nat.min_l n) by done. simpl. by rewrite Nat.sub_0_r.
Qed.

Lemma embeds_strip_start j s p :
  bracketed j -> embeds j s -> bracket_free p = true ->
  startsWith s p = true -> embeds j (substringFrom s (length p)).
Proof.
  intros Hj E Hp Hs. pose proof (startsWith_app _ _ Hs) as Eq.
  rewrite substringFrom_drop.
  - apply (embeds_drop_prefix j p); [done| by rewrite <- Eq |done].
  - apply (f_equal (@length _)) in Eq. rewrite length_app in Eq. lia.
Qed.

Lemma take_rev_drop (s : jstring) n :
  n <= length s -> take (length s - n) s = rev (drop n (rev s)).
Proof.
  intros _. by rewrite skipn_rev, rev_involutive.
Qed.

Lemma embeds_strip_end j s p :
  bracketed j -> embeds j s -> bracket_free p = true ->
  endsWith s p = true ->
  embeds j (substring s 0 (length s - length p)).
Proof.
  intros Hj E Hp Hs. unfold endsWith in Hs.
  pose proof (startsWith_app _ _ Hs) as Eq.
  assert (length p <= length s) as Hl.
  { apply (f_equal (@length _)) in Eq.
    rewrite length_app, !length_rev in Eq. lia. }
  rewrite substring_take by lia. rewrite take_rev_drop by done.
  apply embeds_rev_inv. rewrite rev_involutive.
  rewrite <- (length_rev p).
  apply (embeds_drop_prefix (rev j) (rev p)).
  - by apply bracketed_rev.
  - rewrite <- Eq. by apply embeds_rev.
  - by rewrite bracket_free_rev.
Qed.

(** The greedy star: up to the last closing character. *)
Lemma upto_last_none c s :
  forallb (fun a => negb (Ascii.eqb a c)) s = true -> upto_last c s = None.
Proof.
  induction s as [|a s IH]; [done|]. simpl.
  intros [Ha Hs]%andb_true_iff. rewrite IH by done.
  apply negb_true_iff in Ha. by rewrite Ha.
Qed.

Lemma upto_last_app c body post :
  forallb (fun a => negb (Ascii.eqb a c)) post = true ->
  upto_last c (body ++ c :: post) = Some (body ++ [c]).
Proof.
  intros Hpost. induction body as [|a body IH].
  - simpl. rewrite upto_last_none by done. by rewrite Ascii.eqb_refl.
  - simpl. by rewrite IH.
Qed.

Lemma match_delimited_at o c pre body post :
  forallb (fun a => negb (Ascii.eqb a o)) pre = true ->
  forallb (fun a => negb (Ascii.eqb a c)) post = true ->
  match_delimited o c (pre ++ o :: body ++ c :: post)
  = Some {| index := length pre; matched := o :: body ++ [c] |}.
Proof.
  intros Hpre Hpost. induction pre as [|a pre IH].
  - simpl. by rewrite Ascii.eqb_refl, upto_last_app.
  - simpl in Hpre. apply andb_true_iff in Hpre as [Ha Hpre].
    apply negb_true_iff in Ha. simpl. rewrite Ha, IH by done. reflexivity.
Qed.

Lemma match_delimited_embedded o c pre body post :
  forallb (fun a => negb (Ascii.eqb a o)) pre = true ->
  forallb (fun a => negb (Ascii.eqb a c)) post = true ->
  match_delimited o c (pre ++ (o :: body ++ [c]) ++ post)
  = Some {| index := length pre; matched := o :: body ++ [c] |}.
Proof.
  intros Hpre Hpost.
  replace ((o :: body ++ [c]) ++ post) with (o :: body ++ c :: post)
    by (simpl; by rewrite <- app_assoc).
  by apply match_delimited_at.
Qed.

(** A match of another opening character starts after the embedded text
    does. *)
Lemma match_delimited_later o c pre x rest m :
  forallb (fun a => negb (Ascii.eqb a o)) pre = true ->
  Ascii.eqb x o = false ->
  match_delimited o c (pre ++ x :: rest) = Some m ->
  length pre < index m.
Proof.
  intros Hpre Hx. revert m. induction pre as [|a pre IH]; intros m.
  - simpl. rewrite Hx. destruct (match_delimited o c rest); [|done].
    simpl. intros [= <-]. simpl. lia.
  - simpl in Hpre. apply andb_true_iff in Hpre as [Ha Hpre].
    apply negb_true_iff in Ha. simpl. rewrite Ha.
    destruct (match_delimited o c (pre ++ x :: rest)) as [m'|]; [|done].
    simpl. intros [= <-]. simpl. specialize (IH Hpre m' eq_refl). lia.
Qed.

Lemma bracket_free_no c s :
  is_bracket c = true -> bracket_free s = true ->
  forallb (fun a => negb (Ascii.eqb a c)) s = true.
Proof.
  intros Hc. induction s as [|a s IH]; [done|]. simpl.
  intros [Ha Hs]%andb_true_iff. rewrite IH by done. rewrite andb_true_r.
  apply negb_true_iff. destruct (Ascii.eqb a c) eqn:E; [|done].
  apply Ascii.eqb_eq in E as ->. by rewrite Hc in Ha.
Qed.

(** The extraction proper: the statements of [cleanJsonResponse] after its
    last [trim]. *)
Lemma extraction_of_embedded k body pre post :
  bracket_free pre = true -> bracket_free post = true ->
  let cleaned := pre ++ wrap k body ++ post in
  match match_delimited "[" "]" cleaned, match_delimited "{" "}" cleaned with
  | Some a, None => matched a
  | Some a, Some o => if index a <? index o then matched a else matched o
  | None, Some o => matched o
  | None, None => []
  end = wrap k body.
Proof.
  intros Hpre Hpost cleaned. subst cleaned. destruct k; unfold wrap; simpl opening; simpl closing.
  - rewrite (match_delimited_embedded "[" "]") by (by apply bracket_free_no).
    destruct (match_delimited "{" "}" _) as [o|] eqn:E; [|done].
    apply match_delimited_later in E; [|by apply bracket_free_no|done].
    simpl. by apply Nat.ltb_lt in E as ->.
  - rewrite (match_delimited_embedded "{" "}") by (by apply bracket_free_no).
    destruct (match_delimited "[" "]" _) as [a|] eqn:E; [|done].
    apply match_delimited_later in E; [|by apply bracket_free_no|done].
    simpl. destruct (index a <? length pre) eqn:F; [|done].
    apply Nat.ltb_lt in F. lia.
Qed.

Lemma cleanJsonResponse_embedded k body pre post :
  bracket_free pre = true -> bracket_free post = true ->
  cleanJsonResponse (pre ++ wrap k body ++ post) = wrap k body.
Proof.
  intros Hpre Hpost.
  assert (embeds (wrap k body) (pre ++ wrap k body ++ post)) as E
    by (by exists pre, post).
  pose proof (bracketed_wrap k body) as Hj.
  unfold cleanJsonResponse. cbv zeta.
  set (c1 := trim (pre ++ wrap k body ++ post)). assert (embeds (wrap k body) c1) as E1
    by (by apply embeds_trim).
  set (c2 := if startsWith c1 fence_json then _ else _).
  assert (embeds (wrap k body) c2) as E2.
  { subst c2. destruct (startsWith c1 fence_json) eqn:F1.
    - by apply (embeds_strip_start _ _ fence_json).
    - destruct (startsWith c1 fence) eqn:F2; [|done].
      by apply (embeds_strip_start _ _ fence). }
  set (c3 := if endsWith c2 fence then _ else _).
  assert (embeds (wrap k body) c3) as E3.
  { subst c3. destruct (endsWith c2 fence) eqn:F; [|done].
    by apply (embeds_strip_end _ _ fence). }
  set (c4 := trim c3). assert (embeds (wrap k body) c4) as E4
    by (by apply embeds_trim).
  destruct E4 as (pre' & post' & -> & Hpre' & Hpost').
  pose proof (extraction_of_embedded k body pre' post' Hpre' Hpost') as X.
  simpl in X.
  destruct (match_delimited "[" "]" _) as [a|], (match_delimited "{" "}" _) as [o|];
    done.
Qed.

End StringFacts.

(* ===================================================================== *)
(** * src/lib/gemini.ts: extraction and parsing of the reply *)
(* ===================================================================== *)

Section GeminiFacts.
Context {N : Type}.
Implicit Types w : world N.

Lemma wrap_starts k body :
  negb (truthy (wrap k body))
  || (negb (startsWith (wrap k body) (lit "["))
      && negb (startsWith (wrap k body) (lit "{"))) = false.
Proof. destruct k; reflexivity. Qed.

(** C1.  When the reply of a 200 response consists of a JSON
    array or object text, starting with its opening bracket and ending with
    its closing one, between two stretches of text (code fences, white
    space, free-form words) that contain none of the characters [ ] { },
    [cleanJsonResponse] returns exactly that text and [makeGeminiRequest]
    returns the value [JSON.parse] gives for it, after one call of
    [fetch]. *)
Theorem C1_fenced_json_is_extracted_and_parsed
  w prompt timeout r c cs ct p ps k pre body post v :
  truthy (or_else (GEMINI_API_KEY w) []) = true ->
  net w (length (fetch_log w)) = Responded r ->
  status r = 200%Z ->
  body_json r = Decoded {| candidates := Some (c :: cs) |} ->
  content c = Some ct ->
  parts ct = p :: ps ->
  text p = pre ++ wrap k body ++ post ->
  bracket_free pre = true ->
  bracket_free post = true ->
  JSON_parse (wrap k body) = Some v ->
  cleanJsonResponse (text p) = wrap k body /\
  makeGeminiRequest prompt timeout w
  = (Ok v, log_fetch {| prompt := prompt; timeout := timeout |} w).
Proof.
  intros Hkey Hnet Hstatus Hjson Hcontent Hparts Htext Hpre Hpost Hparse.
  assert (cleanJsonResponse (text p) = wrap k body) as Hclean
    by (rewrite Htext; by apply cleanJsonResponse_embedded).
  split; [done|].
  cbv [makeGeminiRequest try_catch request_body bind gets fetch].
  rewrite Hkey. cbn [negb]. rewrite Hnet.
  unfold ok. rewrite Hstatus.
  change (negb ((200 <=? 200)%Z && (200 <=? 299)%Z)) with false. cbv iota.
  rewrite Hjson. cbn [candidates]. rewrite Hcontent, Hparts.
  rewrite Hclean, wrap_starts, Hparse. reflexivity.
Qed.

End GeminiFacts.

(** A fenced reply with words around it. *)
Lemma C1_witness :
  cleanJsonResponse fenced_reply = lit "[1, 2]" /\
  makeGeminiRequest (lit "prompt") 15000
    (world_of empty_db (Responded (reply_response 200 fenced_reply)))
  = (Ok (JArray [JNumber (lit "1"); JNumber (lit "2")]),
     log_fetch {| prompt := lit "prompt"; timeout := 15000 |}
       (world_of empty_db (Responded (reply_response 200 fenced_reply)))).
Proof.
  apply (C1_fenced_json_is_extracted_and_parsed
           (world_of empty_db (Responded (reply_response 200 fenced_reply)))
           (lit "prompt") 15000 (reply_response 200 fenced_reply)
           {| content := Some {| parts := [{| text := fenced_reply |}] |} |} []
           {| parts := [{| text := fenced_reply |}] |}
           {| text := fenced_reply |} [] array_span
           (lit "Here you go: ```json" ++ ["010"%char]) (lit "1, 2")
           (["010"%char] ++ lit "``` Enjoy!"));
    reflexivity.
Defined.

(** The claim as stated fails when the free-form text around the JSON has a
    bracket of its own: the reply embeds the array [1, 2], the extraction
    returns the span from the first bracket to the last, which [JSON.parse]
    rejects, and [makeGeminiRequest] throws. *)
Lemma C1_counterexample :
  JSON_parse (lit "[1, 2]") = Some (JArray [JNumber (lit "1"); JNumber (lit "2")]) /\
  cleanJsonResponse bracketed_reply = lit "[latest]: [1, 2]" /\
  JSON_parse (cleanJsonResponse bracketed_reply) = None /\
  makeGeminiRequest (lit "prompt") 15000
    (world_of empty_db (Responded (reply_response 200 bracketed_reply)))
  = (Throw (Error msg_parse_failed),
     log_fetch {| prompt := lit "prompt"; timeout := 15000 |}
       (world_of empty_db (Responded (reply_response 200 bracketed_reply)))).
Proof. repeat split; reflexivity. Qed.

(* ===================================================================== *)
(** * src/lib/gemini.ts: responses that are not ok *)
(* ===================================================================== *)

Section HttpErrors.
Context {N : Type}.
Implicit Types w : world N.

(** Every response that is not ok makes [makeGeminiRequest] throw, after
    one call of [fetch], an error whose message is [http_error_message]. *)
Lemma makeGeminiRequest_not_ok w prompt timeout r :
  truthy (or_else (GEMINI_API_KEY w) []) = true ->
  net w (length (fetch_log w)) = Responded r ->
  ok r = false ->
  makeGeminiRequest prompt timeout w
  = (Throw (Error (http_error_message r)),
     log_fetch {| prompt := prompt; timeout := timeout |} w).
Proof.
  intros Hkey Hnet Hok.
  cbv [makeGeminiRequest try_catch request_body bind gets fetch].
  rewrite Hkey. cbn [negb]. rewrite Hnet, Hok. cbn [negb].
  unfold http_error_message.
  destruct (status r =? 429)%Z; [reflexivity|].
  destruct (status r =? 401)%Z; [reflexivity|].
  destruct (500 <=? status r)%Z; [reflexivity|].
  cbv [throw request_catch]. cbn [name message Error].
  change (Js.eqb (lit "Error") (lit "AbortError")) with false. cbv iota.
  by destruct (includes _ _).
Qed.

(** The three statuses the function singles out. *)
Lemma http_error_message_429 r : status r = 429%Z -> http_error_message r = msg_rate_limit.
Proof. unfold http_error_message. by intros ->. Qed.

Lemma http_error_message_401 r : status r = 401%Z -> http_error_message r = msg_invalid_key.
Proof. unfold http_error_message. by intros ->. Qed.

Lemma http_error_message_5xx r :
  (500 <= status r)%Z -> http_error_message r = msg_unavailable.
Proof.
  intros H. unfold http_error_message.
  destruct (status r =? 429)%Z eqn:E1; [apply Z.eqb_eq in E1; lia|].
  destruct (status r =? 401)%Z eqn:E2; [apply Z.eqb_eq in E2; lia|].
  by apply Z.leb_le in H as ->.
Qed.

(** The caller [generateRoadmap] passes the message on. *)
Lemma generateRoadmap_not_ok w goal answers r :
  truthy (or_else (GEMINI_API_KEY w) []) = true ->
  net w (length (fetch_log w)) = Responded r ->
  ok r = false ->
  truthy (http_error_message r) = true ->
  generateRoadmap goal answers w
  = (Throw (Error (http_error_message r)),
     log_fetch {| prompt := roadmap_prompt goal answers; timeout := 30000 |} w).
Proof.
  intros Hkey Hnet Hok Ht.
  unfold generateRoadmap, try_catch, bind.
  rewrite (makeGeminiRequest_not_ok _ _ _ r) by done.
  unfold rethrow, throw. cbn [message Error or_else]. by rewrite Ht.
Qed.

End HttpErrors.

(** C2, the input on which the code departs from the claim.  A response
    with status 400 is not ok and is none of 429, 401 and 5xx, so the claim
    promises the generic failure that carries the status; its body contains
    the word fetch, the message built in the [try] block contains it too,
    and the [catch] block replaces the error by the network error. *)
Theorem C2_status_400_reported_as_network_error :
  ok bad_request_response = false /\
  msg_request_failed 400 (body_text bad_request_response)
  = lit "AI request failed: 400 - upstream fetch failed" /\
  makeGeminiRequest (lit "prompt") 15000
    (world_of empty_db (Responded bad_request_response))
  = (Throw (Error msg_network),
     log_fetch {| prompt := lit "prompt"; timeout := 15000 |}
       (world_of empty_db (Responded bad_request_response))).
Proof. repeat split; reflexivity. Qed.

(* ===================================================================== *)
(** * src/contexts/AuthContext.tsx: formatAuthError *)
(* ===================================================================== *)

Section AuthFacts.

Ltac in_categories :=
  solve [unfold category_messages; cbn [In];
         repeat first [left; reflexivity | right]].

(** One step down the chain of tests: the branch taken returns a literal. *)
Ltac next_test :=
  match goal with
  | |- In (if ?c then _ else _) _ \/ _ => destruct c; [left; in_categories|]
  end.

Lemma category_messages_nonempty m : In m category_messages -> m <> [].
Proof.
  unfold category_messages. cbn [In].
  intros H; repeat (destruct H as [<- | H]; [discriminate|]); done.
Qed.

Lemma match_message_cases errorMessage :
  In (match_message errorMessage) category_messages \/
  (match_message errorMessage = errorMessage /\
   truthy errorMessage = true /\
   length errorMessage < 100 /\
   includes errorMessage (lit "Error:") = false).
Proof.
  unfold match_message. cbv zeta.
  repeat next_test.
  destruct (truthy errorMessage) eqn:Ht; [|left; in_categories].
  destruct (length errorMessage <? 100) eqn:Hl; [|left; in_categories].
  destruct (includes errorMessage (lit "Error:")) eqn:Hi; [left; in_categories|].
  right. apply Nat.ltb_lt in Hl. done.
Qed.

Lemma code_table_messages key m :
  In (key, m) code_table -> In m category_messages.
Proof.
  unfold code_table. cbn [In].
  intros Hin.
  repeat (destruct Hin as [[= _ <-] | Hin]; [in_categories|]). done.
Qed.

Lemma pattern_table_messages keys m :
  In (keys, m) pattern_table -> In m category_messages.
Proof.
  unfold pattern_table. cbn [In].
  intros Hin.
  repeat (destruct Hin as [[= _ <-] | Hin]; [in_categories|]). done.
Qed.

(** One test of the chain, on both sides of the comparison. *)
Ltac same_test :=
  match goal with
  | |- context [Js.eqb ?a ?b] =>
      generalize (Js.eqb a b); intros [|];
      cbn [orb]; cbv iota; [reflexivity|]
  | |- context [includes (toLowerCase ?a) ?b] =>
      generalize (includes (toLowerCase a) b); intros [|];
      cbn [orb]; cbv iota; [reflexivity|]
  end.

(** [formatAuthError] of an error is the message of its code; without
    known code the message of the first pattern found in its message;
    without either the message itself when it is user-friendly, and the
    generic message otherwise. *)
Lemma formatAuthError_by_tables (e : js_error) :
  formatAuthError (Some e)
  = let errorMessage := or_else (message e) [] in
    match code_message (or_else (code e) []) with
    | Some m => m
    | None =>
        match pattern_message (toLowerCase errorMessage) with
        | Some m => m
        | None =>
            if user_friendly errorMessage then errorMessage else msg_generic
        end
    end.
Proof.
  unfold formatAuthError, match_message, code_message, pattern_message,
    code_table, pattern_table, user_friendly.
  cbv zeta. cbn [first_match existsb].
  repeat same_test. reflexivity.
Qed.

(** C4.  [formatAuthError] is a total function on every error
    value, [null], an error without message and an error without code
    included, and the message it returns is never empty.  The message is
    determined by the code and the message of the error: for [null] it is
    the fixed message of an unexpected error; for an error whose code is in
    the table of codes it is the message of that code; with no such code it
    is the message of the first pattern found in the lower-cased message of
    the error; and when no code and no pattern matches it is the message of
    the error itself, unchanged, if that is not empty, shorter than 100 code
    units and free of the text [Error:], and the generic message otherwise.
    The messages of the two tables, the message for [null] and the generic
    message are the fixed category messages, so that the result is one of
    them or the message of the error itself. *)
Theorem C4_formatAuthError_category_or_original (error : option js_error) :
  formatAuthError error <> [] /\
  formatAuthError error
  = match error with
    | None => msg_unexpected
    | Some e =>
        let errorMessage := or_else (message e) [] in
        match code_message (or_else (code e) []) with
        | Some m => m
        | None =>
            match pattern_message (toLowerCase errorMessage) with
            | Some m => m
            | None =>
                if truthy errorMessage && (length errorMessage <? 100)
                   && negb (includes errorMessage (lit "Error:"))
                then errorMessage
                else msg_generic
            end
        end
    end /\
  (forall key m, In (key, m) code_table -> In m category_messages) /\
  (forall keys m, In (keys, m) pattern_table -> In m category_messages) /\
  In msg_unexpected category_messages /\
  In msg_generic category_messages /\
  (In (formatAuthError error) category_messages \/
   exists e m,
     error = Some e /\ message e = Some m /\ formatAuthError error = m /\
     length m < 100 /\ includes m (lit "Error:") = false).
Proof.
  assert (In (formatAuthError error) category_messages \/
          exists e m,
            error = Some e /\ message e = Some m /\ formatAuthError error = m /\
            length m < 100 /\ includes m (lit "Error:") = false) as Hcases.
  { destruct error as [e|]; [|left; in_categories].
    unfold formatAuthError. cbv zeta.
    repeat next_test.
    destruct (match_message_cases (or_else (message e) []))
      as [Hin | (Heq & Ht & Hl & Hi)]; [by left|].
    right. exists e, (or_else (message e) []).
    destruct (message e) as [m|] eqn:Hm; [|done].
    cbn [or_else] in *. destruct (truthy m) eqn:Htm; [|done].
    done. }
  split; [|split; [|split; [|split; [|split; [|split]]]]].
  - destruct Hcases as [Hin | (e & m & -> & Hm & Heq & Hl & Hi)].
    + by apply category_messages_nonempty.
    + rewrite Heq. unfold formatAuthError in Heq. rewrite Hm in Heq.
      intros ->. cbn [or_else truthy] in Heq.
      revert Heq.
      repeat match goal with
             | |- context [if Js.eqb ?a ?b || Js.eqb ?c ?d then _ else _] =>
                 destruct (Js.eqb a b || Js.eqb c d); [discriminate|]
             | |- context [if Js.eqb ?a ?b then _ else _] =>
                 destruct (Js.eqb a b); [discriminate|]
             end.
      vm_compute. discriminate.
  - destruct error as [e|]; [|reflexivity].
    apply formatAuthError_by_tables.
  - apply code_table_messages.
  - apply pattern_table_messages.
  - in_categories.
  - in_categories.
  - exact Hcases.
Qed.

End AuthFacts.

(** The claim as stated fails: the message of this error matches no code
    and no pattern, it is returned as it is, and it is none of the fixed
    category messages. *)
Lemma C4_counterexample :
  formatAuthError (Some quota_error) = lit "Quota exceeded" /\
  ~ In (formatAuthError (Some quota_error)) category_messages.
Proof.
  split; [reflexivity|].
  intros H. vm_compute in H.
  repeat (destruct H as [H | H]; [discriminate|]). done.
Qed.

(* ===================================================================== *)
(** * What the functions leave of the world *)
(* ===================================================================== *)

Section Frame.
Context {W : Type} (G : nat -> W -> W -> Prop) (HG : graded G).

Lemma leaves_weaken {A} a b (m : M W A) :
  a <= b -> leaves (G a) m -> leaves (G b) m.
Proof. intros Hab Hm s. eapply g_mono; [done..|apply Hm]. Qed.

Lemma leaves_ret {A} (a : A) : leaves (G 0) (ret a).
Proof. intros s. by apply g_refl. Qed.

Lemma leaves_throw {A} e : leaves (G 0) (@throw W A e).
Proof. intros s. by apply g_refl. Qed.

Lemma leaves_gets {A} (f : W -> A) : leaves (G 0) (gets f).
Proof. intros s. by apply g_refl. Qed.

Lemma leaves_settle {A} (o : outcome A) : leaves (G 0) (settle o).
Proof. intros s. by apply g_refl. Qed.

Lemma leaves_modify n (f : W -> W) :
  (forall s, G n s (f s)) -> leaves (G n) (modify f).
Proof. intros Hf s. apply Hf. Qed.

Lemma leaves_bind {A B} a b (m : M W A) (k : A -> M W B) :
  leaves (G a) m -> (forall x, leaves (G b) (k x)) ->
  leaves (G (a + b)) (bind m k).
Proof.
  intros Hm Hk s. unfold bind. specialize (Hm s).
  destruct (m s) as [[x|e] s1]; simpl in *.
  - eapply g_comp; [done..|apply Hk].
  - eapply g_mono; [done| |done]. lia.
Qed.

Lemma leaves_try_catch {A} a b (m : M W A) (h : js_error -> M W A) :
  leaves (G a) m -> (forall e, leaves (G b) (h e)) ->
  leaves (G (a + b)) (try_catch m h).
Proof.
  intros Hm Hh s. unfold try_catch. specialize (Hm s).
  destruct (m s) as [[x|e] s1]; simpl in *.
  - eapply g_mono; [done| |done]. lia.
  - eapply g_comp; [done..|apply Hh].
Qed.

Lemma leaves_finally {A} a (m : M W A) (f : W -> W) :
  leaves (G a) m -> (forall s, G 0 s (f s)) -> leaves (G a) (finally m f).
Proof.
  intros Hm Hf s. unfold finally. specialize (Hm s).
  destruct (m s) as [r s1]; simpl in *.
  replace a with (a + 0) by lia. eapply g_comp; [done..|apply Hf].
Qed.

End Frame.

Section FrameWorld.
Context {N : Type} (G : nat -> world N -> world N -> Prop) (HG : graded G).

Lemma graded_on_world {V} : graded (fun k => @on_world V N (G k)).
Proof.
  split; unfold on_world.
  - intros s. by apply g_refl.
  - intros a b x y Hab. by apply g_mono.
  - intros a b x y z. by apply g_comp.
Qed.

Lemma leaves_lift {V A} a (m : M (world N) A) :
  leaves (G a) m -> leaves (@on_world V N (G a)) (lift m).
Proof.
  intros Hm s. unfold on_world, lift. specialize (Hm (snd s)).
  by destruct (m (snd s)).
Qed.

Lemma leaves_set_state {V} (f : V -> V) :
  leaves (@on_world V N (G 0)) (set_state f).
Proof. intros s. unfold on_world, set_state, modify. simpl. by apply g_refl. Qed.

End FrameWorld.

Lemma graded_same_storage {N} : graded (@same_storage N).
Proof.
  split; unfold same_storage; intros; congruence.
Qed.

Section Budget.
Context {W : Type} (G : nat -> W -> W -> Prop) (HG : graded G).

Lemma quiet_once {A} (m : M W A) : leaves (G 0) m -> leaves (G 1) m.
Proof. apply leaves_weaken; [done|lia]. Qed.

Lemma bind00 {A B} (m : M W A) (k : A -> M W B) :
  leaves (G 0) m -> (forall x, leaves (G 0) (k x)) -> leaves (G 0) (bind m k).
Proof. apply (leaves_bind G HG 0 0). Qed.

Lemma bind01 {A B} (m : M W A) (k : A -> M W B) :
  leaves (G 0) m -> (forall x, leaves (G 1) (k x)) -> leaves (G 1) (bind m k).
Proof. apply (leaves_bind G HG 0 1). Qed.

Lemma bind10 {A B} (m : M W A) (k : A -> M W B) :
  leaves (G 1) m -> (forall x, leaves (G 0) (k x)) -> leaves (G 1) (bind m k).
Proof. apply (leaves_bind G HG 1 0). Qed.

Lemma try00 {A} (m : M W A) h :
  leaves (G 0) m -> (forall e, leaves (G 0) (h e)) -> leaves (G 0) (try_catch m h).
Proof. apply (leaves_try_catch G HG 0 0). Qed.

Lemma try10 {A} (m : M W A) h :
  leaves (G 1) m -> (forall e, leaves (G 0) (h e)) -> leaves (G 1) (try_catch m h).
Proof. apply (leaves_try_catch G HG 1 0). Qed.

Lemma Promise_all_quiet {A B} order (p1 : M W A) (p2 : M W B) :
  leaves (G 0) p1 -> leaves (G 0) p2 -> leaves (G 0) (Promise_all order p1 p2).
Proof.
  intros H1 H2 s. unfold Promise_all. destruct order.
  - specialize (H1 s). destruct (p1 s) as [r1 s1]. specialize (H2 s1).
    destruct (p2 s1) as [r2 s2]. simpl in *.
    apply (g_comp G HG 0 0 s s1 s2); done.
  - specialize (H2 s). destruct (p2 s) as [r2 s2]. specialize (H1 s2).
    destruct (p1 s2) as [r1 s1]. simpl in *.
    apply (g_comp G HG 0 0 s s2 s1); done.
Qed.

End Budget.

Section WorldBudget.
Context {N : Type} (G : nat -> world N -> world N -> Prop) (HG : world_graded G).

Let HGr : graded G := wg_graded G HG.

Section Component.
Context {V : Type}.
Let GV : nat -> V * world N -> V * world N -> Prop := fun k => on_world (G k).
Let HGV : graded GV := graded_on_world G HGr.

Lemma ow_quiet_once {A} (m : M (V * world N) A) :
  leaves (on_world (G 0)) m -> leaves (on_world (G 1)) m.
Proof. apply (quiet_once GV HGV). Qed.

Lemma ow_bind00 {A B} (m : M (V * world N) A) (k : A -> M _ B) :
  leaves (on_world (G 0)) m -> (forall x, leaves (on_world (G 0)) (k x)) ->
  leaves (on_world (G 0)) (bind m k).
Proof. apply (bind00 GV HGV). Qed.

Lemma ow_bind01 {A B} (m : M (V * world N) A) (k : A -> M _ B) :
  leaves (on_world (G 0)) m -> (forall x, leaves (on_world (G 1)) (k x)) ->
  leaves (on_world (G 1)) (bind m k).
Proof. apply (bind01 GV HGV). Qed.

Lemma ow_bind10 {A B} (m : M (V * world N) A) (k : A -> M _ B) :
  leaves (on_world (G 1)) m -> (forall x, leaves (on_world (G 0)) (k x)) ->
  leaves (on_world (G 1)) (bind m k).
Proof. apply (bind10 GV HGV). Qed.

Lemma ow_try00 {A} (m : M (V * world N) A) h :
  leaves (on_world (G 0)) m -> (forall e, leaves (on_world (G 0)) (h e)) ->
  leaves (on_world (G 0)) (try_catch m h).
Proof. apply (try00 GV HGV). Qed.

Lemma ow_try10 {A} (m : M (V * world N) A) h :
  leaves (on_world (G 1)) m -> (forall e, leaves (on_world (G 0)) (h e)) ->
  leaves (on_world (G 1)) (try_catch m h).
Proof. apply (try10 GV HGV). Qed.

Lemma ow_finally {A} n (m : M (V * world N) A) (f : V * world N -> V * world N) :
  (forall s, snd (f s) = snd s) ->
  leaves (on_world (G n)) m ->
  leaves (on_world (G n)) (finally m f).
Proof.
  intros Hf Hm. apply (leaves_finally GV HGV n); [done|].
  intros s. unfold GV, on_world. rewrite Hf. apply (g_refl G HGr).
Qed.

Lemma ow_Promise_all {A B} order (p1 : M (V * world N) A) (p2 : M _ B) :
  leaves (on_world (G 0)) p1 -> leaves (on_world (G 0)) p2 ->
  leaves (on_world (G 0)) (Promise_all order p1 p2).
Proof. apply (Promise_all_quiet GV HGV). Qed.

Lemma ow_ret {A} (a : A) : leaves (on_world (G 0)) (@ret (V * world N) A a).
Proof. apply (leaves_ret GV HGV). Qed.

Lemma ow_throw {A} e : leaves (on_world (G 0)) (@throw (V * world N) A e).
Proof. apply (leaves_throw GV HGV). Qed.

Lemma ow_settle {A} (o : outcome A) :
  leaves (on_world (G 0)) (@settle (V * world N) A o).
Proof. apply (leaves_settle GV HGV). Qed.

End Component.

Lemma fetch_once r : leaves (G 1) (fetch r).
Proof.
  intros w. unfold fetch. destruct (net w _); apply (wg_fetch G HG).
Qed.

Lemma query_quiet {A} (q : database N -> A * database N) : leaves (G 0) (query q).
Proof.
  intros w. unfold query. destruct (q (db w)). apply (wg_db G HG).
Qed.

Lemma read_quiet {A} (q : database N -> A) : leaves (G 0) (read q).
Proof. intros w. apply (g_refl G HGr). Qed.

Lemma showSuccess_quiet t m : leaves (G 0) (showSuccess t m).
Proof. intros w. apply (wg_toast G HG). Qed.

Lemma showError_quiet t m a : leaves (G 0) (showError t m a).
Proof. intros w. apply (wg_toast G HG). Qed.

(** Case analysis on the scrutinee of the [match] or [if] at the head. *)
Ltac split_head :=
  match goal with
  | |- context [match ?x with _ => _ end] => destruct x
  end.

Ltac by_hypothesis := match goal with H : _ |- _ => solve [apply H] end.

(** A function that stays within budget 0: the head of the function
    decides the lemma. *)
Ltac quiet :=
  idtac;
  lazymatch goal with
  | |- leaves (on_world _) (lift _) => apply (leaves_lift G 0); quiet
  | |- leaves (on_world _) (set_state _) => apply (leaves_set_state G HGr)
  | |- leaves (on_world _) (bind _ _) => apply ow_bind00; [quiet | intro; quiet]
  | |- leaves (on_world _) (try_catch _ _) =>
      apply ow_try00; [quiet | intro; quiet]
  | |- leaves (on_world _) (finally _ _) =>
      apply ow_finally; [intros ?; reflexivity | quiet]
  | |- leaves (on_world _) (Promise_all _ _ _) =>
      apply ow_Promise_all; quiet
  | |- leaves (on_world _) (ret _) => apply ow_ret
  | |- leaves (on_world _) (throw _) => apply ow_throw
  | |- leaves (on_world _) (settle _) => apply ow_settle
  | |- leaves _ (bind _ _) => apply (bind00 G HGr); [quiet | intro; quiet]
  | |- leaves _ (try_catch _ _) => apply (try00 G HGr); [quiet | intro; quiet]
  | |- leaves _ (ret _) => apply (leaves_ret G HGr)
  | |- leaves _ (throw _) => apply (leaves_throw G HGr)
  | |- leaves _ (gets _) => apply (leaves_gets G HGr)
  | |- leaves _ (modify _) => apply (leaves_modify G 0); intro; by_hypothesis
  | |- leaves _ (query _) => apply query_quiet
  | |- leaves _ (read _) => apply read_quiet
  | |- leaves _ (showSuccess _ _) => apply showSuccess_quiet
  | |- leaves _ (showError _ _ _) => apply showError_quiet
  | |- leaves _ _ => first [ by_hypothesis | progress split_head; quiet ]
  end.

(** A function that stays within budget 1: in a sequence, one part may spend
    it and the other must be quiet. *)
Ltac spend :=
  idtac;
  lazymatch goal with
  | |- leaves (on_world _) (lift _) => apply (leaves_lift G 1); spend
  | |- leaves (on_world _) (bind _ _) =>
      first [ apply ow_bind01; [solve [quiet] | intro; spend]
            | apply ow_bind10; [spend | intro; solve [quiet]] ]
  | |- leaves (on_world _) (try_catch _ _) =>
      apply ow_try10; [spend | intro; solve [quiet]]
  | |- leaves (on_world _) (finally _ _) =>
      apply ow_finally; [intros ?; reflexivity | spend]
  | |- leaves (on_world _) _ =>
      first [ apply ow_quiet_once; solve [quiet] | progress split_head; spend ]
  | |- leaves _ (fetch _) => apply fetch_once
  | |- leaves _ (bind _ _) =>
      first [ apply (bind01 G HGr); [solve [quiet] | intro; spend]
            | apply (bind10 G HGr); [spend | intro; solve [quiet]] ]
  | |- leaves _ (try_catch _ _) =>
      apply (try10 G HGr); [spend | intro; solve [quiet]]
  | |- leaves _ _ =>
      first [ by_hypothesis
            | apply (quiet_once G HGr); solve [quiet]
            | progress split_head; spend ]
  end.

Lemma request_catch_quiet e : leaves (G 0) (request_catch e).
Proof. unfold request_catch. quiet. Qed.

Lemma updateProfile_quiet u g : leaves (G 0) (updateProfile u g).
Proof. unfold updateProfile. quiet. Qed.

Lemma request_body_once p t : leaves (G 1) (request_body p t).
Proof. unfold request_body. cbv zeta. spend. Qed.

Lemma makeGeminiRequest_once p t : leaves (G 1) (makeGeminiRequest p t).
Proof.
  unfold makeGeminiRequest. pose proof (request_body_once p t).
  pose proof request_catch_quiet. spend.
Qed.

Lemma generateQuestions_once g : leaves (G 1) (generateQuestions g).
Proof.
  unfold generateQuestions, rethrow.
  pose proof (makeGeminiRequest_once (questions_prompt g) 20000). spend.
Qed.

Lemma generateRoadmap_once g a : leaves (G 1) (generateRoadmap g a).
Proof.
  unfold generateRoadmap, rethrow.
  pose proof (makeGeminiRequest_once (roadmap_prompt g a) 30000). spend.
Qed.

Lemma generateLessonContent_once l : leaves (G 1) (generateLessonContent l).
Proof.
  unfold generateLessonContent, rethrow.
  pose proof (makeGeminiRequest_once (lesson_prompt (title (row_data l))) 25000).
  spend.
Qed.

Context `{Arith N}.

Lemma checkCompletion_quiet u i :
  leaves (on_world (G 0)) (checkCompletion (N:=N) u i).
Proof. unfold checkCompletion, non_null. quiet. Qed.

Lemma handleMarkComplete_quiet u i v :
  leaves (on_world (G 0)) (handleMarkComplete u i v).
Proof. unfold handleMarkComplete, non_null. quiet. Qed.

Lemma completeTest_quiet u i v :
  leaves (on_world (G 0)) (completeTest u i v).
Proof. unfold completeTest, non_null. cbv zeta. quiet. Qed.

Lemma fetchLessons_quiet o t u :
  leaves (on_world (G 0)) (fetchLessons (N:=N) o t u).
Proof.
  unfold fetchLessons, fetchLessons_with, merge_results, lessons_query,
    completions_query.
  quiet.
Qed.

Lemma handleGoalSubmit_once v :
  leaves (on_world (G 1)) (handleGoalSubmit (N:=N) v).
Proof.
  unfold handleGoalSubmit.
  pose proof (generateQuestions_once (onboarding_goal v)). spend.
Qed.

Lemma handleGenerateRoadmap_once cast u v :
  leaves (on_world (G 1)) (handleGenerateRoadmap cast u v).
Proof.
  unfold handleGenerateRoadmap. cbv zeta.
  pose proof (generateRoadmap_once (onboarding_goal v) (onboarding_answers v)).
  pose proof (updateProfile_quiet u (goal_update (onboarding_goal v))).
  spend.
Qed.

Lemma fetchRoadmapData_quiet u :
  leaves (on_world (G 0)) (fetchRoadmapData (N:=N) u).
Proof. unfold fetchRoadmapData, non_null, throw_error. quiet. Qed.

Lemma handleDeleteRoadmap_quiet v :
  leaves (on_world (G 0)) (handleDeleteRoadmap (N:=N) v).
Proof. unfold handleDeleteRoadmap, throw_error. quiet. Qed.

Lemma handleAlterRoadmap_once cast u v :
  leaves (on_world (G 1)) (handleAlterRoadmap cast u v).
Proof.
  unfold handleAlterRoadmap, throw_error.
  pose proof (fetchRoadmapData_quiet u).
  destruct (roadmap v) as [current|]; [|apply ow_quiet_once; quiet].
  pose proof (generateRoadmap_once (goal (row_data current))
                [(lit "alterRequest", alterRequest v)]).
  spend.
Qed.

Lemma handleSave_quiet u v : leaves (on_world (G 0)) (handleSave (N:=N) u v).
Proof.
  unfold handleSave.
  pose proof (updateProfile_quiet u
                {| new_full_name := Some (fullName v);
                   new_avatar_url := Some (selectedAvatar v);
                   new_goal := None |}).
  quiet.
Qed.

Lemma handleDeleteUser_quiet refusal v :
  leaves (on_world (G 0)) (handleDeleteUser (N:=N) refusal v).
Proof. unfold handleDeleteUser, auth_admin_deleteUser, throw_error. quiet. Qed.

Lemma fetchLesson_once JSON_stringify as_LessonContent i :
  (forall s w, G 0 w (set_storage s w)) ->
  leaves (on_world (G 1)) (fetchLesson (N:=N) JSON_stringify as_LessonContent i).
Proof.
  intros Hs. unfold fetchLesson.
  pose proof generateLessonContent_once. spend.
Qed.

End WorldBudget.

Lemma kept_refl {N} (w : world N) : kept w w.
Proof. intros key v Hv. split; [by exists v | done]. Qed.

Lemma kept_same {N} (w w' : world N) : storage w' = storage w -> kept w w'.
Proof. intros E key v Hv. rewrite E. split; [by exists v | done]. Qed.

Lemma kept_trans {N} (x y z : world N) : kept x y -> kept y z -> kept x z.
Proof.
  intros Hxy Hyz key v Hv. destruct (Hxy key v Hv) as [[v' Hv'] Hkeep].
  destruct (Hyz key v' Hv') as [Hsome _]. split; [done|].
  intros Ht. specialize (Hkeep Ht). by apply (Hyz key v Hkeep).
Qed.

Lemma world_graded_kept {N} : world_graded (fun _ : nat => @kept N).
Proof.
  split; [split|..]; intros.
  - apply kept_refl.
  - done.
  - by eapply kept_trans.
  - by apply kept_same.
  - by apply kept_same.
  - by apply kept_same.
Qed.

Lemma world_graded_sends {N} : world_graded (@sends N).
Proof.
  split; [split|..]; unfold sends.
  - intros s. exists []. by rewrite app_nil_r.
  - intros a b x y Hab (l & E & Hl). exists l. split; [done|lia].
  - intros a b x y z (l & E & Hl) (k & F & Hk). exists (l ++ k).
    rewrite F, E, <- app_assoc, length_app. split; [done|lia].
  - intros d w. exists []. by rewrite app_nil_r.
  - intros t w. exists []. by rewrite app_nil_r.
  - intros r w. exists [r]. split; [done|simpl; lia].
Qed.

(* ===================================================================== *)
(** * The application: the steps that call the endpoint *)
(* ===================================================================== *)

Section AppFacts.
Context {N : Type} `{Arith N}.
Variable JSON_stringify : json -> jstring.
Variable as_LessonContent : json -> LessonContent.
Variable cast : json -> jstring + js_error.
Context (G : nat -> world N -> world N -> Prop) (HG : world_graded G).
Hypothesis fetchLesson_G :
  forall i, leaves (on_world (G 1)) (fetchLesson JSON_stringify as_LessonContent i).

Abbreviation transition' := (transition JSON_stringify as_LessonContent cast).
Abbreviation run' := (run JSON_stringify as_LessonContent cast).

Lemma run_flow_leaves n m (a : app (N:=N)) :
  leaves (on_world (G n)) m -> G n (the_world a) (the_world (run_flow m a)).
Proof.
  intros Hm. unfold run_flow. specialize (Hm (flow a, the_world a)).
  unfold on_world in Hm. by destruct (m _) as [r [f w]].
Qed.

Lemma run_view_leaves n i m (a : app (N:=N)) :
  leaves (on_world (G n)) m -> G n (the_world a) (the_world (run_view i m a)).
Proof.
  intros Hm. unfold run_view. specialize (Hm (view a, the_world a)).
  unfold on_world in Hm. by destruct (m _) as [r [f w]].
Qed.

Lemma run_list_leaves n m (a : app (N:=N)) :
  leaves (on_world (G n)) m -> G n (the_world a) (the_world (run_list m a)).
Proof.
  intros Hm. unfold run_list. specialize (Hm (list_view a, the_world a)).
  unfold on_world in Hm. by destruct (m _) as [r [f w]].
Qed.

Lemma run_roadmap_leaves n m (a : app (N:=N)) :
  leaves (on_world (G n)) m -> G n (the_world a) (the_world (run_roadmap m a)).
Proof.
  intros Hm. unfold run_roadmap.
  specialize (Hm (roadmap_view_of a, the_world a)).
  unfold on_world in Hm. by destruct (m _) as [r [f w]].
Qed.

Lemma run_profile_leaves n m (a : app (N:=N)) :
  leaves (on_world (G n)) m -> G n (the_world a) (the_world (run_profile m a)).
Proof.
  intros Hm. unfold run_profile.
  specialize (Hm (profile_view_of a, the_world a)).
  unfold on_world in Hm. by destruct (m _) as [r [f w]].
Qed.

Lemma run_admin_leaves n m (a : app (N:=N)) :
  leaves (on_world (G n)) m -> G n (the_world a) (the_world (run_admin m a)).
Proof.
  intros Hm. unfold run_admin.
  specialize (Hm (admin_view_of a, the_world a)).
  unfold on_world in Hm. by destruct (m _) as [r [f w]].
Qed.

Lemma here_within_1 (w : world N) : G 1 w w.
Proof.
  apply (g_mono G (wg_graded G HG) 0 1); [lia|]. apply (g_refl G (wg_graded G HG)).
Qed.

Lemma within_0_1 (w w' : world N) : G 0 w w' -> G 1 w w'.
Proof. apply (g_mono G (wg_graded G HG) 0 1). lia. Qed.

Lemma lesson_effect_leaves i (a : app (N:=N)) :
  G 1 (the_world a)
    (the_world (lesson_effect JSON_stringify as_LessonContent i a)).
Proof.
  unfold lesson_effect. destruct (user a); [|apply here_within_1].
  destruct (truthy i); [|apply here_within_1].
  apply (g_comp G (wg_graded G HG) 1 0 _
           (the_world (run_view i
                         (fetchLesson JSON_stringify as_LessonContent i) a))).
  - apply run_view_leaves, fetchLesson_G.
  - apply run_view_leaves, (checkCompletion_quiet G HG).
Qed.

Lemma lessons_list_effect_leaves t o (a : app (N:=N)) :
  G 0 (the_world a) (the_world (lessons_list_effect t o a)).
Proof.
  unfold lessons_list_effect.
  destruct (user a); [|apply (g_refl G (wg_graded G HG))].
  apply run_list_leaves, (fetchLessons_quiet G HG).
Qed.

Lemma roadmap_effect_leaves (a : app (N:=N)) :
  G 0 (the_world a) (the_world (roadmap_effect a)).
Proof.
  unfold roadmap_effect.
  destruct (user a); [|apply (g_refl G (wg_graded G HG))].
  apply run_roadmap_leaves, (fetchRoadmapData_quiet G HG).
Qed.

Lemma run_callback_leaves cb a :
  G 1 (the_world a)
    (the_world (run_callback JSON_stringify as_LessonContent cast cb a)).
Proof.
  destruct cb; simpl.
  - apply run_view_leaves, fetchLesson_G.
  - apply run_flow_leaves, (handleGenerateRoadmap_once G HG).
  - apply within_0_1, run_roadmap_leaves, (fetchRoadmapData_quiet G HG).
Qed.

(** A step that only sets the state of a component. *)
Lemma set_state_leaves {V} (f : V -> V) :
  leaves (on_world (G 0)) (set_state (N:=N) f).
Proof. apply (leaves_set_state G (wg_graded G HG)). Qed.

(** One transition makes the world move within budget 1. *)
Lemma transition_leaves a e : G 1 (the_world a) (the_world (transition' a e)).
Proof.
  destruct e as [| | i | | | timed_out order | i | | | | | refusal
                | i mail fullName | u shown | f | f | f | f | f];
    cbn [transition].
  - apply run_flow_leaves, (handleGoalSubmit_once G HG).
  - apply run_flow_leaves, (handleGenerateRoadmap_once G HG).
  - apply lesson_effect_leaves.
  - destruct (isCompleted (view a)); [apply here_within_1|].
    apply within_0_1, run_view_leaves, (handleMarkComplete_quiet G HG).
  - apply within_0_1, run_view_leaves, (completeTest_quiet G HG).
  - apply within_0_1, lessons_list_effect_leaves.
  - destruct (toasts (the_world a) !! i) as [t|]; [|apply here_within_1].
    destruct (toast_action t ≫= onClick_of) as [cb|]; [|apply here_within_1].
    apply run_callback_leaves.
  - apply within_0_1, roadmap_effect_leaves.
  - destruct (_ && _); [|apply here_within_1].
    apply within_0_1, run_roadmap_leaves, (handleDeleteRoadmap_quiet G HG).
  - destruct (_ && _); [|apply here_within_1].
    apply run_roadmap_leaves, (handleAlterRoadmap_once G HG).
  - destruct (_ && _); [|apply here_within_1].
    apply within_0_1, run_profile_leaves, (handleSave_quiet G HG).
  - destruct (deleteModalOpen _); [|apply here_within_1].
    apply within_0_1, run_admin_leaves, (handleDeleteUser_quiet G HG).
  - apply within_0_1. cbn. apply (wg_db G HG).
  - cbv zeta. destruct shown as [|timed_out order| |].
    + apply (lesson_effect_leaves _ (set_user u a)).
    + apply within_0_1, (lessons_list_effect_leaves _ _ (set_user u a)).
    + apply within_0_1, (roadmap_effect_leaves (set_user u a)).
    + apply here_within_1.
  - apply within_0_1, run_flow_leaves, set_state_leaves.
  - apply within_0_1, run_view_leaves, set_state_leaves.
  - apply within_0_1, run_roadmap_leaves, set_state_leaves.
  - apply within_0_1, run_profile_leaves, set_state_leaves.
  - apply within_0_1, run_admin_leaves, set_state_leaves.
Qed.

(** A transition that is not among those that can call the endpoint moves
    the world within budget 0. *)
Lemma transition_quiet a e :
  may_request e = false -> G 0 (the_world a) (the_world (transition' a e)).
Proof.
  destruct e as [| | i | | | timed_out order | i | | | | | refusal
                | i mail fullName | u shown | f | f | f | f | f];
    cbn [transition may_request]; try discriminate; intros Hquiet.
  - destruct (isCompleted (view a)); [apply (g_refl G (wg_graded G HG))|].
    apply run_view_leaves, (handleMarkComplete_quiet G HG).
  - apply run_view_leaves, (completeTest_quiet G HG).
  - apply lessons_list_effect_leaves.
  - apply roadmap_effect_leaves.
  - destruct (_ && _); [|apply (g_refl G (wg_graded G HG))].
    apply run_roadmap_leaves, (handleDeleteRoadmap_quiet G HG).
  - destruct (_ && _); [|apply (g_refl G (wg_graded G HG))].
    apply run_profile_leaves, (handleSave_quiet G HG).
  - destruct (deleteModalOpen _); [|apply (g_refl G (wg_graded G HG))].
    apply run_admin_leaves, (handleDeleteUser_quiet G HG).
  - cbn. apply (wg_db G HG).
  - cbv zeta. destruct shown as [|timed_out order| |].
    + unfold lesson_effect. cbn [user set_user].
      destruct u; [discriminate|]. apply (g_refl G (wg_graded G HG)).
    + apply (lessons_list_effect_leaves _ _ (set_user u a)).
    + apply (roadmap_effect_leaves (set_user u a)).
    + apply (g_refl G (wg_graded G HG)).
  - apply run_flow_leaves, set_state_leaves.
  - apply run_view_leaves, set_state_leaves.
  - apply run_roadmap_leaves, set_state_leaves.
  - apply run_profile_leaves, set_state_leaves.
  - apply run_admin_leaves, set_state_leaves.
Qed.

(** A sequence of transitions moves it within the sum of the budgets. *)
Lemma run_leaves events a :
  G (length events) (the_world a) (the_world (run' a events)).
Proof.
  revert a. induction events as [|e events IH]; intros a.
  - apply (g_refl G (wg_graded G HG)).
  - simpl. change (S (length events)) with (1 + length events).
    eapply (g_comp G (wg_graded G HG)); [apply (transition_leaves a e)|apply IH].
Qed.

(** Only the steps that can call the endpoint spend from the budget. *)
Lemma run_requests events a :
  G (length (List.filter may_request events))
    (the_world a) (the_world (run' a events)).
Proof.
  revert a. induction events as [|e events IH]; intros a.
  - apply (g_refl G (wg_graded G HG)).
  - cbn [List.filter run foldl]. destruct (may_request e) eqn:He.
    + change (length (e :: List.filter may_request events))
        with (1 + length (List.filter may_request events)).
      eapply (g_comp G (wg_graded G HG));
        [apply (transition_leaves a e)|apply IH].
    + change (length (List.filter may_request events))
        with (0 + length (List.filter may_request events)).
      eapply (g_comp G (wg_graded G HG));
        [apply (transition_quiet a e He)|apply IH].
Qed.

End AppFacts.

(* ===================================================================== *)
(** * Requests are issued once *)
(* ===================================================================== *)

Section Requests.
Context {N : Type} `{Arith N}.
Variable JSON_stringify : json -> jstring.
Variable as_LessonContent : json -> LessonContent.
Variable cast : json -> jstring + js_error.

Lemma request_catch_world e (w : world N) : snd (request_catch e w) = w.
Proof.
  unfold request_catch. destruct (Js.eqb _ _); [done|].
  destruct (message e) as [m|]; [|done]. by destruct (includes m _).
Qed.

Lemma request_body_world prompt timeout (w : world N) :
  snd (request_body prompt timeout w) = w \/
  snd (request_body prompt timeout w)
  = log_fetch {| prompt := prompt; timeout := timeout |} w.
Proof.
  cbv [request_body bind gets fetch].
  destruct (negb (truthy (or_else (GEMINI_API_KEY w) []))); [by left|].
  right. destruct (net w _) as [e|r]; [done|].
  destruct (negb (ok r)).
  { repeat match goal with
           | |- context [if ?c then _ else _] => destruct c
           end; done. }
  repeat match goal with
         | |- context [match ?x with _ => _ end] => destruct x
         end; done.
Qed.

Lemma makeGeminiRequest_world prompt timeout (w : world N) :
  snd (makeGeminiRequest prompt timeout w) = w \/
  snd (makeGeminiRequest prompt timeout w)
  = log_fetch {| prompt := prompt; timeout := timeout |} w.
Proof.
  unfold makeGeminiRequest, try_catch.
  pose proof (request_body_world prompt timeout w) as Hb.
  destruct (request_body prompt timeout w) as [[v|e] w']; simpl in *; [done|].
  by rewrite request_catch_world.
Qed.



End Requests.

(** A request that the timeout aborts: one call of [fetch], then the
    timeout error. *)
Example makeGeminiRequest_aborted :
  makeGeminiRequest (lit "prompt") 15000 (world_of empty_db aborted)
  = (Throw (Error msg_timeout),
     log_fetch {| prompt := lit "prompt"; timeout := 15000 |}
       (world_of empty_db aborted)).
Proof. reflexivity. Qed.

(* ===================================================================== *)
(** * The lesson view: the score of a test *)
(* ===================================================================== *)

Lemma binary64_agrees_below_40 : binary64_agrees_below 40 = true.
Proof. vm_compute. reflexivity. Qed.

Lemma count_correct_from pre questions userAnswers acc :
  count_correct questions userAnswers (length pre) acc
  = (acc + Z.of_nat
       (length (filter (fun i => answered_correctly (pre ++ questions) userAnswers i = true)
                  (seq (length pre) (length questions)))))%Z.
Proof.
  revert pre acc. induction questions as [|q questions IH]; intros pre acc.
  - simpl. lia.
  - simpl count_correct. 
    replace (S (length pre)) with (length (pre ++ [q])) by (rewrite length_app; simpl; lia).
    rewrite IH. rewrite <- app_assoc. simpl seq.
    rewrite filter_cons.
    assert (answered_correctly (pre ++ q :: questions) userAnswers (length pre)
            = Js.eqb (normalised (mjoin (userAnswers !! length pre)))
                (normalised (answer q))) as ->.
    { unfold answered_correctly. by rewrite list_lookup_middle. }
    rewrite length_app. simpl. rewrite Nat.add_1_r.
    destruct (Js.eqb _ _) eqn:E.
    + rewrite decide_True by done. simpl. lia.
    + rewrite decide_False by done. lia.
Qed.

Lemma exact_score c n :
  (1 <= n)%Z ->
  Math_round (mul (div (of_Z c) (of_Z n)) (of_Z 100 : Exact.num))
  = Some (round_percent c n).
Proof.
  intros Hn. simpl. unfold Exact.quot.
  destruct (decide _) as [E|_].
  { apply Q2Qc_eq_iff in E. unfold Qeq in E. simpl in E. lia. }
  simpl. f_equal. unfold round_percent. apply Qfloor_comp.
  unfold Qcdiv, Qcinv, Q2Qc. simpl this. rewrite !Qred_correct.
  rewrite (Qmake_Qdiv (100 * c)), Z2Pos.id by lia. rewrite inject_Z_mult.
  field. intros E. unfold Qeq in E. simpl in E. lia.
Qed.

Lemma binary64_score c n :
  1 <= n < 40 -> c <= n ->
  Math_round (mul (div (of_Z (Z.of_nat c)) (of_Z (Z.of_nat n)))
                (of_Z 100 : spec_float))
  = Some (round_percent (Z.of_nat c) (Z.of_nat n)).
Proof.
  intros Hn Hc. pose proof binary64_agrees_below_40 as Hall.
  unfold binary64_agrees_below in Hall.
  rewrite forallb_forall in Hall.
  specialize (Hall n). rewrite in_seq in Hall.
  specialize (Hall ltac:(lia)). rewrite forallb_forall in Hall.
  specialize (Hall c). rewrite in_seq in Hall.
  specialize (Hall ltac:(lia)). by apply bool_decide_eq_true in Hall.
Qed.

Lemma correct_count_le questions userAnswers :
  correct_count questions userAnswers <= length questions.
Proof.
  unfold correct_count.
  etrans; [apply length_filter|]. by rewrite length_seq.
Qed.

Section Score.
Context {N : Type} `{Arith N}.

Lemma completeTest_score user lessonId v (w : world N) content :
  lessonContent v = Some content ->
  view_score (fst (snd (completeTest user lessonId v (v, w))))
  = finalScore (assessmentQuestions content) (userAnswers v).
Proof.
  intros Hc. unfold completeTest. rewrite Hc.
  cbv [try_catch bind non_null ret set_state modify lift query read throw showSuccess showError].
  simpl.
  destruct user as [u|]; simpl; [|done].
  destruct (upsert_completion _ _) as [r d]; simpl.
  destruct (lesson v) as [l|]; simpl; [|done].
  destruct (data (single _)) as [p|]; simpl; done.
Qed.
End Score.

Lemma filter_map_preserving {A} (P : A -> Prop) `{forall x, Decision (P x)}
  (g : A -> A) (l : list A) :
  (forall x, P (g x) <-> P x) -> filter P (map g l) = map g (filter P l).
Proof.
  intros Hg. induction l as [|x l IH]; [done|].
  simpl. rewrite !filter_cons. specialize (Hg x).
  repeat case_decide; simpl; rewrite ?IH; tauto.
Qed.

Section Progress.
Context {N : Type} `{Arith N}.

Lemma progress_of_update f (d : database N) u r p :
  (forall x, progress_user_id (f x) = progress_user_id x /\
             progress_roadmap_id (f x) = progress_roadmap_id x) ->
  progress_of d u r = [p] ->
  progress_of (snd (update_progress f (row_id p) d)) u r
  = [{| row_id := row_id p; row_data := f (row_data p) |}].
Proof.
  intros Hf Hp. unfold progress_of, update_progress in *. simpl.
  rewrite filter_map_preserving.
  - rewrite Hp. simpl. by rewrite decide_True.
  - intros x. destruct (decide (row_id x = row_id p)); [|done].
    simpl. destruct (Hf (row_data x)) as [-> ->]. done.
Qed.

Lemma progress_of_upsert row (d : database N) u r :
  progress_of (snd (upsert_completion row d)) u r = progress_of d u r.
Proof.
  unfold upsert_completion. by destruct (completions_of d _ _).
Qed.

Lemma progress_update_ids s (x : ProgressData N) :
  progress_user_id (progress_update s x) = progress_user_id x /\
  progress_roadmap_id (progress_update s x) = progress_roadmap_id x.
Proof. done. Qed.

(** What the two handlers do to the progress record *)
Lemma handleMarkComplete_progress u lessonId v (w : world N) l p :
  lesson v = Some l ->
  progress_of (db w) (uid u) (roadmap_id (row_data l)) = [p] ->
  progress_of (db (snd (snd (handleMarkComplete (Some u) lessonId v (v, w)))))
    (uid u) (roadmap_id (row_data l))
  = [{| row_id := row_id p;
        row_data := progress_update (Some 100%Z) (row_data p) |}].
Proof.
  intros Hl Hp. unfold handleMarkComplete. rewrite Hl.
  cbv [try_catch bind non_null ret set_state modify lift query read throw
       showSuccess showError].
  simpl.
  destruct (upsert_completion _ (db w)) as [r d] eqn:E. simpl.
  assert (progress_of d (uid u) (roadmap_id (row_data l)) = [p]) as Hp'.
  { replace d with (snd (upsert_completion
       {| user_id := uid u; lesson_id := lessonId; score := Some 100%Z;
          time_spent := 30; completion_answers := [] |} (db w)))
      by (by rewrite E).
    by rewrite progress_of_upsert. }
  rewrite Hp'. simpl.
  apply (progress_of_update (progress_update (Some 100%Z)) d); [|done].
  apply progress_update_ids.
Qed.
End Progress.

(* ===================================================================== *)
(** * The lesson view: the running mean *)
(* ===================================================================== *)

Section Mean.

Lemma zq_plus a b : (zq (a + b) = zq a + zq b)%Qc.
Proof.
  apply Qc_is_canon. unfold zq. simpl.
  rewrite !Qred_correct, inject_Z_plus. reflexivity.
Qed.

Lemma zq_nonzero z : z <> 0%Z -> zq z <> 0%Qc.
Proof.
  intros Hz E. apply Q2Qc_eq_iff in E. unfold Qeq in E. simpl in E. lia.
Qed.

Lemma exact_falsy_or_zero (a : Qc) :
  (if falsy (Some a : Exact.num) then of_Z 0 else Some a) = Some a.
Proof.
  simpl. case_bool_decide as E; [|done]. rewrite E. reflexivity.
Qed.

Lemma exact_progress_update s (x : ProgressData Exact.num) a :
  (0 <= completed_lessons x)%Z ->
  average_accuracy x = Some a ->
  average_accuracy (progress_update (Some s) x)
  = Some ((a * zq (completed_lessons x) + zq s)
          / zq (completed_lessons x + 1))%Qc.
Proof.
  intros Hc Ha. unfold progress_update. cbn [average_accuracy].
  rewrite Ha, exact_falsy_or_zero. simpl.
  unfold Exact.quot. fold (zq (completed_lessons x + 1)).
  destruct (decide _) as [E|_]; [|done].
  by apply zq_nonzero in E; [|lia].
Qed.

Lemma after_completions_exact scores (x : ProgressData Exact.num) a :
  (0 <= completed_lessons x)%Z ->
  average_accuracy x = Some a ->
  completed_lessons (after_completions scores x)
  = (completed_lessons x + Z.of_nat (length scores))%Z /\
  total_time_spent (after_completions scores x)
  = (total_time_spent x + 30 * Z.of_nat (length scores))%Z /\
  exists a',
    average_accuracy (after_completions scores x) = Some a' /\
    (a' * zq (completed_lessons x + Z.of_nat (length scores))
     = a * zq (completed_lessons x) + zq (sum_scores scores))%Qc.
Proof.
  revert x a. induction scores as [|s scores IH]; intros x a Hc Ha.
  - unfold after_completions. cbn [foldl length sum_scores foldr].
    change (Z.of_nat 0) with 0%Z. rewrite !Z.add_0_r.
    split; [done|]. split; [lia|].
    exists a. split; [done|]. change (zq 0) with 0%Qc. ring.
  - unfold after_completions. simpl foldl.
    fold (after_completions scores (progress_update (Some s) x)).
    pose proof (exact_progress_update s x a Hc Ha) as Hstep.
    destruct (IH (progress_update (Some s) x) _ ltac:(simpl; lia) Hstep)
      as (Hn & Ht & a' & Ha' & Hmean).
    cbn [completed_lessons total_time_spent progress_update] in Hn, Ht, Hmean.
    cbn [length sum_scores foldr]. fold (sum_scores scores).
    rewrite Hn, Ht. split; [lia|]. split; [lia|].
    exists a'. split; [done|].
    replace (completed_lessons x + Z.of_nat (S (length scores)))%Z
      with (completed_lessons x + 1 + Z.of_nat (length scores))%Z by lia.
    rewrite Hmean. rewrite (zq_plus s).
    field. apply zq_nonzero. lia.
Qed.

Lemma mean_of_completions scores (x : ProgressData Exact.num) :
  scores <> [] ->
  completed_lessons x = 0%Z ->
  average_accuracy x = of_Z 0 ->
  completed_lessons (after_completions scores x) = Z.of_nat (length scores) /\
  total_time_spent (after_completions scores x)
  = (total_time_spent x + 30 * Z.of_nat (length scores))%Z /\
  average_accuracy (after_completions scores x) = Some (mean scores).
Proof.
  intros Hs Hc Ha.
  destruct (after_completions_exact scores x 0%Qc ltac:(lia) Ha)
    as (Hn & Ht & a' & Ha' & Hmean).
  rewrite Hc, Z.add_0_l in *. split; [done|]. split; [done|].
  rewrite Ha'. f_equal. unfold mean.
  assert (zq (Z.of_nat (length scores)) <> 0%Qc) as Hk.
  { apply zq_nonzero. destruct scores; [done|]. simpl. lia. }
  transitivity ((a' * zq (Z.of_nat (length scores)))
                / zq (Z.of_nat (length scores)))%Qc; [by field|].
  rewrite Hmean. by field.
Qed.
End Mean.

Section Completion.
Context {N : Type} `{Arith N}.

Lemma completeTest_progress u lessonId v (w : world N) l p content :
  lesson v = Some l ->
  lessonContent v = Some content ->
  progress_of (db w) (uid u) (roadmap_id (row_data l)) = [p] ->
  progress_of (db (snd (snd (completeTest (Some u) lessonId v (v, w)))))
    (uid u) (roadmap_id (row_data l))
  = [{| row_id := row_id p;
        row_data :=
          progress_update
            (finalScore (assessmentQuestions content) (userAnswers v))
            (row_data p) |}].
Proof.
  intros Hl Hc Hp. unfold completeTest. rewrite Hl, Hc.
  cbv [try_catch bind non_null ret set_state modify lift query read throw
       showSuccess showError].
  simpl.
  destruct (upsert_completion _ (db w)) as [r d] eqn:E. simpl.
  assert (progress_of d (uid u) (roadmap_id (row_data l)) = [p]) as Hp'.
  { replace d with (snd (upsert_completion
       {| user_id := uid u; lesson_id := lessonId;
          score := finalScore (assessmentQuestions content) (userAnswers v);
          time_spent := 30; completion_answers := userAnswers v |} (db w)))
      by (by rewrite E).
    by rewrite progress_of_upsert. }
  rewrite Hp'. simpl.
  apply (progress_of_update
           (progress_update
              (finalScore (assessmentQuestions content) (userAnswers v))) d);
    [|done].
  apply progress_update_ids.
Qed.

End Completion.

(** C9.  For a test with n >= 1 questions [completeTest] sets
    the score to Math.round((c / n) * 100), where the loop counts in c the
    indices at which the answer given, trimmed and lower-cased (the empty
    string when there is none), is equal to the stored answer, trimmed and
    lower-cased (the empty string when there is none).  That is
    round(100 * c / n) in exact arithmetic, and in the binary64 arithmetic
    of the program whenever n < 40.  A question whose answer does not match
    never counts; a question without answer counts exactly when the stored
    answer is empty after trimming, or missing. *)
Theorem C9_score_of_a_test (questions : list Question)
  (answers : list (option jstring)) :
  1 <= length questions ->
  count_correct questions answers 0 0
  = Z.of_nat (correct_count questions answers) /\
  finalScore (N:=Exact.num) questions answers
  = Some (round_percent (Z.of_nat (correct_count questions answers))
            (Z.of_nat (length questions))) /\
  (length questions < 40 ->
   finalScore (N:=spec_float) questions answers
   = Some (round_percent (Z.of_nat (correct_count questions answers))
             (Z.of_nat (length questions)))) /\
  (forall i q, questions !! i = Some q ->
     answered_correctly questions answers i = true <->
     normalised (mjoin (answers !! i)) = normalised (answer q)) /\
  (forall i q, questions !! i = Some q -> mjoin (answers !! i) = None ->
     answered_correctly questions answers i = true <->
     normalised (answer q) = []) /\
  (forall N (HA : Arith N) user lessonId v (w : world N) content,
     lessonContent v = Some content ->
     assessmentQuestions content = questions ->
     userAnswers v = answers ->
     view_score (fst (snd (completeTest user lessonId v (v, w))))
     = finalScore questions answers).
Proof.
  intros Hn.
  assert (count_correct questions answers 0 0
          = Z.of_nat (correct_count questions answers)) as Hcount.
  { pose proof (count_correct_from [] questions answers 0) as X.
    cbn [length List.app] in X. rewrite X. unfold correct_count. lia. }
  assert (forall i q, questions !! i = Some q ->
            answered_correctly questions answers i = true <->
            normalised (mjoin (answers !! i)) = normalised (answer q)) as Hat.
  { intros i q Hq. unfold answered_correctly, Js.eqb. rewrite Hq.
    apply bool_decide_eq_true. }
  split; [done|]. split; [|split; [|split; [done|split]]].
  - unfold finalScore. rewrite Hcount. apply exact_score. lia.
  - intros Hlt. unfold finalScore. rewrite Hcount.
    apply binary64_score; [lia|apply correct_count_le].
  - intros i q Hq Hnone. rewrite (Hat i q Hq), Hnone.
    change (normalised None) with (@nil ascii). split; intros E; congruence.
  - intros N HA user lessonId v w content Hc <- <-.
    by apply completeTest_score.
Qed.

(** Two questions, one of them answered correctly: the score is 50. *)
Lemma C9_witness :
  count_correct two_questions two_answers 0 0 = 1%Z /\
  finalScore (N:=Exact.num) two_questions two_answers = Some 50%Z /\
  finalScore (N:=spec_float) two_questions two_answers = Some 50%Z.
Proof.
  destruct (C9_score_of_a_test two_questions two_answers ltac:(simpl; lia))
    as (Hc & He & Hb & _).
  split; [|split].
  - rewrite Hc. reflexivity.
  - rewrite He. reflexivity.
  - rewrite Hb by (simpl; lia). reflexivity.
Defined.

(** The claim as stated fails in two ways.  A question that was not
    answered counts as correct when its stored answer is empty: both sides
    of the comparison are the empty string, and the score is 100.  And the
    score is computed as (c / n) * 100 in binary64: for 23 correct answers
    out of 40 the quotient 0.575 is not a binary64 number, the product is
    57.49999999999999 and its rounding is 57, while round(100 * 23 / 40)
    is 58. *)
Lemma C9_counterexample :
  (mjoin (([] : list (option jstring)) !! 0) = None /\
   answered_correctly blank_question [] 0 = true /\
   finalScore (N:=spec_float) blank_question [] = Some 100%Z) /\
  (length forty_questions = 40 /\
   correct_count forty_questions forty_answers = 23 /\
   round_percent 23 40 = 58%Z /\
   finalScore (N:=spec_float) forty_questions forty_answers = Some 57%Z).
Proof. vm_compute. repeat split; reflexivity. Qed.

(** C10.  Both completion handlers replace the progress record of the user
    and the roadmap of the lesson by [progress_update] of it, with score
    100 for [handleMarkComplete] and the score of the test for
    [completeTest]: completed_lessons goes up by one, total_time_spent by
    30, and the new average is (old average * old count + score) / (old
    count + 1).  In exact arithmetic, from average 0 and count 0, the
    average after the completions with scores s1..sk is their arithmetic
    mean. *)
Theorem C10_running_mean :
  (forall N (HA : Arith N) (s : option Z) (x : ProgressData N),
     completed_lessons (progress_update s x) = (completed_lessons x + 1)%Z /\
     total_time_spent (progress_update s x) = (total_time_spent x + 30)%Z /\
     average_accuracy (progress_update s x)
     = div (add (mul (if falsy (average_accuracy x) then of_Z 0
                      else average_accuracy x)
                   (of_Z (completed_lessons x)))
              (of_score s))
         (of_Z (completed_lessons x + 1))) /\
  (forall N (HA : Arith N) u lessonId v (w : world N) l p,
     lesson v = Some l ->
     progress_of (db w) (uid u) (roadmap_id (row_data l)) = [p] ->
     progress_of (db (snd (snd (handleMarkComplete (Some u) lessonId v (v, w)))))
       (uid u) (roadmap_id (row_data l))
     = [{| row_id := row_id p;
           row_data := progress_update (Some 100%Z) (row_data p) |}]) /\
  (forall N (HA : Arith N) u lessonId v (w : world N) l p content,
     lesson v = Some l ->
     lessonContent v = Some content ->
     progress_of (db w) (uid u) (roadmap_id (row_data l)) = [p] ->
     progress_of (db (snd (snd (completeTest (Some u) lessonId v (v, w)))))
       (uid u) (roadmap_id (row_data l))
     = [{| row_id := row_id p;
           row_data :=
             progress_update
               (finalScore (assessmentQuestions content) (userAnswers v))
               (row_data p) |}]) /\
  (forall (scores : list Z) (x : ProgressData Exact.num),
     scores <> [] ->
     completed_lessons x = 0%Z ->
     average_accuracy x = of_Z 0 ->
     completed_lessons (after_completions scores x) = Z.of_nat (length scores) /\
     total_time_spent (after_completions scores x)
     = (total_time_spent x + 30 * Z.of_nat (length scores))%Z /\
     average_accuracy (after_completions scores x) = Some (mean scores)).
Proof.
  split; [|split; [|split]].
  - intros N HA s x. done.
  - intros N HA u lessonId v w l p. apply handleMarkComplete_progress.
  - intros N HA u lessonId v w l p content. apply completeTest_progress.
  - apply mean_of_completions.
Qed.

(** Two completions with scores 100 and 50 from a fresh progress record. *)
Lemma C10_witness :
  average_accuracy
    (after_completions [100%Z; 50%Z]
       (initial_progress (N:=Exact.num) (lit "user-1") (lit "roadmap-1") 2))
  = Some (mean [100%Z; 50%Z]).
Proof.
  apply (proj2 (proj2 (proj2 C10_running_mean)) [100%Z; 50%Z]
           (initial_progress (N:=Exact.num) (lit "user-1") (lit "roadmap-1") 2));
    [discriminate | reflexivity | reflexivity].
Defined.

(** C3, the input on which the code departs from the claim.  The counter
    matches the records in the store after onboarding, and still after the
    user marks the lesson complete.  When the user then takes the test of
    the same lesson, the completion record stays single and
    [completeTest] raises the counter to 2. *)
Theorem C3_second_completion_breaks_the_counter :
  counter_matches_records (db (the_world the_app)) /\
  counter_matches_records (db (the_world after_mark_complete)) /\
  isCompleted (view after_mark_complete) = true /\
  completion_records (db (the_world after_test)) (lit "user-1") (lit "roadmap-1")
  = 1 /\
  completed_lessons <$> (row_data <$> user_progress (db (the_world after_test)))
  = [2%Z] /\
  ~ counter_matches_records (db (the_world after_test)).
Proof.
  split; [|split; [|split; [|split; [|split]]]].
  - intros p Hp. vm_compute in Hp. apply list_elem_of_singleton in Hp as ->.
    vm_compute. reflexivity.
  - intros p Hp. vm_compute in Hp. apply list_elem_of_singleton in Hp as ->.
    vm_compute. reflexivity.
  - vm_compute. reflexivity.
  - vm_compute. reflexivity.
  - vm_compute. reflexivity.
  - intros Hinv.
    assert (exists p, p ∈ user_progress (db (the_world after_test))
                      /\ completed_lessons (row_data p) = 2%Z) as (p & Hp & H2).
    { eexists. split; [vm_compute; apply list_elem_of_here|reflexivity]. }
    specialize (Hinv p Hp). rewrite H2 in Hinv.
    vm_compute in Hp. apply list_elem_of_singleton in Hp as ->.
    vm_compute in Hinv. discriminate.
Qed.

Section LessonsOf.

(** The rows of the weeks from position [k] on. *)
Lemma lessons_of_cons roadmapId week rest :
  lessons_of roadmapId (week :: rest)
  = imap (lesson_of_topic roadmapId 0) (topics week)
    ++ concat (imap (fun weekIndex w =>
                       imap (lesson_of_topic roadmapId (S weekIndex)) (topics w))
                 rest).
Proof. reflexivity. Qed.

Lemma rows_from_length roadmapId k weeks :
  length (concat (imap (fun weekIndex w =>
                          imap (lesson_of_topic roadmapId (k + weekIndex))
                            (topics w)) weeks))
  = total_topics weeks.
Proof.
  revert k. induction weeks as [|week rest IH]; intros k; [done|].
  simpl. rewrite length_app, length_imap. f_equal.
  rewrite <- (IH (S k)). f_equal. f_equal. apply imap_ext.
  intros i w _. simpl. by rewrite Nat.add_succ_r.
Qed.

Lemma rows_from_lookup roadmapId k weeks w t week topic :
  weeks !! w = Some week ->
  topics week !! t = Some topic ->
  concat (imap (fun weekIndex w =>
                  imap (lesson_of_topic roadmapId (k + weekIndex)) (topics w))
            weeks)
    !! (total_topics (take w weeks) + t)
  = Some (lesson_of_topic roadmapId (k + w) t topic).
Proof.
  revert k w. induction weeks as [|wk rest IH]; intros k w Hw Ht; [done|].
  destruct w as [|w]; simpl in *.
  - injection Hw as ->. rewrite lookup_app_l.
    + rewrite list_lookup_imap, Ht. simpl. by rewrite Nat.add_0_r.
    + rewrite length_imap. by apply lookup_lt_Some in Ht.
  - rewrite lookup_app_r; rewrite length_imap; [|lia].
    replace (length (topics wk) + total_topics (take w rest) + t - length (topics wk))
      with (total_topics (take w rest) + t) by lia.
    replace (k + S w) with (S k + w) by lia.
    rewrite <- (IH (S k) w Hw Ht). f_equal. f_equal. apply imap_ext.
    intros i x _. simpl. by rewrite Nat.add_succ_r.
Qed.

Lemma rows_from_origin roadmapId k weeks i l :
  concat (imap (fun weekIndex w =>
                  imap (lesson_of_topic roadmapId (k + weekIndex)) (topics w))
            weeks) !! i = Some l ->
  exists w t week topic,
    weeks !! w = Some week /\ topics week !! t = Some topic /\
    i = total_topics (take w weeks) + t /\
    l = lesson_of_topic roadmapId (k + w) t topic.
Proof.
  revert k i. induction weeks as [|wk rest IH]; intros k i Hi; [done|].
  simpl in Hi. apply lookup_app_Some in Hi as [Hi|[Hge Hi]].
  - rewrite list_lookup_imap in Hi.
    destruct (topics wk !! i) as [topic|] eqn:Ht; [|done].
    injection Hi as <-. exists 0, i, wk, topic.
    rewrite Nat.add_0_r. by repeat split.
  - rewrite length_imap in Hge, Hi.
    rewrite (imap_ext _ (fun weekIndex w =>
               imap (lesson_of_topic roadmapId (S k + weekIndex)) (topics w)))
      in Hi by (intros j x _; simpl; by rewrite Nat.add_succ_r).
    destruct (IH (S k) _ Hi) as (w & t & week & topic & Hw & Ht & Hidx & ->).
    exists (S w), t, week, topic. simpl.
    split; [done|]. split; [done|]. split; [lia|].
    by rewrite Nat.add_succ_r.
Qed.

Lemma lessons_of_origin roadmapId weeks i l :
  lessons_of roadmapId weeks !! i = Some l ->
  exists w t week topic,
    weeks !! w = Some week /\ topics week !! t = Some topic /\
    i = total_topics (take w weeks) + t /\
    l = lesson_of_topic roadmapId w t topic.
Proof. apply (rows_from_origin roadmapId 0). Qed.

Lemma lessons_of_length roadmapId weeks :
  length (lessons_of roadmapId weeks) = total_topics weeks.
Proof. apply (rows_from_length roadmapId 0). Qed.

Lemma lessons_of_lookup roadmapId weeks w t week topic :
  weeks !! w = Some week ->
  topics week !! t = Some topic ->
  lessons_of roadmapId weeks !! (total_topics (take w weeks) + t)
  = Some (lesson_of_topic roadmapId w t topic).
Proof. apply (rows_from_lookup roadmapId 0). Qed.

Lemma number_rows_data {D} n (rows : list D) :
  row_data <$> number_rows n rows = rows.
Proof.
  revert n. induction rows as [|r rows IH]; intros n; [done|].
  simpl. by rewrite IH.
Qed.

End LessonsOf.

Lemma filter_none {A} (P : A -> Prop) `{forall x, Decision (P x)} (l : list A) :
  (forall x, x ∈ l -> ~ P x) -> filter P l = [].
Proof.
  induction l as [|x l IH]; intros Hl; [done|].
  rewrite filter_cons_False by (apply Hl; left).
  apply IH. intros y Hy. apply Hl. by right.
Qed.

Section Run.
Context {W : Type}.

Lemma run_bind {A B} (m : M W A) (k : A -> M W B) s a s1 :
  m s = (Ok a, s1) -> bind m k s = k a s1.
Proof. intros E. unfold bind. by rewrite E. Qed.

Lemma run_bind_throw {A B} (m : M W A) (k : A -> M W B) s e s1 :
  m s = (Throw e, s1) -> bind m k s = (Throw e, s1).
Proof. intros E. unfold bind. by rewrite E. Qed.

End Run.

Section RunWorld.
Context {N : Type} {V : Type}.

Lemma run_lift {A} (m : M (world N) A) (v : V) w :
  lift m (v, w) = (fst (m w), (v, snd (m w))).
Proof. unfold lift. simpl. by destruct (m w). Qed.

Lemma run_lift_query {A} (q : database N -> A * database N) (v : V) w :
  lift (query q) (v, w) = (Ok (fst (q (db w))), (v, set_db (snd (q (db w))) w)).
Proof. unfold lift, query. simpl. by destruct (q (db w)). Qed.

Lemma run_lift_read {A} (q : database N -> A) (v : V) w :
  lift (read q) (v, w) = (Ok (q (db w)), (v, w)).
Proof. reflexivity. Qed.

Lemma run_set_state (f : V -> V) (v : V) (w : world N) :
  set_state f (v, w) = (Ok tt, (f v, w)).
Proof. reflexivity. Qed.

End RunWorld.

Section Payloads.
Variable cast : json -> jstring + js_error.

Lemma collect_Forall2 {A B E} (f : A -> B + E) l k :
  Forall2 (fun x y => f x = inl y) l k -> collect f l = inl k.
Proof.
  induction 1 as [|x y l k Hx _ IH]; [done|].
  simpl. by rewrite Hx, IH.
Qed.

Lemma accepts_collect ps rows :
  Forall2 (accepts cast) ps rows ->
  exists cells,
    collect (lesson_cells cast) ps = inl cells /\
    collect checked_lesson cells = inl rows.
Proof.
  induction 1 as [|p r ps rows (c & Hc & Hr) _ (cells & IH1 & IH2)].
  - by exists [].
  - exists (c :: cells). simpl. by rewrite Hc, IH1, Hr, IH2.
Qed.

Lemma insert_lessons_accepted {N} ps rows (d : database N) :
  Forall2 (accepts cast) ps rows ->
  insert_lessons cast ps d
  = (success None,
     set_next_id (next_id d + length rows)
       (set_lessons (lessons d ++ number_rows (next_id d) rows) d)).
Proof.
  intros (cells & H1 & H2)%accepts_collect.
  unfold insert_lessons. by rewrite H1, H2.
Qed.

Lemma text_cell_read v s :
  read_text v = Some s -> text_cell cast v = inl (Some s).
Proof.
  destruct v as [[]|]; try discriminate. simpl. by intros ->.
Qed.

Lemma read_text_property topic p s :
  read_text (property topic (lit p)) = Some s ->
  read_property topic p = Ok (property topic (lit p)).
Proof. by destruct topic. Qed.

Lemma topic_payload_read roadmapId weekIndex topicIndex t topic :
  read_topic t = Some topic ->
  exists p,
    topic_payload roadmapId weekIndex topicIndex t = Ok p /\
    accepts cast p (lesson_of_topic roadmapId weekIndex topicIndex topic).
Proof.
  unfold read_topic. intros Hread.
  destruct (read_text (property t (lit "title"))) as [a|] eqn:Ha;
    [|discriminate].
  destruct (read_text (property t (lit "lessonObjective"))) as [o|] eqn:Ho;
    [|discriminate].
  destruct (read_text (property t (lit "estimatedTime"))) as [e|] eqn:He;
    [|discriminate].
  simpl in Hread. injection Hread as <-.
  unfold topic_payload.
  rewrite (read_text_property _ _ _ Ha), (read_text_property _ _ _ Ho),
    (read_text_property _ _ _ He).
  eexists. split; [reflexivity|].
  unfold accepts, lesson_cells.
  cbn [payload_title payload_lesson_objective payload_estimated_time
       payload_roadmap_id payload_week_number payload_order_index].
  rewrite (text_cell_read _ _ Ha), (text_cell_read _ _ Ho),
    (text_cell_read _ _ He).
  eexists. split; reflexivity.
Qed.

Lemma topics_read roadmapId weekIndex k ts topics :
  Forall2 (fun t topic => read_topic t = Some topic) ts topics ->
  exists ps,
    map_from (topic_payload roadmapId weekIndex) k ts = Ok ps /\
    Forall2 (accepts cast) ps
      (imap (fun i => lesson_of_topic roadmapId weekIndex (k + i)) topics).
Proof.
  intros Hall. revert k.
  induction Hall as [|t topic ts topics Ht _ IH]; intros k.
  - by exists [].
  - destruct (topic_payload_read roadmapId weekIndex k t topic Ht)
      as (p & Hp & Hacc).
    destruct (IH (S k)) as (ps & Hps & Haccs).
    exists (p :: ps). split.
    + simpl. rewrite Hp. simpl. by rewrite Hps.
    + simpl. constructor.
      * by rewrite Nat.add_0_r.
      * erewrite imap_ext; [exact Haccs|].
        intros i x _. simpl. by rewrite Nat.add_succ_r.
Qed.

Lemma week_payloads_read callee m roadmapId weekIndex w week :
  read_week w = Some week ->
  exists ps,
    week_payloads callee m roadmapId weekIndex w = Ok ps /\
    Forall2 (accepts cast) ps (imap (lesson_of_topic roadmapId weekIndex) (topics week)).
Proof.
  unfold read_week, week_payloads. intros Hread.
  destruct (property w (lit "topics")) as [[| | | |ts|]|] eqn:Hp;
    try discriminate.
  destruct (mapM read_topic ts) as [l|] eqn:Hl; [|discriminate].
  injection Hread as <-. apply mapM_Some in Hl.
  destruct (topics_read roadmapId weekIndex 0 ts l Hl) as (ps & Hps & Hacc).
  exists ps. split; [|exact Hacc].
  assert (read_property w "topics" = Ok (Some (JArray ts))) as ->.
  { unfold read_property. rewrite Hp. by destruct w. }
  simpl. exact Hps.
Qed.

Lemma weeks_read callee m roadmapId k ws weeks :
  Forall2 (fun w week => read_week w = Some week) ws weeks ->
  exists groups,
    map_from (week_payloads callee m roadmapId) k ws = Ok groups /\
    Forall2 (accepts cast) (concat groups)
      (concat (imap (fun weekIndex week =>
                       imap (lesson_of_topic roadmapId (k + weekIndex))
                         (topics week))
                 weeks)).
Proof.
  intros Hall. revert k.
  induction Hall as [|w week ws weeks Hw _ IH]; intros k.
  - exists []. split; [done|constructor].
  - destruct (week_payloads_read callee m roadmapId k w week Hw)
      as (ps & Hps & Hacc).
    destruct (IH (S k)) as (groups & Hgroups & Haccs).
    exists (ps :: groups). split.
    + simpl. rewrite Hps. simpl. by rewrite Hgroups.
    + simpl. apply Forall2_app.
      * by rewrite Nat.add_0_r.
      * erewrite imap_ext; [exact Haccs|].
        intros i x _. simpl. by rewrite Nat.add_succ_r.
Qed.

(** A roadmap of the form asked for is read without error, and the store
    accepts its rows as they are. *)
Lemma lesson_payloads_read oc o ic i roadmapId roadmapData weeks :
  read_roadmap roadmapData = Some weeks ->
  exists ps,
    lesson_payloads oc o ic i roadmapId roadmapData = Ok ps /\
    Forall2 (accepts cast) ps (lessons_of roadmapId weeks).
Proof.
  unfold read_roadmap. destruct roadmapData as [| | | |ws|]; try discriminate.
  intros Hall%mapM_Some.
  destruct (weeks_read ic i roadmapId 0 ws weeks Hall) as (groups & Hg & Hacc).
  exists (concat groups). split; [|exact Hacc].
  unfold lesson_payloads. simpl. by rewrite Hg.
Qed.

End Payloads.

Section Generate.
Context {N : Type} `{Arith N}.
Variable cast : json -> jstring + js_error.

(** [updateProfile] returns with the profile stored, or throws with the
    store as it was and one notification more. *)
Lemma updateProfile_cases u updates (w : world N) :
  let d' := snd (upsert_profile (uid u) (or_else (user_email u) []) updates
                   (db w)) in
  updateProfile (Some u) updates w = (Ok tt, set_db d' w) \/
  exists e t, updateProfile (Some u) updates w
              = (Throw e, add_toast t (set_db d' w)).
Proof.
  unfold updateProfile, try_catch, bind, query.
  destruct (upsert_profile _ _ _ _) as [r d'] eqn:Hup. cbn [snd].
  unfold upsert_profile in Hup.
  destruct (bool_decide _) in Hup; injection Hup as <- <-.
  - right. eexists _, _. reflexivity.
  - left. reflexivity.
Qed.

Lemma insert_no_rows (d : database N) :
  set_next_id (next_id d + 0) (set_lessons (lessons d ++ []) d) = d.
Proof. destruct d. unfold set_next_id, set_lessons. simpl. f_equal; [apply app_nil_r|lia]. Qed.

(** The store after [handleGenerateRoadmap], for a reply of the form asked
    for. *)
Lemma handleGenerateRoadmap_run u v (w w1 : world N) roadmapData weeks :
  generateRoadmap (onboarding_goal v) (onboarding_answers v) w
  = (Ok roadmapData, w1) ->
  read_roadmap roadmapData = Some weeks ->
  (forall p, p ∈ user_progress (db w1) ->
             progress_roadmap_id (row_data p) <> fresh_id (db w1)) ->
  fst (handleGenerateRoadmap cast (Some u) v (v, w)) = Ok tt /\
  db (snd (snd (handleGenerateRoadmap cast (Some u) v (v, w))))
  = store_after_roadmap u v roadmapData weeks (db w1).
Proof.
  intros Hgen Hread Hfresh.
  unfold handleGenerateRoadmap.
  erewrite run_bind; [|apply run_set_state].
  unfold finally, try_catch.
  erewrite run_bind; [|rewrite run_lift, Hgen; reflexivity].
  erewrite run_bind; [|apply run_lift_query].
  cbn [insert_roadmap success error data fst snd].
  erewrite run_bind; [|reflexivity].
  erewrite run_bind; [|reflexivity].
  cbn [row_id db set_db].
  destruct (lesson_payloads_read cast "roadmapData.flatMap" "flatMap"
              "week.topics.map" "map" (fresh_id (db w1)) roadmapData weeks Hread)
    as (ps & Hps & Hacc).
  erewrite run_bind; [|unfold settle; rewrite Hps; reflexivity].
  unfold store_after_roadmap. cbv zeta. cbn [insert_roadmap snd].
  set (rows := lessons_of (fresh_id (db w1)) weeks) in *.
  set (d1 := set_next_id _ _).
  set (d2 := set_next_id (next_id d1 + length rows)
               (set_lessons (lessons d1 ++ number_rows (next_id d1) rows) d1)).
  assert (length ps = length rows) as Hlen by (by eapply Forall2_length).
  assert (progress_of d2 (uid u) (fresh_id (db w1)) = []) as Hnone.
  { unfold progress_of. apply filter_none. intros p Hp [_ Hr].
    by apply (Hfresh p). }
  assert (insert_progress
            (initial_progress (uid u) (fresh_id (db w1)) (length rows)) d2
          = (success None,
             set_next_id (S (next_id d2))
               (set_user_progress
                  (user_progress d2
                     ++ [{| row_id := fresh_id d2;
                            row_data := initial_progress (uid u)
                                          (fresh_id (db w1)) (length rows) |}])
                  d2))) as Hins.
  { unfold insert_progress. cbn [progress_user_id progress_roadmap_id initial_progress].
    by rewrite Hnone. }
  erewrite (run_bind (if 0 <? length ps then _ else _) _ _ tt
              (setOnboardingLoading true v, set_db d2 w1)).
  2:{ destruct (0 <? length ps) eqn:Hpos.
      - erewrite run_bind; [|apply run_lift_query].
        cbn [db set_db]. rewrite (insert_lessons_accepted cast ps rows d1 Hacc).
        reflexivity.
      - apply Nat.ltb_ge in Hpos.
        assert (rows = []) as Hnil.
        { destruct rows; [done|]. simpl in Hlen. lia. }
        subst d2. rewrite Hnil. cbn [number_rows length].
        rewrite insert_no_rows. reflexivity. }
  erewrite run_bind; [|apply run_lift_query].
  cbn [db set_db]. rewrite Hlen, Hins. cbn [fst snd error success].
  erewrite run_bind; [|reflexivity].
  set (d3 := set_next_id _ _).
  match goal with
  | |- context [bind (lift (updateProfile _ _)) _ (_, ?W)] =>
      destruct (updateProfile_cases u (goal_update (onboarding_goal v)) W)
        as [Hok | (e & t & Hthrow)]
  end.
  - erewrite run_bind; [|rewrite run_lift, Hok; reflexivity].
    split; reflexivity.
  - (* the e-mail address is taken: the profile is not stored *)
    erewrite run_bind_throw; [|rewrite run_lift, Hthrow; reflexivity].
    cbn [fst snd]. by destruct (includes _ _).
Qed.

End Generate.



(** The run of the witness: the reply of the example is parsed, read and
    stored. *)
Example three_lessons_example :
  let after := db (snd (snd (handleGenerateRoadmap strict_cast
                               (Some the_user) goal_flow
                               (goal_flow, roadmap_world)))) in
  map (fun l => (week_number (row_data l), order_index (row_data l),
                 title (row_data l))) (lessons after)
  = [(1, 0, lit "Variables"); (1, 1, lit "Functions"); (2, 0, lit "Closures")]%Z
  /\ map (fun p => total_lessons (row_data p)) (user_progress after) = [3%Z].
Proof. vm_compute. split; reflexivity. Qed.

(** A reply that is an array but not of weeks: the roadmap is stored, the
    reading of the topics throws, and no lesson and no progress record is
    created. *)
Example numbers_reply_example :
  let r := handleGenerateRoadmap strict_cast (Some the_user) goal_flow
             (goal_flow, numbers_world) in
  length (roadmaps (db (snd (snd r)))) = 1 /\
  lessons (db (snd (snd r))) = [] /\
  user_progress (db (snd (snd r))) = [] /\
  map toast_message (toasts (snd (snd r)))
  = [lit "Cannot read properties of undefined (reading 'map')"].
Proof. vm_compute. repeat split; reflexivity. Qed.

Section Dispatch.
Context {N : Type}.

(** [fetchLessons_with] only runs the way of awaiting it is given. *)
Lemma fetchLessons_with_ext
  (f g : id -> id -> M (lessons_list * world N) (result (list (Row LessonData)) * result (list (Row CompletionData))))
  timed_out user s :
  (forall roadmapId userId s', f roadmapId userId s' = g roadmapId userId s') ->
  fetchLessons_with f timed_out user s = fetchLessons_with g timed_out user s.
Proof.
  intros Hfg. unfold fetchLessons_with, finally, try_catch.
  destruct s as [v w].
  unfold bind at 1 2 6 7. rewrite !run_set_state.
  destruct timed_out; [reflexivity|].
  rewrite !run_lift_read.
  destruct (maybeSingle (roadmaps_of_user (db w) (uid user))) as [[r|] [e|]];
    cbn [error data]; try reflexivity.
  unfold bind. by rewrite Hfg.
Qed.

(** Two computations that resolve and leave the state as it is can be
    awaited together or one after the other, in either order. *)
Lemma Promise_all_of_reads {W A B} (p1 : M W A) (p2 : M W B) order first s :
  (exists a, p1 s = (Ok a, s)) ->
  (exists b, p2 s = (Ok b, s)) ->
  Promise_all order p1 p2 s
  = (if first : bool
     then (a <- p1 ;; b <- p2 ;; ret (a, b))
     else (b <- p2 ;; a <- p1 ;; ret (a, b))) s.
Proof.
  intros [a Ha] [b Hb].
  destruct order, first; unfold Promise_all, bind, ret;
    rewrite ?Ha, ?Hb; try rewrite Ha; try rewrite Hb; reflexivity.
Qed.

End Dispatch.

(** C8.  [fetchLessons] with the two queries dispatched through
    [Promise.all], whichever of them settles first, runs to the same result
    and the same state as the handler that awaits the lessons query and then
    the completions query, or the completions query and then the lessons
    query.  The same holds with any two queries in their place that resolve
    and leave the state as it is, whatever results (rows or an error) they
    resolve to.  When the user has one roadmap and the timer does not fire,
    the state after the handler holds the lessons of the roadmap and the
    completions of the user, which only depend on the store. *)
Theorem C8_dispatch_order_is_irrelevant {N : Type} :
  (forall order lessons_first timed_out user (s : lessons_list * world N),
     fetchLessons order timed_out user s
     = fetchLessons_sequential lessons_first timed_out user s) /\
  (forall (ql : id -> M (lessons_list * world N)
                       (result (list (Row LessonData))))
          (qc : id -> M (lessons_list * world N)
                       (result (list (Row CompletionData)))),
     (forall i s, exists r, ql i s = (Ok r, s)) ->
     (forall i s, exists r, qc i s = (Ok r, s)) ->
     forall order (lessons_first : bool) timed_out user s,
       fetchLessons_with
         (fun roadmapId userId => Promise_all order (ql roadmapId) (qc userId))
         timed_out user s
       = fetchLessons_with
           (fun roadmapId userId =>
              if lessons_first then
                lessonsResult <- ql roadmapId ;;
                completionsResult <- qc userId ;;
                ret (lessonsResult, completionsResult)
              else
                completionsResult <- qc userId ;;
                lessonsResult <- ql roadmapId ;;
                ret (lessonsResult, completionsResult))
           timed_out user s) /\
  (forall order user v (w : world N) r,
     roadmaps_of_user (db w) (uid user) = [r] ->
     fetchLessons order false user (v, w)
     = (Ok tt,
        ({| list_lessons := lessons_of_roadmap (db w) (row_id r);
            list_completions := completions_of_user (db w) (uid user);
            list_loading := false;
            list_error := None |}, w))).
Proof.
  assert (forall (ql : id -> M (lessons_list * world N)
                              (result (list (Row LessonData))))
                 (qc : id -> M (lessons_list * world N)
                              (result (list (Row CompletionData)))),
            (forall i s, exists r, ql i s = (Ok r, s)) ->
            (forall i s, exists r, qc i s = (Ok r, s)) ->
            forall order (lessons_first : bool) timed_out user s,
              fetchLessons_with
                (fun roadmapId userId =>
                   Promise_all order (ql roadmapId) (qc userId))
                timed_out user s
              = fetchLessons_with
                  (fun roadmapId userId =>
                     if lessons_first then
                       lessonsResult <- ql roadmapId ;;
                       completionsResult <- qc userId ;;
                       ret (lessonsResult, completionsResult)
                     else
                       completionsResult <- qc userId ;;
                       lessonsResult <- ql roadmapId ;;
                       ret (lessonsResult, completionsResult))
                  timed_out user s) as General.
  { intros ql qc Hl Hc order lessons_first timed_out user s.
    apply fetchLessons_with_ext. intros roadmapId userId s'.
    by apply Promise_all_of_reads. }
  split; [|split].
  - intros order lessons_first timed_out user s.
    unfold fetchLessons, fetchLessons_sequential.
    apply General; intros i [v w]; eexists; reflexivity.
  - exact General.
  - intros order user v w r Hr.
    unfold fetchLessons, fetchLessons_with, finally, try_catch.
    unfold bind at 1 2. rewrite run_set_state, run_lift_read, Hr.
    cbn [maybeSingle success error data].
    destruct order; reflexivity.
Qed.

Lemma C8_witness :
  (forall i (s : lessons_list * world spec_float),
     exists r, lessons_query i s = (Ok r, s)) /\
  (forall i (s : lessons_list * world spec_float),
     exists r, completions_query i s = (Ok r, s)) /\
  roadmaps_of_user (db list_world) (uid the_user)
  = [{| row_id := lit "roadmap-1";
        row_data := {| roadmap_user_id := lit "user-1";
                       roadmap_title := lit "Learning Roadmap: Learn JavaScript";
                       goal := lit "Learn JavaScript";
                       weeks := JArray []; questions := JArray [];
                       answers := [] |} |}] /\
  fetchLessons_with
    (fun roadmapId userId =>
       Promise_all second_settles_first (lessons_query roadmapId)
         (completions_query userId))
    false the_user (empty_list, list_world)
  = fetchLessons_with
      (fun roadmapId userId =>
         lessonsResult <- lessons_query roadmapId ;;
         completionsResult <- completions_query userId ;;
         ret (lessonsResult, completionsResult))
      false the_user (empty_list, list_world) /\
  fetchLessons second_settles_first false the_user (empty_list, list_world)
  = (Ok tt,
     ({| list_lessons := [the_lesson];
         list_completions := lesson_completions store_with_roadmap;
         list_loading := false;
         list_error := None |}, list_world)).
Proof.
  assert (forall i (s : lessons_list * world spec_float),
            exists r, lessons_query i s = (Ok r, s)) as Hl
    by (intros i [v w]; eexists; reflexivity).
  assert (forall i (s : lessons_list * world spec_float),
            exists r, completions_query i s = (Ok r, s)) as Hc
    by (intros i [v w]; eexists; reflexivity).
  assert (roadmaps_of_user (db list_world) (uid the_user)
          = [{| row_id := lit "roadmap-1";
                row_data := {| roadmap_user_id := lit "user-1";
                               roadmap_title := lit "Learning Roadmap: Learn JavaScript";
                               goal := lit "Learn JavaScript";
                               weeks := JArray []; questions := JArray [];
                               answers := [] |} |}]) as Hr
    by (vm_compute; reflexivity).
  split; [exact Hl|]. split; [exact Hc|]. split; [exact Hr|]. split.
  - exact (proj1 (proj2 C8_dispatch_order_is_irrelevant)
             lessons_query completions_query Hl Hc
             second_settles_first true false the_user (empty_list, list_world)).
  - exact (proj2 (proj2 C8_dispatch_order_is_irrelevant)
             second_settles_first the_user empty_list list_world _ Hr).
Defined.

Lemma world_graded_same_storage {N} : world_graded (@same_storage N).
Proof. split; [apply graded_same_storage|..]; by unfold same_storage. Qed.

Section Cache.
Context {N : Type} `{Arith N}.
Variable JSON_stringify : json -> jstring.
Variable as_LessonContent : json -> LessonContent.

Lemma generateLessonContent_storage l (w : world N) :
  storage (snd (generateLessonContent l w)) = storage w.
Proof.
  apply (generateLessonContent_once same_storage world_graded_same_storage l w).
Qed.

(** The run of [fetchLesson] once the lesson is found. *)
Lemma fetchLesson_found i v (w : world N) l :
  lessons_by_id (db w) i = [l] ->
  fetchLesson JSON_stringify as_LessonContent i (v, w)
  = let v1 := setAllLessons
                (lessons_of_roadmap (db w) (roadmap_id (row_data l)))
                (setLesson l v) in
    let cached := or_else (storage w !! storage_key i) [] in
    let failed e w' :=
      (Ok tt,
       (setLoading false v1,
        snd (showError (lit "Loading Failed")
               (or_else (message e) (lit "Failed to load lesson"))
               (Some (Action (lit "Retry") cb_fetchLesson)) w'))) in
    if truthy cached then
      match JSON_parse cached with
      | Some c =>
          (Ok tt, (setLoading false (setLessonContent (as_LessonContent c) v1), w))
      | None =>
          failed {| name := lit "SyntaxError";
                    message := Some (lit "Unexpected token in JSON");
                    code := None |} w
      end
    else
      match generateLessonContent l w with
      | (Ok content, w1) =>
          (Ok tt,
           (setLoading false (setLessonContent (as_LessonContent content) v1),
            set_storage (<[storage_key i := JSON_stringify content]> (storage w1))
              w1))
      | (Throw e, w1) => failed e w1
      end.
Proof.
  intros Hl. unfold fetchLesson, finally, try_catch.
  erewrite run_bind; [|apply run_lift_read]. rewrite Hl.
  cbn [single success error data].
  erewrite run_bind; [|reflexivity].
  erewrite run_bind; [|reflexivity].
  erewrite run_bind; [|apply run_set_state].
  erewrite run_bind; [|apply run_lift_read].
  erewrite run_bind; [|apply run_set_state].
  erewrite run_bind; [|reflexivity].
  cbv zeta. cbn [fst snd].
  destruct (truthy (or_else (storage w !! storage_key i) [])).
  - destruct (JSON_parse _); reflexivity.
  - unfold bind at 1. rewrite run_lift.
    destruct (generateLessonContent l w) as [[content|e] w1]; reflexivity.
Qed.

Lemma generateLessonContent_world l (w : world N) :
  snd (generateLessonContent l w) = w \/
  snd (generateLessonContent l w)
  = log_fetch {| prompt := lesson_prompt (title (row_data l));
                 timeout := 25000 |} w.
Proof.
  unfold generateLessonContent, try_catch, bind.
  pose proof (makeGeminiRequest_world
                (lesson_prompt (title (row_data l))) 25000 w) as Hw.
  destruct (makeGeminiRequest _ _ w) as [[c|e] w']; simpl in *; [|done].
  by destruct (negb (is_truthy_object c)).
Qed.

(** The run of [fetchLesson] when the lesson is not found. *)
Lemma fetchLesson_not_found i v (w : world N) :
  (forall l, lessons_by_id (db w) i <> [l]) ->
  exists t, snd (fetchLesson JSON_stringify as_LessonContent i (v, w))
            = (setLoading false v, add_toast t w).
Proof.
  intros Hl. unfold fetchLesson, finally, try_catch.
  erewrite run_bind; [|apply run_lift_read].
  destruct (lessons_by_id (db w) i) as [|l [|l' rest]];
    [|by destruct (Hl l)|]; cbn [single]; eexists; reflexivity.
Qed.

Lemma kept_insert (w w' : world N) key content :
  truthy (or_else (storage w !! key) []) = false ->
  storage w' = <[key := content]> (storage w) ->
  kept w w'.
Proof.
  intros Hfalsy E key' v' Hv'. rewrite E.
  destruct (decide (key' = key)) as [->|Hne].
  - rewrite lookup_insert_eq. split; [by eexists|].
    intros Ht. rewrite Hv' in Hfalsy. simpl in Hfalsy.
    rewrite Ht in Hfalsy. congruence.
  - rewrite lookup_insert_ne by done. split; [by eexists|done].
Qed.

Lemma fetchLesson_kept i :
  leaves (on_world kept) (fetchLesson (N:=N) JSON_stringify as_LessonContent i).
Proof.
  intros [v w]. unfold on_world. cbn [snd].
  destruct (lessons_by_id (db w) i) as [|l [|l' rest]] eqn:Hl.
  - destruct (fetchLesson_not_found i v w) as [t ->]; [by rewrite Hl|].
    by apply kept_same.
  - rewrite (fetchLesson_found i v w l Hl). cbv zeta.
    destruct (truthy (or_else (storage w !! storage_key i) [])) eqn:Hc.
    + destruct (JSON_parse _); by apply kept_same.
    + pose proof (generateLessonContent_storage l w) as Hs.
      destruct (generateLessonContent l w) as [[content|e] w1]; simpl in *.
      * eapply kept_insert; [exact Hc|]. simpl. by rewrite Hs.
      * by apply kept_same.
  - destruct (fetchLesson_not_found i v w) as [t ->]; [by rewrite Hl|].
    by apply kept_same.
Qed.

End Cache.

Section CacheClaim.
Context {N : Type} `{Arith N}.
Variable JSON_stringify : json -> jstring.
Variable as_LessonContent : json -> LessonContent.
Variable cast : json -> jstring + js_error.


End CacheClaim.



(** When the generator throws nothing is written under the key, and the
    error is notified with a retry action. *)
Example fetchLesson_generator_fails :
  let w' := snd (snd (fetchLesson stringify_example content_example
                        (lit "lesson-1")
                        (loaded_view, world_of fresh_store aborted))) in
  fetch_log w' = [lesson_request] /\
  storage w' !! storage_key (lit "lesson-1") = None /\
  map toast_message (toasts w') = [msg_timeout].
Proof. vm_compute. repeat split; reflexivity. Qed.

Section Parts.

Lemma part_of_refl s : part_of s s.
Proof. exists [], []. by rewrite app_nil_r. Qed.

Lemma part_of_trans r s t : part_of r s -> part_of s t -> part_of r t.
Proof.
  intros (p1 & q1 & ->) (p2 & q2 & ->).
  exists (p2 ++ p1), (q1 ++ q2). by rewrite <- !app_assoc.
Qed.

Lemma part_of_drop n s : part_of (drop n s) s.
Proof. exists (take n s), []. by rewrite app_nil_r, take_drop. Qed.

Lemma part_of_take n s : part_of (take n s) s.
Proof. exists [], (drop n s). simpl. by rewrite take_drop. Qed.

Lemma part_of_substring s a b : part_of (substring s a b) s.
Proof.
  unfold substring. cbv zeta.
  eapply part_of_trans; [apply part_of_take|apply part_of_drop].
Qed.

Lemma part_of_trimStart s : part_of (trimStart s) s.
Proof.
  induction s as [|a s IH]; [apply part_of_refl|].
  simpl. destruct (is_white_space a); [|apply part_of_refl].
  eapply part_of_trans; [exact IH|]. exists [a], []; simpl; by rewrite app_nil_r.
Qed.

Lemma part_of_rev t s : part_of t s -> part_of (rev t) (rev s).
Proof.
  intros (p & q & ->). exists (rev q), (rev p).
  by rewrite !rev_app_distr, <- app_assoc.
Qed.

Lemma part_of_trim s : part_of (trim s) s.
Proof.
  unfold trim, trimEnd.
  eapply part_of_trans; [|apply part_of_trimStart].
  rewrite <- (rev_involutive (trimStart s)) at 2.
  apply part_of_rev, part_of_trimStart.
Qed.

Lemma upto_last_prefix c s r : upto_last c s = Some r -> exists q, s = r ++ q.
Proof.
  revert r. induction s as [|a s IH]; intros r; [done|]. simpl.
  destruct (upto_last c s) as [r'|].
  - intros [= <-]. destruct (IH r' eq_refl) as [q ->]. by exists q.
  - destruct (Ascii.eqb a c); [|done]. intros [= <-]. by exists s.
Qed.

Lemma upto_last_ends c s r : upto_last c s = Some r -> exists b, r = b ++ [c].
Proof.
  revert r. induction s as [|a s IH]; intros r; [done|]. simpl.
  destruct (upto_last c s) as [r'|].
  - intros [= <-]. destruct (IH r' eq_refl) as [b ->]. by exists (a :: b).
  - destruct (Ascii.eqb a c) eqn:E; [|done]. apply Ascii.eqb_eq in E as ->.
    intros [= <-]. by exists [].
Qed.

Lemma match_delimited_part o c s m :
  match_delimited o c s = Some m -> part_of (matched m) s.
Proof.
  revert m. induction s as [|a s IH]; intros m; [done|]. simpl.
  assert (forall m', shift_match <$> match_delimited o c s = Some m' ->
                     part_of (matched m') (a :: s)) as Hshift.
  { intros m' Hm'. destruct (match_delimited o c s) as [m0|]; [|done].
    injection Hm' as <-. simpl.
    eapply part_of_trans; [by apply IH|]. exists [a], []; simpl; by rewrite app_nil_r. }
  destruct (Ascii.eqb a o); [|by apply Hshift].
  destruct (upto_last c s) as [r|] eqn:Hr; [|by apply Hshift].
  intros [= <-]. simpl. destruct (upto_last_prefix _ _ _ Hr) as [q ->].
  by exists [], q.
Qed.

Lemma match_delimited_wrap o c s m :
  match_delimited o c s = Some m -> exists body, matched m = o :: body ++ [c].
Proof.
  revert m. induction s as [|a s IH]; intros m; [done|]. simpl.
  assert (forall m', shift_match <$> match_delimited o c s = Some m' ->
                     exists body, matched m' = o :: body ++ [c]) as Hshift.
  { intros m' Hm'. destruct (match_delimited o c s) as [m0|]; [|done].
    injection Hm' as <-. simpl. by apply IH. }
  destruct (Ascii.eqb a o) eqn:Ha; [|by apply Hshift].
  destruct (upto_last c s) as [r|] eqn:Hr; [|by apply Hshift].
  intros [= <-]. simpl. apply Ascii.eqb_eq in Ha as ->.
  destruct (upto_last_ends _ _ _ Hr) as [b ->]. by exists b.
Qed.

End Parts.

Section Fallback.

Lemma startsWith_unit a s c : startsWith (a :: s) [c] = Ascii.eqb a c.
Proof. simpl. by rewrite andb_true_r, Ascii.eqb_sym. Qed.

Lemma indexOf_from_bound k s p :
  indexOf_from k s p = (-1)%Z \/ (Z.of_nat k <= indexOf_from k s p)%Z.
Proof.
  revert k. induction s as [|a s IH]; intros k; simpl.
  - destruct (startsWith [] p); [right; lia|by left].
  - destruct (startsWith (a :: s) p); [right; lia|].
    destruct (IH (S k)) as [->|Hk]; [by left|right; lia].
Qed.

Lemma lastIndexOf_from_bound k s p :
  lastIndexOf_from k s p = (-1)%Z \/ (Z.of_nat k <= lastIndexOf_from k s p)%Z.
Proof.
  revert k. induction s as [|a s IH]; intros k; simpl.
  - destruct (startsWith [] p); [right; lia|by left].
  - destruct (IH (S k)) as [->|Hk].
    + simpl. destruct (startsWith (a :: s) p); [right; lia|by left].
    + destruct (0 <=? lastIndexOf_from (S k) s p)%Z eqn:E; [right; lia|].
      apply Z.leb_gt in E. lia.
Qed.

Lemma lastIndexOf_from_absent k s c :
  upto_last c s = None -> lastIndexOf_from k s [c] = (-1)%Z.
Proof.
  revert k. induction s as [|a s IH]; intros k; [done|]. simpl upto_last.
  destruct (upto_last c s) as [r|]; [done|].
  destruct (Ascii.eqb a c) eqn:E; [done|]. intros _.
  cbn [lastIndexOf_from]. rewrite (IH (S k) eq_refl), startsWith_unit, E.
  reflexivity.
Qed.

(** When the regular expression finds nothing, the first opening character
    is not before the last closing one. *)
Lemma no_match_no_span o c s k :
  match_delimited o c s = None ->
  indexOf_from k s [o] = (-1)%Z \/ lastIndexOf_from k s [c] = (-1)%Z \/
  (lastIndexOf_from k s [c] <= indexOf_from k s [o])%Z.
Proof.
  revert k. induction s as [|a s IH]; intros k; [by left|].
  simpl match_delimited. cbn [indexOf_from lastIndexOf_from].
  rewrite !startsWith_unit.
  destruct (Ascii.eqb a o) eqn:Ho.
  - destruct (upto_last c s) as [r|] eqn:Hr; [done|]. intros _.
    rewrite (lastIndexOf_from_absent (S k) s c Hr). simpl.
    destruct (Ascii.eqb a c); [right; right; lia|by right; left].
  - intros Hm. destruct (match_delimited o c s); [done|].
    specialize (IH (S k) eq_refl).
    destruct (0 <=? lastIndexOf_from (S k) s [c])%Z eqn:E; [exact IH|].
    destruct (indexOf_from_bound (S k) s [o]) as [->|Hi]; [by left|].
    destruct (Ascii.eqb a c); [right; right; lia|by right; left].
Qed.

Lemma fallback_never_applies o c s :
  match_delimited o c s = None ->
  negb (indexOf s [o] =? -1)%Z && negb (lastIndexOf s [c] =? -1)%Z
    && (indexOf s [o] <? lastIndexOf s [c])%Z = false.
Proof.
  intros Hm. unfold indexOf, lastIndexOf.
  destruct (no_match_no_span o c s 0 Hm) as [-> | [-> | Hle]].
  - reflexivity.
  - by rewrite andb_false_r.
  - apply andb_false_iff. right. by apply Z.ltb_ge.
Qed.

End Fallback.

(** X1.  Whatever the reply, [cleanJsonResponse] returns a contiguous part
    of it: the function only removes text in front of and behind what it
    returns. *)
Theorem X1_cleanJsonResponse_returns_a_part (content : jstring) :
  part_of (cleanJsonResponse content) content.
Proof.
  unfold cleanJsonResponse. cbv zeta.
  set (c1 := trim content).
  set (c2 := if startsWith c1 fence_json then substringFrom c1 7
             else if startsWith c1 fence then substringFrom c1 3 else c1).
  set (c3 := if endsWith c2 fence then substring c2 0 (length c2 - 3) else c2).
  set (c4 := trim c3).
  assert (part_of c4 content) as Hc4.
  { eapply part_of_trans; [apply part_of_trim|].
    eapply part_of_trans; [|eapply part_of_trans; [|apply (part_of_trim content)]].
    - subst c3. destruct (endsWith c2 fence);
        [apply part_of_substring|apply part_of_refl].
    - subst c2. fold c1. unfold substringFrom.
      destruct (startsWith c1 fence_json); [apply part_of_substring|].
      destruct (startsWith c1 fence);
        [apply part_of_substring|apply part_of_refl]. }
  assert (forall o c m, match_delimited o c c4 = Some m ->
                        part_of (matched m) content) as Hm.
  { intros o c m E. eapply part_of_trans; [|exact Hc4].
    by eapply match_delimited_part. }
  destruct (match_delimited "[" "]" c4) as [a|] eqn:Ha;
    destruct (match_delimited "{" "}" c4) as [o|] eqn:Ho.
  - destruct (index a <? index o); eauto.
  - eauto.
  - eauto.
  - repeat match goal with
           | |- context [if ?b then _ else _] => destruct b
           end;
      try exact Hc4;
      (eapply part_of_trans; [apply part_of_substring|exact Hc4]).
Qed.

(** X2.  The index-based fallback at the end of [cleanJsonResponse] never
    selects anything: the function returns the match of the array
    expression or of the object expression on the stripped reply (the one
    that starts first), and the stripped reply itself when neither matches.
    So what it returns either starts with an opening bracket or brace and
    ends with the closing character of the same kind, or is a text in which
    neither expression finds a span. *)
Theorem X2_cleanJsonResponse_fallback_is_dead (content : jstring) :
  cleanJsonResponse content
  = match match_delimited "[" "]" (strip_fences content),
          match_delimited "{" "}" (strip_fences content) with
    | Some a, None => matched a
    | Some a, Some o => if index a <? index o then matched a else matched o
    | None, Some o => matched o
    | None, None => strip_fences content
    end /\
  ((exists k body, cleanJsonResponse content = wrap k body) \/
   (match_delimited "{" "}" (cleanJsonResponse content) = None /\
    match_delimited "[" "]" (cleanJsonResponse content) = None)).
Proof.
  unfold cleanJsonResponse, strip_fences. cbv zeta.
  set (c4 := trim _).
  destruct (match_delimited "[" "]" c4) as [a|] eqn:Ha;
    destruct (match_delimited "{" "}" c4) as [o|] eqn:Ho.
  - split; [done|]. left.
    destruct (match_delimited_wrap _ _ _ _ Ha) as [ba Hba].
    destruct (match_delimited_wrap _ _ _ _ Ho) as [bo Hbo].
    destruct (index a <? index o);
      [by exists array_span, ba|by exists object_span, bo].
  - split; [done|]. left.
    destruct (match_delimited_wrap _ _ _ _ Ha) as [ba Hba].
    by exists array_span, ba.
  - split; [done|]. left.
    destruct (match_delimited_wrap _ _ _ _ Ho) as [bo Hbo].
    by exists object_span, bo.
  - pose proof (fallback_never_applies "{" "}" c4 Ho) as Hb.
    pose proof (fallback_never_applies "[" "]" c4 Ha) as Hk.
    change (lit "{") with ["{"%char]. change (lit "}") with ["}"%char].
    change (lit "[") with ["["%char]. change (lit "]") with ["]"%char].
    rewrite Hb, Hk. split; [done|]. by right.
Qed.

Section ParsedValues.

Lemma JSON_parse_array s v :
  startsWith s (lit "[") = true -> JSON_parse s = Some v ->
  exists elements, v = JArray elements.
Proof.
  destruct s as [|c r]; [done|]. change (lit "[") with ["["%char].
  rewrite startsWith_unit. intros ->%Ascii.eqb_eq.
  unfold JSON_parse. cbn [length Nat.mul Nat.add parse_value skip_ws].
  change (is_json_ws "[") with false. cbv iota.
  change (Ascii.eqb "[" "[") with true. cbv iota.
  destruct (skip_ws r) as [|c' r']; [done|].
  destruct (Ascii.eqb c' "]").
  - destruct (skip_ws r'); [|done]. intros [= <-]. by eexists.
  - destruct (parse_elements _ r) as [[vs r'']|]; [|done].
    destruct (skip_ws r''); [|done]. intros [= <-]. by eexists.
Qed.

Lemma JSON_parse_object s v :
  startsWith s (lit "{") = true -> JSON_parse s = Some v ->
  exists members, v = JObject members.
Proof.
  destruct s as [|c r]; [done|]. change (lit "{") with ["{"%char].
  rewrite startsWith_unit. intros ->%Ascii.eqb_eq.
  unfold JSON_parse. cbn [length Nat.mul Nat.add parse_value skip_ws].
  change (is_json_ws "{") with false. cbv iota.
  change (Ascii.eqb "{" "[") with false. cbv iota.
  change (Ascii.eqb "{" "{") with true. cbv iota.
  destruct (skip_ws r) as [|c' r']; [done|].
  destruct (Ascii.eqb c' "}").
  - destruct (skip_ws r'); [|done]. intros [= <-]. by eexists.
  - destruct (parse_members _ r) as [[vs r'']|]; [|done].
    destruct (skip_ws r''); [|done]. intros [= <-]. by eexists.
Qed.

End ParsedValues.

Section Results.
Context {N : Type}.
Implicit Types w : world N.

Lemma request_body_value prompt timeout w v w' :
  request_body prompt timeout w = (Ok v, w') -> is_truthy_object v = true.
Proof.
  cbv [request_body bind gets fetch].
  destruct (negb (truthy (or_else (GEMINI_API_KEY w) []))); [done|].
  destruct (net w _) as [e|r]; [done|].
  destruct (negb (ok r)).
  { repeat match goal with
           | |- context [if ?c then _ else _] => destruct c
           end; done. }
  destruct (body_json r) as [e|d]; [done|].
  destruct (candidates d) as [[|c cs]|]; [done| |done].
  destruct (content c) as [ct|]; [|done].
  destruct (parts ct) as [|p ps]; [done|]. cbv zeta.
  destruct (negb (truthy _) || _) eqn:Hshape; [done|].
  destruct (JSON_parse _) as [v'|] eqn:Hparse; [|done].
  intros [= -> _].
  apply orb_false_iff in Hshape as [_ Hstart].
  apply andb_false_iff in Hstart as [Hs|Hs]; apply negb_false_iff in Hs.
  - by destruct (JSON_parse_array _ _ Hs Hparse) as [l ->].
  - by destruct (JSON_parse_object _ _ Hs Hparse) as [l ->].
Qed.

Lemma request_catch_throws e w : exists e', request_catch e w = (Throw e', w).
Proof.
  unfold request_catch. destruct (Js.eqb _ _); [by eexists|].
  destruct (message e) as [m|]; [|by eexists].
  destruct (includes m _); by eexists.
Qed.

Lemma makeGeminiRequest_value prompt timeout w v w' :
  makeGeminiRequest prompt timeout w = (Ok v, w') -> is_truthy_object v = true.
Proof.
  unfold makeGeminiRequest, try_catch.
  destruct (request_body prompt timeout w) as [[v0|e] w0] eqn:Hb.
  - intros [= <- _]. by eapply request_body_value.
  - destruct (request_catch_throws e w0) as [e' ->]. done.
Qed.

(** X3.  A value [makeGeminiRequest] returns is always an array or an
    object: the reply is only parsed when it starts with a bracket or a
    brace.  The test of [generateLessonContent] on what it received can
    therefore never fail: [generateLessonContent] returns what
    [makeGeminiRequest] returns, and throws, with the message of the error
    or its own fallback message, exactly when [makeGeminiRequest] throws. *)
Theorem X3_requests_return_arrays_or_objects :
  (forall prompt timeout w v w',
     makeGeminiRequest prompt timeout w = (Ok v, w') ->
     (exists elements, v = JArray elements) \/
     (exists members, v = JObject members)) /\
  (forall lesson w,
     generateLessonContent lesson w
     = match makeGeminiRequest (lesson_prompt (title (row_data lesson)))
               25000 w with
       | (Ok v, w') => (Ok v, w')
       | (Throw e, w') =>
           (Throw (Error (or_else (message e)
                            (lit "Failed to generate lesson content - please try again"))),
            w')
       end).
Proof.
  split.
  - intros prompt timeout w v w' Hv.
    apply makeGeminiRequest_value in Hv.
    destruct v; try done; [left|right]; by eexists.
  - intros lesson w. unfold generateLessonContent, try_catch, bind.
    destruct (makeGeminiRequest _ _ w) as [[v|e] w'] eqn:Hv; [|done].
    by rewrite (makeGeminiRequest_value _ _ _ _ _ Hv).
Qed.

(** X4.  Without an API key no request is sent: [makeGeminiRequest] and the
    three generators throw the configuration error and leave the world as
    it was. *)
Theorem X4_no_key_no_request (w : world N) :
  truthy (or_else (GEMINI_API_KEY w) []) = false ->
  (forall prompt timeout,
     makeGeminiRequest prompt timeout w = (Throw (Error msg_no_key), w)) /\
  (forall goal, generateQuestions goal w = (Throw (Error msg_no_key), w)) /\
  (forall goal answers,
     generateRoadmap goal answers w = (Throw (Error msg_no_key), w)) /\
  (forall lesson,
     generateLessonContent lesson w = (Throw (Error msg_no_key), w)).
Proof.
  intros Hkey.
  assert (forall prompt timeout,
            makeGeminiRequest prompt timeout w = (Throw (Error msg_no_key), w))
    as Hreq.
  { intros prompt timeout.
    cbv [makeGeminiRequest try_catch request_body bind gets].
    rewrite Hkey. reflexivity. }
  split; [exact Hreq|].
  split; [|split]; intros;
    unfold generateQuestions, generateRoadmap, generateLessonContent,
      try_catch, bind; by rewrite Hreq.
Qed.

(** X5.  When [fetch] rejects, [makeGeminiRequest] has sent its one request
    and throws: the timeout message when the rejection is the abort of the
    timer, the network message when the message of the rejection mentions
    [fetch], and the rejection itself otherwise.  A rejection that is not
    an abort and has no message makes the [catch] block itself fail with a
    TypeError. *)
Theorem X5_rejected_request (w : world N) prompt timeout (e : js_error) :
  truthy (or_else (GEMINI_API_KEY w) []) = true ->
  net w (length (fetch_log w)) = Rejected e ->
  makeGeminiRequest prompt timeout w
  = (Throw (if Js.eqb (name e) (lit "AbortError") then Error msg_timeout
            else match message e with
                 | None => TypeError_reading "includes"
                 | Some m =>
                     if includes m (lit "fetch") then Error msg_network else e
                 end),
     log_fetch {| prompt := prompt; timeout := timeout |} w).
Proof.
  intros Hkey Hnet.
  cbv [makeGeminiRequest try_catch request_body bind gets fetch].
  rewrite Hkey. cbn [negb]. rewrite Hnet. unfold request_catch.
  destruct (Js.eqb _ _); [done|].
  destruct (message e) as [m|]; [|done]. by destruct (includes m _).
Qed.

End Results.

Lemma X3_witness :
  (exists elements,
     JArray [JNumber (lit "1"); JNumber (lit "2")] = JArray elements) \/
  (exists members,
     JArray [JNumber (lit "1"); JNumber (lit "2")] = JObject members).
Proof.
  apply (proj1 X3_requests_return_arrays_or_objects (lit "prompt") 15000%Z
           fenced_world _
           (log_fetch {| prompt := lit "prompt"; timeout := 15000%Z |}
              fenced_world)).
  vm_compute. reflexivity.
Defined.

Lemma X4_witness :
  generateRoadmap (lit "Learn JavaScript") [] keyless_world
  = (Throw (Error msg_no_key), keyless_world).
Proof.
  apply (proj1 (proj2 (proj2 (X4_no_key_no_request keyless_world eq_refl)))).
Defined.

Lemma X5_witness :
  makeGeminiRequest (lit "prompt") 15000%Z aborted_world
  = (Throw (Error msg_timeout),
     log_fetch {| prompt := lit "prompt"; timeout := 15000%Z |} aborted_world).
Proof.
  apply (X5_rejected_request aborted_world (lit "prompt") 15000%Z
           {| name := lit "AbortError";
              message := Some (lit "signal is aborted without reason");
              code := None |}); reflexivity.
Defined.

Section MessageFacts.

Ltac literal_branch :=
  solve [unfold category_messages; cbn [In];
         repeat first [left; reflexivity | right]].

Ltac next_branch :=
  match goal with
  | |- In (if ?c then _ else _) _ \/ _ =>
      let E := fresh "E" in destruct c eqn:E; [left; literal_branch|]
  end.

Lemma startsWith_map (f : ascii -> ascii) s p :
  startsWith s p = true -> startsWith (map f s) (map f p) = true.
Proof.
  revert s. induction p as [|a p IH]; intros s; [done|].
  destruct s as [|b s]; [done|]. simpl.
  intros [->%Ascii.eqb_eq Hp]%andb_true_iff.
  rewrite Ascii.eqb_refl. by apply IH.
Qed.

Lemma includes_toLowerCase s p :
  includes s p = true -> includes (toLowerCase s) (toLowerCase p) = true.
Proof.
  unfold toLowerCase. induction s as [|a s IH]; simpl.
  - rewrite orb_false_r. intros Hp. rewrite orb_false_r.
    by apply (startsWith_map lower_unit []).
  - intros [Hp|Hs]%orb_true_iff; apply orb_true_iff.
    + left. by apply (startsWith_map lower_unit (a :: s)).
    + right. by apply IH.
Qed.

Lemma literals_presentable : forallb presentable category_messages = true.
Proof. vm_compute. reflexivity. Qed.

Lemma match_message_branches errorMessage :
  In (match_message errorMessage) category_messages \/
  (match_message errorMessage = errorMessage /\
   includes (toLowerCase errorMessage) (lit "network") = false /\
   truthy errorMessage = true /\
   length errorMessage < 100 /\
   includes errorMessage (lit "Error:") = false).
Proof.
  unfold match_message. cbv zeta.
  do 6 next_branch.
  destruct (includes (toLowerCase errorMessage) (lit "network")) eqn:Hn;
    [left; literal_branch|].
  do 3 next_branch.
  destruct (truthy errorMessage) eqn:Ht; [|left; literal_branch].
  destruct (length errorMessage <? 100) eqn:Hl; [|left; literal_branch].
  destruct (includes errorMessage (lit "Error:")) eqn:Hi; [left; literal_branch|].
  right. apply Nat.ltb_lt in Hl. done.
Qed.

Lemma formatAuthError_branches error :
  In (formatAuthError error) category_messages \/
  (includes (toLowerCase (formatAuthError error)) (lit "network") = false /\
   truthy (formatAuthError error) = true /\
   length (formatAuthError error) < 100 /\
   includes (formatAuthError error) (lit "Error:") = false).
Proof.
  destruct error as [e|]; [|left; literal_branch].
  unfold formatAuthError. cbv zeta.
  repeat next_branch.
  destruct (match_message_branches (or_else (message e) []))
    as [Hin | (-> & Hrest)]; [by left|by right].
Qed.

Lemma formatAuthError_presentable error :
  presentable (formatAuthError error) = true.
Proof.
  destruct (formatAuthError_branches error) as [Hin | (Hn & Ht & Hl & He)].
  - pose proof literals_presentable as Hall.
    rewrite forallb_forall in Hall. by apply Hall.
  - unfold presentable. rewrite Ht, He.
    apply Nat.ltb_lt in Hl. rewrite Hl.
    destruct (includes (formatAuthError error) (lit "network")) eqn:Hi; [|done].
    apply includes_toLowerCase in Hi.
    change (toLowerCase (lit "network")) with (lit "network") in Hi.
    congruence.
Qed.

End MessageFacts.

(** X6.  No message [formatAuthError] returns contains the lower-case text
    [network]: its own network message starts with a capital, and a message
    passed through unchanged has been tested for it.  The second of the
    three tests by which [initializeAuth] recognises a connection issue is
    therefore never true, and an error reported with the network message
    is not treated as a connection issue. *)
Theorem X6_formatted_message_never_says_network (error : option js_error) :
  includes (formatAuthError error) (lit "network") = false /\
  connection_issue (formatAuthError error)
  = includes (formatAuthError error) (lit "timeout")
    || includes (formatAuthError error) (lit "unavailable") /\
  (formatAuthError error = msg_network_error ->
   connection_issue (formatAuthError error) = false).
Proof.
  pose proof (formatAuthError_presentable error) as Hp.
  unfold presentable in Hp.
  apply andb_true_iff in Hp as [Hp _].
  apply andb_true_iff in Hp as [Hp _].
  apply andb_true_iff in Hp as [Hn _].
  apply negb_true_iff in Hn.
  split; [exact Hn|]. split.
  - unfold connection_issue. rewrite Hn. by rewrite orb_false_r.
  - intros ->. vm_compute. reflexivity.
Qed.

(** X7.  Every message [formatAuthError] returns is shorter than 100 code
    units and does not contain the text [Error:]. *)
Theorem X7_formatted_message_is_short (error : option js_error) :
  length (formatAuthError error) < 100 /\
  includes (formatAuthError error) (lit "Error:") = false.
Proof.
  pose proof (formatAuthError_presentable error) as Hp.
  unfold presentable in Hp.
  apply andb_true_iff in Hp as [Hp _].
  apply andb_true_iff in Hp as [Hp He].
  apply andb_true_iff in Hp as [_ Hl].
  split; [by apply Nat.ltb_lt|by apply negb_true_iff].
Qed.

Section Profile.
Context {N : Type}.

Lemma upsert_profile_accepted i mail updates (d : database N) :
  ~ email_taken i mail d ->
  fst (upsert_profile i mail updates d) = success None.
Proof.
  intros Hfree. unfold upsert_profile.
  by rewrite bool_decide_eq_false_2.
Qed.

Lemma upsert_profile_refused i mail updates (d : database N) :
  email_taken i mail d ->
  upsert_profile i mail updates d
  = (failure (unique_violation "profiles_email_key"), d).
Proof.
  intros Htaken. unfold upsert_profile.
  by rewrite bool_decide_eq_true_2.
Qed.

Lemma upsert_profile_rows i mail g (d : database N) :
  ~ email_taken i mail d ->
  let rows := profiles (snd (upsert_profile i mail (goal_update g) d)) in
  (exists p, p ∈ rows /\ row_id p = i) /\
  (forall p, p ∈ rows -> row_id p = i ->
             email (row_data p) = mail /\ profile_goal (row_data p) = Some g) /\
  (forall p, p ∈ profiles d -> row_id p = i ->
             exists p', p' ∈ rows /\ row_id p' = i /\
                        full_name (row_data p') = full_name (row_data p) /\
                        avatar_url (row_data p') = avatar_url (row_data p)) /\
  filter (fun p => row_id p <> i) rows
  = filter (fun p => row_id p <> i) (profiles d).
Proof.
  intros Hfree. unfold upsert_profile.
  rewrite bool_decide_eq_false_2 by exact Hfree.
  cbn [snd profiles set_profiles goal_update new_full_name new_avatar_url
       new_goal given].
  set (f := fun p : Row ProfileData => if decide (row_id p = i) then _ else p).
  case_bool_decide as Hex.
  - split; [|split; [|split]].
    + apply Exists_exists in Hex as (p & Hp & Hi).
      exists (f p). split; [apply list_elem_of_In, in_map; by apply list_elem_of_In|].
      unfold f. by rewrite decide_True.
    + intros p (q & <- & Hq)%list_elem_of_In%in_map_iff. unfold f.
      destruct (decide (row_id q = i)); [done|]. by intros ?.
    + intros p Hp Hi. exists (f p).
      split; [apply list_elem_of_In, in_map; by apply list_elem_of_In|].
      unfold f. by rewrite decide_True.
    + clear Hex. induction (profiles d) as [|q rows IH]; [done|].
      cbn [map]. unfold f at 1.
      destruct (decide (row_id q = i)) as [Hq|Hq].
      * rewrite !filter_cons_False by (simpl; intros X; by apply X). exact IH.
      * rewrite !filter_cons_True by done. by rewrite IH.
  - split; [|split; [|split]].
    + eexists. split; [apply elem_of_app; right; by left|done].
    + intros p [Hp| ->%list_elem_of_singleton]%elem_of_app Hi; [|done].
      destruct Hex. apply Exists_exists. by exists p.
    + intros p Hp Hi. destruct Hex. apply Exists_exists. by exists p.
    + rewrite filter_app, filter_cons_False by (simpl; intros X; by apply X).
      by rewrite filter_nil, app_nil_r.
Qed.

Lemma email_taken_after i mail g (d : database N) :
  ~ email_taken i mail d ->
  ~ email_taken i mail (snd (upsert_profile i mail (goal_update g) d)).
Proof.
  intros Hfree Htaken.
  destruct (upsert_profile_rows i mail g d Hfree) as (_ & _ & _ & Hothers).
  cbv zeta in Hothers. apply Hfree.
  unfold email_taken in *. apply Exists_exists in Htaken as (p & Hp & Hi & Hm).
  apply Exists_exists. exists p. split; [|done].
  assert (p ∈ filter (fun p => row_id p <> i) (profiles d)) as Hin.
  { rewrite <- Hothers. by apply list_elem_of_filter. }
  by apply list_elem_of_filter in Hin as [_ Hin].
Qed.

Lemma upsert_profile_twice i mail g (d : database N) :
  ~ email_taken i mail d ->
  snd (upsert_profile i mail (goal_update g)
         (snd (upsert_profile i mail (goal_update g) d)))
  = snd (upsert_profile i mail (goal_update g) d).
Proof.
  intros Hfree.
  destruct (upsert_profile_rows i mail g d Hfree)
    as ((p & Hp & Hi) & Hall & _ & _).
  pose proof (email_taken_after i mail g d Hfree) as Hfree'.
  cbv zeta in *.
  set (d1 := snd (upsert_profile i mail (goal_update g) d)) in *.
  unfold upsert_profile at 1.
  rewrite bool_decide_eq_false_2 by exact Hfree'. cbn [snd].
  rewrite bool_decide_eq_true_2 by (apply Exists_exists; by exists p).
  cbn [goal_update new_full_name new_avatar_url new_goal given].
  match goal with
  | |- set_profiles (map ?f _) _ = _ =>
      assert (map f (profiles d1) = profiles d1) as ->
  end.
  { revert Hall. generalize (profiles d1). clear.
    intros rows. induction rows as [|q rows IH]; intros Hall; [done|].
    cbn [map].
    rewrite IH by (intros x Hx; apply Hall; by right). f_equal.
    destruct (decide (row_id q = i)) as [Hq|]; [|done].
    destruct (Hall q) as [Hm Hg]; [by left|done|].
    destruct q as [qi [qm qn qa qg]]. simpl in *. by subst. }
  by destruct d1.
Qed.

End Profile.

(** X8.  [updateProfile] without a user throws and touches nothing.  With a
    user whose e-mail address (the empty string when the user has none) is
    held by the profile of another user, the store refuses the upsert:
    [updateProfile] leaves the store as it was, shows the notification
    [Update Failed] with the message of the store and throws an error with
    that message.  Otherwise [updateProfile({ goal })] returns, and
    afterwards the store holds a profile of the user, every profile of the
    user carries the goal given and the e-mail address of the user, a
    profile the user had keeps its name and its avatar, the profiles of the
    other users and the other tables are as before, and a second call with
    the same goal leaves the store as it is. *)
Theorem X8_updateProfile_stores_the_goal {N : Type} `{Arith N} :
  (forall updates (w : world N),
     updateProfile None updates w
     = (Throw (Error (lit "No user logged in")), w)) /\
  (forall u g (w : world N),
     email_taken (uid u) (or_else (user_email u) []) (db w) ->
     let r := updateProfile (Some u) (goal_update g) w in
     fst r = Throw (Error msg_email_taken) /\
     db (snd r) = db w /\
     toasts (snd r)
     = toasts w ++ [{| toast_kind := toast_error;
                       toast_title := lit "Update Failed";
                       toast_message := msg_email_taken;
                       toast_action := None |}]) /\
  (forall u g (w : world N),
     ~ email_taken (uid u) (or_else (user_email u) []) (db w) ->
     let after := snd (updateProfile (Some u) (goal_update g) w) in
     fst (updateProfile (Some u) (goal_update g) w) = Ok tt /\
     (exists p, p ∈ profiles (db after) /\ row_id p = uid u) /\
     (forall p, p ∈ profiles (db after) -> row_id p = uid u ->
                email (row_data p) = or_else (user_email u) [] /\
                profile_goal (row_data p) = Some g) /\
     (forall p, p ∈ profiles (db w) -> row_id p = uid u ->
                exists p', p' ∈ profiles (db after) /\ row_id p' = uid u /\
                           full_name (row_data p') = full_name (row_data p) /\
                           avatar_url (row_data p') = avatar_url (row_data p)) /\
     filter (fun p => row_id p <> uid u) (profiles (db after))
     = filter (fun p => row_id p <> uid u) (profiles (db w)) /\
     db after = set_profiles (profiles (db after)) (db w) /\
     db (snd (updateProfile (Some u) (goal_update g) after)) = db after).
Proof.
  assert (formatAuthError (Some (unique_violation "profiles_email_key"))
          = msg_email_taken) as Hmsg by (vm_compute; reflexivity).
  split; [done|]. split.
  - intros u g w Htaken r. subst r.
    unfold updateProfile, try_catch, bind, query.
    rewrite (upsert_profile_refused _ _ _ _ Htaken).
    cbn [failure error]. unfold showError, modify, throw. cbn [fst snd]. rewrite Hmsg.
    by repeat split.
  - intros u g w Hfree after.
    set (mail := or_else (user_email u) []) in *.
    assert (forall w' : world N,
              ~ email_taken (uid u) mail (db w') ->
              updateProfile (Some u) (goal_update g) w'
              = (Ok tt,
                 set_db (snd (upsert_profile (uid u) mail (goal_update g)
                                (db w'))) w')) as Hrun.
    { intros w' Hfree'. unfold updateProfile, try_catch, bind, query.
      pose proof (upsert_profile_accepted (uid u) mail (goal_update g)
                    (db w') Hfree') as Hok.
      fold mail.
      destruct (upsert_profile (uid u) mail (goal_update g) (db w'))
        as [r d']. simpl in Hok. by subst r. }
    assert (after
            = set_db (snd (upsert_profile (uid u) mail (goal_update g) (db w)))
                w) as Hafter
      by (subst after; by rewrite Hrun).
    destruct (upsert_profile_rows (uid u) mail g (db w) Hfree)
      as (Hex & Hall & Hkeep & Hothers).
    cbv zeta in *.
    split; [by rewrite Hrun|].
    rewrite Hafter. cbn [db set_db].
    split; [exact Hex|]. split; [exact Hall|]. split; [exact Hkeep|].
    split; [exact Hothers|].
    split.
    { unfold upsert_profile. by rewrite bool_decide_eq_false_2. }
    rewrite Hrun by (cbn [db set_db]; by apply email_taken_after).
    cbn [snd db set_db]. by apply upsert_profile_twice.
Qed.

Lemma X6_witness :
  connection_issue (formatAuthError (Some network_failure)) = false.
Proof.
  apply (proj2 (proj2 (X6_formatted_message_never_says_network
                         (Some network_failure)))).
  vm_compute. reflexivity.
Defined.

Lemma X8_witness :
  (let r := updateProfile (Some a_user) (goal_update (lit "Learn Rust"))
              taken_world in
   fst r = Throw (Error msg_email_taken) /\
   db (snd r) = db taken_world /\
   toasts (snd r)
   = toasts taken_world ++ [{| toast_kind := toast_error;
                               toast_title := lit "Update Failed";
                               toast_message := msg_email_taken;
                               toast_action := None |}]) /\
  (let after := snd (updateProfile (Some a_user) (goal_update (lit "Learn Rust"))
                       profiles_world) in
   fst (updateProfile (Some a_user) (goal_update (lit "Learn Rust"))
          profiles_world) = Ok tt /\
   (exists p, p ∈ profiles (db after) /\ row_id p = uid a_user) /\
   (forall p, p ∈ profiles (db after) -> row_id p = uid a_user ->
              email (row_data p) = or_else (user_email a_user) [] /\
              profile_goal (row_data p) = Some (lit "Learn Rust")) /\
   (forall p, p ∈ profiles (db profiles_world) -> row_id p = uid a_user ->
              exists p', p' ∈ profiles (db after) /\ row_id p' = uid a_user /\
                         full_name (row_data p') = full_name (row_data p) /\
                         avatar_url (row_data p') = avatar_url (row_data p)) /\
   filter (fun p => row_id p <> uid a_user) (profiles (db after))
   = filter (fun p => row_id p <> uid a_user) (profiles (db profiles_world)) /\
   db after = set_profiles (profiles (db after)) (db profiles_world) /\
   db (snd (updateProfile (Some a_user) (goal_update (lit "Learn Rust")) after))
   = db after).
Proof.
  split.
  - apply (proj1 (proj2 (X8_updateProfile_stores_the_goal (N:=spec_float)))
             a_user (lit "Learn Rust") taken_world).
    apply Exists_cons_hd. split; [discriminate|reflexivity].
  - apply (proj2 (proj2 (X8_updateProfile_stores_the_goal (N:=spec_float)))
             a_user (lit "Learn Rust") profiles_world).
    intros Htaken. apply Exists_exists in Htaken as (p & Hp & Hi & Hm).
    vm_compute in Hp.
    apply elem_of_cons in Hp as [-> | Hp]; [discriminate Hm|].
    apply elem_of_cons in Hp as [-> | Hp]; [by apply Hi|].
    inversion Hp.
Defined.

Section TestSession.
Context {N : Type} `{Arith N}.

Lemma array_set_end {A} (l : list A) (x : A) :
  array_set (Some <$> l) (length l) x = Some <$> (l ++ [x]).
Proof.
  unfold array_set. rewrite length_fmap, Nat.ltb_irrefl, Nat.sub_diag.
  simpl. by rewrite fmap_app.
Qed.

Lemma completeTest_view user lessonId v (w : world N) content :
  lessonContent v = Some content ->
  let v' := fst (snd (completeTest user lessonId v (v, w))) in
  userAnswers v' = userAnswers v /\
  testCompleted v' = true /\
  view_score v' = finalScore (assessmentQuestions content) (userAnswers v) /\
  lessonContent v' = Some content.
Proof.
  intros Hc. unfold completeTest. rewrite Hc.
  cbv [try_catch bind non_null ret set_state modify lift query read throw
       showSuccess showError].
  simpl.
  destruct user as [u|]; simpl; [|done].
  destruct (upsert_completion _ _) as [r d]; simpl.
  destruct (lesson v) as [l|]; simpl; [|done].
  destruct (data (single _)) as [p|]; simpl; done.
Qed.

Lemma answer_question_run user lessonId content a (t : test_view) (w : world N) :
  lessonContent (base t) = Some content ->
  answer_question user lessonId a (t, w)
  = let t1 := handleAnswerSelect a t in
    if (Z.of_nat (currentQuestion t)
        <? Z.of_nat (length (assessmentQuestions content)) - 1)%Z
    then (Ok tt, (setCurrentQuestion (currentQuestion t + 1) t1, w))
    else on_base (completeTest user lessonId (base t1)) (t1, w).
Proof.
  intros Hc. unfold answer_question, handleNextQuestion. cbn [fst snd].
  change (lessonContent (base (handleAnswerSelect a t)))
    with (lessonContent (base t)).
  rewrite Hc. unfold bind. cbn [non_null ret]. cbv zeta.
  change (currentQuestion (handleAnswerSelect a t)) with (currentQuestion t).
  by destruct (_ <? _)%Z.
Qed.

Lemma take_test_from user lessonId content (rest : list jstring) :
  forall (answered : list jstring) (t : test_view) (w : world N),
    rest <> [] ->
    lessonContent (base t) = Some content ->
    currentQuestion t = length answered ->
    userAnswers (base t) = Some <$> answered ->
    length answered + length rest = length (assessmentQuestions content) ->
    let t' := fst (snd (take_test user lessonId rest (t, w))) in
    userAnswers (base t') = Some <$> (answered ++ rest) /\
    testCompleted (base t') = true /\
    view_score (base t')
    = finalScore (assessmentQuestions content) (Some <$> (answered ++ rest)) /\
    currentQuestion t' = length (assessmentQuestions content) - 1.
Proof.
  induction rest as [|a rest IH]; intros answered t w Hne Hc Hq Ha Hlen; [done|].
  set (t1 := handleAnswerSelect a t).
  assert (userAnswers (base t1) = Some <$> (answered ++ [a])) as Ha1.
  { subst t1. unfold handleAnswerSelect. cbn. rewrite Ha, Hq.
    apply array_set_end. }
  assert (lessonContent (base t1) = Some content) as Hc1 by done.
  assert (currentQuestion t1 = length answered) as Hq1 by done.
  cbn [length] in Hlen.
  destruct rest as [|b rest].
  - (* the last question *)
    assert (take_test user lessonId [a] (t, w)
            = let '(r, s) := on_base (completeTest user lessonId (base t1)) (t1, w) in
              (r, s)) as E.
    { cbn [take_test]. unfold bind.
      rewrite (answer_question_run user lessonId content a t w Hc). cbv zeta.
      rewrite Hq.
      assert ((Z.of_nat (length answered)
               <? Z.of_nat (length (assessmentQuestions content)) - 1)%Z = false)
        as -> by (apply Z.ltb_ge; simpl in Hlen; lia).
      fold t1. destruct (on_base _ _) as [[[]|e] s]; reflexivity. }
    cbv zeta. rewrite E. unfold on_base. cbn [fst snd].
    pose proof (completeTest_view user lessonId (base t1) w content Hc1)
      as (Hu & Ht & Hs & _). cbv zeta in *.
    destruct (completeTest user lessonId (base t1) (base t1, w))
      as [r [v' w']]. cbn [fst snd base set_base currentQuestion] in *.
    split; [congruence|]. split; [done|]. split; [congruence|].
    rewrite Hq1. simpl in Hlen. lia.
  - assert (take_test user lessonId (a :: b :: rest) (t, w)
            = take_test user lessonId (b :: rest)
                (setCurrentQuestion (currentQuestion t + 1) t1, w)) as E.
    { cbn [take_test]. unfold bind at 1.
      rewrite (answer_question_run user lessonId content a t w Hc). cbv zeta.
      rewrite Hq.
      assert ((Z.of_nat (length answered)
               <? Z.of_nat (length (assessmentQuestions content)) - 1)%Z = true)
        as -> by (apply Z.ltb_lt; simpl in Hlen; lia).
      reflexivity. }
    cbv zeta. rewrite E.
    specialize (IH (answered ++ [a])
                  (setCurrentQuestion (currentQuestion t + 1) t1) w).
    rewrite <- !app_assoc in IH. cbn [List.app] in IH.
    apply IH; [done|done| |done|].
    + cbn. rewrite Hq, length_app. simpl. lia.
    + rewrite length_app. simpl in *. lia.
Qed.

End TestSession.

(** X9.  A test taken from its start, with an answer picked for every
    question before moving on, ends at the last question: [completeTest]
    runs there, on exactly the answers picked, in the order of the
    questions, and the score shown is the score of these answers. *)
Theorem X9_test_session {N : Type} `{Arith N} user lessonId (t : test_view)
  (w : world N) content (answers : list jstring) :
  lessonContent (base t) = Some content ->
  answers <> [] ->
  length answers = length (assessmentQuestions content) ->
  let t' := fst (snd (take_test user lessonId answers (handleStartTest t, w))) in
  userAnswers (base t') = Some <$> answers /\
  testCompleted (base t') = true /\
  view_score (base t')
  = finalScore (assessmentQuestions content) (Some <$> answers) /\
  currentQuestion t' = length answers - 1.
Proof.
  intros Hc Hne Hlen.
  pose proof (take_test_from user lessonId content answers []
                (handleStartTest t) w Hne Hc eq_refl eq_refl Hlen) as Hrun.
  cbn [List.app] in Hrun. by rewrite Hlen.
Qed.

Lemma X9_witness :
  let t' := fst (snd (take_test (N:=spec_float) (Some the_user) (lit "lesson-1")
                        [lit "a"; lit "b"]
                        (handleStartTest test_start, world_of fresh_store aborted))) in
  userAnswers (base t') = [Some (lit "a"); Some (lit "b")] /\
  testCompleted (base t') = true /\
  view_score (base t')
  = finalScore (N:=spec_float) two_questions [Some (lit "a"); Some (lit "b")] /\
  currentQuestion t' = 1.
Proof.
  apply (X9_test_session (N:=spec_float) (Some the_user) (lit "lesson-1")
           test_start (world_of fresh_store aborted)
           {| assessmentQuestions := two_questions |} [lit "a"; lit "b"]).
  - reflexivity.
  - discriminate.
  - reflexivity.
Defined.

Section Answers.

Lemma array_set_lookup {A} (l : list (option A)) i x j :
  mjoin (array_set l i x !! j)
  = if decide (j = i) then Some x else mjoin (l !! j).
Proof.
  unfold array_set. destruct (i <? length l) eqn:Hi.
  - apply Nat.ltb_lt in Hi. destruct (decide (j = i)) as [->|Hne].
    + by rewrite list_lookup_insert_eq.
    + by rewrite list_lookup_insert_ne.
  - apply Nat.ltb_ge in Hi. destruct (decide (j = i)) as [->|Hne].
    + rewrite lookup_app_r by done.
      rewrite lookup_app_r by (rewrite length_replicate; lia).
      rewrite length_replicate, Nat.sub_diag. done.
    + destruct (decide (j < length l)) as [Hj|Hj].
      * by rewrite lookup_app_l.
      * rewrite lookup_app_r by lia.
        rewrite (lookup_ge_None_2 l j) by lia.
        destruct (decide (j < i)) as [Hji|Hji].
        -- rewrite lookup_app_l by (rewrite length_replicate; lia).
           rewrite lookup_replicate_2 by lia. done.
        -- rewrite lookup_app_r by (rewrite length_replicate; lia).
           rewrite length_replicate.
           rewrite lookup_ge_None_2; [done|]. simpl. lia.
Qed.

Lemma array_set_length {A} (l : list (option A)) i x :
  length (array_set l i x) = Nat.max (length l) (S i).
Proof.
  unfold array_set. destruct (i <? length l) eqn:Hi.
  - apply Nat.ltb_lt in Hi. rewrite length_insert. lia.
  - apply Nat.ltb_ge in Hi.
    rewrite !length_app, length_replicate. simpl. lia.
Qed.

End Answers.

(** X10.  [handleAnswerSelect] records the answer for the question shown
    and for no other: reading the answers afterwards gives the new answer
    at the index of the current question and what was there before at any
    other index; the rest of the state is untouched.  The array of answers
    becomes as long as needed to hold the index. *)
Theorem X10_answer_is_recorded_at_the_current_question
  (answer : jstring) (t : test_view) :
  (forall index,
     mjoin (userAnswers (base (handleAnswerSelect answer t)) !! index)
     = if decide (index = currentQuestion t) then Some answer
       else mjoin (userAnswers (base t) !! index)) /\
  length (userAnswers (base (handleAnswerSelect answer t)))
  = Nat.max (length (userAnswers (base t))) (S (currentQuestion t)) /\
  handleAnswerSelect answer t
  = set_base (setUserAnswers
                (userAnswers (base (handleAnswerSelect answer t))) (base t)) t.
Proof.
  split; [|split].
  - intros index. apply array_set_lookup.
  - apply array_set_length.
  - reflexivity.
Qed.

Section Navigation.

Lemma findIndex_from_position {D} (l : list (Row D)) :
  forall k i x,
    NoDup (row_id <$> l) -> l !! i = Some x ->
    findIndex_from (fun r => bool_decide (row_id r = row_id x)) k l
    = Z.of_nat (k + i).
Proof.
  induction l as [|y l IH]; intros k i x Hnd Hx; [done|].
  apply NoDup_cons in Hnd as [Hy Hnd]. cbn [findIndex_from].
  destruct i as [|i].
  - injection Hx as ->. rewrite bool_decide_eq_true_2 by done.
    by rewrite Nat.add_0_r.
  - simpl in Hx. rewrite bool_decide_eq_false_2.
    + rewrite (IH (S k) i x Hnd Hx). f_equal. lia.
    + intros E. apply Hy. rewrite E. apply list_elem_of_fmap_2.
      by eapply list_elem_of_lookup_2.
Qed.

Lemma findIndex_from_absent {D} (l : list (Row D)) k i :
  i ∉ row_id <$> l ->
  findIndex_from (fun r => bool_decide (row_id r = i)) k l = (-1)%Z.
Proof.
  revert k. induction l as [|y l IH]; intros k Hi; [done|].
  cbn [findIndex_from]. rewrite fmap_cons in Hi.
  apply not_elem_of_cons in Hi as [Hne Hi].
  rewrite bool_decide_eq_false_2 by done. by apply IH.
Qed.

Lemma navigate_to_index d lessonId (t : test_view) (target : Z) :
  (match d with
   | next => findIndex (fun l => bool_decide (row_id l = lessonId))
               (allLessons (base t)) + 1
   | prev => findIndex (fun l => bool_decide (row_id l = lessonId))
               (allLessons (base t)) - 1
   end)%Z = target ->
  snd (navigateToLesson d lessonId t)
  = if (0 <=? target)%Z
    then (fun l => lit "/lessons/" ++ row_id l)
           <$> allLessons (base t) !! Z.to_nat target
    else None.
Proof.
  intros E. unfold navigateToLesson. cbv zeta. rewrite E.
  destruct (0 <=? target)%Z eqn:H0; cbn [andb]; [|done].
  destruct (target <? Z.of_nat (length (allLessons (base t))))%Z eqn:Hl.
  - by destruct (allLessons (base t) !! Z.to_nat target).
  - apply Z.ltb_ge in Hl. rewrite lookup_ge_None_2; [done|].
    apply Z.leb_le in H0. lia.
Qed.

End Navigation.

(** X11.  [navigateToLesson] only ever navigates to a lesson of the list it
    holds.  From the lesson at position [i] of a list without repeated ids,
    [next] goes to the lesson at position [i + 1] and does nothing at the
    end of the list, [prev] goes to the lesson at position [i - 1] and does
    nothing at the start, and [prev] after [next] comes back to the lesson
    it started from.  When the current lesson is not in the list, [prev]
    does nothing and [next] goes to the first lesson. *)
Theorem X11_navigation_between_lessons (lessonId : id) (t : test_view) :
  (forall d route,
     snd (navigateToLesson d lessonId t) = Some route ->
     exists target,
       target ∈ allLessons (base t) /\ route = lit "/lessons/" ++ row_id target) /\
  (forall i current,
     NoDup (row_id <$> allLessons (base t)) ->
     allLessons (base t) !! i = Some current ->
     row_id current = lessonId ->
     snd (navigateToLesson next lessonId t)
     = (fun l => lit "/lessons/" ++ row_id l) <$> allLessons (base t) !! S i /\
     snd (navigateToLesson prev lessonId t)
     = match i with
       | 0 => None
       | S j => (fun l => lit "/lessons/" ++ row_id l)
                  <$> allLessons (base t) !! j
       end /\
     (forall following,
        allLessons (base t) !! S i = Some following ->
        snd (navigateToLesson prev (row_id following)
               (fst (navigateToLesson next lessonId t)))
        = Some (lit "/lessons/" ++ lessonId))) /\
  (lessonId ∉ row_id <$> allLessons (base t) ->
   snd (navigateToLesson prev lessonId t) = None /\
   snd (navigateToLesson next lessonId t)
   = (fun l => lit "/lessons/" ++ row_id l) <$> head (allLessons (base t))).
Proof.
  split; [|split].
  - intros d route. unfold navigateToLesson. cbv zeta.
    destruct (_ && _); [|done].
    destruct (allLessons (base t) !! _) as [target|] eqn:Ht; [|done].
    intros [= <-]. exists target. split; [|done].
    by eapply list_elem_of_lookup_2.
  - intros i current Hnd Hi <-.
    pose proof (findIndex_from_position _ 0 i current Hnd Hi) as Hidx.
    simpl in Hidx.
    assert (snd (navigateToLesson next (row_id current) t)
            = (fun l => lit "/lessons/" ++ row_id l)
                <$> allLessons (base t) !! S i) as Hnext.
    { rewrite (navigate_to_index next _ t (Z.of_nat (S i)))
        by (unfold findIndex; rewrite Hidx; lia).
      rewrite (proj2 (Z.leb_le 0 _)) by lia. by rewrite Nat2Z.id. }
    split; [exact Hnext|]. split.
    + rewrite (navigate_to_index prev _ t (Z.of_nat i - 1))
        by (unfold findIndex; by rewrite Hidx).
      destruct i as [|j]; [done|].
      rewrite (proj2 (Z.leb_le 0 _)) by lia.
      replace (Z.of_nat (S j) - 1)%Z with (Z.of_nat j) by lia.
      by rewrite Nat2Z.id.
    + intros following Hf.
      assert (allLessons (base (fst (navigateToLesson next (row_id current) t)))
              = allLessons (base t)) as Hsame.
      { unfold navigateToLesson. cbv zeta. destruct (_ && _); [|done].
        case_match; reflexivity. }
      pose proof (findIndex_from_position _ 0 (S i) following Hnd Hf) as Hidx'.
      rewrite (navigate_to_index prev _ _ (Z.of_nat i))
        by (rewrite Hsame; unfold findIndex; rewrite Hidx'; lia).
      rewrite (proj2 (Z.leb_le 0 _)) by lia.
      by rewrite Nat2Z.id, Hsame, Hi.
  - intros Hout.
    pose proof (findIndex_from_absent (allLessons (base t)) 0 lessonId Hout)
      as Hidx.
    split.
    + by rewrite (navigate_to_index prev _ t (-2)%Z)
        by (unfold findIndex; by rewrite Hidx).
    + rewrite (navigate_to_index next _ t 0%Z)
        by (unfold findIndex; by rewrite Hidx).
      simpl. by destruct (allLessons (base t)).
Qed.

Lemma X11_witness :
  snd (navigateToLesson next (lit "lesson-1") two_lesson_view)
  = Some (lit "/lessons/lesson-2") /\
  snd (navigateToLesson prev (lit "lesson-1") two_lesson_view) = None /\
  snd (navigateToLesson prev (lit "lesson-2")
         (fst (navigateToLesson next (lit "lesson-1") two_lesson_view)))
  = Some (lit "/lessons/lesson-1").
Proof.
  assert (NoDup (row_id <$> allLessons (base two_lesson_view))) as Hnd.
  { vm_compute. repeat constructor; rewrite ?elem_of_cons, ?elem_of_nil;
      intros X; repeat destruct X as [X|X]; discriminate || done. }
  destruct (proj1 (proj2 (X11_navigation_between_lessons (lit "lesson-1")
                            two_lesson_view))
              0 the_lesson Hnd eq_refl eq_refl) as (Hn & Hp & Hround).
  split; [exact Hn|]. split; [exact Hp|].
  exact (Hround second_lesson eq_refl).
Defined.

Section StoreFrame.
Context {N : Type} `{Arith N}.
Context (R : database N -> database N -> Prop) (HR : store_steps R).

Lemma on_store_same (w w' : world N) : db w' = db w -> on_store R w w'.
Proof. unfold on_store. intros ->. apply (ss_refl R HR). Qed.

Section Generic.
Context {W : Type} (Q : W -> W -> Prop).
Hypothesis Q_refl : forall s, Q s s.
Hypothesis Q_trans : forall x y z, Q x y -> Q y z -> Q x z.

Lemma keeps_ret {A} (a : A) : leaves Q (ret a).
Proof. intros s. apply Q_refl. Qed.

Lemma keeps_throw {A} e : leaves Q (@throw W A e).
Proof. intros s. apply Q_refl. Qed.

Lemma keeps_gets {A} (f : W -> A) : leaves Q (gets f).
Proof. intros s. apply Q_refl. Qed.

Lemma keeps_bind {A B} (m : M W A) (k : A -> M W B) :
  leaves Q m -> (forall x, leaves Q (k x)) -> leaves Q (bind m k).
Proof.
  intros Hm Hk s. unfold bind. specialize (Hm s).
  destruct (m s) as [[x|e] s1]; simpl in *; [|done].
  eapply Q_trans; [done|apply Hk].
Qed.

Lemma keeps_try_catch {A} (m : M W A) h :
  leaves Q m -> (forall e, leaves Q (h e)) -> leaves Q (try_catch m h).
Proof.
  intros Hm Hh s. unfold try_catch. specialize (Hm s).
  destruct (m s) as [[x|e] s1]; simpl in *; [done|].
  eapply Q_trans; [done|apply Hh].
Qed.

Lemma keeps_finally {A} (m : M W A) (f : W -> W) :
  leaves Q m -> (forall s, Q s (f s)) -> leaves Q (finally m f).
Proof.
  intros Hm Hf s. unfold finally. specialize (Hm s).
  destruct (m s) as [r s1]; simpl in *. eapply Q_trans; [done|apply Hf].
Qed.

Lemma keeps_Promise_all {A B} order (p1 : M W A) (p2 : M W B) :
  leaves Q p1 -> leaves Q p2 -> leaves Q (Promise_all order p1 p2).
Proof.
  intros H1 H2 s. unfold Promise_all. destruct order.
  - specialize (H1 s). destruct (p1 s) as [r1 s1].
    specialize (H2 s1). destruct (p2 s1) as [r2 s2]. simpl in *.
    by eapply Q_trans.
  - specialize (H2 s). destruct (p2 s) as [r2 s2].
    specialize (H1 s2). destruct (p1 s2) as [r1 s1]. simpl in *.
    by eapply Q_trans.
Qed.

End Generic.

Lemma on_store_refl (w : world N) : on_store R w w.
Proof. apply (ss_refl R HR). Qed.

Lemma on_store_trans (x y z : world N) :
  on_store R x y -> on_store R y z -> on_store R x z.
Proof. apply (ss_trans R HR). Qed.

Lemma keeps_query {A} (q : database N -> A * database N) :
  (forall d, R d (snd (q d))) -> leaves (on_store R) (query q).
Proof.
  intros Hq w. unfold query, on_store. specialize (Hq (db w)).
  by destruct (q (db w)).
Qed.

Lemma keeps_lift {V A} (m : M (world N) A) :
  leaves (on_store R) m -> leaves (@on_world V N (on_store R)) (lift m).
Proof.
  intros Hm s. unfold on_world, lift. specialize (Hm (snd s)).
  by destruct (m (snd s)).
Qed.

Lemma keeps_makeGeminiRequest prompt timeout :
  leaves (on_store R) (makeGeminiRequest (N:=N) prompt timeout).
Proof.
  intros w. apply on_store_same.
  by destruct (makeGeminiRequest_world prompt timeout w) as [-> | ->].
Qed.

Ltac head_cases :=
  match goal with
  | |- context [match ?x with _ => _ end] => destruct x
  end.

Ltac from_context := match goal with H : _ |- _ => solve [apply H] end.

(** The head of the function decides the lemma. *)
Ltac keeps :=
  idtac;
  lazymatch goal with
  | |- leaves (on_world _) (lift _) => apply keeps_lift; keeps
  | |- leaves (on_world _) (set_state _) =>
      intros ?; apply on_store_same; reflexivity
  | |- leaves (on_world _) (bind _ _) =>
      apply keeps_bind;
      [intros ? ? ?; apply on_store_trans | keeps | intro; keeps]
  | |- leaves (on_world _) (try_catch _ _) =>
      apply keeps_try_catch;
      [intros ? ? ?; apply on_store_trans | keeps | intro; keeps]
  | |- leaves (on_world _) (finally _ _) =>
      apply keeps_finally;
      [intros ? ? ?; apply on_store_trans | keeps
      |intros ?; apply on_store_same; reflexivity]
  | |- leaves (on_world _) (Promise_all _ _ _) =>
      apply keeps_Promise_all;
      [intros ? ? ?; apply on_store_trans | keeps | keeps]
  | |- leaves (on_world _) (ret _) => intros ?; apply on_store_refl
  | |- leaves (on_world _) (throw _) => intros ?; apply on_store_refl
  | |- leaves (on_world _) (settle _) => intros ?; apply on_store_refl
  | |- leaves _ (bind _ _) =>
      apply keeps_bind; [apply on_store_trans | keeps | intro; keeps]
  | |- leaves _ (try_catch _ _) =>
      apply keeps_try_catch; [apply on_store_trans | keeps | intro; keeps]
  | |- leaves _ (ret _) => intros ?; apply on_store_refl
  | |- leaves _ (throw _) => intros ?; apply on_store_refl
  | |- leaves _ (gets _) => intros ?; apply on_store_same; reflexivity
  | |- leaves _ (modify _) => intros ?; apply on_store_same; reflexivity
  | |- leaves _ (read _) => intros ?; apply on_store_same; reflexivity
  | |- leaves _ (showSuccess _ _) => intros ?; apply on_store_same; reflexivity
  | |- leaves _ (showError _ _ _) => intros ?; apply on_store_same; reflexivity
  | |- leaves _ (makeGeminiRequest _ _) => apply keeps_makeGeminiRequest
  | |- leaves _ (query (upsert_completion _)) =>
      apply keeps_query, (ss_upsert_completion R HR)
  | |- leaves _ (query (update_progress _ _)) =>
      apply keeps_query, (ss_update_progress R HR)
  | |- leaves _ (query (insert_roadmap _)) =>
      apply keeps_query, (ss_insert_roadmap R HR)
  | |- leaves _ (query (insert_lessons _ _)) =>
      apply keeps_query, (ss_insert_lessons R HR)
  | |- leaves _ (query (insert_progress _)) =>
      apply keeps_query, (ss_insert_progress R HR)
  | |- leaves _ (query (upsert_profile _ _ _)) =>
      apply keeps_query, (ss_upsert_profile R HR)
  | |- leaves _ (query _) =>
      apply keeps_query; intro; cbn [snd]; from_context
  | |- leaves _ _ =>
      first [ from_context | progress cbv zeta; keeps
            | progress head_cases; keeps ]
  end.

Lemma keeps_generateQuestions goal :
  leaves (on_store R) (generateQuestions (N:=N) goal).
Proof. unfold generateQuestions, rethrow. keeps. Qed.

Lemma keeps_generateRoadmap goal answers :
  leaves (on_store R) (generateRoadmap (N:=N) goal answers).
Proof. unfold generateRoadmap, rethrow. keeps. Qed.

Lemma keeps_generateLessonContent l :
  leaves (on_store R) (generateLessonContent (N:=N) l).
Proof. unfold generateLessonContent, rethrow. keeps. Qed.

Lemma keeps_updateProfile user g :
  leaves (on_store R) (updateProfile (N:=N) user g).
Proof. unfold updateProfile. keeps. Qed.

Lemma keeps_checkCompletion user lessonId :
  leaves (on_world (on_store R)) (checkCompletion (N:=N) user lessonId).
Proof. unfold checkCompletion, non_null. keeps. Qed.

Lemma keeps_handleMarkComplete user lessonId v :
  leaves (on_world (on_store R)) (handleMarkComplete user lessonId v).
Proof. unfold handleMarkComplete, non_null. keeps. Qed.

Lemma keeps_completeTest user lessonId v :
  leaves (on_world (on_store R)) (completeTest user lessonId v).
Proof. unfold completeTest, non_null. cbv zeta. keeps. Qed.

Lemma keeps_fetchLessons order timed_out user :
  leaves (on_world (on_store R)) (fetchLessons (N:=N) order timed_out user).
Proof.
  unfold fetchLessons, fetchLessons_with, merge_results, lessons_query,
    completions_query.
  keeps.
Qed.

Lemma keeps_handleGoalSubmit v :
  leaves (on_world (on_store R)) (handleGoalSubmit (N:=N) v).
Proof.
  unfold handleGoalSubmit. pose proof keeps_generateQuestions. keeps.
Qed.

Lemma keeps_handleGenerateRoadmap cast user v :
  leaves (on_world (on_store R)) (handleGenerateRoadmap cast user v).
Proof.
  unfold handleGenerateRoadmap. cbv zeta.
  pose proof keeps_generateRoadmap. pose proof keeps_updateProfile. keeps.
Qed.

Lemma keeps_fetchRoadmapData user :
  leaves (on_world (on_store R)) (fetchRoadmapData (N:=N) user).
Proof. unfold fetchRoadmapData, non_null, throw_error. keeps. Qed.

Lemma keeps_handleSave user v :
  leaves (on_world (on_store R)) (handleSave (N:=N) user v).
Proof. unfold handleSave. pose proof keeps_updateProfile. keeps. Qed.

Section Rewrites.
Hypothesis HD : rewrite_steps R.

Lemma keeps_handleDeleteRoadmap v :
  leaves (on_world (on_store R)) (handleDeleteRoadmap (N:=N) v).
Proof.
  unfold handleDeleteRoadmap, throw_error.
  pose proof (rs_delete_roadmap R HD). keeps.
Qed.

Lemma keeps_handleAlterRoadmap cast user v :
  leaves (on_world (on_store R)) (handleAlterRoadmap cast user v).
Proof.
  unfold handleAlterRoadmap, throw_error.
  pose proof (rs_update_roadmap_weeks R HD).
  pose proof (rs_delete_lessons_of R HD).
  pose proof (rs_reset_progress R HD).
  pose proof keeps_generateRoadmap. pose proof keeps_fetchRoadmapData.
  keeps.
Qed.

Lemma keeps_handleDeleteUser refusal v :
  leaves (on_world (on_store R)) (handleDeleteUser (N:=N) refusal v).
Proof.
  unfold handleDeleteUser, auth_admin_deleteUser, throw_error.
  pose proof (rs_delete_user R HD). keeps.
Qed.

End Rewrites.

Lemma keeps_fetchLesson JSON_stringify as_LessonContent i :
  leaves (on_world (on_store R))
    (fetchLesson (N:=N) JSON_stringify as_LessonContent i).
Proof.
  unfold fetchLesson. pose proof keeps_generateLessonContent. keeps.
Qed.

Section Transitions.
Variable JSON_stringify : json -> jstring.
Variable as_LessonContent : json -> LessonContent.
Variable cast : json -> jstring + js_error.

Lemma run_flow_keeps m (a : app (N:=N)) :
  leaves (on_world (on_store R)) m ->
  R (db (the_world a)) (db (the_world (run_flow m a))).
Proof.
  intros Hm. unfold run_flow. specialize (Hm (flow a, the_world a)).
  unfold on_world, on_store in Hm. by destruct (m _) as [r [f w]].
Qed.

Lemma run_view_keeps i m (a : app (N:=N)) :
  leaves (on_world (on_store R)) m ->
  R (db (the_world a)) (db (the_world (run_view i m a))).
Proof.
  intros Hm. unfold run_view. specialize (Hm (view a, the_world a)).
  unfold on_world, on_store in Hm. by destruct (m _) as [r [f w]].
Qed.

Lemma run_list_keeps m (a : app (N:=N)) :
  leaves (on_world (on_store R)) m ->
  R (db (the_world a)) (db (the_world (run_list m a))).
Proof.
  intros Hm. unfold run_list. specialize (Hm (list_view a, the_world a)).
  unfold on_world, on_store in Hm. by destruct (m _) as [r [f w]].
Qed.

Lemma run_roadmap_keeps m (a : app (N:=N)) :
  leaves (on_world (on_store R)) m ->
  R (db (the_world a)) (db (the_world (run_roadmap m a))).
Proof.
  intros Hm. unfold run_roadmap.
  specialize (Hm (roadmap_view_of a, the_world a)).
  unfold on_world, on_store in Hm. by destruct (m _) as [r [f w]].
Qed.

Lemma run_profile_keeps m (a : app (N:=N)) :
  leaves (on_world (on_store R)) m ->
  R (db (the_world a)) (db (the_world (run_profile m a))).
Proof.
  intros Hm. unfold run_profile.
  specialize (Hm (profile_view_of a, the_world a)).
  unfold on_world, on_store in Hm. by destruct (m _) as [r [f w]].
Qed.

Lemma run_admin_keeps m (a : app (N:=N)) :
  leaves (on_world (on_store R)) m ->
  R (db (the_world a)) (db (the_world (run_admin m a))).
Proof.
  intros Hm. unfold run_admin.
  specialize (Hm (admin_view_of a, the_world a)).
  unfold on_world, on_store in Hm. by destruct (m _) as [r [f w]].
Qed.

Lemma keeps_set_state {V} (f : V -> V) :
  leaves (on_world (on_store R)) (set_state (N:=N) f).
Proof. intros ?. apply on_store_same. reflexivity. Qed.

Lemma lesson_effect_keeps i (a : app (N:=N)) :
  R (db (the_world a))
    (db (the_world (lesson_effect JSON_stringify as_LessonContent i a))).
Proof.
  unfold lesson_effect. destruct (user a); [|apply (ss_refl R HR)].
  destruct (truthy i); [|apply (ss_refl R HR)].
  eapply (ss_trans R HR);
    [apply run_view_keeps, keeps_fetchLesson
    |apply run_view_keeps, keeps_checkCompletion].
Qed.

Lemma lessons_list_effect_keeps t o (a : app (N:=N)) :
  R (db (the_world a)) (db (the_world (lessons_list_effect t o a))).
Proof.
  unfold lessons_list_effect. destruct (user a); [|apply (ss_refl R HR)].
  apply run_list_keeps, keeps_fetchLessons.
Qed.

Lemma roadmap_effect_keeps (a : app (N:=N)) :
  R (db (the_world a)) (db (the_world (roadmap_effect a))).
Proof.
  unfold roadmap_effect. destruct (user a); [|apply (ss_refl R HR)].
  apply run_roadmap_keeps, keeps_fetchRoadmapData.
Qed.

(** A transition keeps the relation; the steps that delete or overwrite
    need it to hold along their statements too. *)
Lemma transition_keeps (a : app (N:=N)) e :
  (rewrites e = true -> rewrite_steps R) ->
  R (db (the_world a))
    (db (the_world (transition JSON_stringify as_LessonContent cast a e))).
Proof.
  intros HD.
  destruct e as [| | i | | | timed_out order | i | | | | | refusal
                | i mail fullName | u shown | f | f | f | f | f];
    cbn [transition].
  - apply run_flow_keeps, keeps_handleGoalSubmit.
  - apply run_flow_keeps, keeps_handleGenerateRoadmap.
  - apply lesson_effect_keeps.
  - destruct (isCompleted (view a)); [apply (ss_refl R HR)|].
    apply run_view_keeps, keeps_handleMarkComplete.
  - apply run_view_keeps, keeps_completeTest.
  - apply lessons_list_effect_keeps.
  - destruct (toasts (the_world a) !! i) as [t|]; [|apply (ss_refl R HR)].
    destruct (toast_action t ≫= onClick_of) as [[| |]|]; cbn [run_callback].
    + apply run_view_keeps, keeps_fetchLesson.
    + apply run_flow_keeps, keeps_handleGenerateRoadmap.
    + apply run_roadmap_keeps, keeps_fetchRoadmapData.
    + apply (ss_refl R HR).
  - apply roadmap_effect_keeps.
  - destruct (_ && _); [|apply (ss_refl R HR)].
    apply run_roadmap_keeps, keeps_handleDeleteRoadmap, HD. reflexivity.
  - destruct (_ && _); [|apply (ss_refl R HR)].
    apply run_roadmap_keeps, keeps_handleAlterRoadmap, HD. reflexivity.
  - destruct (_ && _); [|apply (ss_refl R HR)].
    apply run_profile_keeps, keeps_handleSave.
  - destruct (deleteModalOpen _); [|apply (ss_refl R HR)].
    apply run_admin_keeps, keeps_handleDeleteUser, HD. reflexivity.
  - cbn. apply (ss_handle_new_user R HR).
  - cbv zeta. destruct shown as [|timed_out order| |].
    + apply (lesson_effect_keeps _ (set_user u a)).
    + apply (lessons_list_effect_keeps _ _ (set_user u a)).
    + apply (roadmap_effect_keeps (set_user u a)).
    + apply (ss_refl R HR).
  - apply run_flow_keeps, keeps_set_state.
  - apply run_view_keeps, keeps_set_state.
  - apply run_roadmap_keeps, keeps_set_state.
  - apply run_profile_keeps, keeps_set_state.
  - apply run_admin_keeps, keeps_set_state.
Qed.

Lemma run_keeps (events : list event) (a : app (N:=N)) :
  (Exists (fun e => rewrites e = true) events -> rewrite_steps R) ->
  R (db (the_world a))
    (db (the_world (run JSON_stringify as_LessonContent cast a events))).
Proof.
  revert a. induction events as [|e events IH]; intros a HD.
  - apply (ss_refl R HR).
  - simpl. eapply (ss_trans R HR).
    + apply (transition_keeps a e). intros He. apply HD. by left.
    + apply IH. intros He. apply HD. by right.
Qed.

End Transitions.

End StoreFrame.

Section StoreInvariants.
Context {N : Type} `{Arith N}.

Lemma upsert_completion_tables row (d : database N) :
  let d' := snd (upsert_completion row d) in
  profiles d' = profiles d /\ roadmaps d' = roadmaps d /\
  lessons d' = lessons d /\ user_progress d' = user_progress d /\
  (lesson_completions d' = lesson_completions d \/
   lesson_completions d'
   = lesson_completions d ++ [{| row_id := fresh_id d; row_data := row |}]).
Proof.
  unfold upsert_completion. destruct (completions_of d _ _); simpl; tauto.
Qed.

Lemma insert_progress_tables row (d : database N) :
  let d' := snd (insert_progress row d) in
  profiles d' = profiles d /\ roadmaps d' = roadmaps d /\
  lessons d' = lessons d /\ lesson_completions d' = lesson_completions d /\
  (user_progress d' = user_progress d \/
   user_progress d'
   = user_progress d ++ [{| row_id := fresh_id d; row_data := row |}]).
Proof.
  unfold insert_progress. destruct (progress_of d _ _); simpl; tauto.
Qed.

Lemma insert_lessons_tables cast rows (d : database N) :
  let d' := snd (insert_lessons cast rows d) in
  profiles d' = profiles d /\ roadmaps d' = roadmaps d /\
  user_progress d' = user_progress d /\
  lesson_completions d' = lesson_completions d /\
  lessons d `prefix_of` lessons d'.
Proof.
  unfold insert_lessons.
  destruct (collect (lesson_cells cast) rows) as [cells|e]; [|by simpl].
  destruct (collect checked_lesson cells) as [typed|e]; [|by simpl].
  simpl. repeat split. by apply prefix_app_r.
Qed.

Lemma map_keeps_ids {D} (f : Row D -> Row D) (l : list (Row D)) :
  (forall x, row_id (f x) = row_id x) ->
  row_id <$> map f l = row_id <$> l.
Proof.
  intros Hf. induction l as [|x l IH]; [done|].
  cbn [map]. rewrite !fmap_cons, Hf. by f_equal.
Qed.

Lemma upsert_profile_tables i m u (d : database N) :
  let d' := snd (upsert_profile i m u d) in
  roadmaps d' = roadmaps d /\ lessons d' = lessons d /\
  user_progress d' = user_progress d /\
  lesson_completions d' = lesson_completions d /\
  (row_id <$> profiles d) `prefix_of` (row_id <$> profiles d').
Proof.
  unfold upsert_profile. destruct (bool_decide _); [by simpl|].
  cbn [snd profiles roadmaps lessons user_progress lesson_completions
       set_profiles].
  repeat split. case_bool_decide.
  - rewrite map_keeps_ids; [done|].
    intros x. by destruct (decide (row_id x = i)).
  - rewrite fmap_app. by apply prefix_app_r.
Qed.

Lemma handle_new_user_tables i m n (d : database N) :
  let d' := handle_new_user i m n d in
  roadmaps d' = roadmaps d /\ lessons d' = lessons d /\
  user_progress d' = user_progress d /\
  lesson_completions d' = lesson_completions d /\
  profiles d `prefix_of` profiles d'.
Proof.
  unfold handle_new_user. destruct (bool_decide _); [by simpl|].
  simpl. repeat split. by apply prefix_app_r.
Qed.

Lemma time_steps :
  store_steps (fun d d' : database N =>
                 time_matches_counter d -> time_matches_counter d').
Proof.
  split; try done.
  - intros x y z Hxy Hyz Hx. by apply Hyz, Hxy.
  - intros row d Hd p.
    destruct (upsert_completion_tables row d) as (_ & _ & _ & -> & _).
    apply Hd.
  - intros s i d Hd p. cbn [update_progress snd user_progress set_user_progress].
    intros (q & <- & Hq)%list_elem_of_In%in_map_iff.
    apply list_elem_of_In in Hq. specialize (Hd q Hq).
    destruct (decide (row_id q = i)); [|done].
    cbn [row_data progress_update total_time_spent completed_lessons].
    rewrite Hd. lia.
  - intros cast rows d Hd p.
    destruct (insert_lessons_tables cast rows d) as (_ & _ & -> & _).
    apply Hd.
  - intros u r n d Hd p.
    destruct (insert_progress_tables (initial_progress u r n) d)
      as (_ & _ & _ & _ & [-> | ->]); [apply Hd|].
    intros [Hp | ->%list_elem_of_singleton]%elem_of_app; [by apply Hd|].
    reflexivity.
  - intros i m u d Hd p.
    destruct (upsert_profile_tables i m u d) as (_ & _ & -> & _).
    apply Hd.
  - intros i m n d Hd p.
    destruct (handle_new_user_tables i m n d) as (_ & _ & -> & _).
    apply Hd.
Qed.

(** The statements that delete rows or reset a progress record keep the
    time in step with the counter too: a reset puts both at 0. *)
Lemma time_rewrites :
  rewrite_steps (fun d d' : database N =>
                   time_matches_counter d -> time_matches_counter d').
Proof.
  split.
  - intros r w d Hd p. exact (Hd p).
  - intros r d Hd p. exact (Hd p).
  - intros n r d Hd p.
    cbn [update_progress_of_roadmap snd user_progress set_user_progress].
    intros (q & <- & Hq)%list_elem_of_In%in_map_iff.
    apply list_elem_of_In in Hq. specialize (Hd q Hq).
    destruct (decide (progress_roadmap_id (row_data q) = r)); [|done].
    reflexivity.
  - intros r d Hd p.
    cbn [delete_roadmap snd user_progress set_user_progress set_roadmaps
         set_lessons].
    intros [_ Hp]%list_elem_of_filter. by apply Hd.
  - intros u d Hd p. unfold delete_user.
    cbn [user_progress set_user_progress set_roadmaps set_lessons
         set_profiles].
    intros [_ Hp]%list_elem_of_filter. by apply Hd.
Qed.

Lemma prefix_fmap {A B} (f : A -> B) (l k : list A) :
  l `prefix_of` k -> (f <$> l) `prefix_of` (f <$> k).
Proof. intros [q ->]. exists (f <$> q). by rewrite fmap_app. Qed.

Lemma nothing_removed_refl (d : database N) : nothing_removed d d.
Proof. unfold nothing_removed. by repeat split. Qed.

Lemma nothing_removed_tables (d d' : database N) :
  roadmaps d `prefix_of` roadmaps d' ->
  lessons d `prefix_of` lessons d' ->
  lesson_completions d `prefix_of` lesson_completions d' ->
  (row_id <$> user_progress d) `prefix_of` (row_id <$> user_progress d') ->
  (row_id <$> profiles d) `prefix_of` (row_id <$> profiles d') ->
  nothing_removed d d'.
Proof.
  intros. unfold nothing_removed. repeat split; try done.
  by apply prefix_fmap.
Qed.

Lemma removal_steps : store_steps (@nothing_removed N).
Proof.
  split.
  - apply nothing_removed_refl.
  - intros x y z (A1 & A2 & A3 & A4 & A5) (B1 & B2 & B3 & B4 & B5).
    unfold nothing_removed. repeat split; by etrans.
  - intros row d.
    destruct (upsert_completion_tables row d) as (E1 & E2 & E3 & E4 & E5).
    cbv zeta in *. apply nothing_removed_tables;
      rewrite ?E1, ?E2, ?E3, ?E4; try done.
    destruct E5 as [-> | ->]; [done|]. by apply prefix_app_r.
  - intros s i d. apply nothing_removed_tables; try done.
    cbn [update_progress snd user_progress set_user_progress].
    rewrite map_keeps_ids; [done|].
    intros x. by destruct (decide (row_id x = i)).
  - intros row d. apply nothing_removed_tables; try done.
    simpl. by apply prefix_app_r.
  - intros cast rows d.
    destruct (insert_lessons_tables cast rows d) as (E1 & E2 & E3 & E4 & E5).
    cbv zeta in *. apply nothing_removed_tables;
      rewrite ?E1, ?E2, ?E3, ?E4; done.
  - intros u r n d.
    destruct (insert_progress_tables (initial_progress u r n) d)
      as (E1 & E2 & E3 & E4 & E5).
    cbv zeta in *. apply nothing_removed_tables;
      rewrite ?E1, ?E2, ?E3, ?E4; try done.
    destruct E5 as [-> | ->]; [done|].
    rewrite fmap_app. by apply prefix_app_r.
  - intros i m u d.
    destruct (upsert_profile_tables i m u d) as (E1 & E2 & E3 & E4 & E5).
    cbv zeta in *. apply nothing_removed_tables;
      rewrite ?E1, ?E2, ?E3, ?E4; done.
  - intros i m n d.
    destruct (handle_new_user_tables i m n d) as (E1 & E2 & E3 & E4 & E5).
    cbv zeta in *. apply nothing_removed_tables;
      rewrite ?E1, ?E2, ?E3, ?E4; try done.
    by apply prefix_fmap.
Qed.

End StoreInvariants.

(** X12.  Every sequence of steps of the application keeps the time on
    record in step with the counter: when every progress record of the
    store has total_time_spent equal to 30 times completed_lessons, the same
    holds after the steps.  The record a new roadmap starts with has both at
    0, and so has the record of an altered roadmap. *)
Theorem X12_time_is_thirty_minutes_per_completion {N : Type} `{Arith N}
  (JSON_stringify : json -> jstring) (as_LessonContent : json -> LessonContent)
  (cast : json -> jstring + js_error) (a : app (N:=N)) (events : list event) :
  time_matches_counter (db (the_world a)) ->
  time_matches_counter
    (db (the_world (run JSON_stringify as_LessonContent cast a events))).
Proof.
  apply (run_keeps _ time_steps JSON_stringify as_LessonContent cast events a).
  intros _. apply time_rewrites.
Qed.

(** X13.  Rows leave the store only through Delete Roadmap, Alter Roadmap
    and Delete User: a sequence of steps without these three removes
    nothing.  The roadmaps and the lessons the store held are still there,
    unchanged and at the same place, and so are the identifiers of the
    completion, progress and profile records. *)
Theorem X13_nothing_is_removed_but_by_deletion {N : Type} `{Arith N}
  (JSON_stringify : json -> jstring) (as_LessonContent : json -> LessonContent)
  (cast : json -> jstring + js_error) (a : app (N:=N)) (events : list event) :
  Forall (fun e => rewrites e = false) events ->
  nothing_removed (db (the_world a))
    (db (the_world (run JSON_stringify as_LessonContent cast a events))).
Proof.
  intros Hnone.
  apply (run_keeps _ removal_steps JSON_stringify as_LessonContent cast
           events a).
  intros (e & He & Hr)%Exists_exists.
  rewrite Forall_forall in Hnone. specialize (Hnone e He). congruence.
Qed.

Lemma X13_witness :
  nothing_removed (db (the_world roadmap_app))
    (db (the_world
           (run stringify_example content_example strict_cast roadmap_app
              [open_lesson (lit "lesson-1"); click_mark_complete;
               open_roadmap]))).
Proof.
  apply (X13_nothing_is_removed_but_by_deletion stringify_example
           content_example strict_cast roadmap_app).
  repeat constructor.
Defined.

Section Persisted.
Context {N : Type} `{Arith N}.

Lemma upsert_completion_single row (d : database N) :
  length (completions_of d (user_id row) (lesson_id row)) <= 1 ->
  exists c,
    completions_of (snd (upsert_completion row d)) (user_id row) (lesson_id row)
    = [c].
Proof.
  intros Hone. unfold upsert_completion.
  destruct (completions_of d (user_id row) (lesson_id row)) as [|c [|c' rest]] eqn:E.
  - eexists. unfold completions_of in *.
    cbn [snd lesson_completions set_next_id set_lesson_completions].
    rewrite filter_app, E. rewrite filter_cons_True by done.
    by rewrite filter_nil.
  - exists c. exact E.
  - simpl in Hone. lia.
Qed.

Lemma handleMarkComplete_completions u lessonId v (w : world N) :
  lesson_completions (db (snd (snd (handleMarkComplete (Some u) lessonId v (v, w)))))
  = lesson_completions
      (snd (upsert_completion
              {| user_id := uid u; lesson_id := lessonId; score := Some 100%Z;
                 time_spent := 30; completion_answers := [] |} (db w))).
Proof.
  unfold handleMarkComplete.
  cbv [try_catch bind non_null ret set_state modify lift query read throw
       showSuccess showError].
  simpl.
  destruct (upsert_completion _ (db w)) as [r d]. simpl.
  destruct (lesson v) as [l|]; simpl; [|done].
  destruct (data (single _)) as [p|]; simpl; done.
Qed.

Lemma completeTest_completions u lessonId v (w : world N) content :
  lessonContent v = Some content ->
  lesson_completions (db (snd (snd (completeTest (Some u) lessonId v (v, w)))))
  = lesson_completions
      (snd (upsert_completion
              {| user_id := uid u; lesson_id := lessonId;
                 score := finalScore (assessmentQuestions content) (userAnswers v);
                 time_spent := 30; completion_answers := userAnswers v |}
              (db w))).
Proof.
  intros Hc. unfold completeTest. rewrite Hc.
  cbv [try_catch bind non_null ret set_state modify lift query read throw
       showSuccess showError].
  simpl.
  destruct (upsert_completion _ (db w)) as [r d]. simpl.
  destruct (lesson v) as [l|]; simpl; [|done].
  destruct (data (single _)) as [p|]; simpl; done.
Qed.

Lemma checkCompletion_found u lessonId v (w : world N) c :
  completions_of (db w) (uid u) lessonId = [c] ->
  checkCompletion (Some u) lessonId (v, w) = (Ok tt, (setIsCompleted true v, w)).
Proof.
  intros Hc. unfold checkCompletion.
  cbv [try_catch bind non_null ret set_state modify lift read].
  simpl. by rewrite Hc.
Qed.

Lemma checkCompletion_none u lessonId v (w : world N) :
  completions_of (db w) (uid u) lessonId = [] ->
  checkCompletion (Some u) lessonId (v, w) = (Ok tt, (setIsCompleted false v, w)).
Proof.
  intros Hc. unfold checkCompletion.
  cbv [try_catch bind non_null ret set_state modify lift read].
  simpl. by rewrite Hc.
Qed.

End Persisted.

(** X14.  A completion is found again: after [handleMarkComplete], and after
    [completeTest] on a loaded lesson, [checkCompletion] for the same user
    and lesson sets the completed flag, whatever view it starts from, and
    changes nothing else.  Before any completion it clears the flag.  The
    store is taken to hold at most one completion record for the user and
    the lesson, as its uniqueness constraint has it. *)
Theorem X14_completion_is_found_again {N : Type} `{Arith N}
  (u : User) (lessonId : id) (v v' : lesson_view) (w : world N) :
  length (completions_of (db w) (uid u) lessonId) <= 1 ->
  (let w1 := snd (snd (handleMarkComplete (Some u) lessonId v (v, w))) in
   checkCompletion (Some u) lessonId (v', w1)
   = (Ok tt, (setIsCompleted true v', w1))) /\
  (forall content,
     lessonContent v = Some content ->
     let w1 := snd (snd (completeTest (Some u) lessonId v (v, w))) in
     checkCompletion (Some u) lessonId (v', w1)
     = (Ok tt, (setIsCompleted true v', w1))) /\
  (completions_of (db w) (uid u) lessonId = [] ->
   checkCompletion (Some u) lessonId (v', w)
   = (Ok tt, (setIsCompleted false v', w))).
Proof.
  intros Hone. split; [|split].
  - cbv zeta.
    destruct (upsert_completion_single
                {| user_id := uid u; lesson_id := lessonId; score := Some 100%Z;
                   time_spent := 30; completion_answers := [] |} (db w) Hone)
      as [c Hc].
    apply (checkCompletion_found u lessonId v' _ c).
    unfold completions_of in *. by rewrite handleMarkComplete_completions.
  - intros content Hcontent. cbv zeta.
    destruct (upsert_completion_single
                {| user_id := uid u; lesson_id := lessonId;
                   score := finalScore (assessmentQuestions content) (userAnswers v);
                   time_spent := 30; completion_answers := userAnswers v |}
                (db w) Hone)
      as [c Hc].
    apply (checkCompletion_found u lessonId v' _ c).
    unfold completions_of in *.
    by rewrite (completeTest_completions u lessonId v w content Hcontent).
  - apply checkCompletion_none.
Qed.

Lemma X14_witness :
  let w1 := snd (snd (handleMarkComplete (Some the_user) (lit "lesson-1")
                        loaded_view
                        (loaded_view, world_of fresh_store aborted))) in
  checkCompletion (Some the_user) (lit "lesson-1") (loaded_view, w1)
  = (Ok tt, (setIsCompleted true loaded_view, w1)).
Proof.
  apply (proj1 (X14_completion_is_found_again the_user (lit "lesson-1")
                  loaded_view loaded_view (world_of fresh_store aborted)
                  (Nat.le_0_l 1))).
Defined.

Section NoQuestions.

Lemma SFadd_nan x : SFadd Binary64.prec Binary64.emax x S754_nan = S754_nan.
Proof. by destruct x. Qed.

Lemma SFdiv_nan y : SFdiv Binary64.prec Binary64.emax S754_nan y = S754_nan.
Proof. by destruct y. Qed.

End NoQuestions.

(** X15.  A test without questions has no score: [completeTest] divides 0
    by 0, the score is NaN whatever the answers, and that is what the view
    shows.  A completion without score turns the average of the progress
    record into NaN, and the completion after that starts the average from
    0 again, as for a record without average. *)
Theorem X15_test_without_questions :
  (forall answers, finalScore (N:=spec_float) [] answers = None) /\
  (forall user lessonId v (w : world spec_float),
     lessonContent v = Some {| assessmentQuestions := [] |} ->
     view_score (fst (snd (completeTest user lessonId v (v, w)))) = None) /\
  (forall x : ProgressData spec_float,
     average_accuracy (progress_update None x) = S754_nan) /\
  (forall (s : option Z) (x : ProgressData spec_float),
     average_accuracy x = S754_nan ->
     average_accuracy (progress_update s x)
     = div (add (mul (of_Z 0) (of_Z (completed_lessons x))) (of_score s))
         (of_Z (completed_lessons x + 1))).
Proof.
  split; [|split; [|split]].
  - intros answers. reflexivity.
  - intros user lessonId v w Hc.
    by rewrite (completeTest_score user lessonId v w _ Hc).
  - intros x. unfold progress_update. cbn [average_accuracy of_score].
    cbn [add div nan Binary64.arith]. by rewrite SFadd_nan, SFdiv_nan.
  - intros s x Hx. unfold progress_update. cbn [average_accuracy].
    by rewrite Hx.
Qed.

Lemma X15_witness :
  view_score
    (fst (snd (completeTest (N:=spec_float) (Some the_user) (lit "lesson-1")
                 (setLessonContent {| assessmentQuestions := [] |} loaded_view)
                 (setLessonContent {| assessmentQuestions := [] |} loaded_view,
                  world_of fresh_store aborted))))
  = None.
Proof.
  apply (proj1 (proj2 X15_test_without_questions)). reflexivity.
Defined.

(** X16.  With a user and a loaded lesson [handleMarkComplete] always
    reports success: it returns, sets the completed flag and shows the one
    notification [Lesson Completed], whatever the store answered to the
    upsert and whether or not a progress record was found.  When the user
    has no progress record for the roadmap of the lesson the progress table
    is left as it is.  No request is sent and the browser storage is not
    touched. *)
Theorem X16_mark_complete_always_reports_success {N : Type} `{Arith N}
  (u : User) (lessonId : id) (v : lesson_view) (w : world N) l :
  lesson v = Some l ->
  let r := handleMarkComplete (Some u) lessonId v (v, w) in
  fst r = Ok tt /\
  fst (snd r) = setIsCompleted true v /\
  toasts (snd (snd r))
  = toasts w ++ [{| toast_kind := toast_success;
                    toast_title := lit "Lesson Completed";
                    toast_message :=
                      lit "Great job! You can now move to the next lesson.";
                    toast_action := None |}] /\
  fetch_log (snd (snd r)) = fetch_log w /\
  storage (snd (snd r)) = storage w /\
  (progress_of (db w) (uid u) (roadmap_id (row_data l)) = [] ->
   user_progress (db (snd (snd r))) = user_progress (db w)).
Proof.
  intros Hl. cbv zeta. unfold handleMarkComplete. rewrite Hl.
  cbv [try_catch bind non_null ret set_state modify lift query read throw
       showSuccess showError].
  simpl.
  pose proof (upsert_completion_tables
                {| user_id := uid u; lesson_id := lessonId; score := Some 100%Z;
                   time_spent := 30; completion_answers := [] |} (db w))
    as (_ & _ & _ & Hp & _). cbv zeta in Hp.
  destruct (upsert_completion _ (db w)) as [r d]. simpl in *.
  assert (forall a b, progress_of d a b = progress_of (db w) a b) as Hpo
    by (intros; unfold progress_of; by rewrite Hp).
  rewrite Hpo.
  destruct (data (single (progress_of (db w) _ _))) as [p|] eqn:Hs; simpl.
  - repeat split; try done. intros Hnone. by rewrite Hnone in Hs.
  - by repeat split.
Qed.

Lemma X16_witness :
  let r := handleMarkComplete (N:=spec_float) (Some the_user) (lit "lesson-1")
             loaded_view (loaded_view, world_of fresh_store aborted) in
  fst r = Ok tt /\
  fst (snd r) = setIsCompleted true loaded_view /\
  toasts (snd (snd r))
  = toasts (world_of fresh_store aborted)
    ++ [{| toast_kind := toast_success;
           toast_title := lit "Lesson Completed";
           toast_message :=
             lit "Great job! You can now move to the next lesson.";
           toast_action := None |}] /\
  fetch_log (snd (snd r)) = fetch_log (world_of fresh_store aborted) /\
  storage (snd (snd r)) = storage (world_of fresh_store aborted) /\
  (progress_of (db (world_of fresh_store aborted)) (uid the_user)
     (roadmap_id (row_data the_lesson)) = [] ->
   user_progress (db (snd (snd r)))
   = user_progress (db (world_of fresh_store aborted))).
Proof.
  apply (X16_mark_complete_always_reports_success (N:=spec_float) the_user
           (lit "lesson-1") loaded_view (world_of fresh_store aborted)
           the_lesson).
  reflexivity.
Defined.

Lemma X12_witness : time_matches_counter (db (the_world after_test)).
Proof.
  apply (X12_time_is_thirty_minutes_per_completion (N:=spec_float)
           (fun _ => []) (fun _ => {| assessmentQuestions := [] |})
           strict_cast the_app [click_mark_complete; finish_test]).
  intros p Hp. vm_compute in Hp.
  apply list_elem_of_singleton in Hp as ->. reflexivity.
Defined.

Section Grouping.

Implicit Types (acc : weeks_object) (lessons : list (Row LessonData)).

Lemma existsb_key acc (w : Z) :
  existsb (fun e => (fst e =? w)%Z) acc = true <-> w ∈ fst <$> acc.
Proof.
  rewrite existsb_exists. split.
  - intros (e & He & <-%Z.eqb_eq). apply list_elem_of_fmap_2.
    by apply list_elem_of_In.
  - intros (e & Hw & He)%list_elem_of_fmap. subst w. exists e.
    split; [by apply list_elem_of_In|apply Z.eqb_refl].
Qed.

Lemma push_lesson_groups lessons acc x :
  groups_of lessons acc -> groups_of (lessons ++ [x]) (push_lesson acc x).
Proof.
  intros (Hnd & Hg & Hall). unfold push_lesson. cbv zeta.
  set (w := week_number (row_data x)).
  set (f := fun e : Z * list (Row LessonData) =>
              if (fst e =? w)%Z then (fst e, snd e ++ [x]) else e).
  destruct (existsb _ acc) eqn:Hex.
  - apply existsb_key in Hex.
    assert (fst <$> map f acc = fst <$> acc) as Hkeys.
    { clear. induction acc as [|e acc IH]; [done|].
      cbn [map]. rewrite !fmap_cons, IH. f_equal.
      unfold f. by destruct (fst e =? w)%Z. }
    split; [by rewrite Hkeys|]. split.
    + intros k g (e & Hfe & He)%list_elem_of_In%in_map_iff.
      apply list_elem_of_In in He. destruct e as [k0 g0].
      destruct (Hg k0 g0 He) as [-> Hne].
      unfold f in Hfe. cbn [fst snd] in Hfe.
      rewrite filter_app.
      destruct (k0 =? w)%Z eqn:Hk; injection Hfe as <- <-.
      * apply Z.eqb_eq in Hk as ->.
        rewrite (filter_cons_True _ x []) by done.
        split; [done|]. by destruct (filter _ lessons).
      * apply Z.eqb_neq in Hk.
        rewrite (filter_cons_False _ x []) by (fold w; congruence).
        by rewrite filter_nil, app_nil_r.
    + intros l [Hl| ->%list_elem_of_singleton]%elem_of_app; rewrite Hkeys;
        [by apply Hall|exact Hex].
  - assert (w ∉ fst <$> acc) as Hw
      by (intros Hin; apply existsb_key in Hin; congruence).
    split; [|split].
    + rewrite fmap_app. apply NoDup_app. split; [done|]. split.
      * intros k Hk ->%list_elem_of_singleton. done.
      * apply NoDup_singleton.
    + intros k g [Hkg| [= -> ->]%list_elem_of_singleton]%elem_of_app.
      * destruct (Hg k g Hkg) as [-> Hne]. split; [|done].
        rewrite filter_app, (filter_cons_False _ x []), filter_nil, app_nil_r;
          [done|].
        fold w. intros ->. apply Hw. apply (list_elem_of_fmap_2 fst) in Hkg.
        exact Hkg.
      * split; [|done]. rewrite filter_app.
        rewrite (filter_cons_True _ x []) by done.
        rewrite filter_nil. rewrite (filter_none _ lessons); [done|].
        intros l Hl E. apply Hw. rewrite <- E. by apply Hall.
    + intros l [Hl| ->%list_elem_of_singleton]%elem_of_app; rewrite fmap_app;
        apply elem_of_app; [left; by apply Hall|right; by left].
Qed.

Lemma lessonsByWeek_groups lessons : groups_of lessons (lessonsByWeek lessons).
Proof.
  induction lessons as [|x lessons IH] using rev_ind.
  - split; [constructor|]. split; [by intros k g ?%elem_of_nil|].
    by intros l ?%elem_of_nil.
  - unfold lessonsByWeek. rewrite foldl_snoc. by apply push_lesson_groups.
Qed.

End Grouping.

Section Entries.
Context {G : Type}.
Implicit Types (l : list (Z * G)).

Lemma insert_entry_Permutation e l : insert_entry e l ≡ₚ e :: l.
Proof.
  induction l as [|y l IH]; [done|]. simpl.
  destruct (fst e <=? fst y)%Z; [done|].
  rewrite IH. apply Permutation_swap.
Qed.

Lemma ascending_Permutation l : ascending l ≡ₚ l.
Proof.
  induction l as [|e l IH]; [done|]. simpl.
  by rewrite insert_entry_Permutation, IH.
Qed.

Lemma insert_entry_Sorted e l :
  Sorted (fun a b => (fst a <= fst b)%Z) l ->
  Sorted (fun a b => (fst a <= fst b)%Z) (insert_entry e l).
Proof.
  induction l as [|y l IH]; intros Hs; simpl.
  - by repeat constructor.
  - destruct (fst e <=? fst y)%Z eqn:E.
    + apply Z.leb_le in E. constructor; [done|]. by constructor.
    + apply Z.leb_gt in E. apply Sorted_inv in Hs as [Hs Hy].
      constructor; [by apply IH|].
      destruct l as [|z l]; simpl.
      * constructor. lia.
      * destruct (fst e <=? fst z)%Z; constructor; [lia|].
        by apply HdRel_inv in Hy.
Qed.

Lemma ascending_Sorted l :
  Sorted (fun a b => (fst a <= fst b)%Z) (ascending l).
Proof.
  induction l as [|e l IH]; [constructor|]. simpl.
  by apply insert_entry_Sorted.
Qed.

Lemma Sorted_keys l :
  Sorted (fun a b => (fst a <= fst b)%Z) l -> Sorted Z.le (fst <$> l).
Proof.
  induction 1 as [|e l Hs IH Hd]; [constructor|].
  rewrite fmap_cons. constructor; [done|].
  destruct Hd; simpl; by constructor.
Qed.

Lemma filter_split (P : Z * G -> Prop) `{forall e, Decision (P e)} l :
  filter P l ++ filter (fun e => ~ P e) l ≡ₚ l.
Proof.
  induction l as [|e l IH]; [done|].
  destruct (decide (P e)) as [He|He].
  - rewrite filter_cons_True by done.
    rewrite (filter_cons_False (fun e => ~ P e)) by tauto.
    simpl. by rewrite IH.
  - rewrite filter_cons_False by done.
    rewrite (filter_cons_True (fun e => ~ P e)) by done.
    rewrite <- Permutation_middle. by rewrite IH.
Qed.

Lemma filter_all (P : Z * G -> Prop) `{forall e, Decision (P e)} l :
  (forall e, e ∈ l -> P e) -> filter P l = l.
Proof.
  induction l as [|e l IH]; intros Hall; [done|].
  rewrite filter_cons_True by (apply Hall; by left).
  f_equal. apply IH. intros x Hx. apply Hall. by right.
Qed.

End Entries.

Lemma Object_entries_Permutation (o : weeks_object) : Object_entries o ≡ₚ o.
Proof.
  unfold Object_entries. rewrite ascending_Permutation.
  apply (filter_split (fun e => is_array_index (fst e) = true)).
Qed.

(** X17.  The lessons list groups the lessons by week and renders one card
    for each week that occurs: no week has two cards, the card of a week
    holds exactly the lessons of that week, in the order of the list, and
    every lesson is on the card of its week.  When the week numbers are
    array indices (from 0 to 4294967294) the cards come in ascending order
    of the week, whatever the order of the list. *)
Theorem X17_one_card_per_week (lessons : list (Row LessonData)) :
  let cards := Object_entries (lessonsByWeek lessons) in
  NoDup (fst <$> cards) /\
  (forall week card, (week, card) ∈ cards ->
     card = filter (fun l => week_number (row_data l) = week) lessons /\
     card <> []) /\
  (forall l, l ∈ lessons ->
     exists card, (week_number (row_data l), card) ∈ cards /\ l ∈ card) /\
  ((forall l, l ∈ lessons ->
      is_array_index (week_number (row_data l)) = true) ->
   Sorted Z.le (fst <$> cards)).
Proof.
  cbv zeta.
  destruct (lessonsByWeek_groups lessons) as (Hnd & Hg & Hall).
  pose proof (Object_entries_Permutation (lessonsByWeek lessons)) as Hperm.
  split; [by rewrite Hperm|]. split; [|split].
  - intros week card Hin. rewrite Hperm in Hin. by apply Hg.
  - intros l Hl.
    destruct (proj1 (list_elem_of_fmap _ _ _) (Hall l Hl)) as ([k g] & Hk & Hkg).
    simpl in Hk. subst k. exists g. split; [by rewrite Hperm|].
    destruct (Hg _ g Hkg) as [-> _]. apply list_elem_of_filter. by split.
  - intros Hidx. unfold Object_entries.
    unfold weeks_object. rewrite filter_all.
    + rewrite filter_none.
      * rewrite app_nil_r. apply Sorted_keys, ascending_Sorted.
      * intros [k g] Hkg Hno. apply Hno. simpl.
        destruct (Hg k g Hkg) as [Hfilter Hne].
        destruct g as [|l g]; [done|].
        assert (l ∈ filter (fun l => week_number (row_data l) = k) lessons)
          as [<- Hl]%list_elem_of_filter by (rewrite <- Hfilter; by left).
        by apply Hidx.
    + intros [k g] Hkg. simpl.
      destruct (Hg k g Hkg) as [Hfilter Hne].
      destruct g as [|l g]; [done|].
      assert (l ∈ filter (fun l => week_number (row_data l) = k) lessons)
        as [<- Hl]%list_elem_of_filter by (rewrite <- Hfilter; by left).
      by apply Hidx.
Qed.

Lemma X17_witness :
  exists card,
    (week_number (row_data the_lesson), card)
      ∈ Object_entries (lessonsByWeek [the_lesson; second_lesson])
    /\ the_lesson ∈ card.
Proof.
  apply (proj1 (proj2 (proj2 (X17_one_card_per_week
                                [the_lesson; second_lesson])))).
  apply list_elem_of_here.
Defined.

(** X18.  [fetchLessons] never fails and never writes: it returns, the
    loading flag is off afterwards and the world is as it was.  When the
    timer wins the race the error shown is [Request timeout] and the lists
    keep what they held; when the user has no roadmap both lists are
    emptied and no error is set; when the user has more than one roadmap
    the error is the one of [maybeSingle] and the lists keep what they
    held. *)
Theorem X18_fetchLessons_outcomes {N : Type} order (user : User)
  (v : lessons_list) (w : world N) :
  (forall timed_out,
     fst (fetchLessons order timed_out user (v, w)) = Ok tt /\
     list_loading (fst (snd (fetchLessons order timed_out user (v, w)))) = false /\
     snd (snd (fetchLessons order timed_out user (v, w))) = w) /\
  fst (snd (fetchLessons order true user (v, w)))
  = {| list_lessons := list_lessons v; list_completions := list_completions v;
       list_loading := false; list_error := Some (lit "Request timeout") |} /\
  (roadmaps_of_user (db w) (uid user) = [] ->
   fst (snd (fetchLessons order false user (v, w)))
   = {| list_lessons := []; list_completions := [];
        list_loading := false; list_error := None |}) /\
  (forall r1 r2 rest,
     roadmaps_of_user (db w) (uid user) = r1 :: r2 :: rest ->
     fst (snd (fetchLessons order false user (v, w)))
     = {| list_lessons := list_lessons v; list_completions := list_completions v;
          list_loading := false;
          list_error :=
            Some (lit "JSON object requested, multiple (or no) rows returned") |}).
Proof.
  assert (forall timed_out,
            fetchLessons order timed_out user (v, w)
            = if timed_out
              then (Ok tt,
                    (setListLoading false
                       (setError (Some (lit "Request timeout"))
                          (setError None v)), w))
              else
                match roadmaps_of_user (db w) (uid user) with
                | [] =>
                    (Ok tt,
                     ({| list_lessons := []; list_completions := [];
                         list_loading := false; list_error := None |}, w))
                | [r] =>
                    (Ok tt,
                     ({| list_lessons := lessons_of_roadmap (db w) (row_id r);
                         list_completions := completions_of_user (db w) (uid user);
                         list_loading := false; list_error := None |}, w))
                | _ :: _ :: _ =>
                    (Ok tt,
                     (setListLoading false
                        (setError (Some (lit "JSON object requested, multiple (or no) rows returned"))
                           (setError None v)), w))
                end) as Hrun.
  { intros timed_out.
    unfold fetchLessons, fetchLessons_with, finally, try_catch.
    unfold bind at 1 2. rewrite run_set_state.
    destruct timed_out; [reflexivity|].
    rewrite run_lift_read.
    destruct (roadmaps_of_user (db w) (uid user)) as [|r1 [|r2 rest]];
      cbn [maybeSingle success failure error data];
      [reflexivity|destruct order; reflexivity|reflexivity]. }
  split; [|split; [|split]].
  - intros timed_out. rewrite Hrun. destruct timed_out; [done|].
    by destruct (roadmaps_of_user (db w) (uid user)) as [|r1 [|r2 rest]].
  - by rewrite Hrun.
  - intros Hr. by rewrite Hrun, Hr.
  - intros r1 r2 rest Hr. by rewrite Hrun, Hr.
Qed.

Lemma X18_witness :
  fst (snd (fetchLessons first_settles_first false the_user
              (empty_list, world_of fresh_store aborted)))
  = {| list_lessons := []; list_completions := [];
       list_loading := false; list_error := None |}.
Proof.
  apply (proj1 (proj2 (proj2 (X18_fetchLessons_outcomes first_settles_first
                                the_user empty_list
                                (world_of fresh_store aborted))))).
  reflexivity.
Defined.

Section Shown.
Context {N : Type} `{Arith N}.

Lemma handleMarkComplete_roadmaps u lessonId v (w : world N) :
  roadmaps (db (snd (snd (handleMarkComplete (Some u) lessonId v (v, w)))))
  = roadmaps (db w).
Proof.
  pose proof (upsert_completion_tables
                {| user_id := uid u; lesson_id := lessonId; score := Some 100%Z;
                   time_spent := 30; completion_answers := [] |} (db w))
    as (_ & Hr & _). cbv zeta in Hr.
  unfold handleMarkComplete.
  cbv [try_catch bind non_null ret set_state modify lift query read throw
       showSuccess showError].
  simpl.
  destruct (upsert_completion _ (db w)) as [r d]. simpl in *.
  destruct (lesson v) as [l|]; simpl; [|done].
  destruct (data (single _)) as [p|]; simpl; done.
Qed.

Lemma not_completed_before (d : database N) userId lessonId :
  completions_of d userId lessonId = [] ->
  forall c, c ∈ completions_of_user d userId ->
            bool_decide (lesson_id (row_data c) = lessonId) = false.
Proof.
  intros Hnone c [Hu Hc]%list_elem_of_filter.
  apply bool_decide_eq_false_2. intros Hl.
  assert (c ∈ completions_of d userId lessonId) as Hin
    by (apply list_elem_of_filter; by split).
  rewrite Hnone in Hin. by apply elem_of_nil in Hin.
Qed.

End Shown.

(** X19.  A lesson without completion is shown as not completed, with
    score 0.  Once the user has marked it complete, the lessons list, loaded
    again, shows it completed with score 100.  The user has one roadmap. *)
Theorem X19_marked_lesson_is_shown_completed {N : Type} `{Arith N}
  order (u : User) (lessonId : id) (v : lesson_view) (l : lessons_list)
  (w : world N) r :
  completions_of (db w) (uid u) lessonId = [] ->
  roadmaps_of_user (db w) (uid u) = [r] ->
  let before := list_completions (fst (snd (fetchLessons order false u (l, w)))) in
  let w1 := snd (snd (handleMarkComplete (Some u) lessonId v (v, w))) in
  let after := list_completions (fst (snd (fetchLessons order false u (l, w1)))) in
  isLessonCompleted before lessonId = false /\
  getLessonScore before lessonId = 0%Z /\
  isLessonCompleted after lessonId = true /\
  getLessonScore after lessonId = 100%Z.
Proof.
  intros Hnone Hr before w1 after.
  set (row := {| user_id := uid u; lesson_id := lessonId; score := Some 100%Z;
                 time_spent := 30; completion_answers := [] |}).
  assert (before = completions_of_user (db w) (uid u)) as Hb.
  { subst before.
    unfold fetchLessons, fetchLessons_with, finally, try_catch.
    unfold bind at 1 2. rewrite run_set_state, run_lift_read, Hr.
    cbn [maybeSingle success error data]. by destruct order. }
  assert (lesson_completions (db w1)
          = lesson_completions (db w)
            ++ [{| row_id := fresh_id (db w); row_data := row |}]) as Hc.
  { subst w1. rewrite handleMarkComplete_completions.
    unfold upsert_completion. cbn [user_id lesson_id]. by rewrite Hnone. }
  assert (after = completions_of_user (db w) (uid u)
                  ++ [{| row_id := fresh_id (db w); row_data := row |}]) as Ha.
  { subst after.
    assert (roadmaps_of_user (db w1) (uid u) = [r]) as Hr1.
    { unfold roadmaps_of_user. subst w1.
      by rewrite handleMarkComplete_roadmaps. }
    unfold fetchLessons, fetchLessons_with, finally, try_catch.
    unfold bind at 1 2. rewrite run_set_state, run_lift_read, Hr1.
    cbn [maybeSingle success error data].
    assert (completions_of_user (db w1) (uid u)
            = completions_of_user (db w) (uid u)
              ++ [{| row_id := fresh_id (db w); row_data := row |}]) as <-.
    { unfold completions_of_user. rewrite Hc, filter_app.
      by rewrite (filter_cons_True _ _ []) by done. }
    by destruct order. }
  pose proof (not_completed_before (db w) (uid u) lessonId Hnone) as Hold.
  rewrite Hb, Ha. clear Hb Ha Hc before after.
  unfold isLessonCompleted, getLessonScore.
  induction (completions_of_user (db w) (uid u)) as [|c cs IH].
  - cbn. rewrite bool_decide_eq_true_2 by done. done.
  - cbn [existsb find List.app].
    rewrite (Hold c) by (by left). cbn [orb].
    apply IH. intros c' Hc'. apply Hold. by right.
Qed.

Lemma X19_witness :
  let w := world_of store_with_roadmap aborted in
  let w1 := snd (snd (handleMarkComplete (N:=spec_float) (Some the_user)
                        (lit "lesson-2") loaded_view (loaded_view, w))) in
  let after :=
    list_completions
      (fst (snd (fetchLessons first_settles_first false the_user
                   (empty_list, w1)))) in
  isLessonCompleted after (lit "lesson-2") = true /\
  getLessonScore after (lit "lesson-2") = 100%Z.
Proof.
  destruct (X19_marked_lesson_is_shown_completed (N:=spec_float)
              first_settles_first the_user (lit "lesson-2") loaded_view
              empty_list (world_of store_with_roadmap aborted)
              {| row_id := lit "roadmap-1";
                 row_data := {| roadmap_user_id := lit "user-1";
                                roadmap_title := lit "Learning Roadmap: Learn JavaScript";
                                goal := lit "Learn JavaScript";
                                weeks := JArray []; questions := JArray [];
                                answers := [] |} |}
              eq_refl eq_refl) as (_ & _ & H3 & H4).
  split; [exact H3|exact H4].
Defined.

Section Flow.
Context {N : Type} `{Arith N}.

Lemma generateQuestions_world goal (w : world N) :
  snd (generateQuestions goal w) = w \/
  snd (generateQuestions goal w)
  = log_fetch {| prompt := questions_prompt goal; timeout := 20000 |} w.
Proof.
  unfold generateQuestions, try_catch, bind.
  pose proof (makeGeminiRequest_world (questions_prompt goal) 20000 w) as Hw.
  destruct (makeGeminiRequest _ _ w) as [[c|e] w']; simpl in *; [|done].
  by destruct (negb (is_array c)).
Qed.

Lemma generateRoadmap_world goal answers (w : world N) :
  snd (generateRoadmap goal answers w) = w \/
  snd (generateRoadmap goal answers w)
  = log_fetch {| prompt := roadmap_prompt goal answers; timeout := 30000 |} w.
Proof.
  unfold generateRoadmap, try_catch, bind.
  pose proof (makeGeminiRequest_world (roadmap_prompt goal answers) 30000 w)
    as Hw.
  destruct (makeGeminiRequest _ _ w) as [[c|e] w']; simpl in *; [|done].
  by destruct (negb (is_array c)).
Qed.

Lemma handleGoalSubmit_run (v : onboarding) (w : world N) :
  handleGoalSubmit v (v, w)
  = if negb (truthy (trim (onboarding_goal v))) then (Ok tt, (v, w))
    else
      match generateQuestions (onboarding_goal v) w with
      | (Ok generatedQuestions, w1) =>
          (Ok tt,
           (setOnboardingLoading false
              (setStep 2 (setQuestions generatedQuestions
                            (setOnboardingLoading true v))),
            add_toast {| toast_kind := toast_success;
                         toast_title := lit "Questions Generated";
                         toast_message :=
                           lit "Your personalized questions are ready!";
                         toast_action := None |} w1))
      | (Throw e, w1) =>
          (Ok tt,
           (setOnboardingLoading false (setOnboardingLoading true v),
            add_toast {| toast_kind := toast_error;
                         toast_title := lit "Generation Failed";
                         toast_message :=
                           or_else (message e)
                             (lit "Failed to generate questions. Please try again.");
                         toast_action := None |} w1))
      end.
Proof.
  unfold handleGoalSubmit.
  destruct (negb (truthy (trim (onboarding_goal v)))); [reflexivity|].
  erewrite run_bind; [|apply run_set_state].
  unfold finally, try_catch. unfold bind at 1. rewrite run_lift.
  destruct (generateQuestions (onboarding_goal v) w) as [[q|e] w1];
    reflexivity.
Qed.

Lemma handleGenerateRoadmap_failed cast u (v : onboarding) (w w1 : world N) e :
  generateRoadmap (onboarding_goal v) (onboarding_answers v) w = (Throw e, w1) ->
  handleGenerateRoadmap cast (Some u) v (v, w)
  = let errorMessage :=
      or_else (message e) (lit "Failed to generate roadmap. Please try again.") in
    (Ok tt,
     (setOnboardingLoading false (setOnboardingLoading true v),
      add_toast {| toast_kind := toast_error;
                   toast_title := lit "Creation Failed";
                   toast_message := errorMessage;
                   toast_action :=
                     if includes errorMessage
                          (lit "AI service is temporarily unavailable")
                     then Some (Wrapped (Action (lit "Retry")
                                           cb_handleGenerateRoadmap))
                     else None |} w1)).
Proof.
  intros Hgen. unfold handleGenerateRoadmap.
  erewrite run_bind; [|apply run_set_state].
  unfold finally, try_catch.
  erewrite run_bind_throw; [|rewrite run_lift, Hgen; reflexivity].
  cbv zeta. by destruct (includes _ _).
Qed.

End Flow.

(** X20.  [handleGoalSubmit] returns in every case.  For a goal that is
    empty or only white space it does nothing at all.  Otherwise it runs
    [generateQuestions] once, leaves the store alone, shows one
    notification and ends with the loading flag off; the flow moves to step
    2 with the questions received when the generator returns, and stays at
    its step with its questions when the generator throws. *)
Theorem X20_goal_submission {N : Type} `{Arith N} (v : onboarding) (w : world N) :
  let r := handleGoalSubmit v (v, w) in
  fst r = Ok tt /\
  (truthy (trim (onboarding_goal v)) = false -> snd r = (v, w)) /\
  (truthy (trim (onboarding_goal v)) = true ->
   onboarding_loading (fst (snd r)) = false /\
   db (snd (snd r)) = db w /\
   fetch_log (snd (snd r))
   = fetch_log (snd (generateQuestions (onboarding_goal v) w)) /\
   length (toasts (snd (snd r))) = S (length (toasts w)) /\
   match fst (generateQuestions (onboarding_goal v) w) with
   | Ok generatedQuestions =>
       step (fst (snd r)) = 2%Z /\
       onboarding_questions (fst (snd r)) = generatedQuestions
   | Throw _ =>
       step (fst (snd r)) = step v /\
       onboarding_questions (fst (snd r)) = onboarding_questions v
   end).
Proof.
  cbv zeta. rewrite handleGoalSubmit_run.
  pose proof (generateQuestions_world (onboarding_goal v) w) as Hw.
  destruct (truthy (trim (onboarding_goal v))); cbn [negb].
  - destruct (generateQuestions (onboarding_goal v) w) as [[q|e] w1];
      cbn [fst snd] in *;
      (split; [done|]; split; [done|]; intros _;
       split; [done|]; split; [by destruct Hw as [-> | ->]|];
       split; [done|]; split; [|done];
       cbn [toasts add_toast]; rewrite length_app; cbn [length];
       destruct Hw as [-> | ->]; cbn [toasts log_fetch]; lia).
  - by repeat split.
Qed.

Lemma X20_witness :
  snd (handleGoalSubmit (N:=spec_float) blank_flow
         (blank_flow, world_of fresh_store aborted))
  = (blank_flow, world_of fresh_store aborted).
Proof.
  apply (proj1 (proj2 (X20_goal_submission (N:=spec_float) blank_flow
                         (world_of fresh_store aborted)))).
  reflexivity.
Defined.

(** X21.  When [generateRoadmap] throws, [handleGenerateRoadmap] still
    returns: nothing is written to the store, the flow does not navigate
    and keeps its step, the loading flag is off, and one error notification
    [Creation Failed] carries the message of the error (or the fallback
    when it has none).  The object passed as its action, when there is one,
    has no [onClick] of its own: the retry is wrapped in a property
    [action].  Without a signed-in user the handler only shows the
    authentication error. *)
Theorem X21_roadmap_generation_failure {N : Type} `{Arith N}
  (cast : json -> jstring + js_error) (v : onboarding) (w : world N) :
  (forall u e w1,
     generateRoadmap (onboarding_goal v) (onboarding_answers v) w
     = (Throw e, w1) ->
     let r := handleGenerateRoadmap cast (Some u) v (v, w) in
     fst r = Ok tt /\
     fst (snd r) = setOnboardingLoading false (setOnboardingLoading true v) /\
     db (snd (snd r)) = db w /\
     exists t,
       toasts (snd (snd r)) = toasts w ++ [t] /\
       toast_kind t = toast_error /\
       toast_title t = lit "Creation Failed" /\
       toast_message t
       = or_else (message e)
           (lit "Failed to generate roadmap. Please try again.") /\
       toast_action t ≫= onClick_of = None) /\
  handleGenerateRoadmap cast None v (v, w)
  = (Ok tt,
     (v, add_toast {| toast_kind := toast_error;
                      toast_title := lit "Authentication Error";
                      toast_message :=
                        lit "You must be logged in to create a roadmap.";
                      toast_action := None |} w)).
Proof.
  split; [|reflexivity].
  intros u e w1 Hgen. cbv zeta.
  rewrite (handleGenerateRoadmap_failed cast u v w w1 e Hgen). cbv zeta.
  cbn [fst snd].
  pose proof (generateRoadmap_world (onboarding_goal v) (onboarding_answers v) w)
    as Hw.
  rewrite Hgen in Hw. cbn [snd] in Hw.
  split; [done|]. split; [done|].
  split; [by destruct Hw as [-> | ->]|].
  eexists. split; [|split; [|split; [|split]]].
  - cbn [toasts add_toast]. by destruct Hw as [-> | ->].
  - reflexivity.
  - reflexivity.
  - reflexivity.
  - cbn [toast_action]. by destruct (includes _ _).
Qed.

Lemma X21_witness :
  let r := handleGenerateRoadmap (N:=spec_float) strict_cast (Some the_user)
             goal_flow (goal_flow, unavailable_world) in
  fst r = Ok tt /\
  fst (snd r)
  = setOnboardingLoading false (setOnboardingLoading true goal_flow) /\
  db (snd (snd r)) = db unavailable_world /\
  exists t,
    toasts (snd (snd r)) = toasts unavailable_world ++ [t] /\
    toast_kind t = toast_error /\
    toast_title t = lit "Creation Failed" /\
    toast_message t
    = or_else (message (Error msg_unavailable))
        (lit "Failed to generate roadmap. Please try again.") /\
    toast_action t ≫= onClick_of = None.
Proof.
  apply (proj1 (X21_roadmap_generation_failure (N:=spec_float) strict_cast
                  goal_flow unavailable_world)
           the_user (Error msg_unavailable)
           (log_fetch {| prompt := roadmap_prompt (onboarding_goal goal_flow)
                                     (onboarding_answers goal_flow);
                         timeout := 30000 |} unavailable_world)).
  vm_compute. reflexivity.
Defined.

(** X22.  How a response that is not ok reaches the user of the onboarding
    flow: for a status of 500 or more the notification carries the message
    that the service is unavailable and the wrapped retry action; for the
    statuses 429 and 401 it carries the rate-limit message and the API-key
    message, without action.  One request was sent. *)
Theorem X22_http_failure_in_onboarding {N : Type} `{Arith N}
  (cast : json -> jstring + js_error) (u : User) (v : onboarding) (w : world N) r :
  truthy (or_else (GEMINI_API_KEY w) []) = true ->
  net w (length (fetch_log w)) = Responded r ->
  ok r = false ->
  let after := snd (snd (handleGenerateRoadmap cast (Some u) v (v, w))) in
  fetch_log after
  = fetch_log w ++ [{| prompt := roadmap_prompt (onboarding_goal v)
                                   (onboarding_answers v);
                       timeout := 30000 |}] /\
  ((500 <= status r)%Z ->
   toasts after
   = toasts w ++ [{| toast_kind := toast_error;
                     toast_title := lit "Creation Failed";
                     toast_message := msg_unavailable;
                     toast_action :=
                       Some (Wrapped (Action (lit "Retry")
                                        cb_handleGenerateRoadmap)) |}]) /\
  (status r = 429%Z ->
   toasts after
   = toasts w ++ [{| toast_kind := toast_error;
                     toast_title := lit "Creation Failed";
                     toast_message := msg_rate_limit;
                     toast_action := None |}]) /\
  (status r = 401%Z ->
   toasts after
   = toasts w ++ [{| toast_kind := toast_error;
                     toast_title := lit "Creation Failed";
                     toast_message := msg_invalid_key;
                     toast_action := None |}]).
Proof.
  intros Hkey Hnet Hok after.
  assert (forall m,
            http_error_message r = m -> truthy m = true ->
            after
            = add_toast {| toast_kind := toast_error;
                           toast_title := lit "Creation Failed";
                           toast_message := m;
                           toast_action :=
                             if includes m
                                  (lit "AI service is temporarily unavailable")
                             then Some (Wrapped (Action (lit "Retry")
                                                   cb_handleGenerateRoadmap))
                             else None |}
                (log_fetch {| prompt := roadmap_prompt (onboarding_goal v)
                                          (onboarding_answers v);
                              timeout := 30000 |} w)) as Hafter.
  { intros m Hm Ht. subst after.
    rewrite (handleGenerateRoadmap_failed cast u v w
               (log_fetch {| prompt := roadmap_prompt (onboarding_goal v)
                                         (onboarding_answers v);
                             timeout := 30000 |} w) (Error m)).
    - cbv zeta. cbn [fst snd message Error or_else]. by rewrite Ht.
    - rewrite <- Hm. apply (generateRoadmap_not_ok w _ _ r); try done.
      by rewrite Hm. }
  assert (fetch_log after
          = fetch_log w ++ [{| prompt := roadmap_prompt (onboarding_goal v)
                                           (onboarding_answers v);
                               timeout := 30000 |}]) as Hlog.
  { assert (truthy (http_error_message r) = true) as Ht.
    { unfold http_error_message.
      repeat match goal with
             | |- context [if ?c then _ else _] => destruct c
             end; reflexivity. }
    by rewrite (Hafter _ eq_refl Ht). }
  split; [exact Hlog|]. split; [|split].
  - intros Hs. by rewrite (Hafter msg_unavailable (http_error_message_5xx r Hs)).
  - intros Hs. by rewrite (Hafter msg_rate_limit (http_error_message_429 r Hs)).
  - intros Hs. by rewrite (Hafter msg_invalid_key (http_error_message_401 r Hs)).
Qed.

Lemma X22_witness :
  toasts (snd (snd (handleGenerateRoadmap (N:=spec_float) strict_cast
                      (Some the_user) goal_flow
                      (goal_flow, unavailable_world))))
  = toasts unavailable_world
    ++ [{| toast_kind := toast_error;
           toast_title := lit "Creation Failed";
           toast_message := msg_unavailable;
           toast_action :=
             Some (Wrapped (Action (lit "Retry") cb_handleGenerateRoadmap)) |}].
Proof.
  apply (proj1 (proj2 (X22_http_failure_in_onboarding (N:=spec_float)
                         strict_cast the_user goal_flow unavailable_world
                         (error_response 503 (lit "overloaded"))
                         eq_refl eq_refl eq_refl))).
  vm_compute. discriminate.
Defined.

(** X23.  A lesson loaded once is served from the cache afterwards: when
    [fetchLesson] found nothing cached and the generator returned, a second
    [fetchLesson] for the same lesson sends no request, leaves the world as
    it is and shows the same content.  [JSON.stringify] is taken to give a
    text that is not empty and that [JSON.parse] reads back as the
    content. *)
Theorem X23_second_load_comes_from_the_cache {N : Type} `{Arith N}
  (JSON_stringify : json -> jstring) (as_LessonContent : json -> LessonContent)
  (lessonId : id) (v : lesson_view) (w w1 : world N) l content :
  lessons_by_id (db w) lessonId = [l] ->
  truthy (or_else (storage w !! storage_key lessonId) []) = false ->
  generateLessonContent l w = (Ok content, w1) ->
  truthy (JSON_stringify content) = true ->
  JSON_parse (JSON_stringify content) = Some content ->
  let first := snd (fetchLesson JSON_stringify as_LessonContent lessonId (v, w)) in
  let second := snd (fetchLesson JSON_stringify as_LessonContent lessonId first) in
  storage (snd first) !! storage_key lessonId = Some (JSON_stringify content) /\
  snd second = snd first /\
  lessonContent (fst first) = Some (as_LessonContent content) /\
  lessonContent (fst second) = Some (as_LessonContent content).
Proof.
  intros Hl Hmiss Hgen Ht Hparse first second.
  assert (db w1 = db w) as Hdb.
  { pose proof (generateLessonContent_world l w) as Hw. rewrite Hgen in Hw.
    cbn [snd] in Hw. by destruct Hw as [-> | ->]. }
  assert (first
          = (setLoading false
               (setLessonContent (as_LessonContent content)
                  (setAllLessons
                     (lessons_of_roadmap (db w) (roadmap_id (row_data l)))
                     (setLesson l v))),
             set_storage (<[storage_key lessonId := JSON_stringify content]>
                            (storage w1)) w1)) as Hfirst.
  { subst first.
    rewrite (fetchLesson_found JSON_stringify as_LessonContent lessonId v w l Hl).
    cbv zeta. by rewrite Hmiss, Hgen. }
  assert (storage (snd first) !! storage_key lessonId
          = Some (JSON_stringify content)) as Hstored.
  { rewrite Hfirst. cbn [snd storage set_storage]. apply lookup_insert_eq. }
  split; [exact Hstored|].
  assert (lessons_by_id (db (snd first)) lessonId = [l]) as Hl1.
  { rewrite Hfirst. cbn [snd db set_storage]. unfold lessons_by_id.
    by rewrite Hdb. }
  subst second. destruct first as [v1 wa]. cbn [fst snd] in *.
  rewrite (fetchLesson_found JSON_stringify as_LessonContent lessonId v1 wa l Hl1).
  cbv zeta. rewrite Hstored. cbn [or_else]. rewrite Ht, Ht, Hparse.
  cbn [fst snd]. split; [done|].
  injection Hfirst as -> _. done.
Qed.

Lemma X23_witness :
  let first := snd (fetchLesson stringify_example content_example
                      (lit "lesson-1") (loaded_view, uncached_world)) in
  let second := snd (fetchLesson stringify_example content_example
                       (lit "lesson-1") first) in
  storage (snd first) !! storage_key (lit "lesson-1")
  = Some (stringify_example empty_object) /\
  snd second = snd first /\
  lessonContent (fst first) = Some (content_example empty_object) /\
  lessonContent (fst second) = Some (content_example empty_object).
Proof.
  apply (X23_second_load_comes_from_the_cache (N:=spec_float)
           stringify_example content_example (lit "lesson-1") loaded_view
           uncached_world
           (log_fetch lesson_request uncached_world) the_lesson empty_object).
  - vm_compute. reflexivity.
  - vm_compute. reflexivity.
  - vm_compute. reflexivity.
  - reflexivity.
  - vm_compute. reflexivity.
Defined.

Section Order.

Lemma ordered_sorted (l : list (Row LessonData)) :
  StronglySorted (fun a b => lesson_le a b = true) l -> ordered l = l.
Proof.
  induction 1 as [|x l Hs IH Hall]; [done|].
  unfold ordered in *. cbn [foldr]. rewrite IH.
  destruct l as [|y l]; [done|]. cbn [insert_sorted].
  apply Forall_cons in Hall as [-> _]. done.
Qed.

Lemma number_rows_sorted n (rows : list LessonData) :
  StronglySorted payload_le rows ->
  StronglySorted (fun a b => lesson_le a b = true) (number_rows n rows).
Proof.
  intros Hs. revert n. induction Hs as [|x rows Hs IH Hall]; intros n.
  - constructor.
  - cbn [number_rows]. constructor; [apply IH|].
    apply Forall_forall. intros r Hr.
    assert (row_data r ∈ rows) as Hin.
    { rewrite <- (number_rows_data (S n) rows).
      by apply list_elem_of_fmap_2. }
    rewrite Forall_forall in Hall. exact (Hall _ Hin).
Qed.

Lemma StronglySorted_app_3 {A} (R : A -> A -> Prop) (l k : list A) :
  StronglySorted R l -> StronglySorted R k ->
  (forall a b, a ∈ l -> b ∈ k -> R a b) ->
  StronglySorted R (l ++ k).
Proof.
  intros Hl Hk Hlk. induction Hl as [|x l Hl IH Hall]; [done|].
  cbn [List.app]. constructor.
  - apply IH. intros a b Ha Hb. apply Hlk; [by right|done].
  - apply Forall_app. split; [done|].
    apply Forall_forall. intros b Hb. apply Hlk; [by left|done].
Qed.

Lemma week_sorted roadmapId weekIndex (topics : list Topic) j :
  StronglySorted payload_le
    (imap (fun t => lesson_of_topic roadmapId weekIndex (j + t)) topics).
Proof.
  revert j. induction topics as [|x topics IH]; intros j; [constructor|].
  cbn [imap]. constructor.
  - rewrite (imap_ext _ (fun t => lesson_of_topic roadmapId weekIndex (S j + t)))
      by (intros i y _; simpl; by rewrite Nat.add_succ_r).
    apply IH.
  - apply Forall_forall. intros b Hb.
    apply list_elem_of_lookup in Hb as [i Hi].
    rewrite list_lookup_imap in Hi.
    destruct (topics !! i) as [y|]; [|done]. injection Hi as <-.
    unfold payload_le, lesson_le. cbn. rewrite Z.eqb_refl.
    apply orb_true_iff. right. apply Z.leb_le. lia.
Qed.

Lemma rows_from_sorted roadmapId weeks :
  forall k,
    StronglySorted payload_le
      (concat (imap (fun weekIndex w =>
                       imap (lesson_of_topic roadmapId (k + weekIndex))
                         (topics w)) weeks)).
Proof.
  induction weeks as [|week rest IH]; intros k; [constructor|].
  cbn [imap concat]. apply StronglySorted_app_3.
  - rewrite Nat.add_0_r. apply (week_sorted roadmapId k (topics week) 0).
  - rewrite (imap_ext _ (fun weekIndex w =>
               imap (lesson_of_topic roadmapId (S k + weekIndex)) (topics w)))
      by (intros i y _; simpl; by rewrite Nat.add_succ_r).
    apply IH.
  - intros a b Ha Hb.
    apply list_elem_of_lookup in Ha as [i Hi].
    rewrite list_lookup_imap in Hi.
    destruct (topics week !! i) as [y|]; [|done]. injection Hi as <-.
    apply list_elem_of_lookup in Hb as [j Hj].
    rewrite (imap_ext _ (fun weekIndex w =>
               imap (lesson_of_topic roadmapId (S k + weekIndex)) (topics w)))
      in Hj by (intros i' y' _; simpl; by rewrite Nat.add_succ_r).
    destruct (rows_from_origin roadmapId (S k) rest j b Hj)
      as (w' & t' & week' & topic' & _ & _ & _ & ->).
    unfold payload_le, lesson_le. cbn.
    apply orb_true_iff. left. apply Z.ltb_lt. lia.
Qed.

Lemma lessons_of_sorted roadmapId weeks :
  StronglySorted payload_le (lessons_of roadmapId weeks).
Proof. apply (rows_from_sorted roadmapId weeks 0). Qed.

End Order.

Section EndToEnd.
Context {N : Type} `{Arith N}.

Lemma store_after_roadmap_tables u v roadmapData weeks (d : database N) :
  let rows := lessons_of (fresh_id d) weeks in
  let d' := store_after_roadmap u v roadmapData weeks d in
  lessons d' = lessons d ++ number_rows (S (next_id d)) rows /\
  roadmaps d'
  = roadmaps d
    ++ [{| row_id := fresh_id d;
           row_data :=
             {| roadmap_user_id := uid u;
                roadmap_title := lit "Learning Roadmap: " ++ onboarding_goal v;
                goal := onboarding_goal v; Db.weeks := roadmapData;
                questions := onboarding_questions v;
                answers := onboarding_answers v |} |}] /\
  lesson_completions d' = lesson_completions d.
Proof.
  cbv zeta. unfold store_after_roadmap. cbv zeta.
  set (rows := lessons_of (fresh_id d) weeks).
  set (d1 := snd (insert_roadmap _ d)).
  set (d2 := set_next_id _ _).
  set (d3 := snd (insert_progress _ d2)).
  destruct (upsert_profile_tables (uid u) (or_else (user_email u) [])
              (goal_update (onboarding_goal v)) d3)
    as (Hr' & Hl' & _ & Hc' & _). cbv zeta in *.
  rewrite Hr', Hl', Hc'.
  destruct (insert_progress_tables
              (initial_progress (uid u) (fresh_id d) (length rows)) d2)
    as (_ & Hr & Hl & Hc & _). cbv zeta in *.
  fold d3 in Hr, Hl, Hc. rewrite Hr, Hl, Hc.
  done.
Qed.

Lemma new_rows_of_roadmap roadmapId weeks n :
  filter (fun l : Row LessonData => roadmap_id (row_data l) = roadmapId)
    (number_rows n (lessons_of roadmapId weeks))
  = number_rows n (lessons_of roadmapId weeks).
Proof.
  assert (forall rows : list LessonData,
            (forall x, x ∈ rows -> roadmap_id x = roadmapId) ->
            forall m,
              filter (fun l : Row LessonData =>
                        roadmap_id (row_data l) = roadmapId)
                (number_rows m rows)
              = number_rows m rows) as Hgen.
  { induction rows as [|x rows IH]; intros Hall m; [done|].
    cbn [number_rows]. rewrite filter_cons_True by (apply Hall; by left).
    f_equal. apply IH. intros y Hy. apply Hall. by right. }
  apply Hgen. intros x Hx. apply list_elem_of_lookup in Hx as [i Hi].
  by destruct (lessons_of_origin roadmapId weeks i x Hi)
    as (w & t & week & topic & _ & _ & _ & ->).
Qed.

End EndToEnd.



Section ScoreRange.

Lemma round_percent_range c n :
  (0 <= c <= n)%Z -> (1 <= n)%Z -> (0 <= round_percent c n <= 100)%Z.
Proof.
  intros Hc Hn. unfold round_percent.
  assert (inject_Z 0 <= Qmake (100 * c) (Z.to_pos n) + (1 # 2))%Q as Hlo.
  { unfold Qle, Qplus, inject_Z. simpl. nia. }
  assert (Qmake (100 * c) (Z.to_pos n) + (1 # 2) <= (201 # 2))%Q as Hhi.
  { unfold Qle, Qplus. simpl.
    rewrite !Pos2Z.inj_mul, Z2Pos.id by lia. nia. }
  apply Qfloor_resp_le in Hlo, Hhi.
  rewrite Qfloor_Z in Hlo. change (Qfloor (201 # 2)) with 100%Z in Hhi.
  lia.
Qed.

Lemma count_correct_total questions answers :
  count_correct questions answers 0 0
  = Z.of_nat (correct_count questions answers).
Proof.
  pose proof (count_correct_from [] questions answers 0) as X.
  cbn [length List.app] in X. rewrite X. unfold correct_count. lia.
Qed.

End ScoreRange.

(** X25.  The score of a test with at least one question is a whole number
    from 0 to 100: in exact arithmetic always, and in the binary64
    arithmetic of the program, with the same value, for fewer than 40
    questions.  It is 100 when every answer counts as correct and 0 when
    none does. *)
Theorem X25_score_is_a_percentage (questions : list Question)
  (answers : list (option jstring)) :
  1 <= length questions ->
  exists s,
    finalScore (N:=Exact.num) questions answers = Some s /\
    (0 <= s <= 100)%Z /\
    (length questions < 40 ->
     finalScore (N:=spec_float) questions answers = Some s) /\
    (correct_count questions answers = length questions -> s = 100%Z) /\
    (correct_count questions answers = 0 -> s = 0%Z).
Proof.
  intros Hn.
  pose proof (correct_count_le questions answers) as Hle.
  exists (round_percent (Z.of_nat (correct_count questions answers))
            (Z.of_nat (length questions))).
  split; [|split; [|split; [|split]]].
  - unfold finalScore. rewrite count_correct_total. apply exact_score. lia.
  - apply round_percent_range; lia.
  - intros Hlt. unfold finalScore. rewrite count_correct_total.
    apply binary64_score; [lia|done].
  - intros ->. unfold round_percent.
    assert (Qmake (100 * Z.of_nat (length questions))
              (Z.to_pos (Z.of_nat (length questions))) + (1 # 2)
            == (201 # 2))%Q as ->.
    { unfold Qeq, Qplus. simpl.
      rewrite !Pos2Z.inj_mul, Z2Pos.id by lia. nia. }
    reflexivity.
  - intros ->. unfold round_percent.
    assert (Qmake (100 * Z.of_nat 0)
              (Z.to_pos (Z.of_nat (length questions))) + (1 # 2)
            == (1 # 2))%Q as ->.
    { unfold Qeq, Qplus. simpl. lia. }
    reflexivity.
Qed.

Lemma X25_witness :
  exists s,
    finalScore (N:=Exact.num) two_questions two_answers = Some s /\
    (0 <= s <= 100)%Z /\
    (length two_questions < 40 ->
     finalScore (N:=spec_float) two_questions two_answers = Some s) /\
    (correct_count two_questions two_answers = length two_questions ->
     s = 100%Z) /\
    (correct_count two_questions two_answers = 0 -> s = 0%Z).
Proof.
  apply (X25_score_is_a_percentage two_questions two_answers).
  vm_compute. lia.
Defined.

(** X26.  A response that is ok but incomplete makes [makeGeminiRequest]
    throw after its one request: without candidates, with an empty list of
    candidates or with a first candidate without content, the error is the
    invalid-response error; with a first candidate whose content has no
    part, reading the text of the first part fails with a TypeError, which
    the [catch] block passes on. *)
Theorem X26_incomplete_response {N : Type} (w : world N) prompt timeout r d :
  truthy (or_else (GEMINI_API_KEY w) []) = true ->
  net w (length (fetch_log w)) = Responded r ->
  ok r = true ->
  body_json r = Decoded d ->
  (candidates d = None \/ candidates d = Some [] \/
   (exists c cs, candidates d = Some (c :: cs) /\ content c = None) ->
   makeGeminiRequest prompt timeout w
   = (Throw (Error msg_invalid_response),
      log_fetch {| prompt := prompt; timeout := timeout |} w)) /\
  (forall c cs ct,
     candidates d = Some (c :: cs) -> content c = Some ct -> parts ct = [] ->
     makeGeminiRequest prompt timeout w
     = (Throw (TypeError_reading "text"),
        log_fetch {| prompt := prompt; timeout := timeout |} w)).
Proof.
  intros Hkey Hnet Hok Hjson.
  split.
  - intros Hcases.
    cbv [makeGeminiRequest try_catch request_body bind gets fetch].
    rewrite Hkey. cbn [negb]. rewrite Hnet, Hok. cbn [negb]. rewrite Hjson.
    destruct Hcases as [-> | [-> | (c & cs & -> & Hc)]]; [done|done|].
    by rewrite Hc.
  - intros c cs ct Hcand Hcontent Hparts.
    cbv [makeGeminiRequest try_catch request_body bind gets fetch].
    rewrite Hkey. cbn [negb]. rewrite Hnet, Hok. cbn [negb].
    by rewrite Hjson, Hcand, Hcontent, Hparts.
Qed.

Lemma X26_witness :
  makeGeminiRequest (lit "prompt") 15000%Z empty_response_world
  = (Throw (Error msg_invalid_response),
     log_fetch {| prompt := lit "prompt"; timeout := 15000%Z |}
       empty_response_world).
Proof.
  apply (proj1 (X26_incomplete_response empty_response_world (lit "prompt")
                  15000%Z empty_response {| candidates := Some [] |}
                  eq_refl eq_refl eq_refl eq_refl)).
  right. left. reflexivity.
Defined.
